(* ===== verification/_CoqProject ===== *)
-Q . S2P
Prelude.v
GoStrings.v
Sha256.v
GoTime.v
Cookbook.v
Resp.v
CookbookValidation.v
Container.v
ContainerFacts.v
Json.v
ContainerConfig.v
ContainerLife.v
ContainerIdentity.v
ContainerTheorems.v
ImageMatch.v
EngineTypes.v
DockerFilters.v
ApiUtil.v
Ledger.v
Net.v
Diagnostic.v
CookbookValidate.v
Url.v
TokenDecoder.v
DocumentScan.v
ScanFacts.v
ScanTheorems.v
Decode.v
Engine.v
EngineFacts.v
EngineNetwork.v
NetworkTheorems.v
Redis.v
RedisTheorems.v
Runtime.v
Documents.v
Http.v
ApiContainers.v
ApiResources.v
DockerAPI.v
RuntimeTheorems.v
EngineTheorems.v
ApiTheorems.v
ApiOperations.v
RedisServer.v
Options.v
Host.v
CookbookFiles.v
CookbookLoad.v
DiagnosticTheorems.v
LoadTheorems.v
Startup.v
StartupTheorems.v
