(* ===== verification/Prelude.v ===== *)
(** * docker-zero, verified

    docker-zero is a fake Docker daemon: a process that speaks a part of the Docker
    API over a Unix socket, keeps containers that do not exist, and serves nginx and
    Redis in their place, as JSON cookbooks prescribe.  This library models its Go
    code (package [main] under src/) and proves what makes it trustworthy as a test
    double: that the state machine of a container, the registry, the networks, the
    listeners, the replication, the ledger and the API do what they promise on every
    reachable state, for every input and every order in which Go may walk a map.

    ** The program and the files that model it

    The process starts in main.go: it reads its flags ([Options]), looks at paths and
    sockets ([Host], [Startup]), loads the cookbooks ([CookbookLoad], which scans, decodes
    and validates them: [DocumentScan], [Decode], [CookbookValidate]), opens the ledger ([Ledger]), makes an [Engine] and serves it.
    Requests come in through [DockerAPI]; a handler ([ApiContainers], [ApiResources])
    works on the engine, the engine on its containers ([Container], [ContainerConfig]),
    networks ([EngineNetwork]) and service runtimes ([Runtime], [Redis], [RedisServer]),
    and everything that happens is written to the ledger.

    - Prelude: record update, results and outcomes, programs over a state ([prog]),
      the order of a [range] over a map, [int] arithmetic, generic lemmas.
    - GoStrings, GoTime, Sha256, Json, Url, Net, Decode: what the program uses of
      packages strings, strconv, time, crypto/sha256, encoding/json (printing, parsing,
      decoding into the program's types), net/url and net.
    - Container, ContainerFacts, ContainerLife, ContainerIdentity, ContainerTheorems:
      state.go and container_wait.go.  A container is a record with the fields of the
      Go struct, its waiters included; every method is a program over it.
    - ContainerConfig: container_config.go and the request part of
      docker_api_container_create.go.
    - Cookbook, CookbookValidation, CookbookValidate: cookbook_types.go,
      cookbook_state_validation.go, cookbook_responses.go, cookbook_validate.go and the
      checks of cookbook_load.go.
    - Resp: the RESP2 reader of cookbook_state_validation.go and the command reader of
      service_redis.go.
    - ImageMatch, DockerFilters, ApiUtil: image_match.go, docker_filters.go and
      docker_api_util.go.
    - EngineTypes, Engine, EngineFacts: engine_core.go; EngineNetwork,
      NetworkTheorems: engine_network.go, engine_resources.go, network_types.go.
    - Redis, RedisTheorems: redis_replication.go and the commands of service_redis.go.
    - Runtime, RuntimeTheorems: service_runtime.go and [removeContainer];
      EngineTheorems: the engine as a transition system.
    - RedisServer: the connection loops of service_runtime.go and [RedisMock].
    - Ledger: ledger.go.
    - Diagnostic, DiagnosticTheorems, TokenDecoder, DocumentScan, ScanFacts,
      ScanTheorems: diagnostic.go; TokenDecoder is the token interface of json.Decoder,
      with its states, that the document scan drives.
    - CookbookFiles, CookbookLoad, LoadTheorems: cookbook_load.go, the decoding into the
      types of cookbook_types.go, and the embedded cookbooks.
    - Documents, Http, ApiContainers, ApiResources, DockerAPI, ApiTheorems,
      ApiOperations: the docker_api files and runtime_error.go.
    - Options, Host, Startup, StartupTheorems: main.go and the run directory of
      [newLedger].

    ** How the code is rendered

    A Go function without effects is a Gallina function of the same name.  A method is
    a [prog S A]: a function from the state to the new state and an [outcome], which is
    a value ([Done]), a panic ([Panic], with its message and the state reached, since
    deferred calls run on it) or a wait that never ends ([Blocked]).  [(T, error)] is a
    [result] or, for a bare error, an [option string].  Pointers to containers are keys
    of the engine's [heap], so aliasing is kept: a removed container that somebody
    still holds lives on.  A map is a [gmap].  A loop over a map goes through [range],
    whose order is arbitrary and may differ at every loop; theorems hold for all
    orders unless they say which.  An [int] is a [Z] wrapped by [wrap64] where the code
    computes; strings are byte strings.

    What the code takes from outside is the argument of a class, and every theorem
    holds for all its instances: [Unicode] (tables beyond ASCII), [FileSystem], [Host]
    and [Files] (which calls fail, what a directory of cookbooks holds), [Sockets]
    (which addresses can be bound), [Clock], [Platform], [JsonMessages] and
    [JsonErrors] (what a decoding error says), [Waiting] (what others do while a wait
    request is blocked).  Section examples instantiate them.

    ** What is proved

    - Invariants: [engine_consistent] (registry, addresses, listeners, in every
      reachable engine), [reachable_well_formed] (the fields of a container),
      [ledger_records], [no_connection_escapes].  [request_is_steps],
      [connection_is_steps] and [program_serves] compose them: start-up, API requests
      and Redis connections are sequences of [engine_step]s, so the invariants hold
      between any two of them.
    - Refinement: [operations_refine_lifecycle] (all methods against the six-phase
      life cycle of a container), [replication_refines] (a write on a master against
      the mathematical store of the cluster).
    - All or nothing: [create_all_or_nothing], [Start_all_or_nothing],
      [configureContainerNetworks_atomic]; what is removed is gone:
      [removeContainer_exact], [shutdown_releases].
    - Loading: [scan_exact], [decodeCookbook_exact], [locations_point_at_keys] (the scan by
      tokens against the grammar), [unknown_field_reported], [sourceCoordinates_exact];
      [loaded_cookbooks_are_safe] joins the loader to the life cycle of containers, and
      [embedded_cookbooks_load] evaluates it on the files of the repository.
    - Safety towards the machine: [docker_socket_safe], [check_is_harmless];
      of the API: [request_answered], [unsupported_changes_nothing].
    - Equivalences with a declarative definition for the validators, the image
      matcher, the filters, DNS, the address planner; round trips for commands and
      flags; termination and bounds where the code promises them.

    ** Bounds and fuel

    Recursion over texts is structural, or has as fuel the length of the text, with a
    lemma that this is enough ([parse_fuel], [validate_frames_total],
    [connection_loop_requests], [scan_right], [key_loop_fuel], [last_key_loop_fuel]).
    The nesting bound of RESP frames (64) is the code's.  Theorems on the history of a container hold for up to 2^61 operations, or 2^62
    counted from the state [life_ok] describes, so that no [int] counter has wrapped;
    the engine's theorems have no such bound.

    ** Interleaving

    An operation that holds the lock of a container, of the engine or of the ledger is
    one step.  A handler takes several; between two requests anything may happen, and
    the theorems on a single handler say what it does when nobody else intervenes,
    except where [Waiting] or [others] says otherwise.  [concurrent_sets_diverge] shows
    two Redis writes whose steps interleave.

    ** What is not modelled

    - Real input and output: TCP and HTTP framing (a [HEAD] body is dropped by
      net/http), deadlines, [closeHTTPConnection], signals, the text of the flag
      usage, compose.yaml, scripts and tests.
    - Of package encoding/json the texts and offsets of its errors ([JsonErrors]), which
      diagnostics quote: when a text is refused is modelled, and the code of its
      diagnostic where the source decides it.
    - Goroutines inside an operation: [go e.syncRuntimeForState] is reported as a flag
      and runs as a later step; a runtime's [Stop] waits for its handlers or not, as
      [Sockets] decides.
    - Numbers of [any] values are texts, not [float64]s; a JSON field given twice does
      not keep elements of the slice it replaces. *)
From stdpp Require Export base gmap strings list fin_maps pretty numbers sorting relations.

(** * Scopes, hint database *)

Declare Scope go_scope.
Delimit Scope go_scope with go.

Create HintDb dzero discriminated.
Create Rewrite HintDb dzero.
Create Rewrite HintDb resp.

(** * Record update

[r <| f := v |>] is the record [r] with the field [f] replaced by [v]: the
model of an assignment [r.f = v].  A record opts in with an [Eta] instance. *)

Class Eta (R : Type) := eta : R → R.
Class FieldSet {R T : Type} (f : R → T) := fset : (T → T) → R → R.
Arguments fset {R T} f {_} _ _ /.

Ltac build_setter f :=
  lazymatch type of f with
  | ?R → ?T =>
    let i := constr:(_ : Eta R) in
    let e := eval hnf in i in
    let e := eval cbv beta in e in
    lazymatch eval pattern f in e with
    | ?h _ =>
      let r := eval cbv beta in (λ (g : T → T), h (λ x, g (f x))) in exact r
    end
  end.
#[export] Hint Extern 1 (FieldSet ?f) => build_setter f : typeclass_instances.

Notation "r <| f := v |>" := (fset f (λ _, v) r)
  (at level 1, left associativity, f at next level, v at level 200,
   format "r  <| f  :=  v |>") : go_scope.
Open Scope go_scope.

(** * Results of Go code

A Go function that returns [(T, error)] returns a [result]; a locked method can
also panic (the deferred recover of the caller reports it) or block for ever on
a channel send, and keeps the state it has reached. *)

Inductive result (A : Type) : Type :=
| Ok (a : A)
| Err (msg : string).
Arguments Ok {A} _.
Arguments Err {A} _.

Inductive outcome (A : Type) : Type :=
| Done (a : A)
| Panic (msg : string)
| Blocked.
Arguments Done {A} _.
Arguments Panic {A} _.
Arguments Blocked {A}.

#[export] Instance result_ret : MRet result := λ A a, Ok a.
#[export] Instance result_bind : MBind result := λ A B f r,
  match r with Ok a => f a | Err e => Err e end.

(** A program over a state [S]: the new state and how the code ended. *)
Definition prog (S A : Type) : Type := S → S * outcome A.

#[export] Instance prog_ret {S} : MRet (prog S) := λ A a s, (s, Done a).
#[export] Instance prog_bind {S} : MBind (prog S) := λ A B f m s,
  match m s with
  | (s', Done a) => f a s'
  | (s', Panic e) => (s', Panic e)
  | (s', Blocked) => (s', Blocked)
  end.

Definition get {S} : prog S S := λ s, (s, Done s).
Definition put {S} (s' : S) : prog S () := λ _, (s', Done ()).
Definition modify {S} (f : S → S) : prog S () := λ s, (f s, Done ()).
Definition panic {S A} (msg : string) : prog S A := λ s, (s, Panic msg).

Definition is_Done {A} (o : outcome A) : bool :=
  match o with Done _ => true | _ => false end.

(** [o] ended normally and its value satisfies [P]. *)
Definition done_with {A} (P : A → Prop) (o : outcome A) : Prop :=
  match o with Done a => P a | _ => False end.

(** [total P m Q]: from every state that satisfies [P] the program [m] ends
    normally, neither panicking nor blocking, with a value and a state in [Q]. *)
Definition total {S A} (P : S → Prop) (m : prog S A) (Q : A → S → Prop) : Prop :=
  ∀ s, P s → ∃ s' a, m s = (s', Done a) ∧ Q a s'.

(** * Range over a map

Go leaves the iteration order of a map open and may change it at every loop.
[range site m] is the order chosen by the loop named [site]; all that is known
of it is that it visits every entry of [m] exactly once. *)

Class RangeOrder := {
  range : ∀ {K V : Type} `{Countable K}, string → gmap K V → list (K * V);
  range_perm : ∀ {K V : Type} `{Countable K} (site : string) (m : gmap K V),
    range site m ≡ₚ map_to_list m
}.

(** Two concrete orders, for examples and counterexamples. *)
Definition range_forward : RangeOrder := {|
  range := λ K V _ _ _ m, map_to_list m;
  range_perm := λ K V _ _ _ m, reflexivity _ |}.

Definition range_backward : RangeOrder := {|
  range := λ K V _ _ _ m, rev (map_to_list m);
  range_perm := λ K V _ _ _ m, symmetry (Permutation_rev _) |}.

(** * Machine integers: Go's [int] on the 64-bit targets *)

Definition int64_min : Z := (-2^63)%Z.
Definition int64_max : Z := (2^63 - 1)%Z.
Definition wrap64 (z : Z) : Z := ((z + 2^63) `mod` 2^64 - 2^63)%Z.
Definition is_int64 (z : Z) : Prop := (int64_min ≤ z ≤ int64_max)%Z.

(** * Slices *)

(** [l[len(l)-n:]] when [len(l) > n], [l] otherwise. *)
Definition keep_last {A} (n : nat) (l : list A) : list A :=
  if bool_decide (n < length l) then drop (length l - n) l else l.

(** * Lemmas *)

Lemma wrap64_id z : is_int64 z → wrap64 z = z.
Proof.
  unfold is_int64, int64_min, int64_max, wrap64. intros ?.
  rewrite Z.mod_small; lia.
Qed.

Lemma wrap64_int64 z : is_int64 (wrap64 z).
Proof.
  unfold is_int64, int64_min, int64_max, wrap64.
  pose proof (Z.mod_pos_bound (z + 2^63) (2^64)). lia.
Qed.

Lemma length_keep_last {A} n (l : list A) : length (keep_last n l) ≤ n.
Proof.
  unfold keep_last. case_bool_decide; [rewrite length_drop|]; lia.
Qed.

Lemma keep_last_short {A} n (l : list A) : length l ≤ n → keep_last n l = l.
Proof. intros ?. unfold keep_last. rewrite bool_decide_false; [done|lia]. Qed.

Lemma keep_last_suffix {A} n (l : list A) : ∃ k, l = k ++ keep_last n l.
Proof.
  unfold keep_last. case_bool_decide; [|by exists []].
  exists (take (length l - n) l). by rewrite take_drop.
Qed.

Lemma bind_Done {S A B} (m : prog S A) (f : A → prog S B) s s' a :
  m s = (s', Done a) → (m ≫= f) s = f a s'.
Proof. unfold mbind, prog_bind. by intros ->. Qed.

Section total.
Context {S : Type}.
Implicit Types P : S → Prop.

Lemma total_ret {A} P (a : A) (Q : A → S → Prop) : (∀ s, P s → Q a s) → total P (mret a) Q.
Proof. intros HQ s Hs. exists s, a. auto. Qed.

Lemma total_get P : total P get (λ s s', s = s' ∧ P s').
Proof. intros s Hs. by exists s, s. Qed.

Lemma total_modify P (Q : S → Prop) f : (∀ s, P s → Q (f s)) → total P (modify f) (λ _, Q).
Proof. intros Hf s Hs. exists (f s), (). auto. Qed.

Lemma total_bind {A B} P (m : prog S A) (f : A → prog S B) Q R :
  total P m Q → (∀ a, total (Q a) (f a) R) → total P (m ≫= f) R.
Proof.
  intros Hm Hf s (s1 & a & Heq & (s2 & b & Heq' & ?)%Hf)%Hm.
  exists s2, b. split; [|done]. by rewrite (bind_Done _ _ _ _ _ Heq).
Qed.

Lemma total_conseq {A} P P' (m : prog S A) Q Q' :
  total P m Q → (∀ s, P' s → P s) → (∀ a s, Q a s → Q' a s) → total P' m Q'.
Proof. intros Hm HP HQ s Hs. destruct (Hm s) as (s' & a & ? & ?); eauto 6. Qed.

(** The outcome of a program of which a triple is known. *)
Lemma total_elim {A} P (m : prog S A) Q s s' o :
  total P m Q → P s → m s = (s', o) → ∃ a, o = Done a ∧ Q a s'.
Proof. intros Hm (s1 & a & Heq & ?)%Hm Ho. exists a. rewrite Heq in Ho. by simplify_eq. Qed.
End total.

(** [keeps P m]: however [m] ends, it ends in a state that satisfies [P]. *)
Definition keeps {S A} (P : S → Prop) (m : prog S A) : Prop := ∀ s, P s → P (m s).1.

Section keeps.
Context {S : Type} (P : S → Prop).

Lemma keeps_ret {A} (a : A) : keeps P (mret a).
Proof. by intros s. Qed.

Lemma keeps_get : keeps P get.
Proof. by intros s. Qed.

Lemma keeps_modify f : (∀ s, P s → P (f s)) → keeps P (modify f).
Proof. by intros Hf s Hs%Hf. Qed.

Lemma keeps_bind {A B} (m : prog S A) (f : A → prog S B) :
  keeps P m → (∀ a, keeps P (f a)) → keeps P (m ≫= f).
Proof.
  intros Hm Hf s Hs%Hm. unfold mbind, prog_bind. destruct (m s) as [s' [a| |]]; [|done..]. by apply Hf.
Qed.

(** A program that first reads the state knows it is the current one. *)
Lemma keeps_reads {A} (f : S → prog S A) : (∀ s, P s → P (f s s).1) → keeps P (s ← get; f s).
Proof. intros Hf s. apply Hf. Qed.
End keeps.
#[export] Hint Resolve keeps_ret keeps_get : dzero.

Section range.
Context `{RangeOrder} {K V : Type} `{Countable K}.

Lemma elem_of_range site (m : gmap K V) k x :
  (k, x) ∈ range site m ↔ m !! k = Some x.
Proof. rewrite range_perm. apply elem_of_map_to_list. Qed.

Lemma range_NoDup site (m : gmap K V) : NoDup (range site m).*1.
Proof. rewrite range_perm. apply NoDup_fst_map_to_list. Qed.

Lemma length_range site (m : gmap K V) : length (range site m) = size m.
Proof. by rewrite range_perm, length_map_to_list. Qed.

Lemma range_nil site (m : gmap K V) : range site m = [] ↔ m = ∅.
Proof.
  rewrite <-map_size_empty_iff, <-(length_range site m).
  by destruct (range site m).
Qed.
End range.

Lemma range_any (RO1 RO2 : RangeOrder) {K V} `{Countable K} site1 site2 (m : gmap K V) :
  range (RangeOrder := RO1) site1 m ≡ₚ range (RangeOrder := RO2) site2 m.
Proof. by etrans; [apply range_perm|symmetry; apply range_perm]. Qed.

Lemma list_to_map_range {RO : RangeOrder} {K V} `{Countable K} site (m : gmap K V) :
  list_to_map (range site m) = m.
Proof.
  rewrite <-(list_to_map_to_list m) at 2. apply list_to_map_proper; [apply range_NoDup|].
  apply range_perm.
Qed.

Lemma alter_Some_insert `{Countable K} {A} (f : A → A) i (m : gmap K A) x :
  m !! i = Some x → alter f i m = <[i := f x]> m.
Proof.
  intros Hi. apply map_eq. intros j. destruct (decide (i = j)) as [<-|Hne].
  - by rewrite lookup_alter_eq, lookup_insert_eq, Hi.
  - by rewrite lookup_alter_ne, lookup_insert_ne.
Qed.

Definition is_err {A} (r : result A) : bool := match r with Err _ => true | Ok _ => false end.
