(* ===== verification/GoStrings.v ===== *)
(** The parts of Go's [strings], [bytes], [strconv] and [fmt] packages that the
    program uses, on byte strings.

    A Go string is a sequence of bytes, modelled by [string] (a sequence of
    8-bit characters).  Operations that Go defines byte by byte are translated
    in full.  Operations that consult the Unicode tables are translated in full
    on ASCII input, which is Go's own fast path; on other input they call the
    class [Unicode], whose methods stand for the table lookups. *)
From S2P Require Import Prelude.
From Stdlib Require Import Ascii.

(** The double quote, as a string. *)
Definition dquote : string := String "034" EmptyString.

(** Line ends. *)
Definition nl : string := String "010" EmptyString.
Definition crlf : string := String "013" (String "010" EmptyString).

Definition byte_of (c : ascii) : Z := Z.of_N (N_of_ascii c).
Definition is_ascii_byte (c : ascii) : bool := bool_decide (byte_of c < 128)%Z.

Fixpoint string_forallb (f : ascii → bool) (s : string) : bool :=
  match s with
  | EmptyString => true
  | String c s => f c && string_forallb f s
  end.

Fixpoint string_map (f : ascii → ascii) (s : string) : string :=
  match s with
  | EmptyString => EmptyString
  | String c s => String (f c) (string_map f s)
  end.

Definition is_ascii (s : string) : bool := string_forallb is_ascii_byte s.

(** The Unicode tables: the slow paths on strings that are not pure ASCII, and
    the two rune classes the program tests, on runes from 128 on. *)
Class Unicode := {
  uni_IsLetter : Z → bool;
  uni_IsDigit : Z → bool;
  uni_ToLower : string → string;
  uni_ToUpper : string → string;
  uni_TrimSpace : string → string;
  uni_EqualFold : string → string → bool;
  uni_Fields : string → list string;
  uni_Quote : string → string
}.

(** A concrete choice, for the examples: leave such strings alone. *)
Definition unicode_none : Unicode := {|
  uni_IsLetter := λ _, false; uni_IsDigit := λ _, false;
  uni_ToLower := id; uni_ToUpper := id; uni_TrimSpace := id;
  uni_EqualFold := String.eqb; uni_Fields := λ s, [s];
  uni_Quote := λ s, dquote +:+ s +:+ dquote
|}.

(** * Bytes *)

Definition in_range (lo hi c : ascii) : bool :=
  bool_decide (byte_of lo ≤ byte_of c ∧ byte_of c ≤ byte_of hi)%Z.

Definition lower_byte (c : ascii) : ascii :=
  if in_range "A" "Z" c then ascii_of_N (N_of_ascii c + 32) else c.
Definition upper_byte (c : ascii) : ascii :=
  if in_range "a" "z" c then ascii_of_N (N_of_ascii c - 32) else c.

Definition is_upper (c : ascii) : bool := in_range "A" "Z" c.
Definition is_lower (c : ascii) : bool := in_range "a" "z" c.
Definition is_digit (c : ascii) : bool := in_range "0" "9" c.
Definition is_alnum (c : ascii) : bool := is_lower c || is_upper c || is_digit c.

(** * Runes *)

Definition RuneError : Z := 65533.

(** [for _, r := range s]: UTF-8 decoding as Go does it, with [RuneError] and a
    width of one byte for a byte that starts no valid sequence. *)
Fixpoint runes (s : string) : list Z :=
  match s with
  | EmptyString => []
  | String a s1 =>
    let b0 := byte_of a in
    let within lo hi c := bool_decide (lo ≤ byte_of c ∧ byte_of c ≤ hi)%Z in
    let low6 c := (byte_of c - 128)%Z in
    if bool_decide (b0 < 128)%Z then b0 :: runes s1
    else match s1 with
    | EmptyString => [RuneError]
    | String b s2 =>
      if within 194%Z 223%Z a && within 128%Z 191%Z b
      then ((b0 - 192) * 64 + low6 b)%Z :: runes s2
      else match s2 with
      | EmptyString => RuneError :: runes s1
      | String c s3 =>
        if within 224%Z 239%Z a
           && within (if bool_decide (b0 = 224)%Z then 160 else 128)%Z
                     (if bool_decide (b0 = 237)%Z then 159 else 191)%Z b
           && within 128%Z 191%Z c
        then (((b0 - 224) * 64 + low6 b) * 64 + low6 c)%Z :: runes s3
        else match s3 with
        | EmptyString => RuneError :: runes s1
        | String d s4 =>
          if within 240%Z 244%Z a
             && within (if bool_decide (b0 = 240)%Z then 144 else 128)%Z
                       (if bool_decide (b0 = 244)%Z then 143 else 191)%Z b
             && within 128%Z 191%Z c && within 128%Z 191%Z d
          then ((((b0 - 240) * 64 + low6 b) * 64 + low6 c) * 64 + low6 d)%Z :: runes s4
          else RuneError :: runes s1
        end
      end
    end
  end.

(** * Searching *)

Definition HasPrefix (s prefix : string) : bool := String.prefix prefix s.

(** [s[n:]] *)
Fixpoint drop_string (n : nat) (s : string) : string :=
  match n, s with
  | S n, String _ s => drop_string n s
  | _, _ => s
  end.

(** [s[:n]] *)
Fixpoint take_string (n : nat) (s : string) : string :=
  match n, s with
  | S n, String c s => String c (take_string n s)
  | _, _ => EmptyString
  end.

Definition HasSuffix (s suffix : string) : bool :=
  bool_decide (String.length suffix ≤ String.length s) &&
  bool_decide (drop_string (String.length s - String.length suffix) s = suffix).

Fixpoint Contains (s sub : string) : bool :=
  HasPrefix s sub || match s with EmptyString => false | String _ s => Contains s sub end.

Fixpoint IndexByte (s : string) (c : ascii) : option nat :=
  match s with
  | EmptyString => None
  | String d s => if bool_decide (d = c) then Some 0 else S <$> IndexByte s c
  end.

Fixpoint LastIndexByte (s : string) (c : ascii) : option nat :=
  match s with
  | EmptyString => None
  | String d s =>
    match LastIndexByte s c with
    | Some i => Some (S i)
    | None => if bool_decide (d = c) then Some 0 else None
    end
  end.

Definition ContainsByte (s : string) (c : ascii) : bool := bool_decide (is_Some (IndexByte s c)).

Fixpoint string_existsb (f : ascii → bool) (s : string) : bool :=
  match s with
  | EmptyString => false
  | String c s => f c || string_existsb f s
  end.

(** [strings.ContainsAny], for a set of ASCII characters. *)
Definition ContainsAny (s chars : string) : bool := string_existsb (ContainsByte chars) s.

(** * Cutting and joining *)

Definition TrimPrefix (s prefix : string) : string :=
  if HasPrefix s prefix then drop_string (String.length prefix) s else s.

Definition TrimSuffix (s suffix : string) : string :=
  if HasSuffix s suffix then take_string (String.length s - String.length suffix) s else s.

(** [strings.Cut]: the text before and after the first [sep]. *)
Fixpoint Cut (s sep : string) : option (string * string) :=
  if HasPrefix s sep then Some (EmptyString, drop_string (String.length sep) s)
  else match s with
       | EmptyString => None
       | String c s => prod_map (String c) id <$> Cut s sep
       end.

(** [strings.SplitN(s, sep, n)] for [n > 0], one level of [Cut] per piece. *)
Fixpoint SplitN (s sep : string) (n : nat) : list string :=
  match n with
  | 0 => []
  | 1 => [s]
  | S n => match Cut s sep with
           | Some (a, b) => a :: SplitN b sep n
           | None => [s]
           end
  end.

(** [strings.Split(s, sep)] for a one-byte separator. *)
Fixpoint Split (s : string) (sep : ascii) : list string :=
  match s with
  | EmptyString => [EmptyString]
  | String c s =>
    if bool_decide (c = sep) then EmptyString :: Split s sep
    else match Split s sep with
         | [] => [String c EmptyString]
         | w :: ws => String c w :: ws
         end
  end.

Definition Join (l : list string) (sep : string) : string :=
  match l with
  | [] => EmptyString
  | w :: ws => w +:+ foldr (λ w acc, sep +:+ w +:+ acc) EmptyString ws
  end.

(** [strings.ReplaceAll] for a non-empty [old]; [skip] counts the bytes of a
    match still to be passed over. *)
Fixpoint replace_from (old new s : string) (skip : nat) : string :=
  match s with
  | EmptyString => EmptyString
  | String c s' =>
    match skip with
    | S k => replace_from old new s' k
    | 0 => if HasPrefix s old then new +:+ replace_from old new s' (String.length old - 1)
           else String c (replace_from old new s' 0)
    end
  end.
Definition ReplaceAll (s old new : string) : string := replace_from old new s 0.

(** * Case and white space *)

Definition is_space_byte (c : ascii) : bool :=
  match c with
  | "009" | "010" | "011" | "012" | "013" | " " => true
  | _ => false
  end%char.

Fixpoint trim_left (s : string) : string :=
  match s with
  | EmptyString => EmptyString
  | String c s' => if is_space_byte c then trim_left s' else s
  end.

Fixpoint trim_right (s : string) : string :=
  match s with
  | EmptyString => EmptyString
  | String c s' =>
    match trim_right s' with
    | EmptyString => if is_space_byte c then EmptyString else String c EmptyString
    | t => String c t
    end
  end.

(** [strings.Fields] on ASCII input: [cur] is the word being read. *)
Fixpoint fields_from (cur s : string) : list string :=
  match s with
  | EmptyString => match cur with EmptyString => [] | _ => [cur] end
  | String c s =>
    if is_space_byte c
    then match cur with EmptyString => fields_from EmptyString s
         | _ => cur :: fields_from EmptyString s end
    else fields_from (cur +:+ String c EmptyString) s
  end.

(** [strconv.Quote] of one ASCII byte. *)
Definition hex_digit (n : N) : ascii :=
  if bool_decide (n < 10)%N then ascii_of_N (n + 48) else ascii_of_N (n + 87).
Definition quote_byte (c : ascii) : string :=
  match c with
  | "034"%char => "\" +:+ dquote
  | "\"%char => "\\"
  | "007"%char => "\a"
  | "008"%char => "\b"
  | "012"%char => "\f"
  | "010"%char => "\n"
  | "013"%char => "\r"
  | "009"%char => "\t"
  | "011"%char => "\v"
  | _ => if in_range " " "~" c then String c EmptyString
         else "\x" +:+ String (hex_digit (N_of_ascii c / 16))
                        (String (hex_digit (N_of_ascii c `mod` 16)) EmptyString)
  end.
Fixpoint quote_bytes (s : string) : string :=
  match s with
  | EmptyString => EmptyString
  | String c s => quote_byte c +:+ quote_bytes s
  end.

Section unicode.
Context `{Unicode}.

Definition ToLower (s : string) : string :=
  if is_ascii s then string_map lower_byte s else uni_ToLower s.
Definition ToUpper (s : string) : string :=
  if is_ascii s then string_map upper_byte s else uni_ToUpper s.
Definition TrimSpace (s : string) : string :=
  if is_ascii s then trim_right (trim_left s) else uni_TrimSpace s.
Definition EqualFold (s t : string) : bool :=
  if is_ascii s && is_ascii t
  then bool_decide (string_map lower_byte s = string_map lower_byte t)
  else uni_EqualFold s t.
Definition Fields (s : string) : list string :=
  if is_ascii s then fields_from EmptyString s else uni_Fields s.
(** The verb [%q]. *)
Definition Quote (s : string) : string :=
  if is_ascii s then dquote +:+ quote_bytes s +:+ dquote else uni_Quote s.
End unicode.

(** [sort.Strings] *)
Definition sort_strings (l : list string) : list string := merge_sort String.le l.

(** * Numbers *)

(** [strconv.Itoa] and the verb [%d]. *)
Definition Itoa (z : Z) : string := pretty z.

Inductive NumError := ErrSyntax | ErrRange.

Definition max_uint64 : Z := (2^64 - 1)%Z.

Definition digit_value (c : ascii) : Z :=
  if in_range "0" "9" c then (byte_of c - 48)%Z else 255%Z.

(** The digit loop of [strconv.ParseUint] (no underscores, no prefix): an
    overflow is reported at the digit that causes it, before later digits are
    looked at. *)
Fixpoint parse_digits (base max_val : Z) (s : string) (n : Z) : Z * option NumError :=
  match s with
  | EmptyString => (n, None)
  | String c s =>
    let d := digit_value c in
    if bool_decide (base ≤ d)%Z then (0%Z, Some ErrSyntax)
    else if bool_decide (max_uint64 / base + 1 ≤ n)%Z then (max_val, Some ErrRange)
    else let n1 := (n * base + d)%Z in
         if bool_decide (max_uint64 < n1 ∨ max_val < n1)%Z then (max_val, Some ErrRange)
         else parse_digits base max_val s n1
  end.

Definition ParseUint (s : string) (base bits : Z) : Z * option NumError :=
  match s with
  | EmptyString => (0%Z, Some ErrSyntax)
  | _ => parse_digits base (2^bits - 1)%Z s 0
  end.

(** [strconv.Atoi], which is [strconv.ParseInt(s, 10, 64)]: the value is set
    even when an error is returned. *)
Definition Atoi (s : string) : Z * option NumError :=
  let signed (neg : bool) (digits : string) : Z * option NumError :=
    match ParseUint digits 10 64 with
    | (_, Some ErrSyntax) => (0%Z, Some ErrSyntax)
    | (un, _) =>
      if negb neg && bool_decide (2^63 ≤ un)%Z then ((2^63 - 1)%Z, Some ErrRange)
      else if neg && bool_decide (2^63 < un)%Z then ((- 2^63)%Z, Some ErrRange)
      else ((if neg then - un else un)%Z, None)
    end in
  match s with
  | String "+" t => signed false t
  | String "-" t => signed true t
  | _ => signed false s
  end.

(** [Atoi] as its callers read it: the value when there is no error. *)
Definition Atoi_ok (s : string) : option Z :=
  match Atoi s with (z, None) => Some z | _ => None end.

(** * Lemmas *)

(** [c] does not occur in [s]. *)
Definition free_of (c : ascii) (s : string) : bool :=
  string_forallb (λ d, bool_decide (d ≠ c)) s.

Lemma app_nil_l_string s : EmptyString +:+ s = s.
Proof. done. Qed.

Lemma app_cons_string c s t : String c s +:+ t = String c (s +:+ t).
Proof. done. Qed.

Lemma app_nil_r_string s : s +:+ EmptyString = s.
Proof. induction s as [|c s IH]; [done|]. by rewrite app_cons_string, IH. Qed.

Lemma app_assoc_string s t u : (s +:+ t) +:+ u = s +:+ (t +:+ u).
Proof. induction s as [|c s IH]; [done|]. by rewrite !app_cons_string, IH. Qed.

Lemma length_app_string s t :
  String.length (s +:+ t) = String.length s + String.length t.
Proof. induction s as [|c s IH]; [done|]. rewrite app_cons_string. simpl. lia. Qed.

Lemma app_inj_l_string s t u : s +:+ t = s +:+ u → t = u.
Proof. apply String.app_inj. Qed.

Lemma drop_string_app s t : drop_string (String.length s) (s +:+ t) = t.
Proof. by induction s. Qed.

Lemma take_string_app s t : take_string (String.length s) (s +:+ t) = s.
Proof. induction s as [|c s IH]; [by destruct t|]. rewrite app_cons_string. simpl. by rewrite IH. Qed.

Lemma take_drop_string n s : take_string n s +:+ drop_string n s = s.
Proof.
  revert s. induction n as [|n IH]; intros [|c s]; try done.
  simpl. by rewrite app_cons_string, IH.
Qed.

Lemma string_forallb_app f s t :
  string_forallb f (s +:+ t) = string_forallb f s && string_forallb f t.
Proof.
  induction s as [|c s IH]; [done|]. rewrite app_cons_string. simpl.
  by rewrite IH, andb_assoc.
Qed.

Lemma string_forallb_impl f g s :
  (∀ c, f c = true → g c = true) → string_forallb f s = true → string_forallb g s = true.
Proof.
  intros Hfg. induction s as [|c s IH]; [done|]. simpl.
  rewrite !andb_true_iff. intros [? ?]. split; auto.
Qed.

(** Prefixes *)

Lemma HasPrefix_app p s : HasPrefix (p +:+ s) p = true.
Proof.
  unfold HasPrefix. induction p as [|c p IH]; [by destruct s|].
  rewrite app_cons_string. simpl. by destruct (ascii_dec c c).
Qed.

Lemma HasPrefix_true s p : HasPrefix s p = true ↔ ∃ t, s = p +:+ t.
Proof.
  split; [|intros [t ->]; apply HasPrefix_app].
  unfold HasPrefix. revert s. induction p as [|c p IH]; intros s.
  - intros _. by exists s.
  - destruct s as [|d s]; simpl; [done|]. destruct (ascii_dec c d) as [->|]; [|done].
    intros [t ->]%IH. by exists t.
Qed.

Lemma HasPrefix_empty s : HasPrefix s EmptyString = true.
Proof. by destruct s. Qed.

Lemma HasPrefix_refl s : HasPrefix s s = true.
Proof. rewrite <-(app_nil_r_string s) at 1. apply HasPrefix_app. Qed.

Lemma HasPrefix_cons c s d p :
  HasPrefix (String c s) (String d p) = bool_decide (c = d) && HasPrefix s p.
Proof.
  unfold HasPrefix. simpl.
  destruct (ascii_dec d c) as [->|]; [by rewrite bool_decide_true|].
  by rewrite bool_decide_false by congruence.
Qed.

Lemma TrimPrefix_app p s : TrimPrefix (p +:+ s) p = s.
Proof. unfold TrimPrefix. by rewrite HasPrefix_app, drop_string_app. Qed.

Lemma HasPrefix_TrimPrefix s p : HasPrefix s p = true → s = p +:+ TrimPrefix s p.
Proof. intros [t ->]%HasPrefix_true. by rewrite TrimPrefix_app. Qed.

Lemma TrimPrefix_miss s p : HasPrefix s p = false → TrimPrefix s p = s.
Proof. unfold TrimPrefix. by intros ->. Qed.

(** Splitting *)

Lemma free_of_cons c d s : free_of c (String d s) = true ↔ d ≠ c ∧ free_of c s = true.
Proof.
  unfold free_of. simpl. rewrite andb_true_iff. by rewrite bool_decide_eq_true.
Qed.

Lemma free_of_app c s t :
  free_of c (s +:+ t) = true ↔ free_of c s = true ∧ free_of c t = true.
Proof. unfold free_of. by rewrite string_forallb_app, andb_true_iff. Qed.

Lemma Split_free s sep : free_of sep s = true → Split s sep = [s].
Proof.
  induction s as [|c s IH]; [done|]. rewrite free_of_cons. intros [??]. simpl.
  rewrite bool_decide_false by done. by rewrite IH.
Qed.

Lemma Split_cons s sep t :
  free_of sep s = true → Split (s +:+ String sep t) sep = s :: Split t sep.
Proof.
  induction s as [|c s IH]; intros Hfree.
  - rewrite app_nil_l_string. simpl. by rewrite bool_decide_true.
  - apply free_of_cons in Hfree as [??]. rewrite app_cons_string. simpl.
    rewrite bool_decide_false by done. by rewrite IH.
Qed.

Lemma Cut_byte s c t :
  free_of c s = true → Cut (s +:+ String c t) (String c EmptyString) = Some (s, t).
Proof.
  induction s as [|d s IH]; intros Hfree.
  - rewrite app_nil_l_string. cbn -[HasPrefix]. rewrite HasPrefix_cons, HasPrefix_empty.
    by rewrite bool_decide_true.
  - apply free_of_cons in Hfree as [Hd ?]. rewrite app_cons_string. cbn -[HasPrefix].
    rewrite HasPrefix_cons, (bool_decide_false _ Hd). simpl. by rewrite IH.
Qed.

Lemma Cut_byte_free s c :
  free_of c s = true → Cut s (String c EmptyString) = None.
Proof.
  induction s as [|d s IH]; [done|]. rewrite free_of_cons. intros [Hd ?]. cbn -[HasPrefix].
  rewrite HasPrefix_cons, (bool_decide_false _ Hd). simpl. by rewrite IH.
Qed.

Lemma Cut_byte_Some s c a b :
  Cut s (String c EmptyString) = Some (a, b) → s = a +:+ String c b ∧ free_of c a = true.
Proof.
  revert a. induction s as [|d s IH]; intros a; [done|].
  cbn -[HasPrefix]. rewrite HasPrefix_cons, HasPrefix_empty.
  case_bool_decide as Hd; simpl; [intros ?; by simplify_eq|].
  destruct (Cut s _) as [[a' b']|]; simpl; [|done].
  intros ?; simplify_eq/=. destruct (IH a') as [-> ?]; [done|].
  rewrite app_cons_string. by rewrite free_of_cons.
Qed.

(** Positions *)

Lemma IndexByte_free s c : free_of c s = true → IndexByte s c = None.
Proof.
  induction s as [|d s IH]; [done|]. rewrite free_of_cons. intros [? ?]. simpl.
  rewrite bool_decide_false by done. by rewrite IH.
Qed.

Lemma IndexByte_app s c t :
  free_of c s = true → IndexByte (s +:+ String c t) c = Some (String.length s).
Proof.
  induction s as [|d s IH]; intros Hfree.
  - rewrite app_nil_l_string. simpl. by rewrite bool_decide_true.
  - apply free_of_cons in Hfree as [??]. rewrite app_cons_string. simpl.
    rewrite bool_decide_false by done. by rewrite IH.
Qed.

Lemma LastIndexByte_free s c : free_of c s = true → LastIndexByte s c = None.
Proof.
  induction s as [|d s IH]; [done|]. rewrite free_of_cons. intros [? ?]. simpl.
  rewrite IH by done. by rewrite bool_decide_false.
Qed.

Lemma LastIndexByte_app s c t :
  free_of c t = true → LastIndexByte (s +:+ String c t) c = Some (String.length s).
Proof.
  intros Hfree. induction s as [|d s IH].
  - rewrite app_nil_l_string. simpl. rewrite LastIndexByte_free by done.
    by rewrite bool_decide_true.
  - rewrite app_cons_string. simpl. by rewrite IH.
Qed.

Lemma LastIndexByte_app_free s c t :
  free_of c t = true → LastIndexByte (s +:+ t) c = LastIndexByte s c.
Proof.
  intros Hfree. induction s as [|d s IH].
  - rewrite app_nil_l_string. by apply LastIndexByte_free.
  - rewrite app_cons_string. simpl. by rewrite IH.
Qed.

Lemma LastIndexByte_lt s c i : LastIndexByte s c = Some i → i < String.length s.
Proof.
  revert i. induction s as [|d s IH]; intros i; [done|]. simpl.
  destruct (LastIndexByte s c) as [j|]; [|case_bool_decide; [|done]; intros ?; simplify_eq; lia].
  intros ?; simplify_eq. specialize (IH j eq_refl). lia.
Qed.

Lemma Contains_byte s c t : Contains (s +:+ String c t) (String c EmptyString) = true.
Proof.
  induction s as [|d s IH].
  - rewrite app_nil_l_string. cbn -[HasPrefix]. rewrite HasPrefix_cons, HasPrefix_empty.
    by rewrite bool_decide_true.
  - rewrite app_cons_string. cbn -[HasPrefix]. by rewrite IH, orb_true_r.
Qed.

Lemma Contains_byte_free s c : free_of c s = true → Contains s (String c EmptyString) = false.
Proof.
  induction s as [|d s IH]; [done|]. rewrite free_of_cons. intros [Hd ?]. cbn -[HasPrefix].
  rewrite HasPrefix_cons, (bool_decide_false _ Hd). simpl. by rewrite IH.
Qed.

(** A separator that does not occur before it determines both sides. *)
Lemma sep_inj c s1 t1 s2 t2 :
  free_of c s1 = true → free_of c s2 = true →
  s1 +:+ String c t1 = s2 +:+ String c t2 → s1 = s2 ∧ t1 = t2.
Proof.
  intros H1 H2 Heq. apply (f_equal (λ s, Cut s (String c EmptyString))) in Heq.
  rewrite !Cut_byte in Heq by done. by simplify_eq.
Qed.

(** Decimal numbers *)

Lemma pretty_N_char_digit x : (x < 10)%N →
  byte_of (pretty_N_char x) = (48 + Z.of_N x)%Z.
Proof.
  intros ?. assert (x = 0 ∨ x = 1 ∨ x = 2 ∨ x = 3 ∨ x = 4 ∨ x = 5 ∨ x = 6 ∨ x = 7
    ∨ x = 8 ∨ x = 9)%N as Hx by lia.
  repeat destruct Hx as [->|Hx]; try subst x; reflexivity.
Qed.

Lemma is_digit_char x : (x < 10)%N → is_digit (pretty_N_char x) = true.
Proof.
  intros Hx. unfold is_digit, in_range. rewrite pretty_N_char_digit by done.
  apply bool_decide_eq_true. change (byte_of "0") with 48%Z. change (byte_of "9") with 57%Z. lia.
Qed.

Lemma digit_value_char x : (x < 10)%N → digit_value (pretty_N_char x) = Z.of_N x.
Proof.
  intros Hx. unfold digit_value. pose proof (is_digit_char x Hx) as Hd. unfold is_digit in Hd.
  rewrite Hd, pretty_N_char_digit by done. lia.
Qed.

Lemma pretty_N_go_digits x s :
  string_forallb is_digit s = true → string_forallb is_digit (pretty_N_go x s) = true.
Proof.
  revert s. induction (N.lt_wf_0 x) as [x _ IH]; intros s Hs.
  destruct (decide (x = 0%N)) as [->|]; [by rewrite pretty_N_go_0|].
  rewrite pretty_N_go_step by lia. apply IH; [apply N.div_lt; lia|].
  simpl. rewrite is_digit_char by (apply N.mod_lt; lia). done.
Qed.

Lemma pretty_N_digits (x : N) : string_forallb is_digit (pretty x) = true.
Proof.
  unfold pretty, pretty_N. case_decide; [done|]. by apply pretty_N_go_digits.
Qed.

Lemma Itoa_nonneg z : (0 ≤ z)%Z → Itoa z = pretty (Z.to_N z).
Proof. unfold Itoa. by destruct z. Qed.

Lemma Itoa_digits z : (0 ≤ z)%Z → string_forallb is_digit (Itoa z) = true.
Proof. intros ?. rewrite Itoa_nonneg by done. apply pretty_N_digits. Qed.

Lemma Itoa_inj z1 z2 : Itoa z1 = Itoa z2 → z1 = z2.
Proof. apply pretty_Z_inj. Qed.

Lemma digits_free_of c s :
  is_digit c = false → string_forallb is_digit s = true → free_of c s = true.
Proof.
  intros Hc. apply string_forallb_impl. intros d Hd.
  apply bool_decide_eq_true. intros ->. congruence.
Qed.

Lemma Itoa_free_of c z : is_digit c = false → c ≠ "-"%char → free_of c (Itoa z) = true.
Proof.
  intros Hc Hm. destruct (decide (0 ≤ z)%Z).
  - apply digits_free_of; [done|]. by apply Itoa_digits.
  - destruct z as [|p|p]; try lia. unfold Itoa, pretty, pretty_Z.
    change ("-" +:+ pretty p) with (String "-" (pretty p)).
    apply free_of_cons. split; [congruence|].
    apply digits_free_of; [done|]. apply (pretty_N_digits (Npos p)).
Qed.

Lemma parse_digits_pretty max_val (x : N) s :
  (Z.of_N x ≤ max_val)%Z → (max_val ≤ max_uint64)%Z →
  parse_digits 10 max_val (pretty_N_go x s) 0 = parse_digits 10 max_val s (Z.of_N x).
Proof.
  intros Hx Hmax. revert s Hx. induction (N.lt_wf_0 x) as [x _ IH]; intros s Hx.
  destruct (decide (x = 0%N)) as [->|]; [by rewrite pretty_N_go_0|].
  rewrite pretty_N_go_step by lia.
  assert (x `div` 10 < x)%N by (apply N.div_lt; lia).
  assert (x `mod` 10 < 10)%N by (apply N.mod_lt; lia).
  assert (Z.of_N x = 10 * Z.of_N (x `div` 10) + Z.of_N (x `mod` 10))%Z as Hdm
    by (rewrite N2Z.inj_div, N2Z.inj_mod; apply Z.div_mod; done).
  rewrite IH by lia. cbn -[digit_value max_uint64]. rewrite digit_value_char by done.
  clear IH. set (q := (x `div` 10)%N) in *. set (d := (x `mod` 10)%N) in *. clearbody q d.
  assert (max_uint64 / 10 + 1 = 1844674407370955162)%Z as -> by done.
  assert (max_uint64 = 18446744073709551615)%Z by done.
  rewrite bool_decide_false by lia.
  rewrite bool_decide_false by lia.
  rewrite bool_decide_false by lia.
  f_equal. lia.
Qed.

Lemma ParseUint_pretty (x : N) :
  (Z.of_N x ≤ max_uint64)%Z → ParseUint (pretty x) 10 64 = (Z.of_N x, None).
Proof.
  intros Hx. unfold pretty, pretty_N. case_decide as H0; [by subst|].
  pose proof (parse_digits_pretty max_uint64 x EmptyString Hx) as Hp.
  unfold ParseUint. destruct (pretty_N_go x EmptyString) eqn:E.
  - exfalso. specialize (Hp ltac:(lia)). simpl in Hp. injection Hp. lia.
  - change (2^64 - 1)%Z with max_uint64. rewrite Hp by lia. done.
Qed.

Lemma digit_not_sign c s :
  is_digit c = true → Atoi (String c s) =
    match ParseUint (String c s) 10 64 with
    | (_, Some ErrSyntax) => (0%Z, Some ErrSyntax)
    | (un, _) => if bool_decide (2^63 ≤ un)%Z then ((2^63 - 1)%Z, Some ErrRange) else (un, None)
    end.
Proof.
  intros Hc. unfold Atoi.
  destruct c as [[] [] [] [] [] [] [] []]; try discriminate Hc;
    cbn -[ParseUint]; destruct (ParseUint _ _ _) as [? [[]|]]; by rewrite ?andb_false_r.
Qed.

(** [strconv.Atoi] inverts [strconv.Itoa] on every [int]. *)
Lemma Atoi_Itoa z : is_int64 z → Atoi (Itoa z) = (z, None).
Proof.
  unfold is_int64, int64_min, int64_max. intros [Hlo Hhi].
  destruct (decide (0 ≤ z)%Z) as [Hz|Hz].
  - rewrite Itoa_nonneg by done.
    pose proof (pretty_N_digits (Z.to_N z)) as Hd.
    pose proof (ParseUint_pretty (Z.to_N z)) as Hp.
    destruct (pretty (Z.to_N z)) as [|c s].
    + exfalso. specialize (Hp ltac:(unfold max_uint64; lia)). discriminate Hp.
    + simpl in Hd. apply andb_true_iff in Hd as [Hc _].
      rewrite digit_not_sign by done. rewrite Hp by (unfold max_uint64; lia).
      rewrite bool_decide_false by lia. by rewrite Z2N.id.
  - destruct z as [|p|p]; try lia.
    unfold Itoa, pretty, pretty_Z.
    change ("-" +:+ pretty p) with (String "-" (pretty p)).
    unfold Atoi. pose proof (ParseUint_pretty (Npos p)) as Hp.
    change (pretty (N.pos p)) with (pretty p) in Hp.
    rewrite Hp by (unfold max_uint64; lia). cbn -[Z.pow].
    rewrite bool_decide_false by lia. done.
Qed.

Lemma Atoi_ok_Itoa z : is_int64 z → Atoi_ok (Itoa z) = Some z.
Proof. intros Hz. unfold Atoi_ok. by rewrite Atoi_Itoa. Qed.

(** Trimming *)

(** ASCII without white space. *)
Definition clean (s : string) : bool :=
  string_forallb (λ c, is_ascii_byte c && negb (is_space_byte c)) s.

Lemma clean_app s t : clean (s +:+ t) = true ↔ clean s = true ∧ clean t = true.
Proof. unfold clean. by rewrite string_forallb_app, andb_true_iff. Qed.

Lemma clean_ascii s : clean s = true → is_ascii s = true.
Proof. apply string_forallb_impl. intros c. rewrite andb_true_iff. naive_solver. Qed.

Lemma clean_cons c s : clean (String c s) = true → is_space_byte c = false ∧ clean s = true.
Proof. unfold clean. simpl. rewrite !andb_true_iff, negb_true_iff. naive_solver. Qed.

Lemma trim_left_clean s : clean s = true → trim_left s = s.
Proof. destruct s as [|c s]; [done|]. intros [Hc _]%clean_cons. simpl. by rewrite Hc. Qed.

Lemma trim_right_clean s : clean s = true → trim_right s = s.
Proof.
  induction s as [|c s IH]; [done|]. intros [Hc Hs]%clean_cons. simpl. rewrite IH by done.
  destruct s; [by rewrite Hc|done].
Qed.

Lemma TrimSpace_clean `{Unicode} s : clean s = true → TrimSpace s = s.
Proof.
  intros Hs. unfold TrimSpace. rewrite (clean_ascii _ Hs).
  by rewrite trim_left_clean, trim_right_clean.
Qed.

(** Sorting *)

Lemma sort_strings_perm l1 l2 : l1 ≡ₚ l2 → sort_strings l1 = sort_strings l2.
Proof.
  intros Hp. apply (Sorted_unique String.le); try apply Sorted_merge_sort, _.
  unfold sort_strings. by rewrite !merge_sort_Permutation.
Qed.

Lemma sort_strings_app3 l l1 l1' l2 l2' :
  l1 ≡ₚ l1' → l2 ≡ₚ l2' → sort_strings (l ++ l1 ++ l2) = sort_strings (l ++ l1' ++ l2').
Proof. intros H1 H2. apply sort_strings_perm. by rewrite H1, H2. Qed.
