(* ===== verification/Sha256.v ===== *)
(** SHA-256 and hexadecimal, as Go's [crypto/sha256] and [encoding/hex] compute
    them, and the identifiers the program derives from them. *)
From S2P Require Import Prelude GoStrings.
From Stdlib Require Import Ascii.

Open Scope N_scope.

(** * 32-bit words *)

Definition mask32 : N := 0xffffffff.
Definition add32 (a b : N) : N := N.land (a + b) mask32.
Definition rotr (n x : N) : N :=
  N.lor (N.shiftr x n) (N.land (N.shiftl x (32 - n)) mask32).

Definition big_sigma0 (x : N) : N := N.lxor (rotr 2 x) (N.lxor (rotr 13 x) (rotr 22 x)).
Definition big_sigma1 (x : N) : N := N.lxor (rotr 6 x) (N.lxor (rotr 11 x) (rotr 25 x)).
Definition small_sigma0 (x : N) : N := N.lxor (rotr 7 x) (N.lxor (rotr 18 x) (N.shiftr x 3)).
Definition small_sigma1 (x : N) : N := N.lxor (rotr 17 x) (N.lxor (rotr 19 x) (N.shiftr x 10)).
Definition choose (e f g : N) : N := N.lxor (N.land e f) (N.land (N.lxor e mask32) g).
Definition majority (a b c : N) : N :=
  N.lxor (N.land a b) (N.lxor (N.land a c) (N.land b c)).

Record digest := Digest { d0 : N; d1 : N; d2 : N; d3 : N; d4 : N; d5 : N; d6 : N; d7 : N }.

(** The constants of the standard, from their definition: the first 32 bits of the
    fractional parts of the square roots of the first eight primes, and of the cube
    roots of the first sixty-four. *)
Definition is_prime (n : N) : bool :=
  forallb (λ d, negb (bool_decide (n `mod` N.of_nat d = 0))) (seq 2 (N.to_nat n - 2)).

Definition primes : list N :=
  filter (λ n, is_prime n = true) (N.of_nat <$> seq 2 310).

(** The largest [r < acc + 2^bits] above [acc] with [r^3 <= n]. *)
Fixpoint cube_root (bits : nat) (acc n : N) : N :=
  match bits with
  | O => acc
  | S bits => let r := acc + N.shiftl 1 (N.of_nat bits) in
              cube_root bits (if bool_decide (r * r * r ≤ n) then r else acc) n
  end.

Definition square_fraction (p : N) : N := N.land (N.sqrt (N.shiftl p 64)) mask32.
Definition cube_fraction (p : N) : N := N.land (cube_root 40 0 (N.shiftl p 96)) mask32.

Definition round_constants : list N := Eval vm_compute in cube_fraction <$> primes.

Definition initial_digest : digest := Eval vm_compute in
  let h i := square_fraction (nth i primes 0) in
  Digest (h 0%nat) (h 1%nat) (h 2%nat) (h 3%nat) (h 4%nat) (h 5%nat) (h 6%nat) (h 7%nat).

(** * Compression *)

(** One round with the constant [k] and the schedule word [w]. *)
Definition sha_round (s : digest) (k w : N) : digest :=
  let t1 := add32 (d7 s) (add32 (big_sigma1 (d4 s))
              (add32 (choose (d4 s) (d5 s) (d6 s)) (add32 k w))) in
  let t2 := add32 (big_sigma0 (d0 s)) (majority (d0 s) (d1 s) (d2 s)) in
  Digest (add32 t1 t2) (d0 s) (d1 s) (d2 s) (add32 (d3 s) t1) (d4 s) (d5 s) (d6 s).

(** The rounds over [ks]; [ws] holds the next sixteen schedule words, and each
    round appends the word sixteen places further on. *)
Fixpoint sha_rounds (s : digest) (ks ws : list N) : digest :=
  match ks, ws with
  | k :: ks, w :: ws =>
    let next := add32 (small_sigma1 (nth 13 ws 0))
                  (add32 (nth 8 ws 0) (add32 (small_sigma0 (nth 0 ws 0)) w)) in
    sha_rounds (sha_round s k w) ks (ws ++ [next])
  | _, _ => s
  end.

Definition add_digest (s t : digest) : digest :=
  Digest (add32 (d0 s) (d0 t)) (add32 (d1 s) (d1 t)) (add32 (d2 s) (d2 t))
         (add32 (d3 s) (d3 t)) (add32 (d4 s) (d4 t)) (add32 (d5 s) (d5 t))
         (add32 (d6 s) (d6 t)) (add32 (d7 s) (d7 t)).

(** * Messages *)

Fixpoint bytes_of_string (s : string) : list N :=
  match s with
  | EmptyString => []
  | String c s => N_of_ascii c :: bytes_of_string s
  end.

(** Big-endian words of four bytes. *)
Fixpoint words_of_bytes (l : list N) : list N :=
  match l with
  | a :: b :: c :: d :: l =>
    N.lor (N.shiftl a 24) (N.lor (N.shiftl b 16) (N.lor (N.shiftl c 8) d)) :: words_of_bytes l
  | _ => []
  end.

Definition length_bytes (n : N) : list N :=
  (λ i, N.land (N.shiftr n (8 * i)) 255) <$> [7; 6; 5; 4; 3; 2; 1; 0].

Definition pad (l : list N) : list N :=
  let n := N.of_nat (length l) in
  let zeros := (64 - ((n + 9) `mod` 64)) `mod` 64 in
  l ++ [128] ++ replicate (N.to_nat zeros) 0 ++ length_bytes (8 * n).

(** Blocks of sixteen words; [fuel] bounds the number of blocks. *)
Fixpoint sha_blocks (fuel : nat) (s : digest) (ws : list N) : digest :=
  match fuel, ws with
  | S fuel, _ :: _ =>
    sha_blocks fuel (add_digest s (sha_rounds s round_constants (take 16 ws))) (drop 16 ws)
  | _, _ => s
  end.

(** [sha256.Sum256]. *)
Definition Sum256 (data : string) : digest :=
  let ws := words_of_bytes (pad (bytes_of_string data)) in
  sha_blocks (length ws) initial_digest ws.

(** * Hexadecimal *)

Definition nibble (x i : N) : ascii := hex_digit (N.land (N.shiftr x (4 * i)) 15).
Definition hex_word (x : N) : string :=
  String (nibble x 7) (String (nibble x 6) (String (nibble x 5) (String (nibble x 4)
  (String (nibble x 3) (String (nibble x 2) (String (nibble x 1) (String (nibble x 0) EmptyString))))))).

(** [hex.EncodeToString(h[:])]. *)
Definition EncodeToString (d : digest) : string :=
  hex_word (d0 d) +:+ hex_word (d1 d) +:+ hex_word (d2 d) +:+ hex_word (d3 d) +:+
  hex_word (d4 d) +:+ hex_word (d5 d) +:+ hex_word (d6 d) +:+ hex_word (d7 d).

Close Scope N_scope.

(** * Identifiers: [state.go], [engine_resources.go] *)

Definition imageID (image : string) : string :=
  "sha256:" +:+ EncodeToString (Sum256 ("image:" +:+ image)).

Definition containerID (name : string) (n : Z) : string :=
  EncodeToString (Sum256 ("container:" +:+ name +:+ ":" +:+ Itoa n)).

Definition hashID (value : string) : string := containerID value 0.

(** * Lemmas *)

(** The digest of the test vector "abc" of FIPS 180-4. *)
Example Sum256_abc : EncodeToString (Sum256 "abc") =
  "ba7816bf8f01cfea414140de5dae2223b00361a396177a9cb410ff61f20015ad".
Proof. vm_compute. reflexivity. Qed.

(** A two-block message. *)
Example Sum256_two_blocks :
  EncodeToString (Sum256 "abcdbcdecdefdefgefghfghighijhijkijkljklmklmnlmnomnopnopq") =
  "248d6a61d20638b8e5c026930c3e6039a33ce45964ff2167f6ecedd419db06c1".
Proof. vm_compute. reflexivity. Qed.

Lemma length_EncodeToString d : String.length (EncodeToString d) = 64.
Proof. unfold EncodeToString. by rewrite !length_app_string. Qed.

Definition is_hex (c : ascii) : bool := in_range "0" "9" c || in_range "a" "f" c.

Lemma hex_digit_hex n : (n < 16)%N → is_hex (hex_digit n) = true.
Proof.
  intros Hn. assert (n = 0 ∨ n = 1 ∨ n = 2 ∨ n = 3 ∨ n = 4 ∨ n = 5 ∨ n = 6 ∨ n = 7 ∨
    n = 8 ∨ n = 9 ∨ n = 10 ∨ n = 11 ∨ n = 12 ∨ n = 13 ∨ n = 14 ∨ n = 15)%N as Hx by lia.
  repeat destruct Hx as [->|Hx]; try subst n; reflexivity.
Qed.

Lemma nibble_hex x i : is_hex (nibble x i) = true.
Proof.
  apply hex_digit_hex. change 15%N with (N.ones 4). rewrite N.land_ones.
  apply N.mod_lt. done.
Qed.

Lemma hex_word_hex x : string_forallb is_hex (hex_word x) = true.
Proof. unfold hex_word. cbn -[nibble]. by rewrite !nibble_hex. Qed.

Lemma EncodeToString_hex d : string_forallb is_hex (EncodeToString d) = true.
Proof.
  unfold EncodeToString. rewrite !string_forallb_app. by rewrite !hex_word_hex.
Qed.

(** Every container and network identifier has 64 characters, so the slices
    [id[:12]] and [id[0:8]] of the program are in bounds. *)
Lemma length_containerID name n : String.length (containerID name n) = 64.
Proof. apply length_EncodeToString. Qed.

Lemma containerID_hex name n : string_forallb is_hex (containerID name n) = true.
Proof. apply EncodeToString_hex. Qed.

(** The proofs never look inside a hash. *)
#[global] Opaque Sum256.
#[export] Hint Rewrite length_EncodeToString length_containerID : dzero.
