(* ===== verification/GoTime.v ===== *)
(** Go's [time.Time] in UTC, as the program uses it: instants it only stores,
    compares and prints. *)
From S2P Require Import Prelude GoStrings.
From Stdlib Require Import Ascii.

Open Scope Z_scope.

(** Nanoseconds since January 1, year 1, 00:00 UTC; Go's zero time is [0]. *)
Definition Time : Type := Z.
Definition zero_time : Time := 0.
Definition IsZero (t : Time) : bool := bool_decide (t = 0).
(** [t.Before(u)] *)
Definition Before (t u : Time) : bool := bool_decide (t < u).

Definition ns_per_second : Z := 1000000000.
(** [t.Unix()]: seconds since 1970. *)
Definition Unix (t : Time) : Z := t / ns_per_second - 62135596800.

(** The civil date of a day number counted from January 1, year 1. *)
Definition civil_date (days : Z) : Z * Z * Z :=
  let z := days + 306 in
  let era := z / 146097 in
  let doe := z mod 146097 in
  let yoe := (doe - doe / 1460 + doe / 36524 - doe / 146096) / 365 in
  let doy := doe - (365 * yoe + yoe / 4 - yoe / 100) in
  let mp := (5 * doy + 2) / 153 in
  let day := doy - (153 * mp + 2) / 5 + 1 in
  let month := if bool_decide (mp < 10) then mp + 3 else mp - 9 in
  let year := yoe + era * 400 + (if bool_decide (month ≤ 2) then 1 else 0) in
  (year, month, day).

(** The last [width] decimal digits of [z]. *)
Fixpoint pad_digits (width : nat) (z : Z) : string :=
  match width with
  | O => EmptyString
  | S w => pad_digits w (z / 10) +:+ String (ascii_of_N (Z.to_N (48 + z mod 10))) EmptyString
  end.

Fixpoint strip_zeros (s : string) : string :=
  match s with
  | EmptyString => EmptyString
  | String c s =>
    match strip_zeros s with
    | EmptyString => if bool_decide (c = "0"%char) then EmptyString else String c EmptyString
    | t => String c t
    end
  end.

(** The fraction of [time.RFC3339Nano]: no trailing zeros, no bare point. *)
Definition format_fraction (ns : Z) : string :=
  match strip_zeros (pad_digits 9 ns) with
  | EmptyString => EmptyString
  | f => "." +:+ f
  end.

Definition RFC3339Nano (t : Time) : string :=
  let secs := t / ns_per_second in
  let '(y, m, d) := civil_date (secs / 86400) in
  let tod := secs mod 86400 in
  pad_digits 4 y +:+ "-" +:+ pad_digits 2 m +:+ "-" +:+ pad_digits 2 d +:+ "T" +:+
  pad_digits 2 (tod / 3600) +:+ ":" +:+ pad_digits 2 (tod / 60 mod 60) +:+ ":" +:+
  pad_digits 2 (tod mod 60) +:+ format_fraction (t mod ns_per_second) +:+ "Z".

Definition formatDockerTime (t : Time) : string :=
  if IsZero t then "0001-01-01T00:00:00Z" else RFC3339Nano t.

Definition optionalDockerTime (t : Time) : string :=
  if IsZero t then EmptyString else formatDockerTime t.

Example format_2024 :
  formatDockerTime ((62135596800 + 1709210096) * ns_per_second + 120000000)
  = "2024-02-29T12:34:56.12Z".
Proof. vm_compute. reflexivity. Qed.

Example format_epoch :
  formatDockerTime (62135596800 * ns_per_second) = "1970-01-01T00:00:00Z".
Proof. vm_compute. reflexivity. Qed.

Close Scope Z_scope.
