(* ===== verification/Cookbook.v ===== *)
(** The data the program keeps: [cookbook_types.go], [network_types.go], and the
    configuration types of [container_config.go] and [state.go].

    A pointer field of a cookbook ([*string], [*bool], [*int]) is an [option];
    a Go map is a [gmap]; an [int] is a [Z]. *)
From S2P Require Import Prelude GoStrings GoTime.

(** * Cookbooks: [cookbook_types.go] *)

Record StatePatch := mkStatePatch {
  pStatus : option string;
  pRunning : option bool;
  pRestarting : option bool;
  pDead : option bool;
  pHealth : option string;
  pExitCode : option Z;
  pError : option string;
  pRestartCount : option Z;
  pRestartCountDelta : Z
}.
#[export] Instance StatePatch_eta : Eta StatePatch := λ p,
  mkStatePatch (pStatus p) (pRunning p) (pRestarting p) (pDead p) (pHealth p)
    (pExitCode p) (pError p) (pRestartCount p) (pRestartCountDelta p).
#[export] Instance StatePatch_eq_dec : EqDecision StatePatch.
Proof. solve_decision. Defined.

(** [StatePatch{}] *)
Definition zero_patch : StatePatch := mkStatePatch None None None None None None None None 0.

Record Transition := mkTransition {
  tEvent : string;
  tCount : Z;
  tWhenStatus : string;
  tWhenHealth : string;
  tOnce : bool;
  tSet : StatePatch
}.

Record HTTPResponse := mkHTTPResponse {
  hFrom : Z;
  hWhenStatus : string;
  hWhenHealth : string;
  hStatus : Z;
  hHeaders : gmap string string;
  hBody : string;
  hDelayMS : Z;
  hClose : bool;
  hStatePatch : StatePatch
}.
#[export] Instance HTTPResponse_eta : Eta HTTPResponse := λ r,
  mkHTTPResponse (hFrom r) (hWhenStatus r) (hWhenHealth r) (hStatus r) (hHeaders r)
    (hBody r) (hDelayMS r) (hClose r) (hStatePatch r).

Record RedisResponse := mkRedisResponse {
  rFrom : Z;
  rWhenStatus : string;
  rWhenHealth : string;
  rReply : string;
  rDelayMS : Z;
  rClose : bool;
  rStatePatch : StatePatch
}.
#[export] Instance RedisResponse_eta : Eta RedisResponse := λ r,
  mkRedisResponse (rFrom r) (rWhenStatus r) (rWhenHealth r) (rReply r) (rDelayMS r)
    (rClose r) (rStatePatch r).

Record Scenario := mkScenario {
  Description : string;
  Initial : StatePatch;
  Transitions : list Transition;
  HTTP : gmap string (list HTTPResponse);
  RedisReplies : gmap string (list RedisResponse)
}.

Record ServiceDefaults := mkServiceDefaults {
  sName : string;
  sImage : string;
  ServiceType : string;
  IPAddress : string;
  ContainerPort : Z;
  HostIP : string;
  HostPort : Z
}.
#[export] Instance ServiceDefaults_eta : Eta ServiceDefaults := λ s,
  mkServiceDefaults (sName s) (sImage s) (ServiceType s) (IPAddress s) (ContainerPort s)
    (HostIP s) (HostPort s).

Record Cookbook := mkCookbook {
  cbKind : string;
  ImageNames : list string;
  Defaults : ServiceDefaults;
  Seeds : gmap string Scenario
}.
#[export] Instance Cookbook_eta : Eta Cookbook := λ c,
  mkCookbook (cbKind c) (ImageNames c) (Defaults c) (Seeds c).

(** The zero values a missing map key yields. *)
Definition zero_HTTPResponse : HTTPResponse :=
  mkHTTPResponse 0 EmptyString EmptyString 0 ∅ EmptyString 0 false zero_patch.
Definition zero_RedisResponse : RedisResponse :=
  mkRedisResponse 0 EmptyString EmptyString EmptyString 0 false zero_patch.
Definition zero_Scenario : Scenario := mkScenario EmptyString zero_patch [] ∅ ∅.

(** A [ValidationError]: the JSON pointer of the value at fault and the message. *)
Record ValidationError := validationError { vPath : string; vMessage : string }.

(** * Ports, replication and policies *)

Record PortBinding := mkPortBinding {
  bHostIP : string;
  RequestedHostPort : Z;
  bHostPort : Z;
  Protocol : string;
  bContainerPort : Z
}.
#[export] Instance PortBinding_eta : Eta PortBinding := λ b,
  mkPortBinding (bHostIP b) (RequestedHostPort b) (bHostPort b) (Protocol b) (bContainerPort b).
#[export] Instance PortBinding_eq_dec : EqDecision PortBinding.
Proof. solve_decision. Defined.

Record RedisReplicationState := mkRedisState {
  Role : string;
  MasterHost : string;
  MasterPort : Z;
  MasterID : string;
  MasterLinkStatus : string
}.
#[export] Instance RedisReplicationState_eta : Eta RedisReplicationState := λ r,
  mkRedisState (Role r) (MasterHost r) (MasterPort r) (MasterID r) (MasterLinkStatus r).
#[export] Instance RedisReplicationState_eq_dec : EqDecision RedisReplicationState.
Proof. solve_decision. Defined.

Record RestartPolicy := mkRestartPolicy { PolicyName : string; MaximumRetryCount : Z }.
#[export] Instance RestartPolicy_eq_dec : EqDecision RestartPolicy.
Proof. solve_decision. Defined.
