(* ===== verification/Resp.v ===== *)
(** The Redis wire protocol (RESP2): the command reader and the bulk writer of
    [service_redis.go] and the reply validator of [cookbook_responses.go].

    A [bufio.Reader] is the string of bytes not yet read; a function that reads
    from it returns the rest.  [io.EOF] and [io.ErrUnexpectedEOF] are errors
    with their usual texts. *)
From S2P Require Import Prelude GoStrings.
From Stdlib Require Import Ascii.

Definition EOF : string := "EOF".
Definition ErrUnexpectedEOF : string := "unexpected EOF".

(** * Reading *)

(** [reader.ReadString('\n')] and [reader.ReadBytes('\n')]: the line with its
    newline, and the rest; [None] is [io.EOF]. *)
Definition ReadString (s : string) : option (string * string) :=
  prod_map (λ line, line +:+ nl) id <$> Cut s nl.

(** [s] without its last byte, when that byte is [c]. *)
Fixpoint chop (c : ascii) (s : string) : option string :=
  match s with
  | EmptyString => None
  | String d s =>
    match s with
    | EmptyString => if bool_decide (d = c) then Some EmptyString else None
    | _ => String d <$> chop c s
    end
  end.

Definition readRESPLine (s : string) : result (string * string) :=
  match Cut s nl with
  | None => Err "truncated line"
  | Some (line, rest) =>
    match chop "013" line with
    | None => Err "line lacks CRLF terminator"
    | Some line => Ok (line, rest)
    end
  end.

(** [16<<20] *)
Definition max_bulk : Z := 16777216.
Definition max_array : Z := 1024.

(** Lines 108-115: the payload of a bulk string and its terminator. *)
Definition skip_bulk (length : Z) (s : string) : result string :=
  if bool_decide (Z.of_nat (String.length s) < length + 2)%Z then Err "truncated bulk string"
  else
    let rest := drop_string (Z.to_nat length) s in
    if HasPrefix rest crlf then Ok (drop_string 2 rest) else Err "bulk string lacks CRLF terminator".

(** The loop over the items of an array, from item [i] on. *)
Fixpoint parse_items (item : string → result string) (i : Z) (n : nat) (s : string) : result string :=
  match n with
  | 0 => Ok s
  | S n =>
    match item s with
    | Err e => Err ("array item " +:+ Itoa i +:+ ": " +:+ e)
    | Ok s => parse_items item (i + 1)%Z n s
    end
  end.

Section resp.
Context {UN : Unicode}.

(** [parseRESPFrame(reader, depth)] with [levels = 65 - depth]. *)
Fixpoint parseRESPFrame (levels : nat) (s : string) : result string :=
  match levels with
  | 0 => Err "nesting exceeds 64 levels"
  | S levels =>
    match s with
    | EmptyString => Err EOF
    | String prefix s =>
      if (Ascii.eqb prefix "+" || Ascii.eqb prefix "-") then
        match readRESPLine s with
        | Err e => Err e
        | Ok (line, rest) =>
          if ContainsByte line "000" then Err "simple string contains NUL" else Ok rest
        end
      else if Ascii.eqb prefix ":" then
        match readRESPLine s with
        | Err e => Err e
        | Ok (line, rest) =>
          match Atoi_ok line with Some _ => Ok rest | None => Err "invalid integer reply" end
        end
      else if Ascii.eqb prefix "$" then
        match readRESPLine s with
        | Err e => Err e
        | Ok (line, rest) =>
          match Atoi_ok line with
          | None => Err "invalid bulk string length"
          | Some length =>
            if bool_decide (length < -1 ∨ max_bulk < length)%Z then Err "invalid bulk string length"
            else if bool_decide (length = -1)%Z then Ok rest
            else skip_bulk length rest
          end
        end
      else if Ascii.eqb prefix "*" then
        match readRESPLine s with
        | Err e => Err e
        | Ok (line, rest) =>
          match Atoi_ok line with
          | None => Err "invalid array length"
          | Some count =>
            if bool_decide (count < -1 ∨ max_array < count)%Z then Err "invalid array length"
            else if bool_decide (count = -1)%Z then Ok rest
            else parse_items (parseRESPFrame levels) 0 (Z.to_nat count) rest
          end
        end
      else Err ("unsupported RESP2 prefix " +:+ Quote (String prefix EmptyString))
    end
  end.

(** The loop of [validateRESPReply]: [Some e] when it ends with the error [e]
    (or none), [None] when [fuel] frames were not enough. *)
Fixpoint validate_frames (fuel frames : nat) (s : string) : option (option string) :=
  match s with
  | EmptyString => Some (if bool_decide (frames = 0) then Some "reply is empty" else None)
  | _ =>
    match fuel with
    | 0 => None
    | S fuel =>
      match parseRESPFrame 65 s with
      | Err e => Some (Some e)
      | Ok rest => validate_frames fuel (S frames) rest
      end
    end
  end.

(** The error, if any; a frame takes at least one byte, so the length of the
    reply is enough fuel (lemma [validate_frames_total]). *)
Definition validateRESPReply (value : string) : option string :=
  match validate_frames (String.length value) 0 value with
  | Some e => e
  | None => Some "out of fuel"
  end.

(** * Commands *)

(** Lines 305-329: the [count] bulk strings of a command. *)
Fixpoint read_bulks (count : nat) (s : string) : result (list string * string) :=
  match count with
  | 0 => Ok ([], s)
  | S count =>
    match s with
    | EmptyString => Err EOF
    | String prefix s =>
      if negb (Ascii.eqb prefix "$") then Err "expected bulk string"
      else match ReadString s with
      | None => Err EOF
      | Some (lengthLine, s) =>
        match Atoi_ok (TrimSpace lengthLine) with
        | None => Err "invalid bulk string length"
        | Some length =>
          if bool_decide (length < 0 ∨ max_bulk < length)%Z then Err "invalid bulk string length"
          else if bool_decide (Z.of_nat (String.length s) < length + 2)%Z
               then Err (if bool_decide (s = EmptyString) then EOF else ErrUnexpectedEOF)
          else
            let rest := drop_string (Z.to_nat length) s in
            if negb (HasPrefix rest crlf) then Err "invalid bulk string terminator"
            else match read_bulks count (drop_string 2 rest) with
                 | Err e => Err e
                 | Ok (args, rest) => Ok (take_string (Z.to_nat length) s :: args, rest)
                 end
        end
      end
    end
  end.

Definition readRESPCommand (s : string) : result (list string * string) :=
  match s with
  | EmptyString => Err EOF
  | String first s =>
    if negb (Ascii.eqb first "*") then
      match ReadString s with
      | None => Err EOF
      | Some (line, rest) => Ok (Fields (TrimSpace (String first line)), rest)
      end
    else match ReadString s with
    | None => Err EOF
    | Some (countLine, rest) =>
      match Atoi_ok (TrimSpace countLine) with
      | None => Err "invalid RESP array length"
      | Some count =>
        if bool_decide (count < 0 ∨ max_array < count)%Z then Err "invalid RESP array length"
        else read_bulks (Z.to_nat count) rest
      end
    end
  end.
End resp.

(** * Writing *)

Definition writeRESPBulk (value : string) : string :=
  "$" +:+ Itoa (Z.of_nat (String.length value)) +:+ crlf +:+ value +:+ crlf.

Definition sanitizeRedisError (value : string) : string :=
  ReplaceAll (ReplaceAll value (String "013" EmptyString) " ") nl " ".

(** * Specification: the values of RESP2 and their wire form *)

Inductive resp : Type :=
| RSimple (s : string)
| RError (s : string)
| RInteger (z : Z)
| RBulk (s : string)
| RNullBulk
| RArray (items : list resp)
| RNullArray.

Fixpoint encode (v : resp) : string :=
  match v with
  | RSimple s => "+" +:+ s +:+ crlf
  | RError s => "-" +:+ s +:+ crlf
  | RInteger z => ":" +:+ Itoa z +:+ crlf
  | RBulk s => writeRESPBulk s
  | RNullBulk => "$" +:+ Itoa (-1) +:+ crlf
  | RArray items =>
    "*" +:+ Itoa (Z.of_nat (length items)) +:+ crlf +:+
    foldr (λ v acc, encode v +:+ acc) EmptyString items
  | RNullArray => "*" +:+ Itoa (-1) +:+ crlf
  end.

(** What a client sends for the command [args]. *)
Definition encode_command (args : list string) : string := encode (RArray (RBulk <$> args)).

(** The values within the limits of the validator, nested at most [n] deep. *)
Fixpoint resp_ok (n : nat) (v : resp) : bool :=
  match n with
  | 0 => false
  | S n =>
    match v with
    | RSimple s | RError s => free_of "010" s && free_of "000" s
    | RInteger z => bool_decide (int64_min ≤ z ∧ z ≤ int64_max)%Z
    | RBulk s => bool_decide (Z.of_nat (String.length s) ≤ max_bulk)%Z
    | RNullBulk | RNullArray => true
    | RArray items =>
      bool_decide (Z.of_nat (length items) ≤ max_array)%Z && forallb (resp_ok n) items
    end
  end.

(** * Lemmas *)

Lemma chop_app c s : chop c (s +:+ String c EmptyString) = Some s.
Proof.
  induction s as [|d s IH]; [simpl; by rewrite bool_decide_true|].
  rewrite app_cons_string. simpl. rewrite IH.
  by destruct s.
Qed.

Lemma chop_Some c s t : chop c s = Some t → s = t +:+ String c EmptyString.
Proof.
  revert t. induction s as [|d s IH]; intros t; [done|]. simpl.
  destruct s as [|d' s]; [case_bool_decide; intros; by simplify_eq|].
  destruct (chop c (String d' s)) as [t'|]; simpl; [|done].
  intros ?; simplify_eq. rewrite app_cons_string. by rewrite <-IH.
Qed.

Lemma crlf_app s rest :
  s +:+ crlf +:+ rest = (s +:+ String "013" EmptyString) +:+ String "010" rest.
Proof. by rewrite app_assoc_string. Qed.

Lemma readRESPLine_line s rest :
  free_of "010" s = true → readRESPLine (s +:+ crlf +:+ rest) = Ok (s, rest).
Proof.
  intros Hs. unfold readRESPLine, nl. rewrite crlf_app, Cut_byte.
  - by rewrite chop_app.
  - by rewrite free_of_app.
Qed.

Lemma readRESPLine_Ok s line rest :
  readRESPLine s = Ok (line, rest) →
  s = line +:+ crlf +:+ rest ∧ free_of "010" line = true.
Proof.
  unfold readRESPLine, nl. destruct (Cut s _) as [[a b]|] eqn:HC; [|done].
  apply Cut_byte_Some in HC as [-> Ha].
  destruct (chop _ a) as [l|] eqn:Hl; [|done]. intros; simplify_eq.
  apply chop_Some in Hl as ->. apply free_of_app in Ha as [? _].
  by rewrite crlf_app.
Qed.

Lemma HasPrefix_crlf s : HasPrefix s crlf = true ↔ ∃ t, s = crlf +:+ t.
Proof. apply HasPrefix_true. Qed.

Lemma skip_bulk_ok value rest :
  skip_bulk (Z.of_nat (String.length value)) (value +:+ crlf +:+ rest) = Ok rest.
Proof.
  unfold skip_bulk. rewrite bool_decide_false.
  - rewrite Nat2Z.id, drop_string_app, HasPrefix_app. done.
  - rewrite !length_app_string. simpl. lia.
Qed.

Lemma drop_string_length n s :
  n ≤ String.length s → ∃ a, String.length a = n ∧ s = a +:+ drop_string n s.
Proof.
  revert s. induction n as [|n IH]; intros s Hn; [by exists EmptyString|].
  destruct s as [|c s]; simpl in *; [lia|].
  destruct (IH s) as (a & ? & Ha); [lia|]. exists (String c a).
  rewrite app_cons_string, <-Ha. simpl. auto with lia.
Qed.

Lemma skip_bulk_Ok length s rest :
  (0 ≤ length)%Z → skip_bulk length s = Ok rest →
  ∃ a, String.length a = Z.to_nat length ∧ s = a +:+ crlf +:+ rest.
Proof.
  intros Hlen. unfold skip_bulk. case_bool_decide; [done|].
  destruct (HasPrefix _ _) eqn:HP; [|done]. intros ?; simplify_eq.
  destruct (drop_string_length (Z.to_nat length) s) as (a & Ha & Hs); [lia|].
  exists a. split; [done|]. apply HasPrefix_crlf in HP as [t Ht].
  rewrite Hs at 1. by rewrite Ht.
Qed.

Lemma Itoa_free_nl z : free_of "010" (Itoa z) = true.
Proof. by apply Itoa_free_of. Qed.

Lemma readRESPLine_Itoa z rest :
  readRESPLine (Itoa z +:+ crlf +:+ rest) = Ok (Itoa z, rest).
Proof. apply readRESPLine_line, Itoa_free_nl. Qed.

Lemma ContainsByte_free c s : free_of c s = true → ContainsByte s c = false.
Proof.
  intros Hs. unfold ContainsByte. apply bool_decide_false.
  assert (IndexByte s c = None) as ->; [|by intros [? ?]].
  induction s as [|d s IH]; [done|]. apply free_of_cons in Hs as [??]. simpl.
  rewrite bool_decide_false by done. by rewrite IH.
Qed.

#[export] Hint Rewrite app_assoc_string readRESPLine_Itoa : resp.

Section resp_lemmas.
Context {UN : Unicode}.

Lemma parse_items_encode levels items rest i :
  (∀ v r, v ∈ items → parseRESPFrame levels (encode v +:+ r) = Ok r) →
  parse_items (parseRESPFrame levels) i (length items)
    (foldr (λ v acc, encode v +:+ acc) EmptyString items +:+ rest) = Ok rest.
Proof.
  revert i. induction items as [|v items IH]; intros i Hall; [done|]. simpl.
  rewrite app_assoc_string, Hall by set_solver. apply IH. set_solver.
Qed.

Lemma parse_encode n v levels rest :
  resp_ok n v = true → n ≤ levels → parseRESPFrame levels (encode v +:+ rest) = Ok rest.
Proof.
  revert v levels rest. induction n as [|n IH]; intros v levels rest; [done|].
  intros Hok Hle. destruct levels as [|levels]; [lia|].
  destruct v as [s|s|z|s| |items| ]; cbn [encode resp_ok] in *;
    rewrite ?andb_true_iff, ?bool_decide_eq_true in Hok; unfold writeRESPBulk;
    rewrite ?app_assoc_string, ?app_cons_string, ?app_nil_l_string;
    cbn -[Itoa crlf Atoi_ok].
  - destruct Hok. by rewrite readRESPLine_line, ContainsByte_free.
  - destruct Hok. by rewrite readRESPLine_line, ContainsByte_free.
  - rewrite readRESPLine_Itoa, Atoi_ok_Itoa; done.
  - rewrite readRESPLine_Itoa, Atoi_ok_Itoa
      by (unfold is_int64, int64_min, int64_max, max_bulk in *; lia).
    rewrite !bool_decide_false by (unfold max_bulk in *; lia). apply skip_bulk_ok.
  - by rewrite readRESPLine_Itoa.
  - destruct Hok as [Hlen Hall].
    rewrite readRESPLine_Itoa, Atoi_ok_Itoa
      by (unfold is_int64, int64_min, int64_max, max_array in *; lia).
    rewrite !bool_decide_false by (unfold max_array in *; lia).
    rewrite Nat2Z.id. apply parse_items_encode. intros v r Hv.
    apply IH; [|lia]. rewrite forallb_forall in Hall. apply Hall.
    by apply list_elem_of_In.
  - by rewrite readRESPLine_Itoa.
Qed.
End resp_lemmas.

(** A parser that reads a non-empty prefix and looks no further. *)
Definition self_delimiting (parse : string → result string) : Prop := ∀ s rest,
  parse s = Ok rest →
  ∃ p, p ≠ EmptyString ∧ s = p +:+ rest ∧ ∀ r, parse (p +:+ r) = Ok r.

Lemma skip_bulk_app length a r :
  String.length a = Z.to_nat length → (0 ≤ length)%Z → skip_bulk length (a +:+ crlf +:+ r) = Ok r.
Proof.
  intros Ha Hlen. rewrite <-(skip_bulk_ok a r). f_equal. lia.
Qed.

Lemma parse_items_delimits item i n s rest :
  self_delimiting item → parse_items item i n s = Ok rest →
  ∃ p, s = p +:+ rest ∧ ∀ r, parse_items item i n (p +:+ r) = Ok r.
Proof.
  intros Hitem. revert i s. induction n as [|n IH]; intros i s; simpl.
  - intros ?; simplify_eq. exists EmptyString. done.
  - destruct (item s) as [s'|] eqn:Hs; [|done]. intros Hn.
    apply Hitem in Hs as (p & _ & -> & Hp). apply IH in Hn as (q & -> & Hq).
    exists (p +:+ q). split; [by rewrite app_assoc_string|].
    intros r. by rewrite app_assoc_string, Hp, Hq.
Qed.

(** A line after a prefix byte: the case shared by every frame. *)
Lemma line_delimits (c : ascii) (line body : string) :
  ∃ p, p ≠ EmptyString ∧
    (∀ rest, String c (line +:+ crlf +:+ body +:+ rest) = p +:+ rest) ∧
    p = String c (line +:+ crlf +:+ body).
Proof.
  eexists. split_and!; [..|done]; [done|].
  intros rest. by rewrite !app_cons_string, !app_assoc_string.
Qed.

Section resp_theorems.
Context {UN : Unicode}.

Lemma parseRESPFrame_delimits levels : self_delimiting (parseRESPFrame levels).
Proof.
  induction levels as [|levels IH]; [done|]. intros [|c s] rest; [done|].
  (* every branch reads one line, then perhaps a body *)
  assert (∀ line body, free_of "010" line = true → s = line +:+ crlf +:+ body +:+ rest →
    (∀ r, parseRESPFrame (S levels) (String c (line +:+ crlf +:+ body +:+ r)) = Ok r) →
    ∃ p, p ≠ EmptyString ∧ String c s = p +:+ rest ∧
      ∀ r, parseRESPFrame (S levels) (p +:+ r) = Ok r) as Hline.
  { intros line body _ -> Hr. destruct (line_delimits c line body) as (p & ? & Hp & _).
    exists p. split_and!; [done|by rewrite Hp|]. intros r. by rewrite <-Hp. }
  cbn -[readRESPLine Atoi_ok ContainsByte].
  destruct (_ || _) eqn:Hpm; [|destruct (Ascii.eqb c ":") eqn:Hc;
    [|destruct (Ascii.eqb c "$") eqn:Hd; [|destruct (Ascii.eqb c "*") eqn:Ha; [|done]]]];
    destruct (readRESPLine s) as [[line t]|] eqn:HL; try done;
    apply readRESPLine_Ok in HL as [-> Hfree].
  - destruct (ContainsByte line _) eqn:HC; [done|]. intros ?; simplify_eq.
    apply (Hline line EmptyString); [done..|]. intros r.
    cbn -[readRESPLine Atoi_ok ContainsByte]. by rewrite Hpm, readRESPLine_line, HC.
  - destruct (Atoi_ok line) eqn:HA; [|done]. intros ?; simplify_eq.
    apply (Hline line EmptyString); [done..|]. intros r.
    cbn -[readRESPLine Atoi_ok ContainsByte]. by rewrite Hpm, Hc, readRESPLine_line, HA.
  - destruct (Atoi_ok line) as [n|] eqn:HA; [|done].
    case_bool_decide as Hb; [done|]. case_bool_decide as Hn; intros Hrest.
    + simplify_eq. apply (Hline line EmptyString); [done..|]. intros r.
      cbn -[readRESPLine Atoi_ok ContainsByte].
      by rewrite Hpm, Hc, Hd, readRESPLine_line, HA.
    + apply skip_bulk_Ok in Hrest as (a & Hlen & ->); [|lia].
      apply (Hline line (a +:+ crlf)); [done|by rewrite app_assoc_string|]. intros r.
      cbn -[readRESPLine Atoi_ok ContainsByte].
      rewrite Hpm, Hc, Hd, readRESPLine_line, HA by done.
      rewrite !bool_decide_false by done. rewrite app_assoc_string.
      apply skip_bulk_app; [done|lia].
  - destruct (Atoi_ok line) as [n|] eqn:HA; [|done].
    case_bool_decide as Hb; [done|]. case_bool_decide as Hn; intros Hrest.
    + simplify_eq. apply (Hline line EmptyString); [done..|]. intros r.
      cbn -[readRESPLine Atoi_ok ContainsByte].
      by rewrite Hpm, Hc, Hd, Ha, readRESPLine_line, HA.
    + apply parse_items_delimits in Hrest as (q & -> & Hq); [|done].
      apply (Hline line q); [done..|]. intros r.
      cbn -[readRESPLine Atoi_ok ContainsByte].
      rewrite Hpm, Hc, Hd, Ha, readRESPLine_line, HA by done.
      rewrite !bool_decide_false by done. apply Hq.
Qed.

(** ** The reply validator *)

Definition concat_frames (l : list string) : string := foldr String.append EmptyString l.

(** [p] is one frame: the parser accepts it and leaves nothing. *)
Definition is_frame (p : string) : Prop := parseRESPFrame 65 p = Ok EmptyString.

Lemma frame_shorter s rest :
  parseRESPFrame 65 s = Ok rest → String.length rest < String.length s.
Proof.
  intros (p & Hp & -> & _)%parseRESPFrame_delimits. rewrite length_app_string.
  destruct p; [done|]. simpl. lia.
Qed.

Lemma validate_frames_total fuel frames s :
  String.length s ≤ fuel → is_Some (validate_frames fuel frames s).
Proof.
  revert frames s. induction fuel as [|fuel IH]; intros frames [|c s] Hle;
    cbn -[parseRESPFrame] in *; try (by eexists); [lia|].
  destruct (parseRESPFrame 65 (String c s)) as [rest|] eqn:HP; [|by eexists].
  apply frame_shorter in HP. simpl in HP. apply IH. lia.
Qed.

Lemma validate_frames_spec fuel frames s :
  String.length s ≤ fuel →
  validate_frames fuel frames s = Some None ↔
  ∃ l, s = concat_frames l ∧ Forall is_frame l ∧ frames + length l ≠ 0.
Proof.
  revert frames s. induction fuel as [|fuel IH]; intros frames s Hle.
  - destruct s as [|c s]; simpl in *; [|lia]. case_bool_decide; split; try done.
    + intros (l & Hl & Hf & Hn). destruct Hf as [|p l Hp]; simpl in *; [lia|].
      unfold is_frame in Hp. by destruct p.
    + intros _. exists []. simpl. split_and!; [done..|lia].
  - destruct s as [|c s]; cbn -[parseRESPFrame] in *.
    { case_bool_decide; split; try done.
      + intros (l & Hl & Hf & Hn). destruct Hf as [|p l Hp]; simpl in *; [lia|].
        unfold is_frame in Hp. by destruct p.
      + intros _. exists []. simpl. split_and!; [done..|lia]. }
    split.
    + destruct (parseRESPFrame 65 (String c s)) as [rest|] eqn:HP; [|done].
      pose proof (frame_shorter _ _ HP) as Hlt. simpl in Hlt.
      intros (l & -> & Hl & Hn)%IH; [|lia].
      apply parseRESPFrame_delimits in HP as (p & _ & -> & Hp).
      exists (p :: l). split_and!; [done| |simpl; lia]. constructor; [|done].
      unfold is_frame. rewrite <-(app_nil_r_string p). apply Hp.
    + intros (l & Hs & Hl & Hn). destruct Hl as [|p l Hp Hl]; [done|].
      simpl in Hs. rewrite Hs.
      apply parseRESPFrame_delimits in Hp as (q & _ & Hq & Hr).
      rewrite app_nil_r_string in Hq. subst q. rewrite Hr.
      apply IH; [|exists l; split_and!; [done..|lia]].
      apply (f_equal String.length) in Hs. rewrite length_app_string in Hs. simpl in Hs.
      destruct p as [|d p]; [by specialize (Hr EmptyString)|]. simpl in Hs. lia.
Qed.
End resp_theorems.

(** * Properties *)

Section resp_properties.
Context {UN : Unicode}.


(** every RESP2 value within the limits of the validator (64 levels of
    nesting, 1024 items, 16 MiB bulk strings, one-line simple strings without
    NUL) is read back frame by frame: whatever follows its wire form is left
    untouched. *)
Theorem parse_encode_roundtrip v rest :
  resp_ok 65 v = true → parseRESPFrame 65 (encode v +:+ rest) = Ok rest.
Proof. intros Hv. by apply (parse_encode 65). Qed.

Lemma TrimSpace_digits z :
  (0 ≤ z)%Z → TrimSpace (Itoa z +:+ crlf) = Itoa z.
Proof.
  intros Hz. pose proof (Itoa_digits z Hz) as Hd.
  assert (∀ c, is_digit c = true → is_ascii_byte c = true ∧ is_space_byte c = false) as Hc.
  { intros c. destruct c as [[] [] [] [] [] [] [] []]; (discriminate || done). }
  unfold TrimSpace, is_ascii. rewrite string_forallb_app.
  rewrite (string_forallb_impl is_digit) by (done || intros; by apply Hc). simpl.
  assert (trim_left (Itoa z +:+ crlf) = Itoa z +:+ crlf ∨ Itoa z = EmptyString) as [->|E].
  { destruct (Itoa z) as [|c s]; [by right|]. left. simpl in Hd.
    apply andb_true_iff in Hd as [Hd _]. apply Hc in Hd as [_ Hd].
    rewrite app_cons_string. simpl. by rewrite Hd. }
  - induction (Itoa z) as [|c s IH]; [done|]. simpl in Hd.
    apply andb_true_iff in Hd as [Hd Hs]. apply Hc in Hd as [_ Hd].
    rewrite app_cons_string. cbn -[String.append]. rewrite IH by done.
    destruct s; [by rewrite Hd|done].
  - by rewrite E.
Qed.

Lemma ReadString_line s rest :
  free_of "010" s = true →
  ReadString (s +:+ crlf +:+ rest) = Some (s +:+ crlf, rest).
Proof.
  intros Hs. unfold ReadString, nl. rewrite crlf_app, Cut_byte.
  - simpl. by rewrite app_assoc_string.
  - by rewrite free_of_app.
Qed.

Lemma read_bulks_encode args rest :
  Forall (λ a, (Z.of_nat (String.length a) ≤ max_bulk)%Z) args →
  read_bulks (length args)
    (foldr (λ v acc, encode v +:+ acc) EmptyString (RBulk <$> args) +:+ rest)
  = Ok (args, rest).
Proof.
  induction 1 as [|a args Ha Hargs IH]; [done|].
  cbn -[ReadString Atoi_ok writeRESPBulk]. unfold writeRESPBulk.
  rewrite !app_assoc_string, app_cons_string, app_nil_l_string.
  cbn -[ReadString Atoi_ok].
  rewrite ReadString_line by apply Itoa_free_nl.
  rewrite TrimSpace_digits, Atoi_ok_Itoa
    by (unfold is_int64, int64_min, int64_max, max_bulk in *; lia).
  rewrite bool_decide_false by lia.
  rewrite bool_decide_false by (rewrite !length_app_string; simpl; lia).
  rewrite Nat2Z.id, drop_string_app, take_string_app, HasPrefix_app. simpl.
  rewrite app_nil_l_string. by rewrite IH.
Qed.

Lemma readRESPCommand_encode args rest :
  (Z.of_nat (length args) ≤ max_array)%Z →
  Forall (λ a, (Z.of_nat (String.length a) ≤ max_bulk)%Z) args →
  readRESPCommand (encode_command args +:+ rest) = Ok (args, rest).
Proof.
  intros Hlen Hargs. unfold encode_command. cbn [encode].
  rewrite !app_assoc_string, app_cons_string, app_nil_l_string.
  cbn -[ReadString Atoi_ok read_bulks].
  rewrite length_fmap, ReadString_line by apply Itoa_free_nl.
  rewrite TrimSpace_digits, Atoi_ok_Itoa
    by (unfold is_int64, int64_min, int64_max, max_array in *; lia).
  rewrite bool_decide_false by (unfold max_array in *; lia).
  rewrite Nat2Z.id. by apply read_bulks_encode.
Qed.

(** the command reader inverts the client's encoder: an array of at most
    1024 bulk strings of at most 16 MiB each, with any bytes in them, is read
    as the list of its arguments, and the bytes after it are left for the next
    command. *)
Theorem readRESPCommand_roundtrip args rest :
  (Z.of_nat (length args) ≤ max_array)%Z →
  Forall (λ a, (Z.of_nat (String.length a) ≤ max_bulk)%Z) args →
  readRESPCommand (encode_command args +:+ rest) = Ok (args, rest).
Proof. apply readRESPCommand_encode. Qed.
End resp_properties.

Lemma parse_encode_roundtrip_witness :
  resp_ok 65 (RArray [RBulk "a"; RArray [RInteger (-7); RNullBulk]; RSimple "OK"]) = true ∧
  parseRESPFrame (UN := unicode_none) 65
    (encode (RArray [RBulk "a"; RArray [RInteger (-7); RNullBulk]; RSimple "OK"]) +:+ "+PONG")
    = Ok "+PONG".
Proof. split; [reflexivity|]. apply (parse_encode_roundtrip (UN := unicode_none)). reflexivity. Defined.

Lemma readRESPCommand_roundtrip_witness :
  readRESPCommand (UN := unicode_none) (encode_command ["SET"; "k"; crlf] +:+ "*0")
  = Ok (["SET"; "k"; crlf], "*0").
Proof.
  apply (readRESPCommand_roundtrip (UN := unicode_none)).
  - vm_compute. discriminate.
  - repeat constructor; vm_compute; discriminate.
Defined.
