(* ===== verification/CookbookValidation.v ===== *)
(** Validation of cookbook values, and the choice of a configured response:
    [cookbook_state_validation.go] and [cookbook_responses.go].

    A Go function that returns an [error] is an [option ValidationError]: [None]
    is a nil error. *)
From S2P Require Import Prelude GoStrings Cookbook Resp.
From Stdlib Require Import Ascii.

Definition verr : Type := option ValidationError.
Definition fail (path message : string) : verr := Some (validationError path message).

(** [if err := a; err != nil { return err }; b] *)
Definition or_else (a b : verr) : verr := match a with Some e => Some e | None => b end.
Notation "a ;;; b" := (or_else a b) (at level 100, right associativity) : go_scope.
(** [if cond { return validationError(path, message) }] *)
Definition reject (cond : bool) (path message : string) : verr :=
  if cond then fail path message else None.

(** * State patches *)

Definition isZeroStatePatch (patch : StatePatch) : bool := bool_decide (patch = zero_patch).

(** [p != nil && *p == v] *)
Definition ptr_is {A} `{EqDecision A} (p : option A) (v : A) : bool := bool_decide (p = Some v).

Definition validateHealthyBaseline (path : string) (patch : StatePatch) : verr :=
  reject (negb (ptr_is (pStatus patch) "running")) (path +:+ "/status")
    "seed 0 must start with status=running";;;
  reject (negb (ptr_is (pRunning patch) true)) (path +:+ "/running")
    "seed 0 must start with running=true";;;
  reject (negb (ptr_is (pRestarting patch) false)) (path +:+ "/restarting")
    "seed 0 must start with restarting=false";;;
  reject (negb (ptr_is (pHealth patch) "healthy")) (path +:+ "/health")
    "seed 0 must start with health=healthy";;;
  reject (negb (ptr_is (pExitCode patch) 0%Z)) (path +:+ "/exit_code")
    "seed 0 must start with exit_code=0";;;
  reject (negb (ptr_is (pRestartCount patch) 0%Z)) (path +:+ "/restart_count")
    "seed 0 must start with restart_count=0".

Definition allowed_values (kind : string) : list string :=
  if bool_decide (kind = "status")
  then ["created"; "running"; "restarting"; "exited"; "dead"]
  else ["starting"; "healthy"; "unhealthy"].

(** A condition on an optional field that is set. *)
Definition opt_test {A} (f : A → bool) (p : option A) : bool :=
  match p with Some a => f a | None => false end.

(** Lines 62-105: the flags named together with a status. *)
Definition validateFlags (path : string) (patch : StatePatch) (status : string) : verr :=
  let conflict (p : option bool) (v : bool) (field text : string) : verr :=
    reject (ptr_is p v) (path +:+ "/" +:+ field)
      ("status=" +:+ status +:+ " conflicts with " +:+ field +:+ "=" +:+ text) in
  if bool_decide (status = "running") then
    conflict (pRunning patch) false "running" "false";;;
    conflict (pRestarting patch) true "restarting" "true";;;
    conflict (pDead patch) true "dead" "true"
  else if bool_decide (status = "restarting") then
    conflict (pRunning patch) false "running" "false";;;
    conflict (pRestarting patch) false "restarting" "false";;;
    conflict (pDead patch) true "dead" "true"
  else if bool_decide (status = "created" ∨ status = "exited") then
    conflict (pRunning patch) true "running" "true";;;
    conflict (pRestarting patch) true "restarting" "true";;;
    conflict (pDead patch) true "dead" "true"
  else if bool_decide (status = "dead") then
    conflict (pRunning patch) true "running" "true";;;
    conflict (pRestarting patch) true "restarting" "true";;;
    conflict (pDead patch) false "dead" "false"
  else None.

Section validation.
Context {UN : Unicode}.

Definition validateStateValue (path kind value : string) (allowEmpty : bool) : verr :=
  if bool_decide (value = EmptyString) && allowEmpty then None
  else
    let allowed := allowed_values kind in
    reject (negb (bool_decide (value ∈ allowed))) path
      (kind +:+ " must be one of " +:+ Join (sort_strings allowed) ", " +:+
       ", got " +:+ Quote value).

Definition validateStatePatch (path : string) (patch : StatePatch) (allowEmpty : bool) : verr :=
  reject (negb allowEmpty && isZeroStatePatch patch) path "state patch cannot be empty";;;
  match pStatus patch with
  | Some status => validateStateValue (path +:+ "/status") "status" status false
  | None => None
  end;;;
  match pHealth patch with
  | Some health => validateStateValue (path +:+ "/health") "health" health true
  | None => None
  end;;;
  reject (opt_test (λ code, bool_decide (code < 0 ∨ 255 < code)%Z) (pExitCode patch))
    (path +:+ "/exit_code") "exit_code must be between 0 and 255";;;
  reject (opt_test (λ n, bool_decide (n < 0)%Z) (pRestartCount patch))
    (path +:+ "/restart_count") "restart_count cannot be negative";;;
  reject (bool_decide (pRestartCountDelta patch < 0)%Z)
    (path +:+ "/restart_count_delta") "restart_count_delta cannot be negative";;;
  reject (opt_test (λ e, ContainsByte e "000") (pError patch))
    (path +:+ "/error") "error cannot contain a NUL byte";;;
  reject (bool_decide (pStatus patch = None) &&
          (bool_decide (pRunning patch ≠ None) || bool_decide (pRestarting patch ≠ None)
           || bool_decide (pDead patch ≠ None)))
    path "running, restarting, and dead flags require status in the same patch";;;
  match pStatus patch with
  | Some status => validateFlags path patch status
  | None => None
  end;;;
  reject (ptr_is (pDead patch) true && negb (ptr_is (pStatus patch) "dead"))
    (path +:+ "/dead") "dead=true requires status=dead in the same patch".

(** * Events and routes *)

Definition allowed_methods : list string :=
  ["GET"; "HEAD"; "POST"; "PUT"; "PATCH"; "DELETE"; "OPTIONS"].

Definition validateHTTPRoute (path route : string) : verr :=
  if bool_decide (route = "*") then None
  else
    match SplitN route " " 2 with
    | [method; url] =>
      reject (bool_decide (method = EmptyString ∨ url = EmptyString)) path
        ("HTTP route " +:+ Quote route +:+ " must use the form METHOD /path");;;
      reject (negb (bool_decide (method ∈ allowed_methods))) path
        ("unsupported or non-uppercase HTTP method " +:+ Quote method);;;
      reject (negb (HasPrefix url "/") || ContainsAny url (crlf +:+ String "009" " ")) path
        ("HTTP route path " +:+ Quote url +:+ " must begin with / and contain no whitespace");;;
      reject (Contains url "?") path
        "HTTP route path must not include a query string; matching uses URL.Path"
    | _ => fail path ("HTTP route " +:+ Quote route +:+ " must use the form METHOD /path")
    end.

Definition validHTTPHeaderName (value : string) : bool :=
  negb (bool_decide (value = EmptyString)) &&
  forallb (λ r,
    if bool_decide (r < 128)%Z then
      let c := ascii_of_N (Z.to_N r) in
      is_alnum c || ContainsByte "!#$%&'*+-.^_`|~" c
    else uni_IsLetter r || uni_IsDigit r) (runes value).

Definition validRedisCommandName (value : string) : bool :=
  negb (bool_decide (value = EmptyString)) &&
  forallb (λ r, bool_decide (r < 128)%Z &&
    let c := ascii_of_N (Z.to_N r) in
    is_upper c || is_digit c || Ascii.eqb c "_" || Ascii.eqb c "-") (runes value).

Definition allowed_docker_events : list string :=
  ["docker.observe"; "docker.inspect"; "docker.list"; "docker.start"; "docker.stop";
   "docker.restart"; "docker.kill"; "docker.wait"; "docker.logs"; "docker.top";
   "docker.archive"].

Definition validateTransitionEvent (path event : string) (scenario : Scenario) : verr :=
  if HasPrefix event "docker." then
    reject (negb (bool_decide (event ∈ allowed_docker_events))) path
      ("unsupported Docker transition event " +:+ Quote event)
  else if HasPrefix event "http." then
    let route := TrimPrefix event "http." in
    validateHTTPRoute path route;;;
    reject (bool_decide (HTTP scenario !! route = None) && bool_decide (HTTP scenario !! "*" = None))
      path ("transition event " +:+ Quote event +:+ " has no matching HTTP route")
  else if HasPrefix event "redis." then
    let command := TrimPrefix event "redis." in
    reject (bool_decide (command = EmptyString) || negb (bool_decide (command = ToUpper command))
            || negb (validRedisCommandName command))
      path ("invalid Redis transition event " +:+ Quote event);;;
    reject (bool_decide (RedisReplies scenario !! command = None)
            && bool_decide (RedisReplies scenario !! "*" = None))
      path ("transition event " +:+ Quote event +:+ " has no matching Redis response")
  else fail path "transition event must start with docker., http., or redis.".
End validation.

(** * Response sequences: [cookbook_responses.go] *)

Section responses.
Context {R : Type} (From_ : R → Z) (WhenStatus WhenHealth : R → string).

(** The loop of [validateResponseOrder...]: [last] and [index] run along. *)
Fixpoint order_loop (path : string) (last : Z) (index : Z) (items : list R) : verr :=
  match items with
  | [] => None
  | item :: items =>
    reject (bool_decide (From_ item < 1)%Z) (path +:+ "/" +:+ Itoa index +:+ "/from")
      "response from must be >= 1";;;
    reject (bool_decide (From_ item < last)%Z) (path +:+ "/" +:+ Itoa index +:+ "/from")
      "response from values must be non-decreasing";;;
    order_loop path (From_ item) (index + 1)%Z items
  end.

(** [items[0]] panics on an empty slice. *)
Definition validateResponseOrder (path : string) (items : list R) : outcome verr :=
  match order_loop path 0 0 items, items with
  | Some e, _ => Done (Some e)
  | None, [] => Panic "index out of range [0] with length 0"
  | None, first :: _ => Done (reject (bool_decide (From_ first ≠ 1)%Z) (path +:+ "/0/from")
      "the first response must start from request 1")
  end.

(** The test of one item; the last item that passes is selected. *)
Definition response_applies (count : Z) (status health : string) (item : R) : bool :=
  if bool_decide (count < From_ item)%Z then false
  else if bool_decide (WhenStatus item ≠ EmptyString ∧ WhenStatus item ≠ status) then false
  else if bool_decide (WhenHealth item ≠ EmptyString ∧ WhenHealth item ≠ health) then false
  else true.

Fixpoint select_loop (count : Z) (status health : string) (selected : option R) (items : list R) : option R :=
  match items with
  | [] => selected
  | item :: items =>
    select_loop count status health
      (if response_applies count status health item then Some item else selected) items
  end.

Definition selectResponse (items : list R) (count : Z) (status health : string) : option R :=
  select_loop count status health None items.
End responses.

Definition validateResponseOrderHTTP := validateResponseOrder hFrom.
Definition validateResponseOrderRedis := validateResponseOrder rFrom.

(** [None] is Go's [HTTPResponse{}, false]. *)
Definition selectHTTPResponse (items : list HTTPResponse) (count : Z) (status health : string) :
    option HTTPResponse := selectResponse hFrom hWhenStatus hWhenHealth items count status health.
Definition selectRedisResponse (items : list RedisResponse) (count : Z) (status health : string) :
    option RedisResponse := selectResponse rFrom rWhenStatus rWhenHealth items count status health.

(** * Specification of a valid patch *)

(** The flags Docker derives from a status: running, restarting, dead. *)
Definition status_flags (status : string) : option (bool * bool * bool) :=
  if bool_decide (status = "running") then Some (true, false, false)
  else if bool_decide (status = "restarting") then Some (true, true, false)
  else if bool_decide (status = "created") then Some (false, false, false)
  else if bool_decide (status = "exited") then Some (false, false, false)
  else if bool_decide (status = "dead") then Some (false, false, true)
  else None.

(** [p] is unset or is [v]. *)
Definition agrees {A} (p : option A) (v : A) : Prop := ∀ x, p = Some x → x = v.

(** The flags of the patch are the flags of its status. *)
Definition flags_agree (patch : StatePatch) : Prop :=
  match pStatus patch with
  | None => pRunning patch = None ∧ pRestarting patch = None ∧ pDead patch = None
  | Some status =>
    match status_flags status with
    | None => False
    | Some (running, restarting, dead) =>
      agrees (pRunning patch) running ∧ agrees (pRestarting patch) restarting
      ∧ agrees (pDead patch) dead
    end
  end.

Record patch_valid (allowEmpty : bool) (patch : StatePatch) : Prop := mkPatchValid {
  pv_nonempty : allowEmpty = false → patch ≠ zero_patch;
  pv_flags : flags_agree patch;
  pv_health : ∀ h, pHealth patch = Some h → h ∈ [EmptyString; "starting"; "healthy"; "unhealthy"];
  pv_exit : ∀ n, pExitCode patch = Some n → (0 ≤ n ≤ 255)%Z;
  pv_count : ∀ n, pRestartCount patch = Some n → (0 ≤ n)%Z;
  pv_delta : (0 ≤ pRestartCountDelta patch)%Z;
  pv_error : ∀ e, pError patch = Some e → ContainsByte e "000" = false
}.

(** * Lemmas *)

Lemma or_else_None a b : or_else a b = None ↔ a = None ∧ b = None.
Proof. destruct a; simpl; naive_solver. Qed.

Lemma reject_None c p m : reject c p m = None ↔ c = false.
Proof. destruct c; simpl; unfold fail; naive_solver. Qed.

Lemma ptr_is_false {A} `{EqDecision A} (p : option A) v : ptr_is p v = false ↔ p ≠ Some v.
Proof. unfold ptr_is. by rewrite bool_decide_eq_false. Qed.

Lemma agrees_bool (p : option bool) b : p ≠ Some (negb b) ↔ agrees p b.
Proof.
  unfold agrees. destruct p as [[]|], b; simpl; naive_solver.
Qed.

#[export] Hint Rewrite or_else_None reject_None @ptr_is_false : dzero.

Section validation_facts.
Context {UN : Unicode}.

Lemma validateStateValue_spec path kind value allowEmpty :
  validateStateValue path kind value allowEmpty = None ↔
  (value = EmptyString ∧ allowEmpty = true) ∨ value ∈ allowed_values kind.
Proof.
  unfold validateStateValue.
  destruct (decide (value = EmptyString)) as [->|]; destruct allowEmpty; simpl;
    rewrite ?bool_decide_true, ?bool_decide_false by done; simpl;
    rewrite ?reject_None, ?negb_false_iff, ?bool_decide_eq_true; naive_solver.
Qed.

(** Once the status is one of the five, the flag checks say that the flags are
    those of the status. *)
Lemma validateFlags_spec path patch status :
  status ∈ allowed_values "status" →
  validateFlags path patch status = None ↔
  match status_flags status with
  | None => False
  | Some (running, restarting, dead) =>
    agrees (pRunning patch) running ∧ agrees (pRestarting patch) restarting
    ∧ agrees (pDead patch) dead
  end.
Proof.
  unfold allowed_values. rewrite bool_decide_true by done. rewrite !elem_of_cons.
  rewrite elem_of_nil.
  intros [->|[->|[->|[->|[->|[]]]]]]; unfold validateFlags, status_flags; simpl;
    autorewrite with dzero; rewrite <-!agrees_bool; done.
Qed.

Lemma status_flags_allowed status :
  status_flags status ≠ None ↔ status ∈ allowed_values "status".
Proof.
  unfold allowed_values. rewrite bool_decide_true by done. rewrite !elem_of_cons.
  rewrite elem_of_nil. unfold status_flags. repeat case_bool_decide; naive_solver.
Qed.
Lemma opt_test_false {A} (f : A → bool) p :
  opt_test f p = false ↔ ∀ x, p = Some x → f x = false.
Proof. destruct p; simpl; naive_solver. Qed.

Lemma opt_check_None {A} (f : A → verr) p :
  match p with Some x => f x | None => None end = None ↔ ∀ x, p = Some x → f x = None.
Proof. destruct p; naive_solver. Qed.

(** The two flag checks together, for a status that is allowed. *)
Lemma flag_checks path patch :
  (∀ st, pStatus patch = Some st → st ∈ allowed_values "status") →
  (bool_decide (pStatus patch = None) = false
   ∨ (bool_decide (pRunning patch ≠ None) || bool_decide (pRestarting patch ≠ None)
      || bool_decide (pDead patch ≠ None)) = false) ∧
  (∀ st, pStatus patch = Some st → validateFlags path patch st = None) ↔
  flags_agree patch.
Proof.
  intros Hok. unfold flags_agree. rewrite !orb_false_iff, !bool_decide_eq_false.
  destruct (pStatus patch) as [st|].
  - rewrite <-(validateFlags_spec path) by auto. naive_solver.
  - split; [|naive_solver].
    intros [[?|[[?%dec_stable ?%dec_stable] ?%dec_stable]] _]; done.
Qed.

(** The checks of the validator, one by one. *)
Lemma validateStatePatch_checks path patch allowEmpty :
  validateStatePatch path patch allowEmpty = None ↔
  (allowEmpty = false → patch ≠ zero_patch) ∧
  (∀ st, pStatus patch = Some st → st ∈ allowed_values "status") ∧
  (∀ h, pHealth patch = Some h → h ∈ [EmptyString; "starting"; "healthy"; "unhealthy"]) ∧
  (∀ n, pExitCode patch = Some n → (0 ≤ n ≤ 255)%Z) ∧
  (∀ n, pRestartCount patch = Some n → (0 ≤ n)%Z) ∧
  (0 ≤ pRestartCountDelta patch)%Z ∧
  (∀ e, pError patch = Some e → ContainsByte e "000" = false) ∧
  flags_agree patch ∧
  (pDead patch = Some true → pStatus patch = Some "dead").
Proof.
  unfold validateStatePatch. rewrite !or_else_None, !reject_None.
  rewrite !opt_check_None, !opt_test_false, !andb_false_iff, !negb_false_iff.
  rewrite (and_assoc (bool_decide (pStatus patch = None) = false ∨ _)).
  setoid_rewrite validateStateValue_spec. unfold isZeroStatePatch, ptr_is.
  rewrite !(bool_decide_eq_true (pStatus patch = _)), (bool_decide_eq_false (patch = _)),
    (bool_decide_eq_false (pDead patch = _)).
  assert (∀ st, ((st = EmptyString ∧ false = true) ∨ st ∈ allowed_values "status") ↔
                st ∈ allowed_values "status") as Hst by naive_solver.
  assert (∀ h, ((h = EmptyString ∧ true = true) ∨ h ∈ allowed_values "health") ↔
               h ∈ [EmptyString; "starting"; "healthy"; "unhealthy"]) as Hhealth.
  { intros h. rewrite (elem_of_cons _ h EmptyString). by intuition. }
  setoid_rewrite Hst. setoid_rewrite Hhealth.
  assert (∀ n, bool_decide (n < 0 ∨ 255 < n)%Z = false ↔ (0 ≤ n ≤ 255)%Z) as Hexit.
  { intros n. rewrite bool_decide_eq_false. lia. }
  assert (∀ n, bool_decide (n < 0)%Z = false ↔ (0 ≤ n)%Z) as Hneg.
  { intros n. rewrite bool_decide_eq_false. lia. }
  setoid_rewrite Hexit. setoid_rewrite Hneg.
  split.
  - intros (Hne & Hok & Hh & He & Hc & Hd & Hn & Hfl & Hdead).
    rewrite (flag_checks path) in Hfl by done. destruct allowEmpty; naive_solver.
  - intros (Hne & Hok & Hh & He & Hc & Hd & Hn & Hfl & Hdead).
    apply (flag_checks path) in Hfl; [|done].
    split_and!; try done; [by destruct allowEmpty; auto|..]; try apply Hfl.
    destruct (decide (pDead patch = Some true)); auto.
Qed.

(** [dead=true] in a patch whose flags agree names the status [dead]. *)
Lemma flags_agree_dead patch :
  flags_agree patch → pDead patch = Some true → pStatus patch = Some "dead".
Proof.
  unfold flags_agree, status_flags. destruct (pStatus patch) as [st|]; [|naive_solver].
  repeat case_bool_decide; unfold agrees; naive_solver.
Qed.
End validation_facts.

Section response_facts.
Context {R : Type} (From_ : R → Z) (WhenStatus WhenHealth : R → string).
#[local] Notation applies count st h := (response_applies From_ WhenStatus WhenHealth count st h).

Lemma select_loop_app count st h sel items1 items2 :
  select_loop From_ WhenStatus WhenHealth count st h sel (items1 ++ items2) =
  select_loop From_ WhenStatus WhenHealth count st h
    (select_loop From_ WhenStatus WhenHealth count st h sel items1) items2.
Proof. revert sel. by induction items1 as [|x items1 IH]; intros; simpl. Qed.

Lemma select_loop_none count st h sel items :
  Forall (λ x, applies count st h x = false) items →
  select_loop From_ WhenStatus WhenHealth count st h sel items = sel.
Proof. induction 1 as [|x items Hx _ IH]; simpl; [done|]. by rewrite Hx. Qed.

(** Either no item applies, or the last one that does splits the list. *)
Lemma last_applicable count st h items :
  Forall (λ x, applies count st h x = false) items ∨
  ∃ pre r post, items = pre ++ r :: post ∧ applies count st h r = true
    ∧ Forall (λ x, applies count st h x = false) post.
Proof.
  induction items as [|x items [IH|(pre & r & post & -> & Hr & Hpost)]].
  - by left.
  - destruct (applies count st h x) eqn:Hx; [right|left; by constructor].
    by exists [], x, items.
  - right. by exists (x :: pre), r, post.
Qed.

Lemma select_split count st h pre r post :
  applies count st h r = true → Forall (λ x, applies count st h x = false) post →
  selectResponse From_ WhenStatus WhenHealth (pre ++ r :: post) count st h = Some r.
Proof.
  intros Hr Hpost. unfold selectResponse. rewrite select_loop_app. simpl. rewrite Hr.
  by apply select_loop_none.
Qed.

Lemma select_Some count st h items r :
  selectResponse From_ WhenStatus WhenHealth items count st h = Some r ↔
  ∃ pre post, items = pre ++ r :: post ∧ applies count st h r = true
    ∧ Forall (λ x, applies count st h x = false) post.
Proof.
  split.
  - intros Hsel. destruct (last_applicable count st h items) as [Hno|(pre & r' & post & -> & Hr & Hpost)].
    + unfold selectResponse in Hsel. by rewrite select_loop_none in Hsel.
    + rewrite select_split in Hsel by done. naive_solver.
  - intros (pre & post & -> & Hr & Hpost). by apply select_split.
Qed.

Lemma select_None count st h items :
  selectResponse From_ WhenStatus WhenHealth items count st h = None ↔
  Forall (λ x, applies count st h x = false) items.
Proof.
  split; [|intros; by apply select_loop_none].
  intros Hsel. destruct (last_applicable count st h items) as [Hno|(pre & r' & post & -> & Hr & Hpost)]; [done|].
  by rewrite select_split in Hsel.
Qed.

Lemma order_loop_sorted path last index items :
  order_loop From_ path last index items = None ↔
  Forall (λ x, (1 ≤ From_ x)%Z) items ∧ Sorted Z.le (last :: (From_ <$> items)).
Proof.
  revert last index. induction items as [|x items IH]; intros last index; simpl.
  { split; [|done]. intros _. split; [constructor|]. repeat constructor. }
  autorewrite with dzero. rewrite IH, !bool_decide_eq_false, !Z.nlt_ge, Forall_cons.
  split.
  - intros (? & ? & ? & Hs). repeat split; try done. constructor; [done|by constructor].
  - intros [[? ?] Hs]. apply Sorted_inv in Hs as [Hs Hhd]. inv Hhd. done.
Qed.

(** In an accepted sequence the [from] of the items never decreases. *)
Lemma order_accepted path items :
  validateResponseOrder From_ path items = Done None →
  ∃ first rest, items = first :: rest ∧ From_ first = 1%Z ∧
    StronglySorted Z.le (From_ <$> items).
Proof.
  unfold validateResponseOrder. destruct (order_loop _ _ _ _ _) eqn:Hloop; [done|].
  apply order_loop_sorted in Hloop as [_ Hs]. destruct items as [|first rest]; [done|].
  intros [= Hone%reject_None]. apply bool_decide_eq_false, dec_stable in Hone.
  exists first, rest. repeat split; [done|].
  apply Sorted_inv in Hs as [Hs _]. by apply Sorted_StronglySorted; [intros ???; lia|].
Qed.
End response_facts.

(** * Theorems *)

(** C31: The patch validator accepts exactly the valid patches: the status and the
    health are among the allowed ones, the numbers are in range, the error holds
    no NUL byte, and every lifecycle flag that the patch names is the flag that
    Docker derives from the status named in the same patch. *)
Theorem validateStatePatch_exact {UN : Unicode} path patch allowEmpty :
  validateStatePatch path patch allowEmpty = None ↔ patch_valid allowEmpty patch.
Proof.
  rewrite validateStatePatch_checks. split.
  - intros (Hne & Hst & Hh & He & Hc & Hd & Hn & Hfl & _). by constructor.
  - intros [Hne Hfl Hh He Hc Hd Hn]. split_and!; try done.
    + intros st Hst. unfold flags_agree in Hfl. rewrite Hst in Hfl.
      apply status_flags_allowed. by destruct (status_flags st).
    + by apply flags_agree_dead.
Qed.

Lemma validateStatePatch_exact_witness :
  validateStatePatch (UN := unicode_none) "/p" (zero_patch <| pStatus := Some "exited" |>) false = None.
Proof.
  apply (validateStatePatch_exact (UN := unicode_none)).
  split; simpl; try done; unfold agrees; naive_solver.
Defined.

(** Selecting an HTTP response takes the last item that applies to the request
    (its [from] has been reached and its status and health conditions hold), and
    reports that there is none exactly when no item applies. *)
Theorem selectHTTPResponse_last items count status health :
  (∀ r, selectHTTPResponse items count status health = Some r ↔
     ∃ pre post, items = pre ++ r :: post
       ∧ response_applies hFrom hWhenStatus hWhenHealth count status health r = true
       ∧ Forall (λ x, response_applies hFrom hWhenStatus hWhenHealth count status health x = false) post)
  ∧ (selectHTTPResponse items count status health = None ↔
     Forall (λ x, response_applies hFrom hWhenStatus hWhenHealth count status health x = false) items).
Proof. split; [intros r; apply select_Some|apply select_None]. Qed.

(** C32: In a Redis reply sequence that the validator accepts, whose first reply
    carries no condition, every request is answered, and the reply chosen has the
    largest [from] of all the replies that apply. *)
Theorem accepted_redis_sequence_answers path first rest count status health :
  validateResponseOrderRedis path (first :: rest) = Done None →
  rWhenStatus first = EmptyString → rWhenHealth first = EmptyString → (1 ≤ count)%Z →
  ∃ r, selectRedisResponse (first :: rest) count status health = Some r ∧
    (rFrom r ≤ count)%Z ∧
    ∀ x, x ∈ first :: rest →
      response_applies rFrom rWhenStatus rWhenHealth count status health x = true →
      (rFrom x ≤ rFrom r)%Z.
Proof.
  intros (f & l & [= <- <-] & Hone & Hsorted)%order_accepted Hs Hh Hcount.
  assert (response_applies rFrom rWhenStatus rWhenHealth count status health first = true) as Hfirst.
  { unfold response_applies. rewrite Hs, Hh. rewrite !bool_decide_false by (lia || naive_solver). done. }
  destruct (selectRedisResponse (first :: rest) count status health) as [r|] eqn:Hsel.
  2: { apply select_None, Forall_cons in Hsel as [Hsel _]. congruence. }
  exists r. split; [done|].
  apply select_Some in Hsel as (pre & post & Heq & Hr & Hpost). split.
  { unfold response_applies in Hr. repeat case_bool_decide; try done; lia. }
  rewrite Heq in Hsorted |- *. intros x Hx Hax.
  rewrite fmap_app, fmap_cons in Hsorted. apply StronglySorted_app in Hsorted as (Hpre & _ & _).
  apply elem_of_app in Hx as [Hx|Hx].
  - apply Hpre; [by apply list_elem_of_fmap_2|by left].
  - apply elem_of_cons in Hx as [->|Hx]; [done|].
    rewrite Forall_forall in Hpost. specialize (Hpost x Hx). congruence.
Qed.

Lemma accepted_redis_sequence_answers_witness :
  ∃ r, selectRedisResponse [zero_RedisResponse <| rFrom := 1%Z |>] 3 "running" "healthy" = Some r ∧
    (rFrom r ≤ 3)%Z ∧
    ∀ x, x ∈ [zero_RedisResponse <| rFrom := 1%Z |>] →
      response_applies rFrom rWhenStatus rWhenHealth 3 "running" "healthy" x = true →
      (rFrom x ≤ rFrom r)%Z.
Proof. by apply (accepted_redis_sequence_answers "/p"). Defined.

(** A transition event that the validator accepts can happen and is answered:
    it is one of the Docker events, or a route or command event whose HTTP route or
    Redis command finds a reply sequence in the scenario, by its own key or by the
    wildcard. *)
Theorem accepted_event_has_reply {UN : Unicode} path event sc :
  validateTransitionEvent path event sc = None →
  event ∈ allowed_docker_events ∨
  (∃ route, event = "http." +:+ route ∧ (HTTP sc !! route ≠ None ∨ HTTP sc !! "*" ≠ None)) ∨
  (∃ command, event = "redis." +:+ command ∧ validRedisCommandName command = true ∧
     (RedisReplies sc !! command ≠ None ∨ RedisReplies sc !! "*" ≠ None)).
Proof.
  unfold validateTransitionEvent.
  destruct (HasPrefix event "docker.") eqn:Hd.
  { rewrite reject_None, negb_false_iff, bool_decide_eq_true. auto. }
  destruct (HasPrefix event "http.") eqn:Hh.
  { apply HasPrefix_TrimPrefix in Hh as Heq. intros Hok. right; left. exists (TrimPrefix event "http.").
    rewrite or_else_None, reject_None, andb_false_iff, !bool_decide_eq_false in Hok. naive_solver. }
  destruct (HasPrefix event "redis.") eqn:Hr; [|done].
  apply HasPrefix_TrimPrefix in Hr as Heq. intros Hok. right; right. exists (TrimPrefix event "redis.").
  rewrite or_else_None, !reject_None, !orb_false_iff, andb_false_iff, !negb_false_iff,
    !bool_decide_eq_false in Hok. naive_solver.
Qed.

Lemma accepted_event_has_reply_witness :
  "docker.stop" ∈ allowed_docker_events ∨
  (∃ route, "docker.stop" = "http." +:+ route ∧ (HTTP zero_Scenario !! route ≠ None ∨ HTTP zero_Scenario !! "*" ≠ None)) ∨
  (∃ command, "docker.stop" = "redis." +:+ command ∧ validRedisCommandName command = true ∧
     (RedisReplies zero_Scenario !! command ≠ None ∨ RedisReplies zero_Scenario !! "*" ≠ None)).
Proof. by apply (accepted_event_has_reply (UN := unicode_none) "/p"). Defined.
