(* ===== verification/Container.v ===== *)
(** One simulated container: [state.go] and the waiters of [container_wait.go].

    Every exported method of [Container] locks [c.mu] for its whole body, so a
    method is one atomic step on the container.  The step also sees the process
    wide counter [syntheticPID]; the pair is a [CState].  A method whose body
    can panic or block on a channel is a [prog CState]. *)
From S2P Require Import Prelude GoStrings GoTime Cookbook Sha256 CookbookValidation.

(** * Data *)

Record HealthLog := mkHealthLog {
  lStart : string; lEnd : string; lExitCode : Z; lOutput : string
}.

Record HealthState := mkHealth {
  hlStatus : string; FailingStreak : Z; hlLog : list HealthLog
}.
#[export] Instance HealthState_eta : Eta HealthState := λ h,
  mkHealth (hlStatus h) (FailingStreak h) (hlLog h).

Record containerWaitResult := mkWaitResult {
  StatusCode : Z;
  WaitError : option string
}.

(** A waiter object; [buffer] is the content of its channel of capacity one. *)
Record containerWaiter := mkWaiter {
  condition : string;
  buffer : list containerWaitResult
}.
#[export] Instance containerWaiter_eta : Eta containerWaiter := λ w,
  mkWaiter (condition w) (buffer w).

(** [waiters] is the set of waiter pointers registered with the container;
    [waiter_heap] holds the waiter objects the container's callers allocated,
    registered or not. *)
Record Container := mkContainer {
  waiters : gmap nat ();
  waiter_heap : gmap nat containerWaiter;
  removed : bool;
  requestedConfig : gmap string string;
  requestedHostConfig : gmap string string;
  metadataOnlyFields : list string;
  healthDisabled : bool;
  cRestartPolicy : RestartPolicy;
  manuallyStopped : bool;
  automaticRestarts : Z;
  ID : string;
  Name : string;
  Image : string;
  ImageID : string;
  Kind : string;
  Seed : Z;
  Created : Time;
  Started : Time;
  Finished : Time;
  Spec : ServiceDefaults;
  cScenario : Scenario;
  Status : string;
  Running : bool;
  Paused : bool;
  Restarting : bool;
  OOMKilled : bool;
  Dead : bool;
  Pid : Z;
  ExitCode : Z;
  cError : string;
  RestartCount : Z;
  Health : HealthState;
  NetworkMode : string;
  PrimaryIP : string;
  PortBindings : gmap string (list PortBinding);
  Redis : RedisReplicationState;
  Counters : gmap string Z;
  AppliedTransitions : gmap nat bool;
  Labels : gmap string string;
  Env : list string;
  Command : list string;
  KV : gmap string string;
  Logs : list string;
  StartCount : Z
}.
#[export] Instance Container_eta : Eta Container := λ c,
  mkContainer (waiters c) (waiter_heap c) (removed c) (requestedConfig c)
    (requestedHostConfig c) (metadataOnlyFields c) (healthDisabled c) (cRestartPolicy c)
    (manuallyStopped c) (automaticRestarts c) (ID c) (Name c) (Image c) (ImageID c)
    (Kind c) (Seed c) (Created c) (Started c) (Finished c) (Spec c) (cScenario c)
    (Status c) (Running c) (Paused c) (Restarting c) (OOMKilled c) (Dead c) (Pid c)
    (ExitCode c) (cError c) (RestartCount c) (Health c) (NetworkMode c) (PrimaryIP c)
    (PortBindings c) (Redis c) (Counters c) (AppliedTransitions c) (Labels c) (Env c)
    (Command c) (KV c) (Logs c) (StartCount c).

Record ContainerStateSnapshot := mkSnapshot {
  snStatus : string; snRunning : bool; snRestarting : bool; snPaused : bool;
  snDead : bool; snHealth : string; snExitCode : Z; snRestartCount : Z; snError : string
}.
#[export] Instance ContainerStateSnapshot_eq_dec : EqDecision ContainerStateSnapshot.
Proof. solve_decision. Defined.

Record ContainerSnapshot := mkContainerSnapshot {
  csID : string; csName : string; csImage : string; csKind : string; csSeed : Z;
  csCreated : string; csStarted : string; csFinished : string;
  csState : ContainerStateSnapshot; csCounters : gmap string Z; csIPAddress : string;
  csContainerPort : Z; csHostPort : Z; csNetworkMode : string
}.

Record eventAdvance := mkAdvance {
  aCount : Z; aBefore : ContainerStateSnapshot; aAfter : ContainerStateSnapshot;
  aTransition : string
}.
#[export] Instance eventAdvance_eta : Eta eventAdvance := λ a,
  mkAdvance (aCount a) (aBefore a) (aAfter a) (aTransition a).

Record CState := mkCState { this : Container; syntheticPID : Z }.
#[export] Instance CState_eta : Eta CState := λ s, mkCState (this s) (syntheticPID s).

(** [m[key]] for a map with a zero value. *)
Definition counter (m : gmap string Z) (key : string) : Z := default 0%Z (m !! key).
(** [m[key]++] *)
Definition bump (key : string) (m : gmap string Z) : gmap string Z :=
  <[key := wrap64 (counter m key + 1)]> m.

Definition newContainer (now : Time) (id name image : string) (cb : Cookbook) (seed : Z) : Container :=
  let scenario := default zero_Scenario (Seeds cb !! Itoa seed) in
  {| waiters := ∅; waiter_heap := ∅; removed := false;
     requestedConfig := ∅; requestedHostConfig := ∅; metadataOnlyFields := [];
     healthDisabled := false;
     cRestartPolicy := mkRestartPolicy "no" 0;
     manuallyStopped := false; automaticRestarts := 0;
     ID := id; Name := name; Image := image; ImageID := imageID image;
     Kind := cbKind cb; Seed := seed;
     Created := now; Started := zero_time; Finished := zero_time;
     Spec := Defaults cb; cScenario := scenario;
     Status := "created"; Running := false; Paused := false; Restarting := false;
     OOMKilled := false; Dead := false; Pid := 0; ExitCode := 0; cError := EmptyString;
     RestartCount := 0; Health := mkHealth EmptyString 0 [];
     NetworkMode := "default"; PrimaryIP := EmptyString; PortBindings := ∅;
     Redis := mkRedisState "master" EmptyString 0 EmptyString "up";
     Counters := ∅; AppliedTransitions := ∅; Labels := ∅; Env := []; Command := [];
     KV := ∅;
     Logs := ["docker-zero: container created" +:+ nl];
     StartCount := 0 |}.

(** * Snapshots and plain accessors *)

Definition stateSnapshotLocked (c : Container) : ContainerStateSnapshot :=
  mkSnapshot (Status c) (Running c) (Restarting c) (Paused c) (Dead c)
    (hlStatus (Health c)) (ExitCode c) (RestartCount c) (cError c).

Definition primaryHostPortLocked (c : Container) : Z :=
  let key := Itoa (ContainerPort (Spec c)) +:+ "/tcp" in
  match default [] (PortBindings c !! key) with
  | [] => 0
  | b :: _ => bHostPort b
  end.

Definition snapshotLocked (c : Container) : ContainerSnapshot :=
  mkContainerSnapshot (ID c) (Name c) (Image c) (Kind c) (Seed c)
    (formatDockerTime (Created c)) (optionalDockerTime (Started c))
    (optionalDockerTime (Finished c)) (stateSnapshotLocked c) (Counters c) (PrimaryIP c)
    (ContainerPort (Spec c)) (primaryHostPortLocked c) (NetworkMode c).

Definition setPrimaryIP (ip : string) (c : Container) : Container := c <| PrimaryIP := ip |>.

Definition clonePortBindings (c : Container) : gmap string (list PortBinding) := PortBindings c.

Definition setPortBindings (bindings : gmap string (list PortBinding)) (c : Container) : Container :=
  c <| PortBindings := bindings |>.

Definition updateAssignedPort (key : string) (index hostPort : Z) (c : Container) : Container :=
  let items := default [] (PortBindings c !! key) in
  if bool_decide (index < 0 ∨ Z.of_nat (length items) ≤ index)%Z then c
  else
    let items := alter (λ b, b <| bHostPort := hostPort |>) (Z.to_nat index) items in
    c <| PortBindings := <[key := items]> (PortBindings c) |>.

Definition resetEphemeral (b : PortBinding) : PortBinding :=
  if bool_decide (RequestedHostPort b = 0)%Z then b <| bHostPort := 0%Z |> else b.

Definition resetEphemeralAssignedPorts (c : Container) : Container :=
  c <| PortBindings := fmap (M := gmap string) (fmap resetEphemeral) (PortBindings c) |>.

(** * Waiters: [container_wait.go] *)

Definition waitResultLocked (c : Container) : containerWaitResult :=
  mkWaitResult (ExitCode c)
    (if bool_decide (cError c ≠ EmptyString) then Some (cError c) else None).

Definition modify_this (f : Container → Container) : prog CState () :=
  modify (λ s, s <| this := f (this s) |>).

Section container.
Context {RO : RangeOrder} {UN : Unicode}.

(** The loop of [notifyWaitersLocked]: a send on a full channel blocks. *)
Fixpoint notify_loop (is_removed : bool) (pointers : list nat) : prog CState () :=
  match pointers with
  | [] => mret ()
  | w :: pointers => λ s,
    let c := this s in
    match waiter_heap c !! w with
    | None => (s, Panic "invalid memory address or nil pointer dereference")
    | Some waiter =>
      if negb is_removed && bool_decide (condition waiter = "removed")
      then notify_loop is_removed pointers s
      else match buffer waiter with
           | _ :: _ => (s, Blocked)
           | [] =>
             let waiter := waiter <| buffer := [waitResultLocked c] |> in
             let c := c <| waiter_heap := <[w := waiter]> (waiter_heap c) |>
                        <| waiters := delete w (waiters c) |> in
             notify_loop is_removed pointers (s <| this := c |>)
           end
    end
  end.

Definition notifyWaitersLocked (is_removed : bool) : prog CState () := λ s,
  notify_loop is_removed (range "container_wait.go:49" (waiters (this s))).*1 s.

(** The pointer of the new waiter, and the container. *)
Definition subscribeWait (cond : string) (c : Container) : nat * Container :=
  let w := fresh (dom (waiter_heap c)) in
  if removed c || (bool_decide (cond = "not-running") && negb (Running c))
  then (w, c <| waiter_heap := <[w := mkWaiter cond [waitResultLocked c]]> (waiter_heap c) |>)
  else (w, c <| waiter_heap := <[w := mkWaiter cond []]> (waiter_heap c) |>
             <| waiters := <[w := ()]> (waiters c) |>).

(** The cancel function that [subscribeWait] returns. *)
Definition cancelWait (w : nat) (c : Container) : Container :=
  c <| waiters := delete w (waiters c) |>.

Definition markRemoved : prog CState () :=
  modify_this (λ c, c <| removed := true |>);; notifyWaitersLocked true.

(** * Patches *)

(** Lines 338-364: the fields a patch names. *)
Definition patchFields (patch : StatePatch) (c : Container) : Container :=
  let c := c <| Status := default (Status c) (pStatus patch) |> in
  let c := c <| Running := default (Running c) (pRunning patch) |> in
  let c := c <| Restarting := default (Restarting c) (pRestarting patch) |> in
  let c := c <| Dead := default (Dead c) (pDead patch) |> in
  let c := c <| Health := (Health c) <| hlStatus := default (hlStatus (Health c)) (pHealth patch) |> |> in
  let c := c <| ExitCode := default (ExitCode c) (pExitCode patch) |> in
  let c := c <| cError := default (cError c) (pError patch) |> in
  let c := c <| RestartCount := default (RestartCount c) (pRestartCount patch) |> in
  if bool_decide (pRestartCountDelta patch ≠ 0)%Z
  then c <| RestartCount := wrap64 (RestartCount c + pRestartCountDelta patch) |>
  else c.

Definition set_flags (running paused restarting dead : bool) (c : Container) : Container :=
  c <| Running := running |> <| Paused := paused |>
    <| Restarting := restarting |> <| Dead := dead |>.

(** Lines 369-397: the switch on [c.Status]; [None] is the panic. *)
Definition canonicalFlags (c : Container) : option Container :=
  if bool_decide (Status c = "running") then Some (set_flags true false false false c)
  else if bool_decide (Status c = "paused") then Some (set_flags true true false false c)
  else if bool_decide (Status c = "restarting") then Some (set_flags true false true false c)
  else if bool_decide (Status c = "created" ∨ Status c = "exited")
       then Some (set_flags false false false false c)
  else if bool_decide (Status c = "dead") then Some (set_flags false false false true c)
  else None.

(** Lines 406-412: a container that begins to run. *)
Definition beginTimes (now : Time) (oldStatus : string) (s : CState) : CState :=
  if bool_decide (Status (this s) = "running" ∧ oldStatus ≠ "running") then
    let c := (this s) <| Started := now |> <| Finished := zero_time |> in
    if bool_decide (Pid c = 0)%Z then
      let n := wrap64 (syntheticPID s + 1) in
      mkCState (c <| Pid := wrap64 (1000 + n) |>) n
    else s <| this := c |>
  else s.

(** The bodies of lines 414-415 and 418-419. *)
Definition endTimes (now : Time) (cond : bool) (s : CState) : CState :=
  if cond then s <| this := (this s) <| Finished := now |> <| Pid := 0%Z |> |> else s.

(** Lines 405-423: start and finish times and the synthetic PID. *)
Definition patchTimes (now : Time) (oldStatus : string) (s : CState) : CState :=
  let s := beginTimes now oldStatus s in
  let s := endTimes now
    (bool_decide ((Status (this s) = "exited" ∨ Status (this s) = "dead")
                  ∧ oldStatus ≠ Status (this s))) s in
  let s := endTimes now
    (bool_decide (Status (this s) = "restarting" ∧ oldStatus ≠ "restarting")) s in
  if bool_decide (Status (this s) = "created")
  then s <| this := (this s) <| Pid := 0%Z |> |> else s.

(** Lines 424-442: the health log. *)
Definition patchHealthLog (now : Time) (oldHealth : string) (c : Container) : Container :=
  let h := Health c in
  if bool_decide (hlStatus h ≠ oldHealth ∧ hlStatus h ≠ EmptyString) then
    let unhealthy := bool_decide (hlStatus h = "unhealthy") in
    let streak :=
      if unhealthy then wrap64 (FailingStreak h + 1)
      else if bool_decide (hlStatus h = "healthy") then 0%Z
      else FailingStreak h in
    let entry := mkHealthLog (formatDockerTime now) (formatDockerTime now)
      (if unhealthy then 1%Z else 0%Z)
      ("docker-zero: health changed to " +:+ hlStatus h +:+ nl) in
    c <| Health := mkHealth (hlStatus h) streak (keep_last 5 (hlLog h ++ [entry])) |>
  else c.

Definition applyPatchLocked (now : Time) (patch : StatePatch) : prog CState () := λ s,
  let old := this s in
  let c := patchFields patch old in
  match canonicalFlags c with
  | None => (s <| this := c |>, Panic ("internal invalid container status " +:+ Quote (Status c)))
  | Some c =>
    let exits := Running old && bool_decide (Status c ≠ Status old) &&
      bool_decide (Status c = "exited" ∨ Status c = "dead" ∨ Status c = "restarting") in
    ((if exits then notifyWaitersLocked false else mret ());;
     modify (λ s,
       let s := patchTimes now (Status old) s in
       s <| this := patchHealthLog now (hlStatus (Health old)) (this s) |>))
    (s <| this := c |>)
  end.

(** [before] and [after] of a method. *)
Definition snapshots_around (body : prog CState ()) :
    prog CState (ContainerStateSnapshot * ContainerStateSnapshot) :=
  s ← get;
  body;;
  s' ← get;
  mret (stateSnapshotLocked (this s), stateSnapshotLocked (this s')).

Definition applyPatch (now : Time) (patch : StatePatch) := snapshots_around (applyPatchLocked now patch).

(** * Lifecycle methods *)

Definition default_to {A} (v : A) (o : option A) : option A :=
  match o with Some _ => o | None => Some v end.

Definition startPatchLocked (c : Container) : StatePatch :=
  let initial := Initial (cScenario c) in
  if bool_decide (StartCount c = 0)%Z then
    initial <| pStatus := default_to "running" (pStatus initial) |>
            <| pRunning := default_to true (pRunning initial) |>
            <| pRestarting := default_to false (pRestarting initial) |>
            <| pDead := default_to false (pDead initial) |>
            <| pExitCode := default_to 0%Z (pExitCode initial) |>
  else
    mkStatePatch (default_to "running" (pStatus initial)) (Some true) (Some false) (Some false)
      (pHealth initial) (Some 0%Z) (Some EmptyString) None 0.

Definition start (now : Time) :=
  snapshots_around (
    modify_this (λ c, c <| manuallyStopped := false |> <| automaticRestarts := 0%Z |>);;
    s ← get;
    applyPatchLocked now (startPatchLocked (this s));;
    modify_this (λ c, c <| StartCount := wrap64 (StartCount c + 1) |>);;
    modify_this (λ c, c <| Logs := Logs c ++
      ["docker-zero: started with seed " +:+ Itoa (Seed c) +:+ " (" +:+
       Description (cScenario c) +:+ "), start #" +:+ Itoa (StartCount c) +:+
       nl] |>)).

Definition stop (now : Time) (exitCode : Z) :=
  snapshots_around (
    modify_this (λ c, c <| manuallyStopped := true |>);;
    applyPatchLocked now (mkStatePatch (Some "exited") (Some false) (Some false) None None
      (Some exitCode) None None 0)).

(** Methods that can refuse return the snapshots and an error. *)
Definition attempt : Type :=
  ContainerStateSnapshot * ContainerStateSnapshot * option string.

Definition refuse (c : Container) (msg : string) : attempt :=
  (stateSnapshotLocked c, stateSnapshotLocked c, Some msg).

Definition kill (now : Time) : prog CState attempt :=
  s ← get;
  if negb (Running (this s)) || Dead (this s) || removed (this s)
  then mret (refuse (this s) "container is not running")
  else
    modify_this (λ c, c <| manuallyStopped := true |>);;
    applyPatchLocked now (mkStatePatch (Some "exited") None None None None (Some 137%Z) None None 0);;
    s' ← get;
    mret (stateSnapshotLocked (this s), stateSnapshotLocked (this s'), None).

Definition pause : prog CState attempt :=
  s ← get;
  let c := this s in
  if negb (Running c) || Restarting c || Dead c
  then mret (refuse c ("container " +:+ Name c +:+ " is not running"))
  else if Paused c then mret (stateSnapshotLocked c, stateSnapshotLocked c, None)
  else
    modify_this (λ c, c <| Status := "paused" |> <| Paused := true |>);;
    s' ← get;
    mret (stateSnapshotLocked c, stateSnapshotLocked (this s'), None).

Definition unpause : prog CState attempt :=
  s ← get;
  let c := this s in
  if negb (Paused c)
  then mret (refuse c ("container " +:+ Name c +:+ " is not paused"))
  else
    modify_this (λ c, set_flags true false false false (c <| Status := "running" |>));;
    s' ← get;
    mret (stateSnapshotLocked c, stateSnapshotLocked (this s'), None).

Definition restart (now : Time) :=
  snapshots_around (
    modify_this (λ c, c <| manuallyStopped := false |> <| automaticRestarts := 0%Z |>);;
    applyPatchLocked now (mkStatePatch (Some "restarting") (Some true) (Some true) None
      (Some "starting") (Some 0%Z) None None 1)).

(** * Events and transitions *)

Definition isDockerObserveEvent (event : string) : bool :=
  bool_decide (event = "docker.inspect" ∨ event = "docker.list").

Definition transitionEventMatches (pattern event : string) : bool :=
  bool_decide (pattern = event) ||
  (bool_decide (pattern = "docker.observe") && isDockerObserveEvent event).

Definition transitionRestartsStopped (status : string) (patch : StatePatch) : bool :=
  if bool_decide (status ≠ "exited" ∧ status ≠ "created" ∧ status ≠ "dead") then false
  else match pStatus patch with
       | Some st => bool_decide (st = "running" ∨ st = "restarting" ∨ st = "paused")
       | None => false
       end.

Definition automaticRestartAllowedLocked (c : Container) : bool :=
  if manuallyStopped c || removed c || bool_decide (Status c ≠ "exited")
     || bool_decide (StartCount c = 0)%Z
  then false
  else
    let policy := cRestartPolicy c in
    if bool_decide (PolicyName policy = "always" ∨ PolicyName policy = "unless-stopped") then true
    else if bool_decide (PolicyName policy = "on-failure") then
      bool_decide (ExitCode c ≠ 0)%Z &&
      (bool_decide (MaximumRetryCount policy = 0)%Z
       || bool_decide (automaticRestarts c < MaximumRetryCount policy)%Z)
    else false.

(** The loop of [advance] from the transition number [index] on. *)
Fixpoint advance_loop (now : Time) (event : string) (count : Z) (index : nat)
    (transitions : list Transition) : prog CState string :=
  match transitions with
  | [] => mret EmptyString
  | t :: rest => λ s,
    let c := this s in
    let continue := advance_loop now event count (S index) rest in
    if tOnce t && default false (AppliedTransitions c !! index) then continue s
    else if negb (transitionEventMatches (tEvent t) event) then continue s
    else
      let transitionCount :=
        if bool_decide (tEvent t = "docker.observe")
        then counter (Counters c) "docker.observe" else count in
      if bool_decide (0 < tCount t ∧ tCount t ≠ transitionCount)%Z then continue s
      else if bool_decide (tWhenStatus t ≠ EmptyString ∧ tWhenStatus t ≠ Status c) then continue s
      else if bool_decide (tWhenHealth t ≠ EmptyString ∧ tWhenHealth t ≠ hlStatus (Health c))
           then continue s
      else
        let restarts := transitionRestartsStopped (Status c) (tSet t) in
        if restarts && negb (automaticRestartAllowedLocked c) then continue s
        else
          ((if restarts
            then modify_this (λ c, c <| automaticRestarts := wrap64 (automaticRestarts c + 1) |>)
            else mret ());;
           applyPatchLocked now (tSet t);;
           (if tOnce t
            then modify_this (λ c, c <| AppliedTransitions := <[index := true]> (AppliedTransitions c) |>)
            else mret ());;
           mret ("transition[" +:+ Itoa (Z.of_nat index) +:+ "]")) s
  end.

Definition count_event (event : string) (c : Container) : Container :=
  let c := c <| Counters := bump event (Counters c) |> in
  if isDockerObserveEvent event
  then c <| Counters := bump "docker.observe" (Counters c) |> else c.

Definition advance (now : Time) (event : string) : prog CState eventAdvance :=
  s ← get;
  let count := counter (bump event (Counters (this s))) event in
  modify_this (count_event event);;
  transition ← advance_loop now event count 0 (Transitions (cScenario (this s)));
  s' ← get;
  mret (mkAdvance count (stateSnapshotLocked (this s)) (stateSnapshotLocked (this s')) transition).

Definition eventCount (event : string) (c : Container) : Z := counter (Counters c) event.

Definition isRunning (c : Container) : bool := Running c && negb (Restarting c) && negb (Dead c).

Definition isDockerPSVisible (c : Container) : bool := Running c && negb (Dead c).

(** * Configured replies *)

(** [items, ok := m[key]; if !ok { items, ok = m["*"] }] *)
Definition lookup_or_wildcard {A} (m : gmap string (list A)) (key : string) : option (list A) :=
  match m !! key with Some items => Some items | None => m !! "*" end.

Definition routeResponse (route : string) (count : Z) (c : Container) : option HTTPResponse :=
  match lookup_or_wildcard (HTTP (cScenario c)) route with
  | None | Some [] => None
  | Some items => selectHTTPResponse items count (Status c) (hlStatus (Health c))
  end.

Definition redisResponse (command : string) (count : Z) (c : Container) : option RedisResponse :=
  match lookup_or_wildcard (RedisReplies (cScenario c)) (ToUpper command) with
  | None | Some [] => None
  | Some items => selectRedisResponse items count (Status c) (hlStatus (Health c))
  end.

(** * Logs *)

Definition appendLog (line : string) (c : Container) : Container :=
  c <| Logs := keep_last 2000 (Logs c ++ [line]) |>.

Definition allLogs (c : Container) : string := Join (Logs c) EmptyString.
End container.
