(* ===== verification/ContainerFacts.v ===== *)
(** What the methods of [Container] do.

    The file gives a pure reading of the locked bodies of [Container.v]: as long as
    no waiter that is still registered has a result in its channel, a notification
    never blocks, and its effect does not depend on the order in which Go visits
    the waiters.  From it follow the functional specifications of the methods. *)
From S2P Require Import Prelude GoStrings GoTime Cookbook CookbookValidation Container.

(** * Pure readings *)

(** The waiter is one that the notification wakes. *)
Definition wakes (is_removed : bool) (waiter : containerWaiter) : bool :=
  is_removed || negb (bool_decide (condition waiter = "removed")).

(** The waiter is registered and is woken. *)
Definition woken (is_removed : bool) (c : Container) (w : nat) : bool :=
  bool_decide (w ∈ dom (waiters c)) &&
  match waiter_heap c !! w with Some waiter => wakes is_removed waiter | None => false end.

Definition notified (is_removed : bool) (c : Container) : Container :=
  c <| waiter_heap := map_imap (λ w waiter,
         Some (if woken is_removed c w
               then waiter <| buffer := [waitResultLocked c] |> else waiter)) (waiter_heap c) |>
    <| waiters := filter (λ entry, woken is_removed c entry.1 = false) (waiters c) |>.

(** Every registered waiter is allocated and its channel is empty. *)
Definition waiters_ok (c : Container) : Prop :=
  ∀ w, w ∈ dom (waiters c) → ∃ waiter, waiter_heap c !! w = Some waiter ∧ buffer waiter = [].

(** A patch that can be applied in any state: its status is none or a legal one. *)
Definition patch_ok (patch : StatePatch) : Prop :=
  ∀ st, pStatus patch = Some st → st ∈ allowed_values "status".

(** The lifecycle flags are those that the status determines. *)
Definition status_flags4 (status : string) : option (bool * bool * bool * bool) :=
  if bool_decide (status = "running") then Some (true, false, false, false)
  else if bool_decide (status = "paused") then Some (true, true, false, false)
  else if bool_decide (status = "restarting") then Some (true, false, true, false)
  else if bool_decide (status = "created") then Some (false, false, false, false)
  else if bool_decide (status = "exited") then Some (false, false, false, false)
  else if bool_decide (status = "dead") then Some (false, false, false, true)
  else None.

Definition flags_ok (c : Container) : Prop :=
  status_flags4 (Status c) = Some (Running c, Paused c, Restarting c, Dead c).

Definition legal_status (st : string) : bool := bool_decide (is_Some (status_flags4 st)).

(** Does the patch end a process: [oldRunning && c.Status != oldStatus && ...]. *)
Definition exits (old : Container) (st : string) : bool :=
  Running old && bool_decide (st ≠ Status old) &&
  bool_decide (st = "exited" ∨ st = "dead" ∨ st = "restarting").

Definition canonical (c : Container) : Container :=
  match status_flags4 (Status c) with
  | Some (running, paused, restarting, dead) => set_flags running paused restarting dead c
  | None => c
  end.

(** The effect of a legal patch. *)
Definition patched (now : Time) (patch : StatePatch) (s : CState) : CState :=
  let old := this s in
  let c := canonical (patchFields patch old) in
  let c := if exits old (Status c) then notified false c else c in
  let s := patchTimes now (Status old) (s <| this := c |>) in
  s <| this := patchHealthLog now (hlStatus (Health old)) (this s) |>.

(** A process identity exists exactly while a process does. *)
Definition pid_ok (c : Container) : Prop :=
  Pid c ≠ 0%Z ↔ Status c = "running" ∨ Status c = "paused".

(** The well-formedness of a container. *)
Record container_ok (c : Container) : Prop := mkContainerOk {
  ok_flags : flags_ok c;
  ok_pid : pid_ok c;
  ok_health_log : length (hlLog (Health c)) ≤ 5;
  ok_waiters : waiters_ok c
}.

(** The counter of process identities is far from the end of [int]. *)
Definition pid_room (s : CState) : Prop := (0 ≤ syntheticPID s < 2^62)%Z.

(** * Lemmas: notification *)

Section notify.
Context {RO : RangeOrder}.

Definition notify_one (is_removed : bool) (c : Container) (w : nat) : Container :=
  match waiter_heap c !! w with
  | Some waiter =>
    if wakes is_removed waiter
    then c <| waiter_heap := <[w := waiter <| buffer := [waitResultLocked c] |>]> (waiter_heap c) |>
           <| waiters := delete w (waiters c) |>
    else c
  | None => c
  end.

Lemma notify_loop_fold is_removed ws s :
  NoDup ws →
  (∀ w, w ∈ ws → ∃ waiter, waiter_heap (this s) !! w = Some waiter ∧ buffer waiter = []) →
  notify_loop is_removed ws s = (s <| this := foldl (notify_one is_removed) (this s) ws |>, Done ()).
Proof.
  revert s. induction ws as [|w ws IH]; intros s Hnd Hws; [by destruct s|].
  apply NoDup_cons in Hnd as [Hw Hnd]. simpl. unfold notify_one at 2, wakes.
  destruct (Hws w) as (waiter & Hheap & Hbuf); [by left|]. rewrite Hheap, Hbuf.
  destruct is_removed, (bool_decide (condition waiter = "removed")); simpl;
    (rewrite IH; [done|done|]); intros w' Hw'; simpl; auto using list_elem_of_further;
    (destruct (Hws w') as (waiter' & ? & ?); [by right|]); exists waiter';
    rewrite ?lookup_insert_ne by (intros ->; done); done.
Qed.

Definition woken_in (is_removed : bool) (c : Container) (ws : list nat) (w : nat) : bool :=
  bool_decide (w ∈ ws) &&
  match waiter_heap c !! w with Some waiter => wakes is_removed waiter | None => false end.

Lemma woken_in_fresh is_removed c ws i : i ∉ ws → woken_in is_removed c ws i = false.
Proof. intros ?. unfold woken_in. by rewrite bool_decide_false. Qed.

Lemma woken_in_range is_removed c i site :
  woken_in is_removed c (range site (waiters c)).*1 i = woken is_removed c i.
Proof.
  unfold woken_in, woken. f_equal. apply bool_decide_ext.
  rewrite elem_of_dom, list_elem_of_fmap. split.
  - intros ([w x] & -> & Hw%elem_of_range). by exists x.
  - intros [x Hx]. exists (i, x). by rewrite elem_of_range.
Qed.

Lemma woken_in_cons is_removed c w ws i :
  w ∉ ws →
  woken_in is_removed c (w :: ws) i =
  if decide (i = w)
  then match waiter_heap c !! w with Some waiter => wakes is_removed waiter | None => false end
  else woken_in is_removed c ws i.
Proof.
  intros Hw. unfold woken_in. destruct (decide (i = w)) as [->|].
  - by rewrite bool_decide_true by (by left).
  - f_equal. apply bool_decide_ext. rewrite elem_of_cons. naive_solver.
Qed.

(** The rest of the loop does not look at the waiter it has passed. *)
Lemma woken_in_step is_removed c w ws i :
  w ∉ ws → woken_in is_removed (notify_one is_removed c w) ws i = woken_in is_removed c ws i.
Proof.
  intros Hw. unfold woken_in. case_bool_decide as Hi; [|done]. simpl.
  assert (i ≠ w) by (intros ->; done). unfold notify_one.
  destruct (waiter_heap c !! w) as [waiter|]; [|done].
  destruct (wakes is_removed waiter); simpl; by rewrite ?lookup_insert_ne by done.
Qed.

Lemma waitResult_step is_removed c w :
  waitResultLocked (notify_one is_removed c w) = waitResultLocked c.
Proof. unfold notify_one. by repeat case_match. Qed.

Lemma fold_notify is_removed ws c :
  NoDup ws →
  foldl (notify_one is_removed) c ws =
  c <| waiter_heap := map_imap (λ w waiter,
         Some (if woken_in is_removed c ws w
               then waiter <| buffer := [waitResultLocked c] |> else waiter)) (waiter_heap c) |>
    <| waiters := filter (λ entry, woken_in is_removed c ws entry.1 = false) (waiters c) |>.
Proof.
  revert c. induction ws as [|w ws IH]; intros c Hnd.
  - destruct c; simpl. f_equal.
    + apply map_eq. intros w. rewrite map_lookup_filter. by destruct (_ !! w).
    + apply map_eq. intros w. rewrite map_lookup_imap. by destruct (_ !! w).
  - apply NoDup_cons in Hnd as [Hw Hnd]. simpl foldl. rewrite IH by done.
    rewrite waitResult_step.
    transitivity ((notify_one is_removed c w)
      <| waiter_heap := map_imap (λ i waiter,
           Some (if woken_in is_removed c (w :: ws) i
                 then waiter <| buffer := [waitResultLocked c] |> else waiter)) (waiter_heap c) |>
      <| waiters := filter (λ entry, woken_in is_removed c (w :: ws) entry.1 = false) (waiters c) |>).
    2: { unfold notify_one. by repeat case_match. }
    unfold fset. f_equal; apply map_eq; intros i; simpl.
    + apply option_eq. intros x.
      rewrite !map_lookup_filter_Some, woken_in_step, woken_in_cons by done. simpl.
      unfold notify_one. destruct (decide (i = w)) as [->|Hiw].
      * rewrite woken_in_fresh by done. destruct (waiter_heap c !! w); [|done].
        destruct (wakes _ _); simpl; rewrite ?lookup_delete_eq; naive_solver.
      * repeat case_match; simpl; rewrite ?lookup_delete_ne by done; done.
    + rewrite !map_lookup_imap, woken_in_step, woken_in_cons by done.
      unfold notify_one. destruct (decide (i = w)) as [->|Hiw].
      * rewrite woken_in_fresh by done. destruct (waiter_heap c !! w) eqn:Hh; simpl; [|by rewrite Hh].
        destruct (wakes _ _); simpl; rewrite ?lookup_insert_eq, ?Hh; done.
      * repeat case_match; simpl; rewrite ?lookup_insert_ne by done; done.
Qed.

(** A notification is total and does not depend on the iteration order. *)
Lemma notifyWaitersLocked_spec is_removed s :
  waiters_ok (this s) →
  notifyWaitersLocked is_removed s = (s <| this := notified is_removed (this s) |>, Done ()).
Proof.
  intros Hok. unfold notifyWaitersLocked. rewrite notify_loop_fold, fold_notify.
  - unfold notified. destruct s as [c p]; simpl. do 3 f_equal.
    + apply map_filter_ext. intros i x _. simpl. by rewrite woken_in_range.
    + apply map_eq. intros i. by rewrite !map_lookup_imap, woken_in_range.
  - apply range_NoDup.
  - apply range_NoDup.
  - intros w Hw. apply Hok. apply elem_of_dom.
    apply list_elem_of_fmap in Hw as ([w' x] & -> & Hw). apply elem_of_range in Hw. by exists x.
Qed.
End notify.

(** * Lemmas: patches *)

(** Everything a patch leaves alone. *)
Definition static (c : Container) : Container :=
  c <| waiters := ∅ |> <| waiter_heap := ∅ |> <| Status := EmptyString |> <| Running := false |>
    <| Paused := false |> <| Restarting := false |> <| Dead := false |> <| Pid := 0%Z |>
    <| ExitCode := 0%Z |> <| cError := EmptyString |> <| RestartCount := 0%Z |>
    <| Health := mkHealth EmptyString 0 [] |> <| Started := zero_time |> <| Finished := zero_time |>.

Lemma status_flags4_legal st : legal_status st = true ↔ ∃ f, status_flags4 st = Some f.
Proof. apply bool_decide_eq_true. Qed.

Lemma legal_status_allowed st : st ∈ allowed_values "status" → legal_status st = true.
Proof.
  unfold allowed_values. rewrite bool_decide_true by done.
  rewrite !elem_of_cons, elem_of_nil. by intros [->|[->|[->|[->|[->|[]]]]]].
Qed.

Lemma flags_ok_legal c : flags_ok c → legal_status (Status c) = true.
Proof. unfold flags_ok. rewrite status_flags4_legal. eauto. Qed.

Lemma canonicalFlags_spec c :
  canonicalFlags c = if legal_status (Status c) then Some (canonical c) else None.
Proof.
  unfold canonicalFlags, canonical, legal_status, status_flags4.
  case_bool_decide; [done|]. case_bool_decide; [done|]. case_bool_decide; [done|].
  case_bool_decide as Hce.
  - by destruct Hce as [->| ->].
  - rewrite (bool_decide_false (_ = "created")), (bool_decide_false (_ = "exited")) by naive_solver.
    case_bool_decide; [done|]. rewrite bool_decide_false; [done|]. by intros [? ?].
Qed.

Lemma canonical_Status c : Status (canonical c) = Status c.
Proof. unfold canonical. by destruct (status_flags4 _) as [[[[]]]|]. Qed.

Lemma canonical_static c : static (canonical c) = static c.
Proof. unfold canonical. by destruct (status_flags4 _) as [[[[]]]|]. Qed.

Lemma canonical_flags_ok c : legal_status (Status c) = true → flags_ok (canonical c).
Proof.
  intros [f Hf]%status_flags4_legal. unfold flags_ok. rewrite canonical_Status.
  unfold canonical. rewrite Hf. by destruct f as [[[]]].
Qed.

Lemma patchFields_static patch c : static (patchFields patch c) = static c.
Proof. unfold patchFields. by case_bool_decide. Qed.

Lemma canonical_waiters_ok c : waiters_ok c → waiters_ok (canonical c).
Proof. unfold canonical. by destruct (status_flags4 _) as [[[[]]]|]. Qed.

Lemma patchFields_waiters_ok patch c : waiters_ok c → waiters_ok (patchFields patch c).
Proof. unfold patchFields. by case_bool_decide. Qed.

Lemma patchFields_Status patch c :
  Status (patchFields patch c) = default (Status c) (pStatus patch).
Proof. unfold patchFields. by case_bool_decide. Qed.

Lemma patch_ok_legal patch c :
  flags_ok c → patch_ok patch → legal_status (Status (patchFields patch c)) = true.
Proof.
  intros Hc Hp. rewrite patchFields_Status. unfold patch_ok in Hp.
  destruct (pStatus patch); simpl; [by apply legal_status_allowed, Hp|by apply flags_ok_legal].
Qed.

Lemma notified_static is_removed c : static (notified is_removed c) = static c.
Proof. done. Qed.

Lemma notified_waiters_ok is_removed c : waiters_ok c → waiters_ok (notified is_removed c).
Proof.
  intros Hok w [u Hw]%elem_of_dom. simpl in *. apply map_lookup_filter_Some in Hw as [Hw Hwoken].
  destruct (Hok w) as (waiter & Hheap & Hbuf); [by apply elem_of_dom; eauto|].
  exists waiter. rewrite map_lookup_imap, Hheap. simpl in *. by rewrite Hwoken.
Qed.

(** [patchTimes] sets the times, the process identity and the counter only. *)
Definition untimed (c : Container) : Container :=
  c <| Started := zero_time |> <| Finished := zero_time |> <| Pid := 0%Z |>.

Lemma beginTimes_untimed now old s : untimed (this (beginTimes now old s)) = untimed (this s).
Proof. unfold beginTimes. by repeat case_bool_decide. Qed.

Lemma endTimes_untimed now b s : untimed (this (endTimes now b s)) = untimed (this s).
Proof. by destruct b. Qed.

Lemma patchTimes_untimed now old s : untimed (this (patchTimes now old s)) = untimed (this s).
Proof.
  assert (∀ (b : bool) s, untimed (this (if b then s <| this := (this s) <| Pid := 0%Z |> |> else s))
    = untimed (this s)) as Hcreated by by intros [].
  unfold patchTimes. by rewrite Hcreated, !endTimes_untimed, beginTimes_untimed.
Qed.

Lemma patchTimes_keep {A} (f : Container → A) now old s :
  (∀ c, f (untimed c) = f c) → f (this (patchTimes now old s)) = f (this s).
Proof. intros Hf. by rewrite <-Hf, patchTimes_untimed, Hf. Qed.

Lemma patchTimes_static now old s : static (this (patchTimes now old s)) = static (this s).
Proof. by apply (patchTimes_keep static). Qed.

Lemma patchHealthLog_static now old c : static (patchHealthLog now old c) = static c.
Proof. unfold patchHealthLog. by case_bool_decide. Qed.

Lemma patchHealthLog_health now old c :
  patchHealthLog now old c = c <| Health := Health (patchHealthLog now old c) |>.
Proof. unfold patchHealthLog. case_bool_decide; by destruct c. Qed.

Lemma patchHealthLog_status now old c :
  hlStatus (Health (patchHealthLog now old c)) = hlStatus (Health c).
Proof. unfold patchHealthLog. by case_bool_decide. Qed.

Lemma patchHealthLog_bound now old c :
  length (hlLog (Health c)) ≤ 5 → length (hlLog (Health (patchHealthLog now old c))) ≤ 5.
Proof. unfold patchHealthLog. case_bool_decide; simpl; [|done]. intros _. apply length_keep_last. Qed.

(** The body of a patch on a well-formed container is [patched]. *)
Lemma applyPatchLocked_spec {RO : RangeOrder} {UN : Unicode} now patch s :
  waiters_ok (this s) → legal_status (Status (patchFields patch (this s))) = true →
  applyPatchLocked now patch s = (patched now patch s, Done ()).
Proof.
  intros Hw Hlegal. unfold applyPatchLocked, patched. rewrite canonicalFlags_spec, Hlegal.
  rewrite canonical_Status. unfold exits.
  destruct (Running (this s) && _ && _); unfold mbind, prog_bind; [|done].
  rewrite notifyWaitersLocked_spec; [done|]. by apply canonical_waiters_ok, patchFields_waiters_ok.
Qed.

(** ** Fields after a patch *)

Lemma patched_static now patch s : static (this (patched now patch s)) = static (this s).
Proof.
  assert (∀ (b : bool) c, static (if b then notified false c else c) = static c) as Hn by by intros [].
  unfold patched. cbn [this fset]. rewrite patchHealthLog_static, patchTimes_static. cbn [this].
  by rewrite Hn, canonical_static, patchFields_static.
Qed.

(** The fields that a patch sets by [patchFields] and [canonical] alone. *)
Definition core (c : Container) : Container :=
  c <| waiters := ∅ |> <| waiter_heap := ∅ |> <| Pid := 0%Z |>
    <| Health := mkHealth EmptyString 0 [] |> <| Started := zero_time |> <| Finished := zero_time |>.

Lemma patched_core now patch s :
  core (this (patched now patch s)) = core (canonical (patchFields patch (this s))).
Proof.
  assert (∀ old c, core (patchHealthLog now old c) = core c) as Hhealth.
  { intros old c. unfold patchHealthLog. by case_bool_decide. }
  assert (∀ old s, core (this (patchTimes now old s)) = core (this s)) as Htimes.
  { intros old s'. by apply (patchTimes_keep core). }
  assert (∀ (b : bool) c, core (if b then notified false c else c) = core c) as Hnotified by by intros [].
  unfold patched. cbn [this fset]. rewrite Hhealth, Htimes. cbn [this]. apply Hnotified.
Qed.

(** A field [f] that [core] keeps. *)
Lemma patched_field {A} (f : Container → A) now patch s :
  (∀ c, f (core c) = f c) →
  f (this (patched now patch s)) = f (canonical (patchFields patch (this s))).
Proof. intros Hf. by rewrite <-Hf, patched_core, Hf. Qed.

Lemma canonical_keep {A} (f : Container → A) c :
  (∀ c ru pa re de, f (set_flags ru pa re de c) = f c) → f (canonical c) = f c.
Proof. intros Hf. unfold canonical. by destruct (status_flags4 _) as [[[[]]]|]. Qed.

Lemma patched_Status now patch s :
  Status (this (patched now patch s)) = default (Status (this s)) (pStatus patch).
Proof. by rewrite patched_field, canonical_Status, patchFields_Status. Qed.

Lemma patched_ExitCode now patch s :
  ExitCode (this (patched now patch s)) = default (ExitCode (this s)) (pExitCode patch).
Proof. rewrite patched_field, canonical_keep by done. unfold patchFields. by case_bool_decide. Qed.

Lemma patched_Error now patch s :
  cError (this (patched now patch s)) = default (cError (this s)) (pError patch).
Proof. rewrite patched_field, canonical_keep by done. unfold patchFields. by case_bool_decide. Qed.

Lemma patched_RestartCount now patch s :
  RestartCount (this (patched now patch s)) =
  let n := default (RestartCount (this s)) (pRestartCount patch) in
  if bool_decide (pRestartCountDelta patch ≠ 0)%Z then wrap64 (n + pRestartCountDelta patch) else n.
Proof. rewrite patched_field, canonical_keep by done. unfold patchFields. by case_bool_decide. Qed.

Lemma patched_flags_ok now patch s :
  legal_status (Status (patchFields patch (this s))) = true → flags_ok (this (patched now patch s)).
Proof.
  intros Hlegal. apply canonical_flags_ok in Hlegal. unfold flags_ok in *.
  by rewrite !(patched_field Status), (patched_field Running), (patched_field Paused),
    (patched_field Restarting), (patched_field Dead).
Qed.

(** A field that neither a patch nor the notification touches. *)
Lemma patched_keep {A} (f : Container → A) now patch s :
  (∀ c, f (static c) = f c) → f (this (patched now patch s)) = f (this s).
Proof. intros Hf. by rewrite <-Hf, patched_static, Hf. Qed.

(** ** Process identities and waiters after a patch *)

Lemma pid_fresh n : (0 ≤ n < 2^62)%Z → wrap64 (1000 + wrap64 (n + 1)) ≠ 0%Z.
Proof.
  intros ?. rewrite (wrap64_id (n + 1)) by (unfold is_int64, int64_min, int64_max; lia).
  rewrite wrap64_id by (unfold is_int64, int64_min, int64_max; lia). lia.
Qed.


(** The process identity after the four conditionals. *)
Definition next_pid (n pid : Z) (old st : string) : Z :=
  if bool_decide (st = "created") then 0%Z
  else if bool_decide (st = "restarting" ∧ old ≠ "restarting") then 0%Z
  else if bool_decide ((st = "exited" ∨ st = "dead") ∧ old ≠ st) then 0%Z
  else if bool_decide (st = "running" ∧ old ≠ "running") && bool_decide (pid = 0%Z)
  then wrap64 (1000 + wrap64 (n + 1)) else pid.

Lemma beginTimes_Status now old s : Status (this (beginTimes now old s)) = Status (this s).
Proof. exact (f_equal Status (beginTimes_untimed now old s)). Qed.

Lemma endTimes_Status now b s : Status (this (endTimes now b s)) = Status (this s).
Proof. exact (f_equal Status (endTimes_untimed now b s)). Qed.

Lemma patchTimes_Pid now old s :
  Pid (this (patchTimes now old s)) = next_pid (syntheticPID s) (Pid (this s)) old (Status (this s)).
Proof.
  assert (∀ (b : bool) s, Pid (this (if b then s <| this := (this s) <| Pid := 0%Z |> |> else s))
    = if b then 0%Z else Pid (this s)) as Hcreated by by intros [].
  assert (∀ b s, Pid (this (endTimes now b s)) = if b then 0%Z else Pid (this s)) as Hend by by intros [].
  unfold patchTimes. rewrite Hcreated, !Hend, !endTimes_Status, !beginTimes_Status.
  unfold next_pid, beginTimes. repeat case_bool_decide; done || naive_solver.
Qed.

Lemma next_pid_ok n pid old st :
  (pid ≠ 0%Z ↔ old = "running" ∨ old = "paused") → (st = "paused" → old = "paused") →
  legal_status st = true → (0 ≤ n < 2^62)%Z →
  next_pid n pid old st ≠ 0%Z ↔ st = "running" ∨ st = "paused".
Proof.
  intros Hpid Hpaused [f Hlegal]%status_flags4_legal Hroom%pid_fresh.
  unfold status_flags4 in Hlegal. unfold next_pid.
  repeat case_bool_decide; subst; try done; simpl; naive_solver.
Qed.

(** [patched] in two named halves: the container after the flags and the
    notification, then the times and the health log. *)
Definition signalled (patch : StatePatch) (old : Container) : Container :=
  let c := canonical (patchFields patch old) in
  if exits old (Status c) then notified false c else c.

Lemma patched_halves now patch s :
  patched now patch s =
  (let s1 := patchTimes now (Status (this s)) (s <| this := signalled patch (this s) |>) in
   s1 <| this := patchHealthLog now (hlStatus (Health (this s))) (this s1) |>).
Proof. done. Qed.

Lemma signalled_keep {A} (f : Container → A) patch c :
  (∀ b c, f (notified b c) = f c) →
  f (signalled patch c) = f (canonical (patchFields patch c)).
Proof. intros Hf. unfold signalled. cbv zeta. by destruct (exits _ _). Qed.

Lemma signalled_Status patch c : Status (signalled patch c) = default (Status c) (pStatus patch).
Proof. by rewrite signalled_keep, canonical_Status, patchFields_Status. Qed.

Lemma signalled_waiters_ok patch c : waiters_ok c → waiters_ok (signalled patch c).
Proof.
  intros Hok%(patchFields_waiters_ok patch)%canonical_waiters_ok. unfold signalled. cbv zeta.
  destruct (exits _ _); [by apply notified_waiters_ok|done].
Qed.

(** The two stages that follow keep what does not concern them. *)
Lemma patched_late {A} (f : Container → A) now patch s :
  (∀ c, f (untimed c) = f c) → (∀ c h, f (c <| Health := h |>) = f c) →
  f (this (patched now patch s)) = f (signalled patch (this s)).
Proof.
  intros Ht Hh. rewrite patched_halves. cbv zeta. cbn [this fset].
  rewrite patchHealthLog_health, Hh. by rewrite (patchTimes_keep f).
Qed.

Lemma patched_waiters_ok now patch s :
  waiters_ok (this s) → waiters_ok (this (patched now patch s)).
Proof.
  intros Hok%(signalled_waiters_ok patch). unfold waiters_ok in *.
  by rewrite (patched_late waiters), (patched_late waiter_heap).
Qed.

Lemma signalled_Health patch c :
  Health (signalled patch c) =
  (Health c) <| hlStatus := default (hlStatus (Health c)) (pHealth patch) |>.
Proof.
  rewrite signalled_keep, canonical_keep by done. unfold patchFields. by case_bool_decide.
Qed.

Lemma patched_Health now patch s :
  hlStatus (Health (this (patched now patch s))) = default (hlStatus (Health (this s))) (pHealth patch).
Proof.
  rewrite patched_halves. cbv zeta. cbn [this fset]. rewrite patchHealthLog_status.
  rewrite (patchTimes_keep Health) by done. cbn [this fset]. by rewrite signalled_Health.
Qed.

Lemma patched_health_log now patch s :
  length (hlLog (Health (this s))) ≤ 5 → length (hlLog (Health (this (patched now patch s)))) ≤ 5.
Proof.
  intros Hlen. rewrite patched_halves. cbv zeta. cbn [this fset].
  apply patchHealthLog_bound. rewrite (patchTimes_keep Health) by done. cbn [this fset]. by rewrite signalled_Health.
Qed.

Lemma patched_Pid now patch s :
  Pid (this (patched now patch s)) =
  next_pid (syntheticPID s) (Pid (this s)) (Status (this s))
    (default (Status (this s)) (pStatus patch)).
Proof.
  assert (∀ h c, Pid (patchHealthLog now h c) = Pid c) as Hh.
  { intros h c. by rewrite patchHealthLog_health. }
  rewrite patched_halves. cbv zeta. cbn [this fset]. rewrite Hh.
  rewrite patchTimes_Pid. cbn [this syntheticPID fset]. rewrite signalled_Status, signalled_keep by done.
  rewrite canonical_keep by done. unfold patchFields. by case_bool_decide.
Qed.

Lemma patched_syntheticPID now patch s :
  pid_room s → (syntheticPID s ≤ syntheticPID (patched now patch s) ≤ syntheticPID s + 1)%Z.
Proof.
  intros Hroom. rewrite patched_halves. cbv zeta. cbn [syntheticPID fset].
  assert (∀ b s, syntheticPID (endTimes now b s) = syntheticPID s) as Hend by by intros [].
  assert (∀ (b : bool) s c, syntheticPID (if b then s <| this := c s |> else s) = syntheticPID s)
    as Hcreated by by intros [].
  unfold patchTimes. cbv zeta. rewrite (Hcreated _ _ (λ s, (this s) <| Pid := 0%Z |>)), !Hend.
  unfold beginTimes. unfold pid_room in Hroom. repeat case_bool_decide; cbn [syntheticPID fset]; try lia.
  rewrite wrap64_id; [lia|]. unfold is_int64, int64_min, int64_max. lia.
Qed.

(** A legal patch keeps a container well formed. *)
Lemma patched_ok now patch s :
  container_ok (this s) → patch_ok patch → pid_room s → container_ok (this (patched now patch s)).
Proof.
  intros [Hf Hp Hh Hw] Hpatch Hroom. pose proof (patch_ok_legal _ _ Hf Hpatch) as Hlegal. split.
  - by apply patched_flags_ok.
  - unfold pid_ok. rewrite patched_Pid, patched_Status. apply next_pid_ok; try done.
    + intros Hst. destruct (pStatus patch) as [st|] eqn:Hp'; [|done]. simpl in Hst. subst st.
      apply Hpatch in Hp'. unfold allowed_values in Hp'. simpl in Hp'. set_solver.
    + by rewrite <-patchFields_Status.
  - by apply patched_health_log.
  - by apply patched_waiters_ok.
Qed.
