(* ===== verification/Json.v ===== *)
(** The part of [encoding/json] the program uses: texts to values.

    [parse_value] is the grammar of RFC 8259 as Go's scanner accepts it (no more
    than [max_depth] open brackets, no raw control characters in strings), with
    Go's decoding of strings: an unpaired surrogate escape and a byte that is not
    UTF-8 become U+FFFD.  A number keeps its text. *)
From Stdlib Require Import Ascii.
From S2P Require Import Prelude GoStrings.

Inductive json : Type :=
| JNull
| JBool (b : bool)
| JNumber (text : string)
| JString (s : string)
| JArray (items : list json)
| JObject (members : list (string * json))
| JRaw (text : string). (* a [json.RawMessage] to be written; never the result of a parse *)

(** * Strings *)

(** [utf8.EncodeRune] for a rune that is a scalar value. *)
Definition byte_at (z : Z) : ascii := ascii_of_N (Z.to_N z).
Definition encode_rune (r : Z) : string :=
  (if bool_decide (r < 128) then String (byte_at r) EmptyString
   else if bool_decide (r < 2048)
   then String (byte_at (192 + r / 64)) (String (byte_at (128 + r `mod` 64)) EmptyString)
   else if bool_decide (r < 65536)
   then String (byte_at (224 + r / 4096)) (String (byte_at (128 + (r / 64) `mod` 64))
          (String (byte_at (128 + r `mod` 64)) EmptyString))
   else String (byte_at (240 + r / 262144)) (String (byte_at (128 + (r / 4096) `mod` 64))
          (String (byte_at (128 + (r / 64) `mod` 64))
            (String (byte_at (128 + r `mod` 64)) EmptyString))))%Z.

Definition encode_runes (l : list Z) : string := foldr (λ r acc, encode_rune r +:+ acc) EmptyString l.

Definition hex_value (c : ascii) : option Z :=
  if is_digit c then Some (byte_of c - 48)%Z
  else if in_range "a" "f" c then Some (byte_of c - 87)%Z
  else if in_range "A" "F" c then Some (byte_of c - 55)%Z
  else None.

Definition hex4 (a b c d : ascii) : option Z :=
  a ← hex_value a; b ← hex_value b; c ← hex_value c; d ← hex_value d;
  Some (((a * 16 + b) * 16 + c) * 16 + d)%Z.

Definition is_surrogate (r : Z) : bool := bool_decide (55296 ≤ r ≤ 57343)%Z.
Definition surrogate_pair (r1 r2 : Z) : option Z :=
  if bool_decide (55296 ≤ r1 ≤ 56319 ∧ 56320 ≤ r2 ≤ 57343)%Z
  then Some ((r1 - 55296) * 1024 + (r2 - 56320) + 65536)%Z else None.

(** The byte a one-letter escape stands for. *)
Definition escape_byte (c : ascii) : option ascii :=
  match c with
  | "034" | "\" | "/" => Some c
  | "b" => Some "008"
  | "f" => Some "012"
  | "n" => Some "010"
  | "r" => Some "013"
  | "t" => Some "009"
  | _ => None
  end%char.

(** The text of a string literal, from after the opening quote: the body as
    written, and what follows the closing quote. *)
Fixpoint scan_string (s : string) : option (string * string) :=
  match s with
  | EmptyString => None
  | String c s =>
    if bool_decide (c = "034")%char then Some (EmptyString, s)
    else if bool_decide (byte_of c < 32)%Z then None
    else if bool_decide (c = "\")%char then
      match s with
      | EmptyString => None
      | String e t =>
        if bool_decide (e = "u")%char then
          match t with
          | String a (String b (String c' (String d u))) =>
            hex4 a b c' d;;
            prod_map (λ body, "\u" +:+ String a (String b (String c' (String d body)))) id
              <$> scan_string u
          | _ => None
          end
        else escape_byte e;; prod_map (λ body, String c (String e body)) id <$> scan_string t
      end
    else prod_map (String c) id <$> scan_string s
  end.

(** The escapes of a body [scan_string] accepts. *)
Fixpoint unescape (s : string) : string :=
  match s with
  | EmptyString => EmptyString
  | String "\" (String "u" (String a (String b (String c (String d t))))) =>
    match hex4 a b c d with
    | None => EmptyString
    | Some r =>
      if is_surrogate r then
        match t with
        | String "\" (String "u" (String e (String f (String g (String h u))))) =>
          match r2 ← hex4 e f g h; surrogate_pair r r2 with
          | Some full => encode_rune full +:+ unescape u
          | None => encode_rune RuneError +:+ unescape t
          end
        | _ => encode_rune RuneError +:+ unescape t
        end
      else encode_rune r +:+ unescape t
    end
  | String "\" (String e t) =>
    match escape_byte e with
    | Some c => String c (unescape t)
    | None => EmptyString
    end
  | String c s => String c (unescape s)
  end.

Definition unquote (body : string) : string := unescape (encode_runes (runes body)).

(** * Numbers and literals *)

Fixpoint scan_digits (s : string) : string * string :=
  match s with
  | String c t => if is_digit c then prod_map (String c) id (scan_digits t) else (EmptyString, s)
  | EmptyString => (EmptyString, EmptyString)
  end.

(** At least one digit. *)
Definition scan_digits1 (s : string) : option (string * string) :=
  match scan_digits s with
  | (EmptyString, _) => None
  | r => Some r
  end.

(** One character out of [chars], if the text begins with one. *)
Definition optional (chars s : string) : string * string :=
  match s with
  | String c t => if ContainsByte chars c then (String c EmptyString, t) else (EmptyString, s)
  | EmptyString => (EmptyString, EmptyString)
  end.

Definition scan_int (s : string) : option (string * string) :=
  match optional "0" s with
  | (EmptyString, _) => scan_digits1 s
  | r => Some r
  end.

Definition scan_frac (s : string) : option (string * string) :=
  match optional "." s with
  | (EmptyString, _) => Some (EmptyString, s)
  | (point, t) => prod_map (String.append point) id <$> scan_digits1 t
  end.

Definition scan_exp (s : string) : option (string * string) :=
  match optional "eE" s with
  | (EmptyString, _) => Some (EmptyString, s)
  | (e, t) =>
    let '(sign, t) := optional "+-" t in
    prod_map (λ d, e +:+ sign +:+ d) id <$> scan_digits1 t
  end.

Definition scan_number (s : string) : option (string * string) :=
  let '(sign, s) := optional "-" s in
  '(int, s) ← scan_int s;
  '(frac, s) ← scan_frac s;
  '(exp, s) ← scan_exp s;
  Some (sign +:+ int +:+ frac +:+ exp, s).

Fixpoint skip_space (s : string) : string :=
  match s with
  | String (" " | "009" | "010" | "013")%char t => skip_space t
  | _ => s
  end.

(** * Values *)

Definition max_depth : Z := 10000.

(** The text after [c], white space before it skipped. *)
Definition expect (c : ascii) (s : string) : option string :=
  match skip_space s with
  | String d t => if bool_decide (d = c) then Some t else None
  | EmptyString => None
  end.

(** The text after a literal. *)
Definition literal (s word : string) : option string :=
  if HasPrefix s word then Some (drop_string (String.length word) s) else None.

Definition scalar (s : string) : option (json * string) :=
  match literal s "true", literal s "false", literal s "null" with
  | Some t, _, _ => Some (JBool true, t)
  | _, Some t, _ => Some (JBool false, t)
  | _, _, Some t => Some (JNull, t)
  | _, _, _ => '(text, t) ← scan_number s; Some (JNumber text, t)
  end.

(** [fuel] bounds the depth of calls; [parse_prefix] gives enough. *)
Fixpoint parse_value (fuel : nat) (depth : Z) (s : string) : option (json * string) :=
  match fuel with
  | 0 => None
  | S fuel =>
    match skip_space s with
    | EmptyString => None
    | String c t =>
      if bool_decide (c = "{")%char then
        if bool_decide (max_depth ≤ depth)%Z then None
        else match expect "}" t with
        | Some u => Some (JObject [], u)
        | None => prod_map JObject id <$> parse_members fuel (depth + 1) t
        end
      else if bool_decide (c = "[")%char then
        if bool_decide (max_depth ≤ depth)%Z then None
        else match expect "]" t with
        | Some u => Some (JArray [], u)
        | None => prod_map JArray id <$> parse_items fuel (depth + 1) t
        end
      else if bool_decide (c = "034")%char then
        '(body, u) ← scan_string t; Some (JString (unquote body), u)
      else scalar (String c t)
    end
  end
with parse_items (fuel : nat) (depth : Z) (s : string) : option (list json * string) :=
  match fuel with
  | 0 => None
  | S fuel =>
    '(v, t) ← parse_value fuel depth s;
    match expect "," t with
    | Some u => prod_map (cons v) id <$> parse_items fuel depth u
    | None => u ← expect "]" t; Some ([v], u)
    end
  end
with parse_members (fuel : nat) (depth : Z) (s : string) : option (list (string * json) * string) :=
  match fuel with
  | 0 => None
  | S fuel =>
    t ← expect "034" s;
    '(body, t) ← scan_string t;
    t ← expect ":" t;
    '(v, t) ← parse_value fuel depth t;
    match expect "," t with
    | Some u => prod_map (cons (unquote body, v)) id <$> parse_members fuel depth u
    | None => u ← expect "}" t; Some ([(unquote body, v)], u)
    end
  end.

(** The first value of a text, and the text after it. *)
Definition parse_prefix (s : string) : option (json * string) :=
  parse_value (2 * String.length s + 1) 0 s.

(** [json.Unmarshal] reads the whole text. *)
Definition parse (s : string) : option json :=
  '(v, rest) ← parse_prefix s;
  match skip_space rest with EmptyString => Some v | _ => None end.

(** ** Decoding into Go types

    [None] is an [UnmarshalTypeError].  JSON's [null] leaves the variable as it
    is: the zero value of a fresh one. *)

(** The members of an object, the last of those with the same key. *)
Definition last_members {A} (l : list (string * A)) : gmap string A := list_to_map (rev l).

Definition as_object (v : json) : option (gmap string json) :=
  match v with
  | JNull => Some ∅
  | JObject l => Some (last_members l)
  | _ => None
  end.

Definition as_bool (v : json) : option bool :=
  match v with JNull => Some false | JBool b => Some b | _ => None end.
Definition as_string (v : json) : option string :=
  match v with JNull => Some EmptyString | JString s => Some s | _ => None end.

(** [map[string]bool]: the inner option is a nil map. *)
Definition as_bool_map (v : json) : option (option (gmap string bool)) :=
  match v with
  | JNull => Some None
  | JObject l =>
    l ← mapM (λ kx, b ← as_bool kx.2; Some (kx.1, b)) l; Some (Some (last_members l))
  | _ => None
  end.

Definition as_string_list (v : json) : option (list string) :=
  match v with
  | JNull => Some []
  | JArray l => mapM as_string l
  | _ => None
  end.

(** * Writing: [json.Marshal], which escapes HTML *)

Definition hex_lower (n : Z) : ascii := hex_digit (Z.to_N n).
Definition u_escape (r : Z) : string :=
  "\u" +:+ String (hex_lower (r / 4096)) (String (hex_lower ((r / 256) `mod` 16))
    (String (hex_lower ((r / 16) `mod` 16)) (String (hex_lower (r `mod` 16)) EmptyString))).

Definition quote_ascii (c : ascii) : string :=
  match c with
  | "034"%char => String "\" (String "034" EmptyString)
  | "\"%char => "\\"
  | "008"%char => "\b"
  | "012"%char => "\f"
  | "010"%char => "\n"
  | "013"%char => "\r"
  | "009"%char => "\t"
  | "<"%char | ">"%char | "&"%char => u_escape (byte_of c)
  | _ => if bool_decide (byte_of c < 32)%Z then u_escape (byte_of c) else String c EmptyString
  end.

(** The text for the rune at the head of [s], and how many bytes it takes there. *)
Definition quote_rune (s : string) : string * nat :=
  match s with
  | EmptyString => (EmptyString, 0)
  | String c _ =>
    if is_ascii_byte c then (quote_ascii c, 1)
    else match runes s with
    | r :: _ =>
      let width := String.length (encode_rune r) in
      if bool_decide (r = RuneError) && negb (HasPrefix s (encode_rune RuneError))
      then (u_escape RuneError, 1)
      else if bool_decide (r = 8232 ∨ r = 8233)%Z then (u_escape r, width)
      else (encode_rune r, width)
    | [] => (EmptyString, 1)
    end
  end.

(** [skip] counts the bytes of the rune already written. *)
Fixpoint quote_from (s : string) (skip : nat) : string :=
  match s with
  | EmptyString => EmptyString
  | String _ t =>
    match skip with
    | S k => quote_from t k
    | 0 => let '(text, width) := quote_rune s in text +:+ quote_from t (width - 1)
    end
  end.

(** How a [json.RawMessage] is written: the white space between its tokens is left
    out, and strings have their HTML characters escaped.  [skip] counts the bytes of
    a separator already written. *)
Fixpoint compact_from (in_string escaped : bool) (s : string) (skip : nat) : string :=
  match s with
  | EmptyString => EmptyString
  | String c t =>
    match skip with
    | S k => compact_from in_string escaped t k
    | 0 =>
      if bool_decide (c = "<" ∨ c = ">" ∨ c = "&")%char
      then u_escape (byte_of c) +:+ compact_from in_string false t 0
      else if HasPrefix s (encode_rune 8232) || HasPrefix s (encode_rune 8233)
      then (if HasPrefix s (encode_rune 8232) then "\u2028" else "\u2029") +:+ compact_from in_string false t 2
      else if in_string then
        String c (if escaped then compact_from true false t 0
                  else if bool_decide (c = "\")%char then compact_from true true t 0
                  else compact_from (negb (bool_decide (c = "034")%char)) false t 0)
      else
        match c with
        | " " | "009" | "010" | "013" => compact_from false false t 0
        | _ => String c (compact_from (bool_decide (c = "034")) false t 0)
        end%char
    end
  end.
Definition compact (s : string) : string := compact_from false false s 0.

Definition print_string (s : string) : string := dquote +:+ quote_from s 0 +:+ dquote.

Fixpoint print (v : json) : string :=
  match v with
  | JNull => "null"
  | JBool b => if b then "true" else "false"
  | JNumber text => text
  | JString s => print_string s
  | JArray items => "[" +:+ Join (print <$> items) "," +:+ "]"
  | JObject members =>
    "{" +:+ Join ((λ kv, print_string kv.1 +:+ ":" +:+ print kv.2) <$> members) "," +:+ "}"
  | JRaw text => compact text
  end.

Example parse_example :
  parse (" {" +:+ dquote +:+ "a\u00e9" +:+ dquote +:+ " : [ -1.5e+3,null , true]} ")
  = Some (JObject [("a" +:+ encode_rune 233, JArray [JNumber "-1.5e+3"; JNull; JBool true])]).
Proof. by vm_compute. Qed.

Example parse_surrogates :
  parse (dquote +:+ "\ud83d\ude00\ud83d" +:+ dquote)
  = Some (JString (encode_rune 128512 +:+ encode_rune RuneError)).
Proof. by vm_compute. Qed.

Example print_example :
  print (JObject [("a<" +:+ nl, JArray [JNumber "1"; JNull]); ("b", JString (String "255" (encode_rune 233)))])
  = "{" +:+ dquote +:+ "a\u003c\n" +:+ dquote +:+ ":[1,null]," +:+ dquote +:+ "b" +:+ dquote
    +:+ ":" +:+ dquote +:+ "\ufffd" +:+ encode_rune 233 +:+ dquote +:+ "}".
Proof. by vm_compute. Qed.

Example compact_example :
  compact ("{ " +:+ dquote +:+ "a b\" +:+ dquote +:+ " <" +:+ dquote +:+ " : [ 1 ,2 ] }")
  = "{" +:+ dquote +:+ "a b\" +:+ dquote +:+ " \u003c" +:+ dquote +:+ ":[1,2]}".
Proof. by vm_compute. Qed.

Example parse_errors :
  parse <$> ["[1,]"; "01"; "{}x"; "[1 2]"; EmptyString] = [None; None; None; None; None].
Proof. by vm_compute. Qed.

(** * The fuel is enough

    Every reader leaves a shorter text, so a call needs no more fuel than twice
    the length of its text. *)

Lemma length_skip_space s : String.length (skip_space s) ≤ String.length s.
Proof.
  induction s as [|c s IH]; [done|].
  assert (skip_space (String c s) = skip_space s ∨ skip_space (String c s) = String c s) as [->| ->].
  { destruct c as [[] [] [] [] [] [] [] []]; auto. }
  - simpl. lia.
  - done.
Qed.

Lemma expect_shorter c s t : expect c s = Some t → String.length t < String.length s.
Proof.
  unfold expect. pose proof (length_skip_space s). destruct (skip_space s) as [|d u]; [done|].
  case_bool_decide; [|done]. intros [= <-]. simpl in *. lia.
Qed.

Lemma literal_shorter s word t :
  word ≠ EmptyString → literal s word = Some t → String.length t < String.length s.
Proof.
  unfold literal. destruct (HasPrefix s word) eqn:Hp; [|done].
  apply HasPrefix_true in Hp as [u ->]. rewrite drop_string_app, length_app_string.
  intros Hw [= <-]. destruct word; [done|]. simpl. lia.
Qed.

Lemma scan_digits_app s d t : scan_digits s = (d, t) → String.length s = String.length d + String.length t.
Proof.
  revert d t. induction s as [|c s IH]; intros d t; simpl; [by intros [= <- <-]|].
  destruct (is_digit c); [|by intros [= <- <-]].
  destruct (scan_digits s) as [d' t'] eqn:Hs. intros [= <- <-]. simpl. by rewrite (IH d' t').
Qed.

Lemma scan_digits1_shorter s d t : scan_digits1 s = Some (d, t) → String.length t < String.length s.
Proof.
  unfold scan_digits1. destruct (scan_digits s) as [d' t'] eqn:Hs.
  apply scan_digits_app in Hs. destruct d'; [done|]. intros [= <- <-]. simpl in *. lia.
Qed.

Lemma optional_app chars s o t : optional chars s = (o, t) → String.length s = String.length o + String.length t.
Proof. destruct s as [|c s]; simpl; [|destruct (ContainsByte chars c)]; by intros [= <- <-]. Qed.

Lemma scan_number_shorter s text t : scan_number s = Some (text, t) → String.length t < String.length s.
Proof.
  unfold scan_number. destruct (optional "-" s) as [sign s1] eqn:H1. apply optional_app in H1.
  assert (∀ s r, scan_int s = Some r → String.length r.2 < String.length s) as Hint.
  { clear. intros s [d t]. unfold scan_int. destruct (optional "0" s) as [o u] eqn:Ho.
    apply optional_app in Ho. destruct o; [apply scan_digits1_shorter|].
    intros [= <- <-]. simpl in *. lia. }
  assert (∀ s r, scan_frac s = Some r → String.length r.2 ≤ String.length s) as Hfrac.
  { clear. intros s [d t]. unfold scan_frac. destruct (optional "." s) as [o u] eqn:Ho.
    apply optional_app in Ho. destruct o; [by intros [= <- <-]|].
    destruct (scan_digits1 u) as [[d' t']|] eqn:Hd; [|done]. apply scan_digits1_shorter in Hd.
    intros [= <- <-]. simpl in *. lia. }
  assert (∀ s r, scan_exp s = Some r → String.length r.2 ≤ String.length s) as Hexp.
  { clear. intros s [d t]. unfold scan_exp. destruct (optional "eE" s) as [o u] eqn:Ho.
    apply optional_app in Ho. destruct o; [by intros [= <- <-]|].
    destruct (optional "+-" u) as [sg u'] eqn:Hu. apply optional_app in Hu.
    destruct (scan_digits1 u') as [[d' t']|] eqn:Hd; [|done]. apply scan_digits1_shorter in Hd.
    intros [= <- <-]. simpl in *. lia. }
  destruct (scan_int s1) as [[i s2]|] eqn:H2; [|done]. apply Hint in H2.
  simpl. destruct (scan_frac s2) as [[f s3]|] eqn:H3; [|done]. apply Hfrac in H3.
  simpl. destruct (scan_exp s3) as [[e s4]|] eqn:H4; [|done]. apply Hexp in H4.
  simpl in *. intros [= <- <-]. lia.
Qed.

Lemma scan_string_shorter s body t : scan_string s = Some (body, t) → String.length t < String.length s.
Proof.
  revert body t. induction s as [s IH] using (induction_ltof1 _ String.length).
  assert (∀ (f : string → string) u body t, (prod_map f id <$> scan_string u) = Some (body, t) →
            String.length u < String.length s → String.length t < String.length u) as Hrec.
  { intros f u body t. destruct (scan_string u) as [[body' t']|] eqn:Hu; [|done].
    intros [= <- <-] ?. by eapply (IH u). }
  clear IH. intros body t. destruct s as [|c s]; [done|]. cbn [scan_string].
  repeat case_bool_decide; try done.
  - intros [= <- <-]. simpl. lia.
  - destruct s as [|e u]; [done|]. case_bool_decide.
    + destruct u as [|a [|b [|c' [|d u]]]]; try done. destruct (hex4 a b c' d); [|done].
      simpl. intros Heq%Hrec; simpl in *; lia.
    + destruct (escape_byte e); [|done]. simpl. intros Heq%Hrec; simpl in *; lia.
  - intros Heq%Hrec; simpl in *; lia.
Qed.

Lemma scalar_shorter s v t : scalar s = Some (v, t) → String.length t < String.length s.
Proof.
  unfold scalar. destruct (literal s "true") as [?|] eqn:H1.
  { intros [= <- <-]. by eapply literal_shorter, H1. }
  destruct (literal s "false") as [?|] eqn:H2.
  { intros [= <- <-]. by eapply literal_shorter, H2. }
  destruct (literal s "null") as [?|] eqn:H3.
  { intros [= <- <-]. by eapply literal_shorter, H3. }
  destruct (scan_number s) as [[text u]|] eqn:H4; [|done].
  intros [= <- <-]. by eapply scan_number_shorter.
Qed.

(** What the readers do with the text they are given, whatever the fuel. *)
Definition shortens {A} (reader : nat → Z → string → option (A * string)) (fuel : nat) : Prop :=
  ∀ depth s v t, reader fuel depth s = Some (v, t) → String.length t < String.length s.

Lemma parse_shortens fuel :
  shortens parse_value fuel ∧ shortens parse_items fuel ∧ shortens parse_members fuel.
Proof.
  induction fuel as [|fuel (IHv & IHi & IHm)]; [done|]. split_and!; intros depth s v t.
  - cbn [parse_value]. pose proof (length_skip_space s) as Hs.
    destruct (skip_space s) as [|c u]; [done|]. simpl in Hs.
    repeat case_bool_decide; try done.
    + destruct (expect "}" u) eqn:He; [apply expect_shorter in He; intros [= <- <-]; lia|].
      destruct (parse_members _ _ u) as [[l r]|] eqn:Hm; [|done].
      apply IHm in Hm. intros [= <- <-]. simpl. lia.
    + destruct (expect "]" u) eqn:He; [apply expect_shorter in He; intros [= <- <-]; lia|].
      destruct (parse_items _ _ u) as [[l r]|] eqn:Hm; [|done].
      apply IHi in Hm. intros [= <- <-]. simpl. lia.
    + destruct (scan_string u) as [[l r]|] eqn:Hm; [|done].
      apply scan_string_shorter in Hm. intros [= <- <-]. lia.
    + intros Hsc%scalar_shorter. simpl in Hsc. lia.
  - cbn [parse_items]. destruct (parse_value _ _ s) as [[x u]|] eqn:Hv; [|done]. apply IHv in Hv.
    simpl. destruct (expect "," u) as [u'|] eqn:He.
    + apply expect_shorter in He. destruct (parse_items _ _ u') as [[l r]|] eqn:Hi; [|done].
      apply IHi in Hi. intros [= <- <-]. simpl. lia.
    + destruct (expect "]" u) as [u'|] eqn:He'; [|done]. apply expect_shorter in He'.
      intros [= <- <-]. lia.
  - cbn [parse_members]. destruct (expect "034" s) as [s1|] eqn:H1; [|done].
    simpl. destruct (scan_string s1) as [[k s2]|] eqn:H2; [|done].
    simpl. destruct (expect ":" s2) as [s3|] eqn:H3; [|done].
    simpl. destruct (parse_value _ _ s3) as [[x u]|] eqn:Hv; [|done].
    apply IHv in Hv. apply expect_shorter in H1, H3. apply scan_string_shorter in H2.
    simpl. destruct (expect "," u) as [u'|] eqn:He.
    + apply expect_shorter in He. destruct (parse_members _ _ u') as [[l r]|] eqn:Hi; [|done].
      apply IHm in Hi. intros [= <- <-]. simpl. lia.
    + destruct (expect "}" u) as [u'|] eqn:He'; [|done]. apply expect_shorter in He'.
      intros [= <- <-]. lia.
Qed.

(** Two amounts of fuel that are both enough give the same answer. *)
Lemma parse_fuel n : ∀ m,
  (∀ depth s, 2 * String.length s < n → 2 * String.length s < m →
     parse_value n depth s = parse_value m depth s)
  ∧ (∀ depth s, 2 * String.length s + 1 < n → 2 * String.length s + 1 < m →
     parse_items n depth s = parse_items m depth s)
  ∧ (∀ depth s, 2 * String.length s < n → 2 * String.length s < m →
     parse_members n depth s = parse_members m depth s).
Proof.
  induction n as [|n IH]; intros [|m]; try (split_and!; intros; lia).
  destruct (IH m) as (IHv & IHi & IHm). split_and!; intros depth s Hn Hm.
  - cbn [parse_value]. pose proof (length_skip_space s) as Hs.
    destruct (skip_space s) as [|c u]; [done|]. simpl in Hs.
    rewrite (IHm _ u), (IHi _ u) by lia. done.
  - cbn [parse_items]. rewrite (IHv _ s) by lia.
    destruct (parse_value m _ s) as [[x u]|] eqn:Hv; [|done]. apply parse_shortens in Hv.
    simpl. destruct (expect "," u) as [u'|] eqn:He; [|done].
    apply expect_shorter in He. by rewrite (IHi _ u') by lia.
  - cbn [parse_members]. destruct (expect "034" s) as [s1|] eqn:H1; [|done].
    simpl. destruct (scan_string s1) as [[k s2]|] eqn:H2; [|done].
    simpl. destruct (expect ":" s2) as [s3|] eqn:H3; [|done].
    apply expect_shorter in H1, H3. apply scan_string_shorter in H2.
    simpl. rewrite (IHv _ s3) by lia.
    destruct (parse_value m _ s3) as [[x u]|] eqn:Hv; [|done]. apply parse_shortens in Hv.
    simpl. destruct (expect "," u) as [u'|] eqn:He; [|done].
    apply expect_shorter in He. by rewrite (IHm _ u') by lia.
Qed.

Lemma parse_prefix_fuel fuel s :
  2 * String.length s < fuel → parse_value fuel 0 s = parse_prefix s.
Proof. intros ?. apply parse_fuel; lia. Qed.
