(* ===== verification/ContainerConfig.v ===== *)
(** What a create request asks for: [container_config.go] and the port bindings of
    [docker_api_container_create.go].

    A raw JSON value is kept as its text.  How a request is decoded from a body is
    in [Decode.v]. *)
From S2P Require Import Prelude GoStrings Json Cookbook CookbookValidation Container.

(** * Data *)

Record HealthcheckConfig := mkHealthcheck {
  Test : list string; Interval : Z; Timeout : Z; Retries : Z; StartPeriod : Z
}.

(** One entry of [HostConfig.PortBindings]. *)
Record hostPort := mkHostPort { hpHostIP : string; hpHostPort : string }.

Record createContainerRequest := mkRequest {
  rawConfig : gmap string string;
  rawHostConfig : gmap string string;
  rUser : string;
  rWorkingDir : string;
  rEntrypoint : list string;
  rHealthcheck : option HealthcheckConfig;
  rTty : bool;
  rHostname : string;
  rImage : string;
  rCmd : list string;
  rEnv : list string;
  rLabels : gmap string string;
  rExposedPorts : gmap string json;
  rRestartPolicy : RestartPolicy;
  rNetworkMode : string;
  rPortBindings : gmap string (list hostPort);
  rEndpoints : gmap string (list string)
}.
#[export] Instance createContainerRequest_eta : Eta createContainerRequest := λ r,
  mkRequest (rawConfig r) (rawHostConfig r) (rUser r) (rWorkingDir r) (rEntrypoint r)
    (rHealthcheck r) (rTty r) (rHostname r) (rImage r) (rCmd r) (rEnv r) (rLabels r)
    (rExposedPorts r) (rRestartPolicy r) (rNetworkMode r) (rPortBindings r) (rEndpoints r).

Definition cloneRawJSONMap (input : gmap string string) : gmap string string := input.

(** [map[string]PortBinding{}[key] = append(m[key], b)] *)
Definition append_at {A} (key : string) (x : A) (m : gmap string (list A)) : gmap string (list A) :=
  <[key := default [] (m !! key) ++ [x]]> m.

Section config.
Context {RO : RangeOrder} {UN : Unicode}.

(** The request with its policy name filled in, and the error. *)
Definition validateMetadata (r : createContainerRequest) : createContainerRequest * option string :=
  let policy := rRestartPolicy r in
  let policy := if bool_decide (PolicyName policy = EmptyString)
                then mkRestartPolicy "no" (MaximumRetryCount policy) else policy in
  let r := r <| rRestartPolicy := policy |> in
  if negb (bool_decide (PolicyName policy ∈ ["no"; "always"; "unless-stopped"; "on-failure"]))
  then (r, Some ("invalid restart policy " +:+ Quote (PolicyName policy)))
  else if bool_decide (MaximumRetryCount policy < 0
            ∨ PolicyName policy ≠ "on-failure" ∧ MaximumRetryCount policy ≠ 0)%Z
  then (r, Some "MaximumRetryCount must be nonnegative and is only valid with on-failure")
  else match rHealthcheck r with
  | Some health =>
    match Test health with
    | [] => (r, None)
    | t :: args =>
      if bool_decide (t = "NONE") then
        (r, match args with [] => None | _ => Some "NONE healthcheck must not contain a command" end)
      else if bool_decide (t = "CMD" ∨ t = "CMD-SHELL") then
        (r, match args with [] => Some "healthcheck command is required" | _ => None end)
      else (r, Some ("invalid healthcheck test type " +:+ Quote t))
    end
  | None => (r, None)
  end.

(** The field names of a raw map that nothing else models, prefixed. *)
Definition metadata_fields (site prefix : string) (modelled : list string)
    (m : gmap string string) : list string :=
  (λ field, prefix +:+ field) <$>
    filter (λ field, field ∉ modelled) (range site m).*1.

(** The container and the warnings. *)
Definition storeRequestedConfig (r : createContainerRequest) (c : Container) : Container * list string :=
  let fields := sort_strings (metadataOnlyFields c
    ++ metadata_fields "container_config.go:82" "Config."
         ["Image"; "Labels"; "ExposedPorts"] (rawConfig r)
    ++ metadata_fields "container_config.go:89" "HostConfig."
         ["NetworkMode"; "PortBindings"; "RestartPolicy"] (rawHostConfig r)) in
  (c <| requestedConfig := cloneRawJSONMap (rawConfig r) |>
     <| requestedHostConfig := cloneRawJSONMap (rawHostConfig r) |>
     <| cRestartPolicy := rRestartPolicy r |>
     <| healthDisabled :=
          match rHealthcheck r with
          | Some h => bool_decide (head (Test h) = Some "NONE") | None => false end |>
     <| metadataOnlyFields := fields |>,
   (λ field, "docker-zero: " +:+ field +:+
      " is stored as metadata; it is not executed or enforced") <$> fields).

(** * Port bindings *)

(** The inner loop, over the items of one key. *)
Fixpoint bind_items (key protocol : string) (port : Z) (items : list hostPort)
    (bindings : gmap string (list PortBinding)) : result (gmap string (list PortBinding)) :=
  match items with
  | [] => Ok bindings
  | item :: items =>
    let hostIP := TrimSpace (hpHostIP item) in
    let hostIP := if bool_decide (hostIP = EmptyString) then "0.0.0.0" else hostIP in
    let requested :=
      if bool_decide (TrimSpace (hpHostPort item) ≠ EmptyString) then
        match Atoi_ok (hpHostPort item) with
        | Some value => if bool_decide (value < 0 ∨ 65535 < value)%Z then None else Some value
        | None => None
        end
      else Some 0%Z in
    match requested with
    | None => Err ("invalid host port " +:+ Quote (hpHostPort item) +:+ " for " +:+ key)
    | Some requested =>
      bind_items key protocol port items
        (append_at key (mkPortBinding hostIP requested requested protocol port) bindings)
    end
  end.

(** The container port and protocol of a key such as [80/tcp]. *)
Definition parse_port_key (key : string) : option (Z * string) :=
  let parts := SplitN key "/" 2 in
  match Atoi_ok (default EmptyString (head parts)) with
  | Some port =>
    if bool_decide (port < 1 ∨ 65535 < port)%Z then None
    else Some (port, match parts with
      | [_; p] => if bool_decide (p ≠ EmptyString) then ToLower p else "tcp"
      | _ => "tcp" end)
  | None => None
  end.

Fixpoint bind_keys (input : list (string * list hostPort))
    (bindings : gmap string (list PortBinding)) : result (gmap string (list PortBinding)) :=
  match input with
  | [] => Ok bindings
  | (key, items) :: input =>
    match parse_port_key key with
    | None => Err ("invalid container port binding " +:+ Quote key)
    | Some (port, protocol) =>
      bindings ← bind_items key protocol port items bindings;
      bind_keys input bindings
    end
  end.

Definition configureContainerPortBindings (input : gmap string (list hostPort)) (c : Container) :
    result Container :=
  bindings ← bind_keys (range "docker_api_container_create.go:46" input) ∅;
  Ok (setPortBindings bindings c).
End config.

(** * Specifications *)

(** The restart policies the validator lets through. *)
Definition policy_ok (p : RestartPolicy) : Prop :=
  (PolicyName p ∈ ["no"; "always"; "unless-stopped"] ∧ MaximumRetryCount p = 0%Z) ∨
  (PolicyName p = "on-failure" ∧ (0 ≤ MaximumRetryCount p)%Z).

Section config_spec.
Context {UN : Unicode}.

(** The binding an item asks for, if its host port is a port number. *)
Definition item_binding (port : Z) (protocol : string) (item : hostPort) : option PortBinding :=
  requested ←
    (if bool_decide (TrimSpace (hpHostPort item) = EmptyString) then Some 0%Z
     else value ← Atoi_ok (hpHostPort item);
          if bool_decide (0 ≤ value ≤ 65535)%Z then Some value else None);
  Some (mkPortBinding
          (if bool_decide (TrimSpace (hpHostIP item) = EmptyString)
           then "0.0.0.0" else TrimSpace (hpHostIP item))
          requested requested protocol port).

Definition key_bindings (key : string) (items : list hostPort) : option (list PortBinding) :=
  '(port, protocol) ← parse_port_key key;
  mapM (item_binding port protocol) items.

(** The bindings of a request whose keys and ports are all valid: a key without
    items binds nothing. *)
Definition all_bindings (input : gmap string (list hostPort)) : gmap string (list PortBinding) :=
  map_imap (λ key items,
    match key_bindings key items with Some (b :: bs) => Some (b :: bs) | _ => None end) input.
End config_spec.

(** * Lemmas *)

Lemma metadata_fields_perm (RO1 RO2 : RangeOrder) site prefix modelled m :
  metadata_fields (RO := RO1) site prefix modelled m
  ≡ₚ metadata_fields (RO := RO2) site prefix modelled m.
Proof.
  unfold metadata_fields. apply fmap_Permutation, filter_Permutation, fmap_Permutation, range_any.
Qed.

Section config_facts.
Context {UN : Unicode}.

(** What the first item contributes. *)
Lemma bind_items_cons key protocol port item items m :
  match item_binding port protocol item with
  | Some b => bind_items key protocol port (item :: items) m =
              bind_items key protocol port items (append_at key b m)
  | None => ∃ e, bind_items key protocol port (item :: items) m = Err e
  end.
Proof.
  unfold item_binding. simpl. rewrite bool_decide_not, if_negb.
  destruct (bool_decide (TrimSpace (hpHostPort item) = _)); simpl; [done|].
  destruct (Atoi_ok (hpHostPort item)) as [v|]; simpl; [|by eexists].
  destruct (decide (0 ≤ v ≤ 65535)%Z).
  - by rewrite (bool_decide_true (0 ≤ v ≤ 65535)%Z), (bool_decide_false (v < 0 ∨ _)%Z) by lia.
  - rewrite (bool_decide_false (0 ≤ v ≤ 65535)%Z), (bool_decide_true (v < 0 ∨ _)%Z) by lia.
    by eexists.
Qed.

#[local] Arguments bind_items : simpl never.

Definition append_all {A} (key : string) (bs : list A) (m : gmap string (list A)) :=
  foldl (λ m b, append_at key b m) m bs.

Lemma bind_items_Some key protocol port items bs m :
  mapM (item_binding port protocol) items = Some bs →
  bind_items key protocol port items m = Ok (append_all key bs m).
Proof.
  revert bs m. induction items as [|item items IH]; intros bs m; simpl.
  { by intros [= <-]. }
  pose proof (bind_items_cons key protocol port item items m) as Hcons.
  destruct (item_binding port protocol item) as [b|]; [|done]. simpl.
  destruct (mapM _ items) as [bs'|]; [|done]. intros [= <-].
  by rewrite Hcons, (IH bs').
Qed.

Lemma bind_items_None key protocol port items m :
  mapM (item_binding port protocol) items = None →
  ∃ e, bind_items key protocol port items m = Err e.
Proof.
  revert m. induction items as [|item items IH]; intros m; [done|].
  pose proof (bind_items_cons key protocol port item items m) as Hcons. intros Hm. simpl in Hm.
  destruct (item_binding port protocol item) as [b|]; simpl in Hm; [|done].
  rewrite Hcons. apply IH. by destruct (mapM _ items).
Qed.

Lemma append_all_lookup {A} key (bs : list A) m i :
  append_all key bs m !! i =
  if decide (i = key)
  then match bs with [] => m !! i | _ => Some (default [] (m !! key) ++ bs) end
  else m !! i.
Proof.
  revert m. induction bs as [|b bs IH]; intros m; [by destruct (decide _)|].
  simpl. rewrite IH. unfold append_at. destruct (decide (i = key)) as [->|].
  - destruct bs; rewrite lookup_insert_eq; [done|]. simpl. by rewrite <-app_assoc.
  - by rewrite lookup_insert_ne.
Qed.

(** The loop over distinct keys that are not bound yet. *)
Lemma bind_keys_spec input m :
  NoDup input.*1 → (∀ k, k ∈ input.*1 → m !! k = None) →
  match mapM (λ e, key_bindings e.1 e.2) input with
  | Some _ => ∃ m', bind_keys input m = Ok m' ∧ ∀ k,
      m' !! k = match list_to_map (M := gmap string (list hostPort)) input !! k with
                | Some items => match key_bindings k items with
                                | Some (b :: bs) => Some (b :: bs) | _ => None end
                | None => m !! k end
  | None => ∃ e, bind_keys input m = Err e
  end.
Proof.
  revert m. induction input as [|[key items] input IH]; intros m Hnd Hfree; [by exists m|].
  apply NoDup_cons in Hnd as [Hkey Hnd]. simpl in *.
  destruct (key_bindings key items) as [bs|] eqn:Hkb; simpl.
  2: { unfold key_bindings in Hkb. destruct (parse_port_key key) as [[port protocol]|]; [|by eexists].
       destruct (bind_items_None key protocol port items m Hkb) as [e ->]. by eexists. }
  assert (∃ port protocol, parse_port_key key = Some (port, protocol) ∧
    bind_items key protocol port items m = Ok (append_all key bs m)) as (port & protocol & -> & ->).
  { unfold key_bindings in Hkb. destruct (parse_port_key key) as [[port protocol]|]; [|done].
    exists port, protocol. split; [done|]. by apply bind_items_Some. }
  simpl.
  assert (m !! key = None) as Hnone by (apply Hfree, elem_of_cons; auto).
  assert (∀ k, k ∈ input.*1 → append_all key bs m !! k = None) as Hfree'.
  { intros k Hk. rewrite append_all_lookup, decide_False by (by intros ->).
    apply Hfree, elem_of_cons; auto. }
  specialize (IH _ Hnd Hfree').
  destruct (mapM _ input) as [l|]; simpl; [|done].
  destruct IH as (m' & Hm' & Hlook). exists m'. split; [done|]. intros k. rewrite Hlook.
  destruct (decide (k = key)) as [->|Hne].
  - rewrite lookup_insert_eq. rewrite (not_elem_of_list_to_map_1 _ _ Hkey).
    rewrite append_all_lookup, decide_True, Hnone by done.
    rewrite Hkb. by destruct bs.
  - rewrite lookup_insert_ne by done. destruct (list_to_map input !! k); [done|].
    by rewrite append_all_lookup, decide_False.
Qed.

Lemma configure_outcome {RO : RangeOrder} input c :
  (map_Forall (λ key items, is_Some (key_bindings key items)) input ∧
   configureContainerPortBindings input c = Ok (setPortBindings (all_bindings input) c)) ∨
  (¬ map_Forall (λ key items, is_Some (key_bindings key items)) input ∧
   ∃ e, configureContainerPortBindings input c = Err e).
Proof.
  set (l := range "docker_api_container_create.go:46" input).
  assert (map_Forall (λ key items, is_Some (key_bindings key items)) input ↔
          is_Some (mapM (λ e, key_bindings e.1 e.2) l)) as ->.
  { rewrite mapM_is_Some, Forall_forall, map_Forall_lookup. unfold l. split.
    - intros H [k v] Hin%elem_of_range. by apply H.
    - intros H k v Hin. by apply (H (k, v)), elem_of_range. }
  pose proof (bind_keys_spec l ∅ (range_NoDup _ _) (λ k _, lookup_empty k)) as Hspec.
  unfold configureContainerPortBindings. fold l.
  destruct (mapM _ l) as [bs|]; [left|right].
  - split; [by eexists|]. destruct Hspec as (m & -> & Hm). simpl. do 2 f_equal.
    apply map_eq. intros k. rewrite Hm. unfold all_bindings. rewrite map_lookup_imap.
    unfold l. rewrite (list_to_map_range _ input). by destruct (input !! k).
  - split; [by intros [? ?]|]. destruct Hspec as [e ->]. by eexists.
Qed.

Lemma parse_port_key_range key port protocol :
  parse_port_key key = Some (port, protocol) → (1 ≤ port ≤ 65535)%Z.
Proof.
  unfold parse_port_key. destruct (Atoi_ok _) as [p|]; [|done].
  case_bool_decide; [done|]. intros [= <- _]. lia.
Qed.

Lemma item_binding_range port protocol item b :
  item_binding port protocol item = Some b →
  bContainerPort b = port ∧ (0 ≤ bHostPort b ≤ 65535)%Z ∧
  RequestedHostPort b = bHostPort b ∧ bHostIP b ≠ EmptyString.
Proof.
  unfold item_binding. intros (n & Hn & [= <-])%bind_Some. simpl.
  assert (0 ≤ n ≤ 65535)%Z.
  { destruct (bool_decide (TrimSpace (hpHostPort item) = _)); [simplify_eq; lia|].
    apply bind_Some in Hn as (v & _ & Hv). case_bool_decide; simplify_eq; lia. }
  split_and!; try done; try lia. by destruct (bool_decide_reflect (TrimSpace (hpHostIP item) = EmptyString)).
Qed.

Definition filled_policy (r : createContainerRequest) : RestartPolicy :=
  if bool_decide (PolicyName (rRestartPolicy r) = EmptyString)
  then mkRestartPolicy "no" (MaximumRetryCount (rRestartPolicy r)) else rRestartPolicy r.

Lemma validateMetadata_Ok r r' :
  validateMetadata r = (r', None) →
  r' = r <| rRestartPolicy := filled_policy r |> ∧
  PolicyName (filled_policy r) ∈ ["no"; "always"; "unless-stopped"; "on-failure"] ∧
  ¬ (MaximumRetryCount (filled_policy r) < 0 ∨
     PolicyName (filled_policy r) ≠ "on-failure" ∧ MaximumRetryCount (filled_policy r) ≠ 0)%Z.
Proof.
  unfold validateMetadata. fold (filled_policy r). cbv zeta.
  set (r1 := r <| rRestartPolicy := filled_policy r |>).
  destruct (bool_decide_reflect (PolicyName (filled_policy r) ∈ ["no"; "always"; "unless-stopped"; "on-failure"]));
    [|done]. cbn [negb].
  destruct (bool_decide_reflect (MaximumRetryCount (filled_policy r) < 0 ∨
     PolicyName (filled_policy r) ≠ "on-failure" ∧ MaximumRetryCount (filled_policy r) ≠ 0)%Z); [done|].
  destruct (rHealthcheck r1) as [h|]; [|by intros [= <-]].
  destruct (Test h) as [|t args]; [by intros [= <-]|].
  destruct (bool_decide (t = "NONE")); [by destruct args; intros [= <-]|].
  destruct (bool_decide (t = "CMD" ∨ _)); [by destruct args; intros [= <-]|done].
Qed.
End config_facts.

(** * Theorems *)

(** Storing the requested configuration does not depend on the order in which
    Go walks the raw maps: the container and the warnings are the same, so a client
    that repeats a create request sees the same warnings. *)
Theorem storeRequestedConfig_order (RO1 RO2 : RangeOrder) r c :
  storeRequestedConfig (RO := RO1) r c = storeRequestedConfig (RO := RO2) r c.
Proof.
  unfold storeRequestedConfig.
  rewrite (sort_strings_app3 _ _ _ _ _
    (metadata_fields_perm RO1 RO2 _ _ _ _) (metadata_fields_perm RO1 RO2 _ _ _ _)). done.
Qed.


(** Every binding an accepted request leads to has a container port between 1
    and 65535, a host port between 0 and 65535 and a host address; no arithmetic on
    ports can overflow. *)
Theorem port_bindings_in_range {RO : RangeOrder} {UN : Unicode} input c c' key bs b :
  configureContainerPortBindings input c = Ok c' →
  PortBindings c' !! key = Some bs → b ∈ bs →
  (1 ≤ bContainerPort b ≤ 65535)%Z ∧ (0 ≤ bHostPort b ≤ 65535)%Z ∧
  RequestedHostPort b = bHostPort b ∧ bHostIP b ≠ EmptyString.
Proof.
  intros Hc. destruct (configure_outcome input c) as [[_ Heq]|[_ [e Heq]]]; rewrite Heq in Hc; [|done].
  injection Hc as <-. simpl. unfold all_bindings. rewrite map_lookup_imap.
  destruct (input !! key) as [items|]; [|done]. simpl.
  destruct (key_bindings key items) as [[|b0 bs0]|] eqn:Hk; try done. intros [= <-] Hb.
  unfold key_bindings in Hk. apply bind_Some in Hk as ([port protocol] & Hport & Hitems).
  apply mapM_Some in Hitems. apply list_elem_of_lookup in Hb as [i Hi].
  destruct (Forall2_lookup_r _ _ _ _ _ Hitems Hi) as (item & _ & Hb).
  apply parse_port_key_range in Hport. apply item_binding_range in Hb as (-> & ? & ? & ?). done.
Qed.

Lemma port_bindings_in_range_witness :
  (1 ≤ 80 ≤ 65535)%Z ∧ (0 ≤ 8080 ≤ 65535)%Z ∧ (8080 = 8080)%Z ∧ "127.0.0.1" ≠ EmptyString.
Proof.
  set (input := {[ "80/tcp" := [mkHostPort "127.0.0.1" "8080"] ]} : gmap string (list hostPort)).
  set (c := newContainer 0%Z "id" "web" "nginx" (mkCookbook "nginx" [] (mkServiceDefaults "web" "nginx" "http" "127.0.0.2" 80 "127.0.0.1" 8080) ∅) 0%Z).
  apply (port_bindings_in_range (RO := range_forward) (UN := unicode_none) input c
    (setPortBindings {[ "80/tcp" := [mkPortBinding "127.0.0.1" 8080 8080 "tcp" 80] ]} c) "80/tcp"
    [mkPortBinding "127.0.0.1" 8080 8080 "tcp" 80] (mkPortBinding "127.0.0.1" 8080 8080 "tcp" 80)).
  - by vm_compute.
  - by vm_compute.
  - by left.
Defined.

(** A request whose metadata is accepted carries a restart policy that the
    simulator knows, with a retry count only where it means something; an empty
    policy name becomes "no", and nothing else in the request changes. *)
Theorem validateMetadata_policy {UN : Unicode} r r' :
  validateMetadata r = (r', None) →
  policy_ok (rRestartPolicy r') ∧ r' <| rRestartPolicy := rRestartPolicy r |> = r ∧
  (PolicyName (rRestartPolicy r) ≠ EmptyString → rRestartPolicy r' = rRestartPolicy r).
Proof.
  intros (Hr & Hin & Hcount)%validateMetadata_Ok. rewrite Hr. split_and!.
  - simpl. destruct (filled_policy r) as [name n]. simpl in *. unfold policy_ok. simpl.
    repeat (apply elem_of_cons in Hin as [->|Hin]); [..|by apply elem_of_nil in Hin].
    all: try (left; split; [set_solver|]; destruct (decide (n = 0)%Z); [done|exfalso; apply Hcount; by right]).
    right. split; [done|]. destruct (decide (n < 0)%Z); [|lia]. exfalso. apply Hcount. by left.
  - by destruct r.
  - intros Hname. simpl. unfold filled_policy. by rewrite bool_decide_false.
Qed.

Lemma validateMetadata_policy_witness :
  let r := mkRequest ∅ ∅ EmptyString EmptyString [] None false EmptyString "nginx" [] [] ∅ ∅ (mkRestartPolicy "on-failure" 3) EmptyString ∅ ∅ in
  policy_ok (rRestartPolicy r) ∧ r <| rRestartPolicy := rRestartPolicy r |> = r ∧
  (PolicyName (rRestartPolicy r) ≠ EmptyString → rRestartPolicy r = rRestartPolicy r).
Proof. cbv zeta. by apply (validateMetadata_policy (UN := unicode_none)). Defined.
