(* ===== verification/ContainerLife.v ===== *)
(** The life of a container: its operations as a transition system, the invariant
    of every reachable state, and the theorems about starting, stopping, observing
    and waiting. *)
From S2P Require Import Prelude GoStrings GoTime Cookbook CookbookValidation Container ContainerFacts ContainerConfig.

(** * Operations *)

(** The calls that the engine, the services and the API make on a container.
    [OpReceive] is the request handler taking the result of its own waiter;
    [OpOther] is another container taking a process identity. *)
Inductive op : Type :=
| OpStart
| OpStop (exitCode : Z)
| OpKill
| OpPause
| OpUnpause
| OpRestart
| OpAdvance (event : string)
| OpPatch (patch : StatePatch)
| OpSubscribe (cond : string)
| OpCancel (w : nat)
| OpReceive (w : nat)
| OpRemove
| OpLog (line : string)
| OpSetIP (ip : string)
| OpSetPorts (bindings : gmap string (list PortBinding))
| OpAssignPort (key : string) (index hostPort : Z)
| OpResetPorts
| OpConfigure (request : createContainerRequest)
| OpOther.

(** [<-waiter.result]: blocks as long as the channel is empty. *)
Definition receiveWait (w : nat) : prog CState containerWaitResult := λ s,
  match waiter_heap (this s) !! w with
  | Some waiter =>
    match buffer waiter with
    | r :: rest =>
      (s <| this := (this s) <| waiter_heap :=
         <[w := waiter <| buffer := rest |>]> (waiter_heap (this s)) |> |>, Done r)
    | [] => (s, Blocked)
    end
  | None => (s, Blocked)
  end.

Definition ignore {A} (m : prog CState A) : prog CState () := m;; mret ().

Definition run_op {RO : RangeOrder} {UN : Unicode} (now : Time) (o : op) : prog CState () :=
  match o with
  | OpStart => ignore (start now)
  | OpStop exitCode => ignore (stop now exitCode)
  | OpKill => ignore (kill now)
  | OpPause => ignore pause
  | OpUnpause => ignore unpause
  | OpRestart => ignore (restart now)
  | OpAdvance event => ignore (advance now event)
  | OpPatch patch => ignore (applyPatch now patch)
  | OpSubscribe cond => modify_this (λ c, (subscribeWait cond c).2)
  | OpCancel w => modify_this (cancelWait w)
  | OpReceive w => ignore (receiveWait w)
  | OpRemove => markRemoved
  | OpLog line => modify_this (appendLog line)
  | OpSetIP ip => modify_this (setPrimaryIP ip)
  | OpSetPorts bindings => modify_this (setPortBindings bindings)
  | OpAssignPort key index hostPort => modify_this (updateAssignedPort key index hostPort)
  | OpResetPorts => modify_this resetEphemeralAssignedPorts
  | OpConfigure request => modify_this (λ c, (storeRequestedConfig request c).1)
  | OpOther => modify (λ s, s <| syntheticPID := wrap64 (syntheticPID s + 1) |>)
  end.

(** The patches that reach a container are validated ones, a receive waits until
    there is something to receive, and the requested configuration is stored once,
    with a validated policy. *)
Definition op_ok (s : CState) (o : op) : Prop :=
  match o with
  | OpPatch patch => patch_ok patch
  | OpReceive w => ∃ waiter r rest, waiter_heap (this s) !! w = Some waiter ∧ buffer waiter = r :: rest
  | OpConfigure request =>
    cRestartPolicy (this s) = mkRestartPolicy "no" 0 ∧ policy_ok (rRestartPolicy request)
    ∧ is_int64 (MaximumRetryCount (rRestartPolicy request))
  | _ => True
  end.

Definition scenario_ok (sc : Scenario) : Prop :=
  patch_ok (Initial sc) ∧ Forall (λ t, patch_ok (tSet t)) (Transitions sc).

(** One step of a container: any operation, at any time, under any iteration order. *)
Inductive step (o : op) : CState → CState → Prop :=
| step_op (RO : RangeOrder) (UN : Unicode) now s s' :
    op_ok s o → run_op now o s = (s', Done ()) → step o s s'.

(** [runs n s s']: [n] steps lead from [s] to [s']. *)
Inductive runs : nat → CState → CState → Prop :=
| runs_refl s : runs 0 s s
| runs_step n o s s' s'' : runs n s s' → step o s' s'' → runs (S n) s s''.

(** A container as [newContainer] makes it, with the counter of process identities
    at its initial value plus those already given out. *)
Definition initial (s : CState) : Prop :=
  ∃ now id name image cb seed,
    this s = newContainer now id name image cb seed ∧
    scenario_ok (cScenario (this s)) ∧ (0 ≤ syntheticPID s < 2^61)%Z.

(** Automatic restarts stay within the budget of an [on-failure] policy, and do not
    happen under the policy [no]. *)
Definition budget_ok (c : Container) : Prop :=
  (PolicyName (cRestartPolicy c) = "no" → automaticRestarts c = 0%Z) ∧
  (PolicyName (cRestartPolicy c) = "on-failure" → (0 < MaximumRetryCount (cRestartPolicy c))%Z →
   (0 ≤ automaticRestarts c ≤ MaximumRetryCount (cRestartPolicy c))%Z) ∧
  is_int64 (MaximumRetryCount (cRestartPolicy c)).

(** The invariant of reachable states, [k] bounding the identities given out. *)
Record life_ok (k : Z) (s : CState) : Prop := mkLifeOk {
  life_container : container_ok (this s);
  life_scenario : scenario_ok (cScenario (this s));
  life_budget : budget_ok (this s);
  life_pids : (0 ≤ syntheticPID s ≤ k)%Z
}.

(** * Specifications *)

(** The transition is the one the loop of [advance] is looking for. *)
Definition eligible (event : string) (count : Z) (c : Container) (index : nat) (t : Transition) : bool :=
  negb (tOnce t && default false (AppliedTransitions c !! index)) &&
  transitionEventMatches (tEvent t) event &&
  (bool_decide (tCount t ≤ 0)%Z || bool_decide (tCount t =
     if bool_decide (tEvent t = "docker.observe")
     then counter (Counters c) "docker.observe" else count)) &&
  (bool_decide (tWhenStatus t = EmptyString) || bool_decide (tWhenStatus t = Status c)) &&
  (bool_decide (tWhenHealth t = EmptyString) || bool_decide (tWhenHealth t = hlStatus (Health c))) &&
  (negb (transitionRestartsStopped (Status c) (tSet t)) || automaticRestartAllowedLocked c).

Fixpoint first_eligible (event : string) (count : Z) (c : Container) (index : nat)
    (transitions : list Transition) : option (nat * Transition) :=
  match transitions with
  | [] => None
  | t :: rest => if eligible event count c index t then Some (index, t)
                 else first_eligible event count c (S index) rest
  end.

Definition count_restart (t : Transition) (c : Container) : Container :=
  if transitionRestartsStopped (Status c) (tSet t)
  then c <| automaticRestarts := wrap64 (automaticRestarts c + 1) |> else c.

Definition mark_applied (index : nat) (t : Transition) (c : Container) : Container :=
  if tOnce t then c <| AppliedTransitions := <[index := true]> (AppliedTransitions c) |> else c.

(** The one lifecycle edge an event takes. *)
Definition take_transition (now : Time) (index : nat) (t : Transition) (s : CState) : CState :=
  let s := patched now (tSet t) (s <| this := count_restart t (this s) |>) in
  s <| this := mark_applied index t (this s) |>.

(** What [start], [stop], [restart] and a successful [kill] leave behind. *)
Definition reset_policy (c : Container) : Container :=
  c <| manuallyStopped := false |> <| automaticRestarts := 0%Z |>.

Definition log_start (c : Container) : Container :=
  c <| Logs := Logs c ++
        ["docker-zero: started with seed " +:+ Itoa (Seed c) +:+ " (" +:+
         Description (cScenario c) +:+ "), start #" +:+ Itoa (StartCount c) +:+ nl] |>.

Definition next_start (c : Container) : Container :=
  c <| StartCount := wrap64 (StartCount c + 1) |>.

Definition count_start (c : Container) : Container := log_start (next_start c).

Definition started (now : Time) (s : CState) : CState :=
  let s := s <| this := reset_policy (this s) |> in
  let s := patched now (startPatchLocked (this s)) s in
  s <| this := count_start (this s) |>.

Definition stop_patch (exitCode : Z) : StatePatch :=
  mkStatePatch (Some "exited") (Some false) (Some false) None None (Some exitCode) None None 0.
Definition kill_patch : StatePatch :=
  mkStatePatch (Some "exited") None None None None (Some 137%Z) None None 0.
Definition restart_patch : StatePatch :=
  mkStatePatch (Some "restarting") (Some true) (Some true) None (Some "starting") (Some 0%Z) None None 1.

Definition stopped_by (now : Time) (patch : StatePatch) (s : CState) : CState :=
  patched now patch (s <| this := (this s) <| manuallyStopped := true |> |>).

Definition restarted (now : Time) (s : CState) : CState :=
  patched now restart_patch (s <| this := reset_policy (this s) |>).

Definition snapshots (s s' : CState) : ContainerStateSnapshot * ContainerStateSnapshot :=
  (stateSnapshotLocked (this s), stateSnapshotLocked (this s')).

(** The abstract lifecycle: six phases, and what each operation may do to them. *)
Inductive phase := PCreated | PRunning | PPaused | PRestarting | PExited | PDead.

Definition phase_name (p : phase) : string :=
  match p with
  | PCreated => "created" | PRunning => "running" | PPaused => "paused"
  | PRestarting => "restarting" | PExited => "exited" | PDead => "dead"
  end.

(** The process is alive, in the sense of Docker's [State.Running]. *)
Definition phase_running (p : phase) : bool :=
  match p with PRunning | PPaused | PRestarting => true | _ => false end.

#[export] Instance phase_eq_dec : EqDecision phase.
Proof. solve_decision. Defined.

(** The container [c] is in phase [p]: its status and all four flags say so. *)
Definition in_phase (c : Container) (p : phase) : Prop :=
  Status c = phase_name p ∧ Running c = phase_running p ∧
  Paused c = bool_decide (p = PPaused) ∧ Restarting c = bool_decide (p = PRestarting) ∧
  Dead c = bool_decide (p = PDead).

(** A patch moves to the phase it names, or leaves the phase. *)
Definition patch_phase (patch : StatePatch) (p p' : phase) : Prop :=
  match pStatus patch with Some st => phase_name p' = st | None => p' = p end.

(** What an operation on the container [c] may do to its phase. *)
Definition phase_step (o : op) (c : Container) (p p' : phase) : Prop :=
  match o with
  | OpStart => phase_name p' = default "running" (pStatus (Initial (cScenario c)))
  | OpStop _ => p' = PExited
  | OpKill => p' = if phase_running p && negb (removed c) then PExited else p
  | OpPause => p' = if bool_decide (p = PRunning) then PPaused else p
  | OpUnpause => p' = if bool_decide (p = PPaused) then PRunning else p
  | OpRestart => p' = PRestarting
  | OpAdvance event =>
    p' = p ∨ ∃ t, t ∈ Transitions (cScenario c) ∧ transitionEventMatches (tEvent t) event = true ∧
      patch_phase (tSet t) p p' ∧
      (phase_running p = false → phase_running p' = true → automaticRestartAllowedLocked c = true)
  | OpPatch patch => patch_phase patch p p'
  | _ => p' = p
  end.

(** * Lemmas: the invariant *)

(** What the invariant looks at. *)
Definition view (c : Container) :=
  (Status c, Running c, Paused c, Restarting c, Dead c, Pid c, Health c, waiters c,
   waiter_heap c, cScenario c, cRestartPolicy c, automaticRestarts c).

Lemma view_ok k s s' :
  view (this s) = view (this s') → syntheticPID s = syntheticPID s' → life_ok k s → life_ok k s'.
Proof.
  destruct s as [c n], s' as [c' n']. cbn [this syntheticPID]. unfold view. intros Hv <- [[Hf Hp Hh Hw] Hsc Hb Hn].
  unfold flags_ok, pid_ok, waiters_ok, budget_ok in *. cbn [this syntheticPID] in *.
  injection Hv as H1 H2 H3 H4 H5 H6 H7 H8 H9 H10 H11 H12.
  rewrite H1, H2, H3, H4, H5 in Hf. rewrite H1, H6 in Hp. rewrite H7 in Hh.
  rewrite H8, H9 in Hw. rewrite H10 in Hsc. rewrite H11, H12 in Hb. split; [split|..]; done.
Qed.

Lemma life_weaken k k' s : (k ≤ k')%Z → life_ok k s → life_ok k' s.
Proof. intros ? [? ? ? ?]. split; [done..|]. lia. Qed.

(** A patch whose status is written in the code. *)
Lemma patch_literal patch :
  match pStatus patch with
  | Some st => bool_decide (st ∈ allowed_values "status") | None => true end = true →
  patch_ok patch.
Proof. unfold patch_ok. destruct (pStatus patch); [|done]. rewrite bool_decide_eq_true. naive_solver. Qed.

(** The six lifecycle states. *)
Lemma flags_ok_cases c :
  flags_ok c →
  let f := (Running c, Paused c, Restarting c, Dead c) in
  (Status c = "running" ∧ f = (true, false, false, false)) ∨
  (Status c = "paused" ∧ f = (true, true, false, false)) ∨
  (Status c = "restarting" ∧ f = (true, false, true, false)) ∨
  (Status c = "created" ∧ f = (false, false, false, false)) ∨
  (Status c = "exited" ∧ f = (false, false, false, false)) ∨
  (Status c = "dead" ∧ f = (false, false, false, true)).
Proof.
  unfold flags_ok, status_flags4. cbv zeta.
  repeat case_bool_decide; intros Hf; try done; injection Hf as <- <- <- <-; auto 10.
Qed.

Section invariant.
Context {RO : RangeOrder} {UN : Unicode}.

Lemma total_snapshots P (body : prog CState ()) (Q : CState → Prop) :
  total P body (λ _, Q) → total P (snapshots_around body) (λ _, Q).
Proof.
  intros Hb. unfold snapshots_around.
  eapply total_bind; [apply total_get|]. intros s1.
  apply (total_bind _ _ _ (λ _, Q)); [eapply total_conseq; [exact Hb|naive_solver|done]|]. intros _.
  eapply total_bind; [apply total_get|]. intros s2.
  apply total_ret. naive_solver.
Qed.

Lemma total_ignore {A} P (m : prog CState A) Q : total P m (λ _, Q) → total P (ignore m) (λ _, Q).
Proof.
  intros Hm. eapply total_bind; [exact Hm|]. intros a.
  apply total_ret. naive_solver.
Qed.

(** An update of fields the invariant does not look at. *)
Lemma total_view k f :
  (∀ c, view (f c) = view c) → total (life_ok k) (modify_this f) (λ _, life_ok k).
Proof. intros Hf. apply total_modify. intros s. by apply view_ok; simpl. Qed.

Lemma life_patch now patch k s :
  life_ok k s → patch_ok patch → (k < 2^62)%Z →
  applyPatchLocked now patch s = (patched now patch s, Done ()) ∧
  life_ok (k + 1) (patched now patch s).
Proof.
  intros [Hc Hsc Hb Hn] Hp Hk. assert (pid_room s) as Hroom by (unfold pid_room; lia).
  split.
  - apply applyPatchLocked_spec; [apply Hc|]. apply patch_ok_legal; [apply Hc|done].
  - split.
    + by apply patched_ok.
    + by rewrite (patched_keep cScenario).
    + unfold budget_ok in *. by rewrite (patched_keep cRestartPolicy), (patched_keep automaticRestarts).
    + pose proof (patched_syntheticPID now patch s Hroom). lia.
Qed.

Lemma total_patch now patch k :
  patch_ok patch → (k < 2^62)%Z →
  total (life_ok k) (applyPatchLocked now patch) (λ _, life_ok (k + 1)).
Proof. intros Hp Hk s Hs. destruct (life_patch now patch k s) as [-> ?]; eauto. Qed.

Lemma startPatch_ok c : scenario_ok (cScenario c) → patch_ok (startPatchLocked c).
Proof.
  intros [Hinit _] st. unfold startPatchLocked, default_to. unfold patch_ok in Hinit.
  case_bool_decide; cbn [pStatus fset]; destruct (pStatus (Initial (cScenario c)));
    intros [= <-]; auto; by apply elem_of_cons; right; left.
Qed.

(** [c.manuallyStopped = b; c.automaticRestarts = 0] *)
Lemma total_reset k b :
  total (life_ok k)
    (modify_this (λ c, c <| manuallyStopped := b |> <| automaticRestarts := 0%Z |>))
    (λ _, life_ok k).
Proof.
  apply total_modify. intros [c n] [[Hf Hp Hh Hw] Hsc (_ & _ & Hb) Hn]. split; [by split|done| |done].
  split; [done|]. split; [|done]. cbn. intros _ Hmax. lia.
Qed.

Lemma total_start now k :
  (k < 2^62)%Z → total (life_ok k) (start now) (λ _, life_ok (k + 1)).
Proof.
  intros Hk. apply total_snapshots.
  apply (total_bind _ _ _ (λ _, life_ok k)); [apply total_reset|]. intros _.
  eapply total_bind; [apply total_get|]. intros s. cbv beta.
  apply (total_bind _ _ _ (λ _, life_ok (k + 1))).
  { intros s' [<- Hs]. apply total_patch; [|done..]. apply startPatch_ok, Hs. }
  intros _. apply (total_bind _ _ _ (λ _, life_ok (k + 1))); [by apply total_view|].
  intros _. by apply total_view.
Qed.

Lemma total_stop now code k :
  (k < 2^62)%Z → total (life_ok k) (stop now code) (λ _, life_ok (k + 1)).
Proof.
  intros Hk. apply total_snapshots.
  apply (total_bind _ _ _ (λ _, life_ok k)); [by apply total_view|]. intros _.
  by apply total_patch; [apply patch_literal|].
Qed.

Lemma total_restart now k :
  (k < 2^62)%Z → total (life_ok k) (restart now) (λ _, life_ok (k + 1)).
Proof.
  intros Hk. apply total_snapshots.
  apply (total_bind _ _ _ (λ _, life_ok k)); [apply total_reset|]. intros _.
  by apply total_patch; [apply patch_literal|].
Qed.

Lemma total_kill now k :
  (k < 2^62)%Z → total (life_ok k) (kill now) (λ _, life_ok (k + 1)).
Proof.
  intros Hk. eapply total_bind; [apply total_get|]. intros s0. cbv beta.
  destruct (negb _ || _ || _).
  { apply total_ret. intros s [_ Hs]. eapply life_weaken; [|done]. lia. }
  apply (total_bind _ _ _ (λ _, life_ok k)).
  { intros s [_ Hs]. by apply total_view. }
  intros _. apply (total_bind _ _ _ (λ _, life_ok (k + 1))).
  { by apply total_patch; [apply patch_literal|]. }
  intros _. eapply total_bind; [apply total_get|]. intros s1. apply total_ret. naive_solver.
Qed.

Lemma pause_ok k s :
  Running (this s) = true → Restarting (this s) = false → Dead (this s) = false →
  life_ok k s → life_ok k (s <| this := (this s) <| Status := "paused" |> <| Paused := true |> |>).
Proof.
  destruct s as [c n]. cbn [this syntheticPID fset]. intros Hr Hre Hd [[Hf Hp Hh Hw] Hsc Hb Hn].
  split; [split|..]; try done; cbn [this] in *.
  - unfold flags_ok. cbn. by rewrite Hr, Hre, Hd.
  - unfold pid_ok in *. cbn. split; [auto|]. intros _. apply Hp.
    apply flags_ok_cases in Hf. cbv zeta in Hf. rewrite Hr, Hre, Hd in Hf. naive_solver.
Qed.

Lemma unpause_ok k s :
  Paused (this s) = true → life_ok k s →
  life_ok k (s <| this := set_flags true false false false ((this s) <| Status := "running" |>) |>).
Proof.
  destruct s as [c n]. cbn [this syntheticPID fset]. intros Hpaused [[Hf Hp Hh Hw] Hsc Hb Hn].
  split; [split|..]; try done; cbn [this] in *.
  unfold pid_ok in *. cbn. split; [auto|]. intros _. apply Hp.
  apply flags_ok_cases in Hf. cbv zeta in Hf. rewrite Hpaused in Hf. naive_solver.
Qed.

Lemma total_pause k : total (life_ok k) pause (λ _, life_ok k).
Proof.
  eapply total_bind; [apply total_get|]. intros s0. cbv beta zeta.
  destruct (negb (Running (this s0)) || _ || _) eqn:Hrefuse.
  { apply total_ret. by intros s [_ Hs]. }
  destruct (Paused (this s0)); [apply total_ret; by intros s [_ Hs]|].
  apply (total_bind _ _ _ (λ _, life_ok k)).
  { apply total_modify. intros s [<- Hs].
    apply orb_false_iff in Hrefuse as [[Hr%negb_false_iff Hre]%orb_false_iff Hd].
    by apply pause_ok. }
  intros _. eapply total_bind; [apply total_get|]. intros s1. apply total_ret. naive_solver.
Qed.

Lemma total_unpause k : total (life_ok k) unpause (λ _, life_ok k).
Proof.
  eapply total_bind; [apply total_get|]. intros s0. cbv beta zeta.
  destruct (Paused (this s0)) eqn:Hp; cbn [negb].
  2: { apply total_ret. by intros s [_ Hs]. }
  apply (total_bind _ _ _ (λ _, life_ok k)).
  { apply total_modify. intros s [<- Hs]. by apply unpause_ok. }
  intros _. eapply total_bind; [apply total_get|]. intros s1. apply total_ret. naive_solver.
Qed.

(** An automatic restart that the policy allows stays within its budget. *)
Lemma restart_ok k s :
  automaticRestartAllowedLocked (this s) = true → life_ok k s →
  life_ok k (s <| this := (this s) <| automaticRestarts := wrap64 (automaticRestarts (this s) + 1) |> |>).
Proof.
  destruct s as [c n]. cbn [this syntheticPID fset]. intros Hallowed [[Hf Hp Hh Hw] Hsc (Hno & Hb & Hmax) Hn].
  split; [by split|done| |done]. cbn [this syntheticPID] in *.
  unfold automaticRestartAllowedLocked in Hallowed.
  destruct (manuallyStopped c || removed c || _ || _); [done|].
  split; [|split; [|done]]; cbn; intros Hname.
  - rewrite Hname in Hallowed. done.
  - intros Hpos. specialize (Hb Hname Hpos). rewrite Hname in Hallowed. simpl in Hallowed.
    apply andb_true_iff in Hallowed as [_ Hallowed].
    apply orb_true_iff in Hallowed as [?%bool_decide_eq_true|?%bool_decide_eq_true]; [lia|].
    unfold is_int64, int64_max, int64_min in Hmax.
    rewrite wrap64_id; unfold is_int64, int64_max, int64_min; lia.
Qed.

Lemma total_advance_loop now event count index transitions k :
  Forall (λ t, patch_ok (tSet t)) transitions → (k < 2^62)%Z →
  total (life_ok k) (advance_loop now event count index transitions) (λ _, life_ok (k + 1)).
Proof.
  intros Hall Hk. revert index. induction Hall as [|t rest Ht Hrest IH]; intros index; simpl.
  { apply total_ret. intros s. apply life_weaken. lia. }
  intros s Hs. specialize (IH (S index) s Hs).
  destruct (tOnce t && _); [done|]. destruct (negb (transitionEventMatches _ _)); [done|].
  destruct (bool_decide (0 < tCount t ∧ _)%Z); [done|].
  destruct (bool_decide (tWhenStatus t ≠ _ ∧ _)); [done|].
  destruct (bool_decide (tWhenHealth t ≠ _ ∧ _)); [done|].
  destruct (transitionRestartsStopped _ _ && _) eqn:Hrestarts; [done|].
  clear IH. revert s Hs Hrestarts. cut (∀ s0, life_ok k s0 →
    transitionRestartsStopped (Status (this s0)) (tSet t)
      && negb (automaticRestartAllowedLocked (this s0)) = false →
    total (λ s, s = s0) ((if transitionRestartsStopped (Status (this s0)) (tSet t)
        then modify_this (λ c, c <| automaticRestarts := wrap64 (automaticRestarts c + 1) |>)
        else mret ());;
      applyPatchLocked now (tSet t);;
      (if tOnce t
       then modify_this (λ c, c <| AppliedTransitions := <[index := true]> (AppliedTransitions c) |>)
       else mret ());;
      mret ("transition[" +:+ Itoa (Z.of_nat index) +:+ "]")) (λ _, life_ok (k + 1))).
  { intros Hcut s Hs Hr. by apply (Hcut s Hs Hr). }
  intros s0 Hs0 Hr. apply (total_bind _ _ _ (λ _, life_ok k)).
  { destruct (transitionRestartsStopped _ _); [|apply total_ret; by intros ? ->].
    apply total_modify. intros ? ->. apply restart_ok; [|done].
    by destruct (automaticRestartAllowedLocked _). }
  intros _. apply (total_bind _ _ _ (λ _, life_ok (k + 1))); [by apply total_patch|]. intros _.
  apply (total_bind _ _ _ (λ _, life_ok (k + 1))); [|intros _; by apply total_ret].
  destruct (tOnce t); [by apply total_view|by apply total_ret].
Qed.

Lemma view_count_event event c : view (count_event event c) = view c.
Proof. unfold count_event. by destruct (isDockerObserveEvent event). Qed.

Lemma total_advance now event k :
  (k < 2^62)%Z → total (life_ok k) (advance now event) (λ _, life_ok (k + 1)).
Proof.
  intros Hk. eapply total_bind; [apply total_get|]. intros s0. cbv beta zeta.
  apply (total_bind _ _ _ (λ _ s, Forall (λ t, patch_ok (tSet t)) (Transitions (cScenario (this s0))) ∧ life_ok k s)).
  { apply total_modify. intros s [<- Hs]. split; [apply Hs|].
    revert Hs. by apply view_ok; [rewrite <-(view_count_event event)|]. }
  intros _. apply (total_bind _ _ _ (λ _, life_ok (k + 1))).
  { intros s [Hall Hs]. by apply (total_advance_loop now event _ 0 _ k Hall Hk). }
  intros tr. eapply total_bind; [apply total_get|]. intros s1. apply total_ret. naive_solver.
Qed.

Lemma total_subscribe k cond :
  total (life_ok k) (modify_this (λ c, (subscribeWait cond c).2)) (λ _, life_ok k).
Proof.
  apply total_modify. intros [c n] [[Hf Hp Hh Hw] Hsc Hb Hn]. cbn [this syntheticPID fset] in *.
  unfold subscribeWait. pose proof (is_fresh (dom (waiter_heap c))) as Hfresh.
  set (w := fresh (dom (waiter_heap c))) in *.
  assert (∀ w', w' ∈ dom (waiters c) → w' ≠ w) as Hne.
  { intros w' Hw' ->. destruct (Hw w Hw') as (x & Hx & _). apply Hfresh, elem_of_dom. eauto. }
  destruct (removed c || _); cbn [snd]; split; try done; split; try done; cbn [this];
    intros w'; cbn [waiters waiter_heap fset].
  - intros Hw'. destruct (Hw w' Hw') as (x & ? & ?). exists x. by rewrite lookup_insert_ne by (symmetry; auto).
  - rewrite dom_insert, elem_of_union, elem_of_singleton. intros [->|Hw'].
    + eexists. by rewrite lookup_insert_eq.
    + destruct (Hw w' Hw') as (x & ? & ?). exists x. by rewrite lookup_insert_ne by (symmetry; auto).
Qed.

Lemma total_cancel k w : total (life_ok k) (modify_this (cancelWait w)) (λ _, life_ok k).
Proof.
  apply total_modify. intros [c n] [[Hf Hp Hh Hw] Hsc Hb Hn]. split; try done. split; try done.
  intros w'. cbn. rewrite dom_delete, elem_of_difference. intros [? _]. by apply Hw.
Qed.

(** Only an unregistered waiter has something to receive. *)
Lemma receive_ok k w s waiter r rest :
  waiter_heap (this s) !! w = Some waiter → buffer waiter = r :: rest → life_ok k s →
  life_ok k (s <| this := (this s) <| waiter_heap :=
    <[w := waiter <| buffer := rest |>]> (waiter_heap (this s)) |> |>).
Proof.
  destruct s as [c n]. cbn [this syntheticPID fset]. intros Hheap Hbuf [[Hf Hp Hh Hw] Hsc Hb Hn].
  split; try done. split; try done. intros w' Hw'. cbn in *.
  destruct (Hw w' Hw') as (x & Hx & ?). exists x. split; [|done].
  rewrite lookup_insert_ne; [done|]. intros ->. congruence.
Qed.

Lemma total_remove k : total (life_ok k) markRemoved (λ _, life_ok k).
Proof.
  apply (total_bind _ _ _ (λ _, life_ok k)); [by apply total_view|]. intros _ [c n] Hs.
  eexists _, (). rewrite notifyWaitersLocked_spec by apply Hs. split; [done|].
  destruct Hs as [[Hf Hp Hh Hw] Hsc Hb Hn]. split; try done. split; try done.
  by apply notified_waiters_ok.
Qed.

Lemma total_configure k request :
  policy_ok (rRestartPolicy request) → is_int64 (MaximumRetryCount (rRestartPolicy request)) →
  total (λ s, life_ok k s ∧ cRestartPolicy (this s) = mkRestartPolicy "no" 0)
    (modify_this (λ c, (storeRequestedConfig request c).1)) (λ _, life_ok k).
Proof.
  intros Hpol Hint. apply total_modify.
  intros [c n] [[[Hf Hp Hh Hw] Hsc (Hb & _ & _) Hn] Hno]. cbn [this syntheticPID fset] in *.
  rewrite Hno in Hb. specialize (Hb eq_refl).
  split; try done. unfold storeRequestedConfig, budget_ok. cbn. rewrite Hb.
  split; [done|]. split; [lia|done].
Qed.

(** Every enabled operation ends normally and keeps the invariant. *)
Lemma run_op_ok now o k s :
  life_ok k s → op_ok s o → (k < 2^62)%Z →
  ∃ s', run_op now o s = (s', Done ()) ∧ life_ok (k + 1) s'.
Proof.
  intros Hs Hop Hk.
  cut (total (λ s', s' = s) (run_op now o) (λ _, life_ok (k + 1))).
  { intros Ht. destruct (Ht s eq_refl) as (s' & [] & ? & ?). eauto. }
  assert (∀ m, total (life_ok k) m (λ _ : (), life_ok (k + 1)) →
               total (λ s', s' = s) m (λ _, life_ok (k + 1))) as Hstart.
  { intros m Hm. eapply total_conseq; [exact Hm|by intros ? ->|done]. }
  assert (∀ m, total (life_ok k) m (λ _ : (), life_ok k) →
               total (λ s', s' = s) m (λ _, life_ok (k + 1))) as Hmono.
  { intros m Hm. eapply total_conseq; [exact Hm|by intros ? ->|].
    intros ? s'. apply life_weaken. lia. }
  destruct o; cbn [run_op op_ok] in *.
  - by apply Hstart, total_ignore, total_start.
  - by apply Hstart, total_ignore, total_stop.
  - by apply Hstart, total_ignore, total_kill.
  - by apply Hmono, total_ignore, total_pause.
  - by apply Hmono, total_ignore, total_unpause.
  - by apply Hstart, total_ignore, total_restart.
  - by apply Hstart, total_ignore, total_advance.
  - by apply Hstart, total_ignore, total_snapshots, total_patch.
  - by apply Hmono, total_subscribe.
  - by apply Hmono, total_cancel.
  - apply total_ignore. intros ? ->. destruct Hop as (waiter & r & rest & Hheap & Hbuf).
    unfold receiveWait. rewrite Hheap, Hbuf. eexists _, _. split; [done|].
    apply (life_weaken k); [lia|]. by eapply receive_ok.
  - by apply Hmono, total_remove.
  - by apply Hmono, total_view.
  - by apply Hmono, total_view.
  - by apply Hmono, total_view.
  - apply Hmono, total_view. intros c. unfold updateAssignedPort. cbv zeta. by destruct (bool_decide _).
  - by apply Hmono, total_view.
  - destruct Hop as (? & ? & ?). eapply total_conseq; [by apply total_configure|by intros ? ->|].
    intros ? s'. apply life_weaken. lia.
  - apply total_modify. intros ? ->. destruct Hs as [Hc Hsc Hb Hn].
    split; try done. cbn [syntheticPID fset].
    rewrite wrap64_id; unfold is_int64, int64_min, int64_max; lia.
Qed.
End invariant.

(** ** Reachable states *)

Lemma initial_ok s : initial s → life_ok (2^61) s.
Proof.
  destruct s as [c n]. intros (now & id & name & image & cb & seed & Hc & Hsc & Hn).
  cbn [this syntheticPID] in *. subst c. split; cbn [this syntheticPID].
  - split; cbn; [done| |lia|done]. unfold pid_ok. cbn. split; [done|]. by intros [?|?].
  - done.
  - split; [done|]. split; [done|]. unfold is_int64, int64_min, int64_max. cbn. lia.
  - lia.
Qed.

Lemma runs_ok k n s s' :
  life_ok k s → (k + Z.of_nat n ≤ 2^62)%Z → runs n s s' → life_ok (k + Z.of_nat n) s'.
Proof.
  intros Hs Hk Hruns. induction Hruns as [|n o s s' s'' Hruns IH Hstep].
  - by rewrite Z.add_0_r.
  - rewrite Nat2Z.inj_succ in *. apply IH in Hs; [|lia].
    destruct Hstep as [RO UN now s' s'' Hop Hrun].
    destruct (run_op_ok (RO := RO) (UN := UN) now o _ _ Hs Hop) as (s1 & Hrun' & Hs1); [lia|].
    rewrite Hrun in Hrun'. injection Hrun' as <-. eapply life_weaken; [|exact Hs1]. lia.
Qed.

(** ** The loop of [advance] *)

Section advance.
Context {RO : RangeOrder} {UN : Unicode}.

Lemma count_restart_ok s t :
  container_ok (this s) → container_ok (count_restart t (this s)).
Proof. intros [Hf Hp Hh Hw]. unfold count_restart. destruct (transitionRestartsStopped _ _); by split. Qed.

Lemma count_restart_Status t c : Status (count_restart t c) = Status c.
Proof. unfold count_restart. by destruct (transitionRestartsStopped _ _). Qed.

Lemma applyPatchLocked_ok now patch s :
  container_ok (this s) → patch_ok patch →
  applyPatchLocked now patch s = (patched now patch s, Done ()).
Proof. intros Hc Hp. apply applyPatchLocked_spec; [apply Hc|]. apply patch_ok_legal; [apply Hc|done]. Qed.

(** The test [a != EmptyString && a != b]. *)
Lemma when_fails (a b : string) :
  bool_decide (a ≠ EmptyString ∧ a ≠ b) = negb (bool_decide (a = EmptyString) || bool_decide (a = b)).
Proof. repeat case_bool_decide; naive_solver. Qed.

Lemma count_fails n m :
  bool_decide (0 < n ∧ n ≠ m)%Z = negb (bool_decide (n ≤ 0)%Z || bool_decide (n = m)).
Proof. repeat case_bool_decide; naive_solver lia. Qed.

Lemma if_negb_andb {A} (b1 b2 : bool) (x y : A) :
  (if negb b1 then x else if negb b2 then x else y) = if b1 && b2 then y else x.
Proof. by destruct b1, b2. Qed.

Lemma take_spec now index t s :
  container_ok (this s) → patch_ok (tSet t) →
  ((if transitionRestartsStopped (Status (this s)) (tSet t)
    then modify_this (λ c, c <| automaticRestarts := wrap64 (automaticRestarts c + 1) |>)
    else mret ());;
   applyPatchLocked now (tSet t);;
   (if tOnce t
    then modify_this (λ c, c <| AppliedTransitions := <[index := true]> (AppliedTransitions c) |>)
    else mret ());;
   mret ("transition[" +:+ Itoa (Z.of_nat index) +:+ "]")) s
  = (take_transition now index t s, Done ("transition[" +:+ Itoa (Z.of_nat index) +:+ "]")).
Proof.
  intros Hok Hp. pose proof (count_restart_ok s t Hok) as Hok'.
  rewrite (bind_Done _ _ s (s <| this := count_restart t (this s) |>) ()).
  2: { unfold count_restart, modify_this, modify. by destruct (transitionRestartsStopped _ _), s. }
  rewrite (bind_Done _ _ _ (patched now (tSet t) (s <| this := count_restart t (this s) |>)) ()).
  2: { by apply applyPatchLocked_ok. }
  unfold take_transition. cbv zeta. generalize (patched now (tSet t) (s <| this := count_restart t (this s) |>)).
  intros s1. unfold mark_applied. destruct (tOnce t); [done|]. by destruct s1.
Qed.

Lemma advance_loop_spec now event count index transitions s :
  container_ok (this s) → Forall (λ t, patch_ok (tSet t)) transitions →
  advance_loop now event count index transitions s =
  match first_eligible event count (this s) index transitions with
  | None => (s, Done EmptyString)
  | Some (i, t) => (take_transition now i t s, Done ("transition[" +:+ Itoa (Z.of_nat i) +:+ "]"))
  end.
Proof.
  intros Hok Hall. revert index. induction Hall as [|t rest Ht Hrest IH]; intros index; [done|].
  cbn [advance_loop first_eligible]. rewrite IH, take_spec, !when_fails, count_fails by done. clear IH.
  unfold eligible.
  destruct (tOnce t && default false (AppliedTransitions (this s) !! index)); [done|].
  destruct (transitionEventMatches (tEvent t) event); [|done].
  destruct (bool_decide (tCount t ≤ 0)%Z || _); [|done].
  destruct (bool_decide (tWhenStatus t = _) || _); [|done].
  destruct (bool_decide (tWhenHealth t = _) || _); [|done].
  destruct (transitionRestartsStopped _ _); [|done].
  by destruct (automaticRestartAllowedLocked _).
Qed.
End advance.

(** ** The methods as equations *)

Section methods.
Context {RO : RangeOrder} {UN : Unicode}.

Lemma snapshots_around_Done body s s' :
  body s = (s', Done ()) → snapshots_around body s = (s', Done (snapshots s s')).
Proof.
  intros Hb. unfold snapshots_around. rewrite (bind_Done _ _ s s s) by done.
  by rewrite (bind_Done _ _ s s' ()) by done.
Qed.

Lemma reset_ok c : container_ok c → container_ok (reset_policy c).
Proof. by intros [? ? ? ?]. Qed.

Lemma modify_twice f g s :
  (modify_this f;; modify_this g) s = (s <| this := g (f (this s)) |>, Done ()).
Proof. done. Qed.

(** [start] after the reset of the policy fields. *)
Lemma start_tail now s :
  container_ok (this s) → patch_ok (startPatchLocked (this s)) →
  (s ← get;
   applyPatchLocked now (startPatchLocked (this s));;
   modify_this next_start;;
   modify_this log_start) s =
  (let s' := patched now (startPatchLocked (this s)) s in s' <| this := count_start (this s') |>, Done ()).
Proof.
  intros Hok Hp. rewrite (bind_Done _ _ s s s) by done.
  rewrite (bind_Done _ _ s _ () (applyPatchLocked_ok now _ s Hok Hp)).
  by rewrite (modify_twice next_start log_start (patched now (startPatchLocked (this s)) s)).
Qed.

Lemma start_spec now s :
  container_ok (this s) → scenario_ok (cScenario (this s)) →
  start now s = (started now s, Done (snapshots s (started now s))).
Proof.
  intros Hok Hsc. apply snapshots_around_Done.
  rewrite (bind_Done _ _ s (s <| this := reset_policy (this s) |>) ()) by done.
  apply (start_tail now (s <| this := reset_policy (this s) |>)).
  - by apply reset_ok.
  - by apply startPatch_ok.
Qed.

Lemma stop_spec now code s :
  container_ok (this s) →
  stop now code s = (stopped_by now (stop_patch code) s,
    Done (snapshots s (stopped_by now (stop_patch code) s))).
Proof.
  intros [? ? ? ?]. apply snapshots_around_Done.
  rewrite (bind_Done _ _ s (s <| this := (this s) <| manuallyStopped := true |> |>) ()) by done.
  by apply applyPatchLocked_ok; [|apply patch_literal].
Qed.

Lemma restart_spec now s :
  container_ok (this s) →
  restart now s = (restarted now s, Done (snapshots s (restarted now s))).
Proof.
  intros Hok. apply snapshots_around_Done.
  rewrite (bind_Done _ _ s (s <| this := reset_policy (this s) |>) ()) by done.
  by apply applyPatchLocked_ok; [apply reset_ok|apply patch_literal].
Qed.

Lemma kill_spec now s :
  container_ok (this s) →
  kill now s =
  if Running (this s) && negb (Dead (this s)) && negb (removed (this s))
  then (stopped_by now kill_patch s, Done (snapshots s (stopped_by now kill_patch s), None))
  else (s, Done (refuse (this s) "container is not running")).
Proof.
  intros [? ? ? ?]. unfold kill. rewrite (bind_Done _ _ s s s) by done.
  destruct (Running (this s)), (Dead (this s)), (removed (this s)); cbn [negb orb andb]; try done.
  rewrite (bind_Done _ _ s (s <| this := (this s) <| manuallyStopped := true |> |>) ()) by done.
  rewrite (bind_Done _ _ _ (stopped_by now kill_patch s) ()).
  2: { by apply applyPatchLocked_ok; [|apply patch_literal]. }
  done.
Qed.

Lemma kill_Done now s :
  container_ok (this s) →
  let b := Running (this s) && negb (Dead (this s)) && negb (removed (this s)) in
  kill now s = (if b then stopped_by now kill_patch s else s,
    Done (if b then (snapshots s (stopped_by now kill_patch s), None)
          else refuse (this s) "container is not running")).
Proof. intros Hok. rewrite kill_spec by done. cbv zeta. by destruct (Running (this s) && _ && _). Qed.

Lemma advance_spec' now event s :
  container_ok (this s) → scenario_ok (cScenario (this s)) →
  let count := counter (bump event (Counters (this s))) event in
  let s1 := s <| this := count_event event (this s) |> in
  let '(s2, description) :=
    match first_eligible event count (this s1) 0 (Transitions (cScenario (this s))) with
    | None => (s1, EmptyString)
    | Some (i, t) => (take_transition now i t s1, "transition[" +:+ Itoa (Z.of_nat i) +:+ "]")
    end in
  advance now event s = (s2, Done (mkAdvance count (stateSnapshotLocked (this s))
                                     (stateSnapshotLocked (this s2)) description)).
Proof.
  intros Hok [_ Hsc]. cbv zeta.
  set (s1 := s <| this := count_event event (this s) |>).
  assert (container_ok (this s1)) as Hok1.
  { destruct Hok. unfold s1, count_event. cbn [this fset]. by destruct (isDockerObserveEvent event). }
  pose proof (advance_loop_spec now event (counter (bump event (Counters (this s))) event) 0
    (Transitions (cScenario (this s))) s1 Hok1 Hsc) as Hloop.
  unfold advance. rewrite (bind_Done _ _ s s s) by done.
  rewrite (bind_Done _ _ s s1 ()) by done.
  destruct (first_eligible _ _ _ _ _) as [[i t]|]; by rewrite (bind_Done _ _ _ _ _ Hloop).
Qed.
End methods.

(** ** Phases *)

Lemma phase_name_inj p p' : phase_name p = phase_name p' → p = p'.
Proof. by destruct p, p'. Qed.

Lemma flags_ok_phase c : flags_ok c → ∃ p, in_phase c p.
Proof.
  intros Hf%flags_ok_cases. cbv zeta in Hf.
  destruct Hf as [[Hs Hf]|[[Hs Hf]|[[Hs Hf]|[[Hs Hf]|[[Hs Hf]|[Hs Hf]]]]]]; injection Hf as H1 H2 H3 H4;
    [exists PRunning|exists PPaused|exists PRestarting|exists PCreated|exists PExited|exists PDead];
    unfold in_phase; by rewrite Hs, H1, H2, H3, H4.
Qed.

Lemma in_phase_status c p : flags_ok c → Status c = phase_name p → in_phase c p.
Proof.
  intros [p' Hp']%flags_ok_phase Hs. destruct Hp' as [Hs' Hrest]. rewrite Hs in Hs'.
  by apply phase_name_inj in Hs' as ->.
Qed.

Lemma in_phase_unique c p p' : in_phase c p → Status c = phase_name p' → p = p'.
Proof. intros [Hs _] Hs'. apply phase_name_inj. congruence. Qed.

(** A patch applied to a container in phase [p]. *)
Lemma patched_phase now patch s p p' :
  in_phase (this s) p → in_phase (this (patched now patch s)) p' → patch_phase patch p p'.
Proof.
  intros Hp Hp'. destruct (Hp') as [Hs' _]. rewrite patched_Status in Hs'. unfold patch_phase.
  destruct (pStatus patch) as [st|]; simpl in Hs'; [done|].
  symmetry. by apply (in_phase_unique (this s)).
Qed.

(** A transition that would restart a stopped container needs the policy's leave. *)
Lemma restarts_stopped_phase t c p p' :
  in_phase c p → patch_phase (tSet t) p p' → phase_running p = false → phase_running p' = true →
  transitionRestartsStopped (Status c) (tSet t) = true.
Proof.
  intros [Hs _] Hpatch Hp Hp'. unfold transitionRestartsStopped, patch_phase in *. rewrite Hs.
  destruct (pStatus (tSet t)) as [st|]; [subst st|congruence].
  by destruct p, p'.
Qed.

Lemma first_eligible_Some event count c index transitions i t :
  first_eligible event count c index transitions = Some (i, t) →
  (index ≤ i) ∧ transitions !! (i - index) = Some t ∧ eligible event count c i t = true.
Proof.
  revert index. induction transitions as [|t' rest IH]; intros index; simpl; [done|].
  destruct (eligible event count c index t') eqn:He.
  - intros [= <- <-]. by rewrite Nat.sub_diag.
  - intros (Hle & Hl & ?)%IH. split; [lia|]. split; [|done].
    by replace (i - index) with (S (i - S index)) by lia.
Qed.

Lemma eligible_parts event count c index t :
  eligible event count c index t = true →
  (tOnce t = true → AppliedTransitions c !! index ≠ Some true) ∧
  transitionEventMatches (tEvent t) event = true ∧
  (transitionRestartsStopped (Status c) (tSet t) = true → automaticRestartAllowedLocked c = true).
Proof.
  unfold eligible. rewrite !andb_true_iff. intros [[[[[Honce Hm] _] _] _] Hr].
  split_and!; [|done|].
  - intros Ho Ha. by rewrite Ho, Ha in Honce.
  - intros Hrs. by rewrite Hrs in Hr.
Qed.

Lemma count_event_keep {A} (f : Container → A) event c :
  (∀ c m, f (c <| Counters := m |>) = f c) → f (count_event event c) = f c.
Proof. intros Hf. unfold count_event. destruct (isDockerObserveEvent event); by rewrite ?Hf. Qed.

Lemma take_transition_phase now i t s p p' :
  in_phase (this s) p → in_phase (this (take_transition now i t s)) p' → patch_phase (tSet t) p p'.
Proof.
  intros Hp Hp'. unfold take_transition in Hp'. cbv zeta in Hp'.
  apply (patched_phase now (tSet t) (s <| this := count_restart t (this s) |>)).
  - unfold count_restart. cbn [this fset]. by destruct (transitionRestartsStopped _ _).
  - revert Hp'. generalize (patched now (tSet t) (s <| this := count_restart t (this s) |>)).
    intros s1. unfold mark_applied. by destruct (tOnce t).
Qed.

Lemma same_phase c c' p p' :
  in_phase c p → in_phase c' p' → Status c' = Status c → p' = p.
Proof. intros [Hs _] [Hs' _] Heq. apply phase_name_inj. congruence. Qed.

Section phases.
Context {RO : RangeOrder} {UN : Unicode}.

Lemma run_ignore {A} (m : prog CState A) s s' a s1 :
  ignore m s = (s', Done ()) → m s = (s1, Done a) → s' = s1.
Proof. intros Hrun Hm. revert Hrun. unfold ignore. rewrite (bind_Done _ _ _ _ _ Hm). by intros [= <-]. Qed.

Lemma advance_phase now event k s s' p p' :
  life_ok k s → ignore (advance now event) s = (s', Done ()) →
  in_phase (this s) p → in_phase (this s') p' → phase_step (OpAdvance event) (this s) p p'.
Proof.
  intros Hs Hrun Hp Hp'.
  pose proof (advance_spec' now event s (life_container _ _ Hs) (life_scenario _ _ Hs)) as Hadv.
  cbv zeta in Hadv. set (s1 := s <| this := count_event event (this s) |>) in *.
  assert (in_phase (this s1) p) as Hp1.
  { unfold in_phase, s1 in *. cbn [this fset]. by rewrite !(count_event_keep _ event (this s)). }
  destruct (first_eligible _ _ _ _ _) as [[i t]|] eqn:Hfe;
    pose proof (run_ignore _ _ _ _ _ Hrun Hadv) as ->; clear Hrun.
  2: { left. symmetry. destruct Hp1 as [? _], Hp' as [? _]. apply phase_name_inj. congruence. }
  right. apply first_eligible_Some in Hfe as (_ & Hl & He). apply eligible_parts in He as (_ & Hm & Hr).
  exists t. split_and!.
  - by eapply list_elem_of_lookup_2.
  - done.
  - by eapply take_transition_phase.
  - intros Hnr Hnr'. change (automaticRestartAllowedLocked (this s) = true).
    rewrite <-(count_event_keep automaticRestartAllowedLocked event (this s)) by done.
    apply Hr. apply (restarts_stopped_phase _ _ p p'); [done| |done|done].
    by eapply take_transition_phase.
Qed.

Lemma started_Status now s :
  Status (this (started now s)) = default "running" (pStatus (Initial (cScenario (this s)))).
Proof.
  unfold started. cbv zeta. cbn [this fset].
  assert (∀ c, Status (count_start c) = Status c) as Hkeep by done.
  rewrite Hkeep, patched_Status. unfold startPatchLocked.
  destruct (bool_decide _); cbn [pStatus fset]; unfold default_to; by destruct (pStatus (Initial _)).
Qed.

Lemma pause_phase s s' p p' :
  ignore pause s = (s', Done ()) → in_phase (this s) p → in_phase (this s') p' →
  p' = if bool_decide (p = PRunning) then PPaused else p.
Proof.
  intros Hrun Hp [Hp' _]. destruct (Hp) as (Hs & Hr & Hpa & Hre & Hd).
  apply phase_name_inj. rewrite <-Hp'. revert Hrun. unfold ignore, pause.
  rewrite (bind_Done _ _ s (if bool_decide (p = PRunning)
    then s <| this := (this s) <| Status := "paused" |> <| Paused := true |> |> else s)
    (if bool_decide (phase_running p) && negb (bool_decide (p = PRestarting))
     then (stateSnapshotLocked (this s), stateSnapshotLocked (this
       (if bool_decide (p = PRunning)
        then s <| this := (this s) <| Status := "paused" |> <| Paused := true |> |> else s)), None)
     else refuse (this s) ("container " +:+ Name (this s) +:+ " is not running"))).
  - intros [= <-]. by destruct p.
  - rewrite (bind_Done _ _ s s s) by done. rewrite Hr, Hre, Hd, Hpa. by destruct p.
Qed.

Lemma unpause_phase s s' p p' :
  ignore unpause s = (s', Done ()) → in_phase (this s) p → in_phase (this s') p' →
  p' = if bool_decide (p = PPaused) then PRunning else p.
Proof.
  intros Hrun Hp [Hp' _]. destruct (Hp) as (Hs & Hr & Hpa & Hre & Hd).
  apply phase_name_inj. rewrite <-Hp'. revert Hrun. unfold ignore, unpause.
  destruct (decide (p = PPaused)) as [->|Hne].
  - rewrite (bind_Done _ _ s (s <| this := set_flags true false false false ((this s) <| Status := "running" |>) |>)
      ((stateSnapshotLocked (this s), stateSnapshotLocked
        (set_flags true false false false ((this s) <| Status := "running" |>)), None) : attempt)).
    + by intros [= <-].
    + rewrite (bind_Done _ _ s s s) by done. by rewrite Hpa.
  - rewrite (bind_Done _ _ s s (refuse (this s) ("container " +:+ Name (this s) +:+ " is not paused"))).
    + intros [= <-]. by rewrite bool_decide_false.
    + rewrite (bind_Done _ _ s s s) by done. rewrite Hpa, bool_decide_false by done. done.
Qed.

Lemma modify_this_inv f s s' : modify_this f s = (s', Done ()) → this s' = f (this s).
Proof. by intros [= <-]. Qed.

Lemma modify_phase f s s' p p' :
  (∀ c, Status (f c) = Status c) → modify_this f s = (s', Done ()) →
  in_phase (this s) p → in_phase (this s') p' → p' = p.
Proof.
  intros Hf Hrun%modify_this_inv Hp Hp'. rewrite Hrun in Hp'.
  eapply same_phase; [exact Hp|exact Hp'|apply Hf].
Qed.

Lemma kill_phase now s s' p p' :
  container_ok (this s) → ignore (kill now) s = (s', Done ()) →
  in_phase (this s) p → in_phase (this s') p' →
  p' = if phase_running p && negb (removed (this s)) then PExited else p.
Proof.
  intros Hok Hrun Hp Hp'. pose proof (run_ignore _ _ _ _ _ Hrun (kill_Done now s Hok)) as ->.
  destruct (Hp) as (_ & Hr & _ & _ & Hd). rewrite Hr, Hd in Hp'.
  replace (phase_running p && negb (bool_decide (p = PDead))) with (phase_running p) in Hp' by by destruct p.
  destruct (phase_running p && negb (removed (this s))).
  - eapply in_phase_unique; [exact Hp'|]. unfold stopped_by. by rewrite patched_Status.
  - by eapply same_phase.
Qed.

Lemma stop_phase now code s s' p' :
  container_ok (this s) → ignore (stop now code) s = (s', Done ()) → in_phase (this s') p' → p' = PExited.
Proof.
  intros Hok Hrun Hp'. pose proof (run_ignore _ _ _ _ _ Hrun (stop_spec now code s Hok)) as ->.
  eapply in_phase_unique; [exact Hp'|]. unfold stopped_by. by rewrite patched_Status.
Qed.

Lemma restart_phase now s s' p' :
  container_ok (this s) → ignore (restart now) s = (s', Done ()) → in_phase (this s') p' → p' = PRestarting.
Proof.
  intros Hok Hrun Hp'. pose proof (run_ignore _ _ _ _ _ Hrun (restart_spec now s Hok)) as ->.
  eapply in_phase_unique; [exact Hp'|]. unfold restarted. by rewrite patched_Status.
Qed.

Lemma start_phase now k s s' p' :
  life_ok k s → ignore (start now) s = (s', Done ()) → in_phase (this s') p' →
  phase_name p' = default "running" (pStatus (Initial (cScenario (this s)))).
Proof.
  intros Hs Hrun [Hp' _]. rewrite <-(started_Status now), <-Hp'.
  by pose proof (run_ignore _ _ _ _ _ Hrun
    (start_spec now s (life_container _ _ Hs) (life_scenario _ _ Hs))) as ->.
Qed.

Lemma patch_phase_step now patch s s' p p' :
  container_ok (this s) → patch_ok patch → ignore (applyPatch now patch) s = (s', Done ()) →
  in_phase (this s) p → in_phase (this s') p' → patch_phase patch p p'.
Proof.
  intros Hok Hpatch Hrun Hp Hp'. pose proof (run_ignore _ _ _ _ _ Hrun
    (snapshots_around_Done _ _ _ (applyPatchLocked_ok now patch s Hok Hpatch))) as ->.
  by eapply patched_phase.
Qed.

Lemma receive_Status w s s' r : receiveWait w s = (s', Done r) → Status (this s') = Status (this s).
Proof. unfold receiveWait. destruct (_ !! w) as [x|]; [|done]. by destruct (buffer x); intros [= <- _]. Qed.

Lemma receive_phase w s s' p p' :
  ignore (receiveWait w) s = (s', Done ()) → in_phase (this s) p → in_phase (this s') p' → p' = p.
Proof.
  unfold ignore, mbind, prog_bind. destruct (receiveWait w s) as [s1 [r|?|]] eqn:Hr; intros [=]; subst s1.
  intros Hp Hp'. eapply same_phase; [exact Hp|exact Hp'|]. by eapply receive_Status.
Qed.

Lemma remove_phase s s' p p' :
  container_ok (this s) → markRemoved s = (s', Done ()) →
  in_phase (this s) p → in_phase (this s') p' → p' = p.
Proof.
  intros Hok. unfold markRemoved.
  rewrite (bind_Done _ _ s (s <| this := (this s) <| removed := true |> |>) ()) by done.
  rewrite notifyWaitersLocked_spec by apply Hok. intros [= <-] Hp Hp'.
  eapply same_phase; [exact Hp|exact Hp'|done].
Qed.

(** Conversion unfolds [run_op] before the bodies of the methods. *)
#[local] Strategy 100 [ignore start stop restart kill pause unpause advance applyPatch].

(** Every operation refines the abstract lifecycle. *)
Lemma run_op_phase now o k s s' p p' :
  life_ok k s → op_ok s o → (k < 2^62)%Z → run_op now o s = (s', Done ()) →
  in_phase (this s) p → in_phase (this s') p' → phase_step o (this s) p p'.
Proof.
  intros Hs Hop Hk Hrun Hp Hp'. pose proof (life_container _ _ Hs) as Hok.
  destruct o; unfold run_op in Hrun; unfold op_ok in Hop; unfold phase_step.
  - exact (start_phase _ _ _ _ _ Hs Hrun Hp').
  - exact (stop_phase _ _ _ _ _ Hok Hrun Hp').
  - by eapply kill_phase.
  - by eapply pause_phase.
  - by eapply unpause_phase.
  - exact (restart_phase _ _ _ _ Hok Hrun Hp').
  - by eapply advance_phase.
  - by eapply patch_phase_step.
  - refine (modify_phase _ _ _ _ _ _ Hrun Hp Hp'). intros c.
    unfold subscribeWait. by destruct (removed c || _).
  - by refine (modify_phase _ _ _ _ _ _ Hrun Hp Hp').
  - by eapply receive_phase.
  - by eapply remove_phase.
  - by refine (modify_phase _ _ _ _ _ _ Hrun Hp Hp').
  - by refine (modify_phase _ _ _ _ _ _ Hrun Hp Hp').
  - by refine (modify_phase _ _ _ _ _ _ Hrun Hp Hp').
  - refine (modify_phase _ _ _ _ _ _ Hrun Hp Hp'). intros c.
    unfold updateAssignedPort. cbv zeta. by destruct (bool_decide _).
  - by refine (modify_phase _ _ _ _ _ _ Hrun Hp Hp').
  - by refine (modify_phase _ _ _ _ _ _ Hrun Hp Hp').
  - injection Hrun as <-. by eapply same_phase.
Qed.
End phases.
