(* ===== verification/ContainerIdentity.v ===== *)
(** No method of a container changes its identity, whatever state it is in and
    however the method ends: the engine's registry can rely on it. *)
From S2P Require Import Prelude GoStrings GoTime Cookbook CookbookValidation Container ContainerFacts ContainerConfig ContainerLife.

(** The fields that the engine looks containers up by, and those it reads without
    the container's lock. *)
Definition identity (c : Container) : string * string * string * (string * Z * ServiceDefaults) :=
  (ID c, Name c, Kind c, (Image c, Seed c, Spec c)).

Definition is_same (c : Container) (s : CState) : Prop := identity (this s) = identity c.

Lemma static_identity c c' : static c = static c' → identity c = identity c'.
Proof. intros Heq. change (identity (static c) = identity (static c')). by rewrite Heq. Qed.

Section identity.
Context {RO : RangeOrder} {UN : Unicode} (c0 : Container).
Notation same := (keeps (is_same c0)).

Lemma same_modify_this f : (∀ c, identity (f c) = identity c) → same (modify_this f).
Proof. intros Hf. apply keeps_modify. intros s Hs. unfold is_same. simpl. by rewrite Hf. Qed.

Lemma same_notify_loop is_removed ws : same (notify_loop is_removed ws).
Proof.
  induction ws as [|w ws IH]; [apply keeps_ret|]. intros s Hs. simpl.
  destruct (waiter_heap (this s) !! w) as [waiter|]; [|done].
  destruct (_ && _); [by apply IH|]. destruct (buffer waiter); [|done]. by apply IH.
Qed.

Lemma same_notify is_removed : same (notifyWaitersLocked is_removed).
Proof. intros s. apply same_notify_loop. Qed.

Lemma canonicalFlags_static c c' : canonicalFlags c = Some c' → static c' = static c.
Proof. unfold canonicalFlags. repeat case_bool_decide; intros; simplify_eq; done. Qed.

Lemma same_applyPatchLocked now patch : same (applyPatchLocked now patch).
Proof.
  intros s Hs. unfold applyPatchLocked.
  pose proof (patchFields_static patch (this s)) as Hfields.
  destruct (canonicalFlags _) as [c|] eqn:Hcanon; [|by etrans; [apply static_identity, Hfields|]].
  apply canonicalFlags_static in Hcanon. apply keeps_bind.
  - destruct (_ && _); [apply same_notify|apply keeps_ret].
  - intros _. apply keeps_modify. intros s' Hs'. unfold is_same. simpl. rewrite <-Hs'.
    apply static_identity. by rewrite patchHealthLog_static, patchTimes_static.
  - unfold is_same. simpl. rewrite <-Hs. apply static_identity. congruence.
Qed.

Lemma same_bind {A B} (m : prog CState A) (f : A → prog CState B) :
  same m → (∀ a, same (f a)) → same (m ≫= f).
Proof. apply keeps_bind. Qed.

Hint Resolve same_applyPatchLocked same_notify : core.
Hint Extern 5 (same (modify_this _)) => (apply same_modify_this; intros ?; done) : core.
Hint Extern 5 (same (mret _)) => apply keeps_ret : core.
Hint Extern 5 (same get) => apply keeps_get : core.
Hint Extern 6 (same (_ ≫= _)) => (apply same_bind; [|intros ?]) : core.

Lemma same_around body : same body → same (snapshots_around body).
Proof. intros Hb. unfold snapshots_around. auto 10. Qed.
Hint Resolve same_around : core.

Lemma same_applyPatch now patch : same (applyPatch now patch).
Proof. unfold applyPatch. auto. Qed.
Lemma same_start now : same (start now).
Proof. unfold start. auto 20. Qed.
Lemma same_stop now code : same (stop now code).
Proof. unfold stop. auto 20. Qed.
Lemma same_restart now : same (restart now).
Proof. unfold restart. auto 20. Qed.
Lemma same_kill now : same (kill now).
Proof. unfold kill. apply same_bind; [auto|]. intros s. destruct (_ || _); auto 20. Qed.
Lemma same_pause : same pause.
Proof.
  unfold pause. apply same_bind; [auto|]. intros s. cbv zeta. destruct (_ || _); [auto|].
  destruct (Paused _); auto 20.
Qed.
Lemma same_unpause : same unpause.
Proof. unfold unpause. apply same_bind; [auto|]. intros s. cbv zeta. destruct (negb _); auto 20. Qed.
Lemma same_markRemoved : same markRemoved.
Proof. unfold markRemoved. auto. Qed.

Lemma same_advance_loop now event count index ts : same (advance_loop now event count index ts).
Proof.
  revert index. induction ts as [|t ts IH]; intros index; [apply keeps_ret|]. intros s Hs. cbn [advance_loop].
  repeat match goal with
  | |- context [if ?b then advance_loop _ _ _ _ _ s else _] => destruct b; [by apply IH|]
  end.
  apply same_bind; [case_match; auto| |done]. intros _. apply same_bind; [auto|]. intros _.
  apply same_bind; [case_match; auto|]. auto.
Qed.

Lemma count_event_identity event c : identity (count_event event c) = identity c.
Proof. unfold count_event. by destruct (isDockerObserveEvent event). Qed.

Lemma same_advance now event : same (advance now event).
Proof.
  unfold advance. apply same_bind; [auto|]. intros s. cbv zeta. apply same_bind.
  { apply same_modify_this. apply count_event_identity. }
  intros _. apply same_bind; [apply same_advance_loop|]. auto 10.
Qed.

Lemma same_receive w : same (receiveWait w).
Proof.
  intros s Hs. unfold receiveWait. destruct (waiter_heap _ !! w) as [waiter|]; [|done]. by destruct (buffer waiter).
Qed.

Lemma updateAssignedPort_identity key index port c : identity (updateAssignedPort key index port c) = identity c.
Proof. unfold updateAssignedPort. by case_bool_decide. Qed.

Lemma subscribeWait_identity cond c : identity (subscribeWait cond c).2 = identity c.
Proof. unfold subscribeWait. by destruct (_ || _). Qed.

Lemma same_run_op now o : same (run_op now o).
Proof.
  assert (∀ A (m : prog CState A), same m → same (ignore m)) as Hig
    by (intros A m Hm; apply same_bind; [done|auto]).
  destruct o; simpl; try apply Hig;
    auto using same_start, same_stop, same_kill, same_pause, same_unpause, same_restart, same_advance,
      same_applyPatch, same_receive, same_markRemoved, same_modify_this, updateAssignedPort_identity, subscribeWait_identity.
  by apply keeps_modify.
Qed.
End identity.
