(* ===== verification/ContainerTheorems.v ===== *)
(** The theorems about one container: what is true of every state it can reach, that
    it refines the abstract lifecycle, what the restart policy permits, and that no
    wait result is lost. *)
From S2P Require Import Prelude GoStrings GoTime Cookbook CookbookValidation Container ContainerFacts ContainerConfig ContainerLife.
From Stdlib Require Import Ascii.

#[local] Strategy 100 [ignore start stop restart kill pause unpause advance applyPatch].

(** * Definitions *)

(** The operations that do not ask for a container to be started: everything but
    [start], [restart] and the patch of a reply. *)
Definition asks_no_start (o : op) : Prop :=
  match o with OpStart | OpRestart | OpPatch _ => False | _ => True end.

(** A run of operations that all satisfy [P]. *)
Inductive runs_of (P : op → Prop) : nat → CState → CState → Prop :=
| runs_of_refl s : runs_of P 0 s s
| runs_of_step n o s s' s'' :
    runs_of P n s s' → P o → step o s' s'' → runs_of P (S n) s s''.

(** The waiter [w] holds the result [r] and is out of the container's hands. *)
Definition delivered (w : nat) (waiter : containerWaiter) (c : Container) : Prop :=
  w ∉ dom (waiters c) ∧ waiter_heap c !! w = Some waiter.

(** A small scenario, for the examples: it exits on the second inspection. *)
Definition demo_scenario : Scenario :=
  mkScenario "demo"
    (mkStatePatch (Some "running") (Some true) (Some false) None (Some "healthy") (Some 0%Z) None (Some 0%Z) 0)
    [mkTransition "docker.inspect" 2 EmptyString EmptyString true
       (mkStatePatch (Some "exited") None None None None (Some 3%Z) None None 0);
     mkTransition "docker.inspect" 0 "exited" EmptyString false
       (mkStatePatch (Some "running") None None None None None None None 1)] ∅ ∅.

Definition demo_cookbook : Cookbook :=
  mkCookbook "nginx" ["nginx"] (mkServiceDefaults "web" "nginx" "http" "127.0.0.2" 80 "127.0.0.1" 8080)
    {[ "0" := demo_scenario ]}.

Definition demo : CState := mkCState (newContainer 0%Z "id" "web" "nginx" demo_cookbook 0) 0.

(** The state after an operation that ends normally. *)
Definition after (o : op) (s : CState) : CState :=
  (run_op (RO := range_forward) (UN := unicode_none) 1%Z o s).1.

(** * Lemmas *)

(** ** Waiters that are no longer registered *)

(** Nothing happens to an allocated waiter that is not registered. *)
Definition quiet (c c' : Container) : Prop :=
  ∀ w, w ∈ dom (waiter_heap c) → w ∉ dom (waiters c) →
  w ∉ dom (waiters c') ∧ waiter_heap c' !! w = waiter_heap c !! w.

#[export] Instance quiet_preorder : PreOrder quiet.
Proof.
  split; [by intros c w|]. intros c1 c2 c3 H12 H23 w Hw Hnot.
  destruct (H12 w Hw Hnot) as [Hnot2 Hheap2].
  assert (w ∈ dom (waiter_heap c2)) as Hw2 by (apply elem_of_dom; rewrite Hheap2; by apply elem_of_dom).
  destruct (H23 w Hw2 Hnot2) as [Hnot3 Hheap3]. split; [done|]. by rewrite Hheap3.
Qed.

Lemma quiet_same c c' : waiters c' = waiters c → waiter_heap c' = waiter_heap c → quiet c c'.
Proof. intros Hw Hh w ? ?. by rewrite Hw, Hh. Qed.

Lemma quiet_notified b c : quiet c (notified b c).
Proof.
  intros w [x Hx]%elem_of_dom Hnot. unfold notified. cbn [waiters waiter_heap fset]. split.
  - intros [u Hu]%elem_of_dom. apply map_lookup_filter_Some in Hu as [Hu _].
    apply Hnot, elem_of_dom. eauto.
  - rewrite map_lookup_imap, Hx. cbn. unfold woken. by rewrite bool_decide_false.
Qed.

Lemma quiet_patched now patch s : quiet (this s) (this (patched now patch s)).
Proof.
  transitivity (signalled patch (this s)).
  - transitivity (canonical (patchFields patch (this s))).
    + apply quiet_same; rewrite canonical_keep by done; unfold patchFields; by case_bool_decide.
    + unfold signalled. cbv zeta. destruct (exits _ _); [apply quiet_notified|done].
  - apply quiet_same; by rewrite patched_late.
Qed.

Section waiting.
Context {RO : RangeOrder} {UN : Unicode}.

Lemma quiet_modify f s s' :
  (∀ c, waiters (f c) = waiters c) → (∀ c, waiter_heap (f c) = waiter_heap c) →
  modify_this f s = (s', Done ()) → quiet (this s) (this s').
Proof. intros Hw Hh ->%modify_this_inv. by apply quiet_same. Qed.

Lemma quiet_via c now patch s :
  quiet (this s) c → ∀ n, quiet (this s) (this (patched now patch (mkCState c n))).
Proof. intros Hc n. etrans; [exact Hc|]. apply (quiet_patched now patch (mkCState c n)). Qed.

Lemma quiet_after f c c' :
  quiet c c' → (∀ c, waiters (f c) = waiters c) → (∀ c, waiter_heap (f c) = waiter_heap c) → quiet c (f c').
Proof. intros Hc Hw Hh. etrans; [exact Hc|]. by apply quiet_same. Qed.

Lemma quiet_started now s : quiet (this s) (this (started now s)).
Proof.
  unfold started. cbv zeta. cbn [fset].
  apply (quiet_after count_start); [|done..]. apply quiet_via. by apply quiet_same.
Qed.

Lemma quiet_stopped now patch s : quiet (this s) (this (stopped_by now patch s)).
Proof. unfold stopped_by. cbn [fset]. apply quiet_via. by apply quiet_same. Qed.

Lemma quiet_restarted now s : quiet (this s) (this (restarted now s)).
Proof. unfold restarted. cbn [fset]. apply quiet_via. by apply quiet_same. Qed.

Lemma quiet_take now i t s : quiet (this s) (this (take_transition now i t s)).
Proof.
  unfold take_transition. cbv zeta. cbn [fset]. apply (quiet_after (mark_applied i t)).
  - apply quiet_via. apply quiet_same; unfold count_restart; by destruct (transitionRestartsStopped _ _).
  - intros c. unfold mark_applied. by destruct (tOnce t).
  - intros c. unfold mark_applied. by destruct (tOnce t).
Qed.

Lemma quiet_advance now event s s' :
  container_ok (this s) → scenario_ok (cScenario (this s)) →
  ignore (advance now event) s = (s', Done ()) → quiet (this s) (this s').
Proof.
  intros Hok Hsc Hrun. pose proof (advance_spec' now event s Hok Hsc) as Hadv. cbv zeta in Hadv.
  set (s1 := s <| this := count_event event (this s) |>) in *.
  assert (quiet (this s) (this s1)) as Hq.
  { apply quiet_same; unfold s1; cbn [this fset]; by rewrite count_event_keep. }
  destruct (first_eligible _ _ _ _ _) as [[i t]|];
    pose proof (run_ignore _ _ _ _ _ Hrun Hadv) as ->; [|done].
  etrans; [exact Hq|apply quiet_take].
Qed.

Lemma quiet_subscribe cond c : quiet c (subscribeWait cond c).2.
Proof.
  intros w Hw Hnot. unfold subscribeWait.
  pose proof (is_fresh (dom (waiter_heap c))) as Hfresh. set (w' := fresh _) in *.
  assert (w' ≠ w) by (intros ->; done).
  destruct (removed c || _); cbn [snd waiters waiter_heap fset].
  - by rewrite lookup_insert_ne.
  - rewrite lookup_insert_ne by done. split; [|done]. set_solver.
Qed.

Lemma pause_inv s s' :
  ignore pause s = (s', Done ()) →
  this s' = this s ∨ this s' = (this s) <| Status := "paused" |> <| Paused := true |>.
Proof.
  unfold ignore, pause, mbind, prog_bind, get.
  destruct (negb (Running (this s)) || _ || _); [intros [= <-]; auto|].
  destruct (Paused (this s)); intros [= <-]; auto.
Qed.

Lemma unpause_inv s s' :
  ignore unpause s = (s', Done ()) →
  this s' = this s ∨
  this s' = set_flags true false false false ((this s) <| Status := "running" |>).
Proof.
  unfold ignore, unpause, mbind, prog_bind, get.
  destruct (negb (Paused (this s))); intros [= <-]; auto.
Qed.

Lemma kill_inv now s s' :
  container_ok (this s) → ignore (kill now) s = (s', Done ()) →
  s' = s ∨ s' = stopped_by now kill_patch s.
Proof.
  intros Hok Hrun. pose proof (run_ignore _ _ _ _ _ Hrun (kill_Done now s Hok)) as ->.
  destruct (Running (this s) && _ && _); auto.
Qed.

Lemma remove_inv s s' :
  container_ok (this s) → markRemoved s = (s', Done ()) →
  this s' = notified true ((this s) <| removed := true |>).
Proof.
  intros Hok. unfold markRemoved.
  rewrite (bind_Done _ _ s (s <| this := (this s) <| removed := true |> |>) ()) by done.
  rewrite notifyWaitersLocked_spec by apply Hok. by intros [= <-].
Qed.

(** No operation but the receive of its own request touches a waiter that has been
    woken or cancelled. *)
Lemma run_op_quiet now o k s s' :
  life_ok k s → op_ok s o → run_op now o s = (s', Done ()) →
  (∀ w, o ≠ OpReceive w) → quiet (this s) (this s').
Proof.
  intros Hs Hop Hrun Hno. pose proof (life_container _ _ Hs) as Hok.
  pose proof (life_scenario _ _ Hs) as Hsc.
  destruct o; unfold run_op in Hrun; unfold op_ok in Hop.
  - pose proof (run_ignore _ _ _ _ _ Hrun (start_spec now s Hok Hsc)) as ->. apply quiet_started.
  - pose proof (run_ignore _ _ _ _ _ Hrun (stop_spec now exitCode s Hok)) as ->. apply quiet_stopped.
  - destruct (kill_inv _ _ _ Hok Hrun) as [->| ->]; [done|apply quiet_stopped].
  - destruct (pause_inv _ _ Hrun) as [->| ->]; [done|by apply quiet_same].
  - destruct (unpause_inv _ _ Hrun) as [->| ->]; [done|by apply quiet_same].
  - pose proof (run_ignore _ _ _ _ _ Hrun (restart_spec now s Hok)) as ->. apply quiet_restarted.
  - exact (quiet_advance _ _ _ _ Hok Hsc Hrun).
  - pose proof (run_ignore _ _ _ _ _ Hrun
      (snapshots_around_Done _ _ _ (applyPatchLocked_ok now patch s Hok Hop))) as ->. apply quiet_patched.
  - apply modify_this_inv in Hrun as ->. apply quiet_subscribe.
  - apply modify_this_inv in Hrun as ->. intros w' Hw' Hnot. cbn. split; [set_solver|done].
  - by destruct (Hno w).
  - rewrite (remove_inv _ _ Hok Hrun). etrans; [|apply quiet_notified]. by apply quiet_same.
  - by refine (quiet_modify _ _ _ _ _ Hrun).
  - by refine (quiet_modify _ _ _ _ _ Hrun).
  - by refine (quiet_modify _ _ _ _ _ Hrun).
  - refine (quiet_modify _ _ _ _ _ Hrun); intros c; unfold updateAssignedPort; cbv zeta;
      by destruct (bool_decide _).
  - by refine (quiet_modify _ _ _ _ _ Hrun).
  - by refine (quiet_modify _ _ _ _ _ Hrun).
  - injection Hrun as <-. done.
Qed.

(** The receive of another request is as quiet about this one. *)
Lemma receive_other w w' s s' waiter :
  ignore (receiveWait w') s = (s', Done ()) → w ≠ w' → w ∉ dom (waiters (this s)) →
  waiter_heap (this s) !! w = Some waiter →
  w ∉ dom (waiters (this s')) ∧ waiter_heap (this s') !! w = Some waiter.
Proof.
  unfold ignore, mbind, prog_bind, receiveWait.
  destruct (_ !! w') as [x|]; [|done]. destruct (buffer x); [done|]. intros [= <-] Hne ??.
  cbn [this waiters waiter_heap fset]. by rewrite lookup_insert_ne.
Qed.
End waiting.

(** ** Runs *)

Lemma runs_of_runs P n s s' : runs_of P n s s' → runs n s s'.
Proof. induction 1; econstructor; eauto. Qed.

(** A fact that every step of the run keeps. *)
Lemma runs_of_invariant P (I : CState → Prop) n k s s' :
  (∀ k o s s', life_ok k s → (k < 2^62)%Z → P o → step o s s' → I s → I s') →
  life_ok k s → (k + Z.of_nat n ≤ 2^62)%Z → runs_of P n s s' → I s → I s'.
Proof.
  intros Hstep Hs Hk Hruns HI. induction Hruns as [|n o s s' s'' Hruns IH HP Hst]; [done|].
  rewrite Nat2Z.inj_succ in Hk. apply (Hstep (k + Z.of_nat n)%Z o s' s''); [|lia|done..|].
  - apply (runs_ok k n s); [done|lia|]. by eapply runs_of_runs.
  - apply IH; [done|lia|done].
Qed.

(** A field that only a request to start or stop touches. *)
Lemma take_keep {A} (f : Container → A) now i t s :
  (∀ c, f (static c) = f c) → (∀ c n, f (c <| automaticRestarts := n |>) = f c) →
  (∀ c m, f (c <| AppliedTransitions := m |>) = f c) →
  f (this (take_transition now i t s)) = f (this s).
Proof.
  intros Hs Hr Ha. unfold take_transition. cbv zeta. cbn [this fset].
  transitivity (f (this (patched now (tSet t) (s <| this := count_restart t (this s) |>)))).
  { cbn [fset]. generalize (patched now (tSet t) (mkCState (count_restart t (this s)) (syntheticPID s))).
    intros s1. unfold mark_applied. destruct (tOnce t); [apply Ha|done]. }
  rewrite patched_keep by done. cbn [this fset]. unfold count_restart.
  destruct (transitionRestartsStopped _ _); [apply Hr|done].
Qed.

Lemma receive_inv w s s' :
  ignore (receiveWait w) s = (s', Done ()) → ∃ h, this s' = (this s) <| waiter_heap := h |>.
Proof.
  unfold ignore, mbind, prog_bind, receiveWait.
  destruct (_ !! w) as [x|]; [|done]. destruct (buffer x); [done|]. intros [= <-]. by eexists.
Qed.

Lemma Done_inj {A} (s1 s2 : CState) (a1 a2 : A) : (s1, Done a1) = (s2, Done a2) → s1 = s2 ∧ a1 = a2.
Proof. by intros [= -> ->]. Qed.

Lemma transition_name_inj i j :
  "transition[" +:+ Itoa (Z.of_nat i) +:+ "]" = "transition[" +:+ Itoa (Z.of_nat j) +:+ "]" → i = j.
Proof.
  intros Heq%app_inj_l_string. apply (sep_inj "]"%char _ EmptyString _ EmptyString) in Heq as [Heq _].
  - by apply Itoa_inj, Nat2Z.inj in Heq.
  - by apply Itoa_free_of.
  - by apply Itoa_free_of.
Qed.

Lemma take_marks now i t s :
  tOnce t = true → AppliedTransitions (this (take_transition now i t s)) !! i = Some true.
Proof.
  intros Ho. unfold take_transition. cbv zeta.
  generalize (patched now (tSet t) (s <| this := count_restart t (this s) |>)). intros s1.
  unfold mark_applied. rewrite Ho. apply lookup_insert_eq.
Qed.

Section stopping.
Context {RO : RangeOrder} {UN : Unicode}.

Lemma advance_inv now event s s' :
  container_ok (this s) → scenario_ok (cScenario (this s)) →
  ignore (advance now event) s = (s', Done ()) →
  let s1 := s <| this := count_event event (this s) |> in
  s' = s1 ∨ ∃ i t, s' = take_transition now i t s1 ∧ Transitions (cScenario (this s)) !! i = Some t ∧
    eligible event (counter (bump event (Counters (this s))) event) (this s1) i t = true.
Proof.
  intros Hok Hsc Hrun. pose proof (advance_spec' now event s Hok Hsc) as Hadv. cbv zeta in Hadv |- *.
  set (s1 := s <| this := count_event event (this s) |>) in *.
  destruct (first_eligible _ _ _ _ _) as [[i t]|] eqn:Hfe;
    pose proof (run_ignore _ _ _ _ _ Hrun Hadv) as ->; [right|by left].
  apply first_eligible_Some in Hfe as (_ & Hl & He). rewrite Nat.sub_0_r in Hl. eauto.
Qed.

(** [manuallyStopped] is only reset by a request to start. *)
Lemma manuallyStopped_op now o k s s' :
  life_ok k s → op_ok s o → asks_no_start o → run_op now o s = (s', Done ()) →
  manuallyStopped (this s) = true → manuallyStopped (this s') = true.
Proof.
  intros Hs Hop Hno Hrun Hm. pose proof (life_container _ _ Hs) as Hok.
  pose proof (life_scenario _ _ Hs) as Hsc.
  destruct o; unfold run_op in Hrun; unfold op_ok in Hop; try done.
  - pose proof (run_ignore _ _ _ _ _ Hrun (stop_spec now exitCode s Hok)) as ->.
    unfold stopped_by. by rewrite (patched_keep manuallyStopped).
  - destruct (kill_inv _ _ _ Hok Hrun) as [->| ->]; [done|].
    unfold stopped_by. by rewrite (patched_keep manuallyStopped).
  - by destruct (pause_inv _ _ Hrun) as [->| ->].
  - by destruct (unpause_inv _ _ Hrun) as [->| ->].
  - destruct (advance_inv _ _ _ _ Hok Hsc Hrun) as [->|(i & t & -> & _)]; cbn [this fset];
      [|rewrite (take_keep manuallyStopped) by done; cbn [this fset]]; by rewrite count_event_keep.
  - apply modify_this_inv in Hrun as ->. unfold subscribeWait. by destruct (removed (this s) || _).
  - by apply modify_this_inv in Hrun as ->.
  - by destruct (receive_inv _ _ _ Hrun) as [h ->].
  - by rewrite (remove_inv _ _ Hok Hrun).
  - by apply modify_this_inv in Hrun as ->.
  - by apply modify_this_inv in Hrun as ->.
  - by apply modify_this_inv in Hrun as ->.
  - apply modify_this_inv in Hrun as ->. unfold updateAssignedPort. cbv zeta. by destruct (bool_decide _).
  - by apply modify_this_inv in Hrun as ->.
  - by apply modify_this_inv in Hrun as ->.
  - by injection Hrun as <-.
Qed.

(** A stopped container that was stopped by hand stays stopped. *)
Lemma stopped_op now o k s s' :
  life_ok k s → (k < 2^62)%Z → op_ok s o → asks_no_start o → run_op now o s = (s', Done ()) →
  manuallyStopped (this s) = true → Running (this s) = false → Running (this s') = false.
Proof.
  intros Hs Hk Hop Hno Hrun Hm Hr.
  destruct (flags_ok_phase _ (ok_flags _ (life_container _ _ Hs))) as [p Hp].
  destruct (run_op_ok now o k s Hs Hop Hk) as (s1 & Hrun1 & Hs1).
  rewrite Hrun in Hrun1. injection Hrun1 as <-.
  destruct (flags_ok_phase _ (ok_flags _ (life_container _ _ Hs1))) as [p' Hp'].
  pose proof (run_op_phase now o k s s' p p' Hs Hop Hk Hrun Hp Hp') as Hstep.
  destruct Hp as (_ & Hrp & _), Hp' as (_ & Hrp' & _). rewrite Hrp' . rewrite Hr in Hrp.
  destruct o; unfold phase_step in Hstep; try done; subst; try done.
  - by rewrite <-Hrp.
  - by destruct p.
  - by destruct p.
  - destruct Hstep as [->|(t & _ & _ & _ & Hauto)]; [done|].
    destruct (phase_running p') eqn:Hpr; [|done]. exfalso.
    specialize (Hauto (eq_sym Hrp) eq_refl). unfold automaticRestartAllowedLocked in Hauto.
    by rewrite Hm in Hauto.
Qed.
End stopping.

(** ** Patches and waiters *)

Lemma signalled_wakes patch c w waiter :
  w ∈ dom (waiters c) → waiter_heap c !! w = Some waiter →
  if exits c (Status (signalled patch c)) && negb (bool_decide (condition waiter = "removed"))
  then delivered w (waiter <| buffer := [waitResultLocked (canonical (patchFields patch c))] |>) (signalled patch c)
  else w ∈ dom (waiters (signalled patch c)) ∧ waiter_heap (signalled patch c) !! w = Some waiter.
Proof.
  intros Hw Hheap. set (c1 := canonical (patchFields patch c)).
  assert (waiters c1 = waiters c ∧ waiter_heap c1 = waiter_heap c) as [Hw1 Hh1].
  { unfold c1. rewrite !canonical_keep by done. unfold patchFields. by case_bool_decide. }
  rewrite signalled_keep by done. fold c1. unfold signalled. fold c1. cbv zeta.
  destruct (exits c (Status c1)); cbn [andb].
  2: { by rewrite Hw1, Hh1. }
  assert (woken false c1 w = negb (bool_decide (condition waiter = "removed"))) as Hwoken.
  { unfold woken. by rewrite Hw1, Hh1, Hheap, bool_decide_true. }
  assert (waiter_heap (notified false c1) !! w =
    Some (if woken false c1 w then waiter <| buffer := [waitResultLocked c1] |> else waiter)) as Hn.
  { unfold notified. cbn [waiter_heap fset]. by rewrite map_lookup_imap, Hh1, Hheap. }
  assert (w ∈ dom (waiters (notified false c1)) ↔ woken false c1 w = false) as Hd.
  { unfold notified. cbn [waiters fset]. rewrite elem_of_dom. split.
    - by intros [u [_ Hu]%map_lookup_filter_Some].
    - intros Hu. apply elem_of_dom in Hw as [u Hw]. exists u.
      apply map_lookup_filter_Some. by rewrite Hw1. }
  rewrite Hwoken in Hn, Hd. destruct (bool_decide (condition waiter = "removed")); cbn [negb] in *.
  - by rewrite Hd.
  - split; [by rewrite Hd|done].
Qed.

Lemma patched_wakes now patch s w waiter :
  w ∈ dom (waiters (this s)) → waiter_heap (this s) !! w = Some waiter →
  let s' := patched now patch s in
  if exits (this s) (Status (this s')) && negb (bool_decide (condition waiter = "removed"))
  then delivered w (waiter <| buffer := [waitResultLocked (this s')] |>) (this s')
  else w ∈ dom (waiters (this s')) ∧ waiter_heap (this s') !! w = Some waiter.
Proof.
  intros Hw Hheap. cbv zeta. pose proof (signalled_wakes patch (this s) w waiter Hw Hheap) as Hsig.
  unfold delivered in *.
  rewrite (patched_late waiters), (patched_late waiter_heap), (patched_late Status) by done.
  replace (waitResultLocked (this (patched now patch s))) with (waitResultLocked (canonical (patchFields patch (this s)))).
  - done.
  - unfold waitResultLocked. by rewrite (patched_field ExitCode), (patched_field cError).
Qed.

Lemma is_receive o : (∃ w, o = OpReceive w) ∨ ∀ w, o ≠ OpReceive w.
Proof. destruct o; eauto. Qed.

Lemma delivered_op {RO : RangeOrder} {UN : Unicode} now o k s s' w waiter :
  life_ok k s → op_ok s o → run_op now o s = (s', Done ()) → o ≠ OpReceive w →
  delivered w waiter (this s) → delivered w waiter (this s').
Proof.
  intros Hs Hop Hrun Hne [Hnot Hheap].
  destruct (is_receive o) as [[w' ->]|Hno].
  - apply (receive_other w w' s s' waiter); [exact Hrun|congruence|done|done].
  - destruct (run_op_quiet now o k s s' Hs Hop Hrun) with (w := w) as [Hnot' Hheap'].
    + done.
    + apply elem_of_dom. eauto.
    + done.
    + split; [done|]. by rewrite Hheap'.
Qed.

Lemma kill_refused {RO : RangeOrder} {UN : Unicode} now s :
  Running (this s) = false → kill now s = (s, Done (refuse (this s) "container is not running")).
Proof. intros Hr. unfold kill. rewrite (bind_Done _ _ s s s) by done. by rewrite Hr. Qed.

Lemma kill_succeeds {RO : RangeOrder} {UN : Unicode} now s :
  container_ok (this s) →
  Running (this s) && negb (Dead (this s)) && negb (removed (this s)) = true →
  kill now s = (stopped_by now kill_patch s, Done (snapshots s (stopped_by now kill_patch s), None)).
Proof. intros Hok Hb. by rewrite kill_spec, Hb. Qed.

Lemma kill_fails {RO : RangeOrder} {UN : Unicode} now s :
  container_ok (this s) →
  Running (this s) && negb (Dead (this s)) && negb (removed (this s)) = false →
  kill now s = (s, Done (refuse (this s) "container is not running")).
Proof. intros Hok Hb. by rewrite kill_spec, Hb. Qed.

Lemma startPatch_later c :
  StartCount c ≠ 0%Z →
  startPatchLocked (reset_policy c) =
  mkStatePatch (default_to "running" (pStatus (Initial (cScenario c)))) (Some true) (Some false)
    (Some false) (pHealth (Initial (cScenario c))) (Some 0%Z) (Some EmptyString) None 0.
Proof. intros Hn. unfold startPatchLocked. by rewrite bool_decide_false. Qed.

(** A field that the log line and the count of starts leave alone. *)
Lemma started_patched {A} (f : Container → A) now s :
  (∀ c, f (count_start c) = f c) →
  f (this (started now s)) =
  f (this (patched now (startPatchLocked (reset_policy (this s)))
             (s <| this := reset_policy (this s) |>))).
Proof.
  intros Hf. unfold started. cbv zeta.
  change (startPatchLocked (this (s <| this := reset_policy (this s) |>)))
    with (startPatchLocked (reset_policy (this s))).
  generalize (patched now (startPatchLocked (reset_policy (this s))) (s <| this := reset_policy (this s) |>)).
  intros s1. apply Hf.
Qed.

Lemma StartCount_count s :
  StartCount (this (s <| this := count_start (this s) |>)) = wrap64 (StartCount (this s) + 1).
Proof. done. Qed.

Lemma exited_Running c : flags_ok c → Status c = "exited" → Running c = false.
Proof. intros Hf Hs. by destruct (in_phase_status c PExited Hf Hs) as (_ & ? & _). Qed.

Lemma killed_facts now s :
  container_ok (this s) →
  Status (this (stopped_by now kill_patch s)) = "exited" ∧
  ExitCode (this (stopped_by now kill_patch s)) = 137%Z ∧
  manuallyStopped (this (stopped_by now kill_patch s)) = true ∧
  Running (this (stopped_by now kill_patch s)) = false.
Proof.
  intros [? ? ? ?]. unfold stopped_by.
  rewrite patched_Status, patched_ExitCode, (patched_keep manuallyStopped) by done.
  split_and!; [done..|].
  assert (flags_ok (this (patched now kill_patch (s <| this := (this s) <| manuallyStopped := true |> |>)))) as Hf.
  { by apply patched_flags_ok. }
  apply (exited_Running _ Hf). by rewrite patched_Status.
Qed.

(** ** The example container *)

Lemma demo_initial : initial demo.
Proof.
  exists 0%Z, "id", "web", "nginx", demo_cookbook, 0%Z. split; [done|]. split; [|done].
  split; [by apply patch_literal|].
  cbn. do 2 (apply Forall_cons; split; [by apply patch_literal|]). apply Forall_nil_2.
Qed.

Lemma demo_life : life_ok (2^61) demo.
Proof. apply initial_ok, demo_initial. Qed.

Lemma after_step o s :
  op_ok s o → (run_op (RO := range_forward) (UN := unicode_none) 1%Z o s).2 = Done () →
  step o s (after o s).
Proof.
  intros Hop Hd. apply (step_op o range_forward unicode_none 1%Z s); [done|].
  unfold after. rewrite <-Hd. apply surjective_pairing.
Qed.

Lemma demo_started : step OpStart demo (after OpStart demo).
Proof. apply after_step; [done|]. by vm_compute. Qed.

Lemma advance_pair now event s :
  container_ok (this s) → scenario_ok (cScenario (this s)) →
  let m := advance (RO := range_forward) (UN := unicode_none) now event s in
  m = (m.1, Done match m.2 with Done a => a | _ => mkAdvance 0 (stateSnapshotLocked (this s)) (stateSnapshotLocked (this s)) EmptyString end).
Proof.
  intros Hok Hsc. pose proof (advance_spec' (RO := range_forward) (UN := unicode_none) now event s Hok Hsc) as Hadv.
  cbv zeta in Hadv |- *. destruct (first_eligible _ _ _ _ _) as [[i t]|]; by rewrite Hadv.
Qed.

(** * Theorems *)

(** C17: Every state that a container can reach by at most 2^61 operations of any
    kind, in any order, at any times and under any map iteration order, is well
    formed: the four lifecycle flags are those of the status, a process identity
    exists exactly while the container runs or is paused, the health log has at
    most five entries, every registered waiter has an empty channel, and automatic
    restarts are within the retry budget.  Moreover no operation panics or blocks
    there: each one that is enabled ends normally. *)
Theorem reachable_well_formed n s0 s :
  initial s0 → (Z.of_nat n < 2^61)%Z → runs n s0 s →
  container_ok (this s) ∧ budget_ok (this s) ∧
  ∀ (RO : RangeOrder) (UN : Unicode) now o, op_ok s o → ∃ s', run_op now o s = (s', Done ()).
Proof.
  intros Hinit Hn Hruns. apply initial_ok in Hinit as Hs0.
  assert (life_ok (2^61 + Z.of_nat n) s) as Hs by (apply (runs_ok _ n s0); [done|lia|done]).
  split; [apply Hs|]. split; [apply Hs|]. intros RO UN now o Hop.
  destruct (run_op_ok now o _ _ Hs Hop) as (s' & ? & _); [lia|]. eauto.
Qed.

Lemma reachable_well_formed_witness :
  container_ok (this (after OpStart demo)) ∧ budget_ok (this (after OpStart demo)) ∧
  ∀ (RO : RangeOrder) (UN : Unicode) now o, op_ok (after OpStart demo) o →
    ∃ s', run_op now o (after OpStart demo) = (s', Done ()).
Proof.
  apply (reachable_well_formed 1 demo); [apply demo_initial|done|].
  apply (runs_step 0 OpStart demo demo); [apply runs_refl|apply demo_started].
Defined.

(** C6: Each operation of the detailed container refines the abstract lifecycle of
    six phases: from a well-formed container in phase [p] it ends in a container
    whose status and flags are those of a phase the abstract step allows.  In
    particular an event moves a stopped container to a running phase only if the
    restart policy permits it at that moment. *)
Theorem operations_refine_lifecycle {RO : RangeOrder} {UN : Unicode} now o k s p :
  life_ok k s → op_ok s o → (k < 2^62)%Z → in_phase (this s) p →
  ∃ s' p', run_op now o s = (s', Done ()) ∧ in_phase (this s') p' ∧ phase_step o (this s) p p'.
Proof.
  intros Hs Hop Hk Hp. destruct (run_op_ok now o k s Hs Hop Hk) as (s' & Hrun & Hs').
  destruct (flags_ok_phase _ (ok_flags _ (life_container _ _ Hs'))) as [p' Hp'].
  exists s', p'. split; [done|]. split; [done|]. exact (run_op_phase now o k s s' p p' Hs Hop Hk Hrun Hp Hp').
Qed.

Lemma operations_refine_lifecycle_witness :
  ∃ s' p', run_op (RO := range_forward) (UN := unicode_none) 1%Z OpStart demo = (s', Done ()) ∧
    in_phase (this s') p' ∧ phase_step OpStart (this demo) PCreated p'.
Proof.
  apply (operations_refine_lifecycle 1%Z OpStart (2^61)); [apply demo_life|done|done|by split_and!].
Defined.

(** C30: An event takes the first transition of the scenario that is eligible (not
    used up, matching the event, its count, status and health, and permitted by the
    restart policy if it would restart a stopped container), takes no other, and
    reports its number; if none is eligible only the counters change.  The result
    is the same for every map iteration order. *)
Theorem advance_takes_first_eligible {RO : RangeOrder} {UN : Unicode} now event s :
  container_ok (this s) → scenario_ok (cScenario (this s)) →
  let count := counter (bump event (Counters (this s))) event in
  let s1 := s <| this := count_event event (this s) |> in
  let '(s2, description) :=
    match first_eligible event count (this s1) 0 (Transitions (cScenario (this s))) with
    | None => (s1, EmptyString)
    | Some (i, t) => (take_transition now i t s1, "transition[" +:+ Itoa (Z.of_nat i) +:+ "]")
    end in
  advance now event s = (s2, Done (mkAdvance count (stateSnapshotLocked (this s))
                                     (stateSnapshotLocked (this s2)) description)).
Proof. apply advance_spec'. Qed.

Lemma advance_takes_first_eligible_witness :
  advance (RO := range_forward) (UN := unicode_none) 1%Z "docker.start" demo =
  (demo <| this := count_event "docker.start" (this demo) |>,
   Done (mkAdvance 1 (stateSnapshotLocked (this demo))
           (stateSnapshotLocked (count_event "docker.start" (this demo))) EmptyString)).
Proof.
  apply (advance_takes_first_eligible (RO := range_forward) (UN := unicode_none) 1%Z "docker.start" demo);
    apply demo_life.
Defined.



(** A transition declared [once] is never taken again after it has been taken:
    an event reports its number only if it was not marked, and marks it. *)
Theorem once_fires_once {RO : RangeOrder} {UN : Unicode} now event s s' a i t :
  container_ok (this s) → scenario_ok (cScenario (this s)) →
  advance now event s = (s', Done a) →
  aTransition a = "transition[" +:+ Itoa (Z.of_nat i) +:+ "]" →
  Transitions (cScenario (this s)) !! i = Some t → tOnce t = true →
  AppliedTransitions (this s) !! i ≠ Some true ∧ AppliedTransitions (this s') !! i = Some true.
Proof.
  intros Hok Hsc Hadv Hname Ht Honce. pose proof (advance_spec' now event s Hok Hsc) as Hspec.
  cbv zeta in Hspec. set (s1 := s <| this := count_event event (this s) |>) in *.
  destruct (first_eligible _ _ _ _ _) as [[j t']|] eqn:Hfe; rewrite Hadv in Hspec;
    apply Done_inj in Hspec as [Hs' ->]; cbn [aTransition] in Hname; [|done].
  apply transition_name_inj in Hname as ->. apply first_eligible_Some in Hfe as (_ & Hl & He).
  rewrite Nat.sub_0_r, Ht in Hl. injection Hl as <-. apply eligible_parts in He as (Hnot & _ & _). split.
  - specialize (Hnot Honce). unfold s1 in Hnot. cbn [this fset] in Hnot. by rewrite count_event_keep in Hnot.
  - rewrite Hs'. apply take_marks, Honce.
Qed.

Lemma once_fires_once_witness :
  let s := after (OpAdvance "docker.inspect") (after OpStart demo) in
  let s' := (advance (RO := range_forward) (UN := unicode_none) 1%Z "docker.inspect" s).1 in
  AppliedTransitions (this s) !! 0 ≠ Some true ∧ AppliedTransitions (this s') !! 0 = Some true.
Proof.
  cbv zeta. set (s := after (OpAdvance "docker.inspect") (after OpStart demo)).
  assert (life_ok (2^61 + Z.of_nat 2) s) as Hs.
  { apply (runs_ok (2^61) 2 demo); [apply demo_life|done|].
    apply (runs_step 1 (OpAdvance "docker.inspect") demo (after OpStart demo)).
    - apply (runs_step 0 OpStart demo demo); [apply runs_refl|apply demo_started].
    - apply after_step; [done|]. by vm_compute. }
  eapply (once_fires_once (RO := range_forward) (UN := unicode_none) 1%Z "docker.inspect" s _ _ 0).
  - apply Hs.
  - apply Hs.
  - apply (advance_pair 1%Z "docker.inspect" s); apply Hs.
  - by vm_compute.
  - by vm_compute.
  - done.
Defined.

(** C29: When a patch ends the process (the container was running and enters an
    exited, dead or restarting state), every registered waiter that does not wait
    for removal is unregistered and finds in its channel the exit code and error of
    the state that the patch produced; in every other case a registered waiter is
    left as it is. *)
Theorem patch_wakes_waiters {RO : RangeOrder} {UN : Unicode} now patch s s' w waiter :
  container_ok (this s) → patch_ok patch → applyPatchLocked now patch s = (s', Done ()) →
  w ∈ dom (waiters (this s)) → waiter_heap (this s) !! w = Some waiter →
  if exits (this s) (Status (this s')) && negb (bool_decide (condition waiter = "removed"))
  then delivered w (waiter <| buffer := [mkWaitResult (ExitCode (this s'))
         (if bool_decide (cError (this s') ≠ EmptyString) then Some (cError (this s')) else None)] |>)
         (this s')
  else w ∈ dom (waiters (this s')) ∧ waiter_heap (this s') !! w = Some waiter.
Proof.
  intros Hok Hp Hrun Hw Hheap. rewrite (applyPatchLocked_ok now patch s Hok Hp) in Hrun.
  apply Done_inj in Hrun as [<- _]. exact (patched_wakes now patch s w waiter Hw Hheap).
Qed.

Lemma patch_wakes_waiters_witness :
  let s := after (OpSubscribe "next-exit") (after OpStart demo) in
  let s' := patched 1%Z (stop_patch 7) s in
  delivered 0 (mkWaiter "next-exit" [mkWaitResult 7 None]) (this s').
Proof.
  cbv zeta. set (s := after (OpSubscribe "next-exit") (after OpStart demo)).
  assert (life_ok (2^61 + Z.of_nat 2) s) as Hs.
  { apply (runs_ok (2^61) 2 demo); [apply demo_life|done|].
    apply (runs_step 1 (OpSubscribe "next-exit") demo (after OpStart demo)).
    - apply (runs_step 0 OpStart demo demo); [apply runs_refl|apply demo_started].
    - apply after_step; [done|]. by vm_compute. }
  apply (patch_wakes_waiters (RO := range_forward) (UN := unicode_none) 1%Z (stop_patch 7) s
    (patched 1%Z (stop_patch 7) s) 0 (mkWaiter "next-exit" [])).
  - apply Hs.
  - by apply patch_literal.
  - apply applyPatchLocked_ok; [apply Hs|by apply patch_literal].
  - apply elem_of_dom. exists (). by vm_compute.
  - by vm_compute.
Defined.

(** A wait result that has been delivered is never lost, changed or delivered
    twice: as long as its own request does not receive it, no run of operations on
    the container touches the waiter, even if the container is started, stopped or
    removed in between. *)
Theorem delivered_result_stays n k s s' w waiter :
  life_ok k s → (k + Z.of_nat n ≤ 2^62)%Z → runs_of (λ o, o ≠ OpReceive w) n s s' →
  delivered w waiter (this s) → delivered w waiter (this s').
Proof.
  intros Hs Hk Hruns Hdel.
  apply (runs_of_invariant (λ o, o ≠ OpReceive w) (λ s, delivered w waiter (this s)) n k s); try done.
  clear. intros k o s s' Hs _ Hne Hstep Hdel. destruct Hstep as [RO UN now s s' Hop Hrun].
  exact (delivered_op now o k s s' w waiter Hs Hop Hrun Hne Hdel).
Qed.

Lemma delivered_result_stays_witness :
  let s := after (OpStop 7) (after (OpSubscribe "next-exit") (after OpStart demo)) in
  delivered 0 (mkWaiter "next-exit" [mkWaitResult 7 None]) (this (after OpStart s)).
Proof.
  cbv zeta. set (s := after (OpStop 7) (after (OpSubscribe "next-exit") (after OpStart demo))).
  assert (life_ok (2^61 + Z.of_nat 3) s) as Hs.
  { apply (runs_ok (2^61) 3 demo); [apply demo_life|done|].
    apply (runs_step 2 (OpStop 7) demo (after (OpSubscribe "next-exit") (after OpStart demo))).
    - apply (runs_step 1 (OpSubscribe "next-exit") demo (after OpStart demo)).
      + apply (runs_step 0 OpStart demo demo); [apply runs_refl|apply demo_started].
      + apply after_step; [done|]. by vm_compute.
    - apply after_step; [done|]. by vm_compute. }
  apply (delivered_result_stays 1 (2^61 + Z.of_nat 3) s); [exact Hs|done| |].
  - apply (runs_of_step _ 0 OpStart s s); [apply runs_of_refl|done|].
    apply after_step; [done|]. by vm_compute.
  - split; [|by vm_compute]. intros Hw. apply elem_of_dom in Hw as [u Hu]. by vm_compute in Hu.
Defined.

(** [kill] succeeds exactly on a container that runs, is not dead and is not
    removed; it then leaves it exited with code 137 and marked as stopped by hand,
    and a second [kill] is refused without changing anything, so of two concurrent
    kills only one succeeds. *)
Theorem kill_once {RO : RangeOrder} {UN : Unicode} now now' s :
  container_ok (this s) →
  ∃ s' r, kill now s = (s', Done r) ∧
    (r.2 = None ↔ Running (this s) = true ∧ Dead (this s) = false ∧ removed (this s) = false) ∧
    (r.2 = None →
      Status (this s') = "exited" ∧ ExitCode (this s') = 137%Z ∧ manuallyStopped (this s') = true ∧
      kill now' s' = (s', Done (refuse (this s') "container is not running"))) ∧
    (r.2 ≠ None → s' = s).
Proof.
  intros Hok. destruct (Running (this s) && negb (Dead (this s)) && negb (removed (this s))) eqn:Hb.
  - pose proof (killed_facts now s Hok) as (Hst & Hex & Hm & Hrun).
    exists (stopped_by now kill_patch s), (snapshots s (stopped_by now kill_patch s), None).
    split; [by apply kill_succeeds|]. split; [|split; [|done]].
    + split; [intros _|done].
      by destruct (Running (this s)), (Dead (this s)), (removed (this s)).
    + intros _. exact (conj Hst (conj Hex (conj Hm (kill_refused now' _ Hrun)))).
  - exists s, (refuse (this s) "container is not running"). split; [by apply kill_fails|].
    split; [|split; [done|done]]. split; [done|]. intros (Hr & Hd & Hrm). by rewrite Hr, Hd, Hrm in Hb.
Qed.

Lemma kill_once_witness :
  ∃ s' r, kill (RO := range_forward) (UN := unicode_none) 1%Z demo = (s', Done r) ∧
    (r.2 = None ↔ Running (this demo) = true ∧ Dead (this demo) = false ∧ removed (this demo) = false) ∧
    (r.2 = None →
      Status (this s') = "exited" ∧ ExitCode (this s') = 137%Z ∧ manuallyStopped (this s') = true ∧
      kill (RO := range_forward) (UN := unicode_none) 2%Z s'
      = (s', Done (refuse (this s') "container is not running"))) ∧
    (r.2 ≠ None → s' = demo).
Proof. apply (kill_once (RO := range_forward) (UN := unicode_none)), demo_life. Defined.

(** Starting again (not for the first time) restores the service-facing state of
    the seed but keeps the cumulative facts: the restart count is untouched, the
    exit code is 0, the error empty, the status and health those of the seed's
    initial state, and the number of starts one higher. *)
Theorem later_start_keeps_restart_count {RO : RangeOrder} {UN : Unicode} now s :
  container_ok (this s) → scenario_ok (cScenario (this s)) → StartCount (this s) ≠ 0%Z →
  ∃ s', start now s = (s', Done (stateSnapshotLocked (this s), stateSnapshotLocked (this s'))) ∧
    RestartCount (this s') = RestartCount (this s) ∧
    StartCount (this s') = wrap64 (StartCount (this s) + 1) ∧
    ExitCode (this s') = 0%Z ∧ cError (this s') = EmptyString ∧
    Status (this s') = default "running" (pStatus (Initial (cScenario (this s)))) ∧
    hlStatus (Health (this s')) =
      default (hlStatus (Health (this s))) (pHealth (Initial (cScenario (this s)))) ∧
    manuallyStopped (this s') = false ∧ automaticRestarts (this s') = 0%Z.
Proof.
  intros Hok Hsc Hn. exists (started now s). split; [by apply start_spec|].
  split; [|split; [|split; [|split; [|split; [|split; [|split]]]]]].
  - rewrite started_patched, patched_RestartCount by done. cbn [this fset].
    by rewrite startPatch_later.
  - unfold started. cbv zeta. rewrite StartCount_count. by rewrite (patched_keep StartCount).
  - rewrite started_patched, patched_ExitCode by done. by rewrite startPatch_later.
  - rewrite started_patched, patched_Error by done. by rewrite startPatch_later.
  - apply started_Status.
  - rewrite (started_patched (λ c, hlStatus (Health c))), patched_Health by done. by rewrite startPatch_later.
  - rewrite started_patched by done. by rewrite (patched_keep manuallyStopped).
  - rewrite started_patched by done. by rewrite (patched_keep automaticRestarts).
Qed.

Lemma later_start_keeps_restart_count_witness :
  let s := after OpStart demo in
  ∃ s', start (RO := range_forward) (UN := unicode_none) 2%Z s
    = (s', Done (stateSnapshotLocked (this s), stateSnapshotLocked (this s'))) ∧
    RestartCount (this s') = RestartCount (this s) ∧
    StartCount (this s') = wrap64 (StartCount (this s) + 1) ∧
    ExitCode (this s') = 0%Z ∧ cError (this s') = EmptyString ∧
    Status (this s') = default "running" (pStatus (Initial (cScenario (this s)))) ∧
    hlStatus (Health (this s')) =
      default (hlStatus (Health (this s))) (pHealth (Initial (cScenario (this s)))) ∧
    manuallyStopped (this s') = false ∧ automaticRestarts (this s') = 0%Z.
Proof.
  cbv zeta. assert (life_ok (2^61 + Z.of_nat 1) (after OpStart demo)) as Hs.
  { apply (runs_ok (2^61) 1 demo); [apply demo_life|done|].
    apply (runs_step 0 OpStart demo demo); [apply runs_refl|apply demo_started]. }
  apply (later_start_keeps_restart_count (RO := range_forward) (UN := unicode_none));
    [apply Hs|apply Hs|by vm_compute].
Defined.
