(* ===== verification/ImageMatch.v ===== *)
(** Which cookbook serves an image: [image_match.go] and [sortedCookbookKinds] of
    [cookbook_responses.go].

    The engine's cookbook map is an argument.  [best_match] states, without the
    loop and without an order, which cookbook the code has to choose. *)
From Stdlib Require Import Ascii.
From S2P Require Import Prelude GoStrings Cookbook ContainerConfig.

Section image_match.
Context {RO : RangeOrder} {UN : Unicode}.

Definition sortedCookbookKinds (cookbooks : gmap string Cookbook) : list string :=
  sort_strings (range "sortedCookbookKinds" cookbooks).*1.

(** The repository identity and the tag or digest, with its [:] or [@]. *)
Definition splitImageReference (image : string) : string * string :=
  let repository := TrimSpace image in
  let '(qualifier, repository) :=
    match IndexByte repository "@" with
    | Some index => (drop_string index repository, take_string index repository)
    | None => (EmptyString, repository)
    end in
  let '(qualifier, repository) :=
    match LastIndexByte repository ":" with
    | Some index =>
      if match LastIndexByte repository "/" with
         | Some slash => bool_decide (slash < index)
         | None => true
         end
      then (drop_string index repository +:+ qualifier, take_string index repository)
      else (qualifier, repository)
    | None => (qualifier, repository)
    end in
  let '(domain, path) :=
    match SplitN repository "/" 2 with
    | [first; rest] =>
      if ContainsAny first ".:" || bool_decide (first = "localhost")
      then (first, rest) else ("docker.io", repository)
    | _ => ("docker.io", repository)
    end in
  let domain :=
    if bool_decide (domain = "index.docker.io" ∨ domain = "registry-1.docker.io")
    then "docker.io" else domain in
  let path :=
    if bool_decide (domain = "docker.io") && negb (Contains path "/")
    then "library/" +:+ path else path in
  (domain +:+ "/" +:+ path, qualifier).

(** The body of the loop over [cb.ImageNames]. *)
Definition score_step (repository qualifier : string) (score : nat) (candidate : string) : nat :=
  let '(candidateRepository, candidateQualifier) := splitImageReference candidate in
  if bool_decide (candidateRepository ≠ repository) then score
  else
    let score := if bool_decide (candidateQualifier = EmptyString) then score `max` 1 else score in
    let effectiveQualifier :=
      if bool_decide (qualifier = EmptyString) then ":latest" else qualifier in
    if bool_decide (candidateQualifier ≠ EmptyString ∧ candidateQualifier = effectiveQualifier)
    then 2 else score.

Definition image_score (repository qualifier : string) (cb : Cookbook) : nat :=
  foldl (score_step repository qualifier) 0 (ImageNames cb).

(** [selected], [best] and [ambiguous] of the loop over the cookbooks. *)
Definition match_state : Type := option Cookbook * nat * bool.

Definition match_step (cookbooks : gmap string Cookbook) (repository qualifier : string)
    (st : match_state) (kind : string) : match_state :=
  let '(selected, best, ambiguous) := st in
  match cookbooks !! kind with
  | None => st (* a nil cookbook has no image names *)
  | Some cb =>
    let score := image_score repository qualifier cb in
    if bool_decide (best < score) then (Some cb, score, false)
    else if bool_decide (score ≠ 0 ∧ score = best) then (selected, best, true)
    else st
  end.

Definition cookbookFor (cookbooks : gmap string Cookbook) (name image : string) : result Cookbook :=
  let '(repository, qualifier) := splitImageReference image in
  let '(selected, _, ambiguous) :=
    foldl (match_step cookbooks repository qualifier) (None, 0, false)
      (sortedCookbookKinds cookbooks) in
  if ambiguous : bool then Err ("ambiguous cookbook mapping for image " +:+ Quote image)
  else match selected with
  | None => Err ("no cookbook matches name=" +:+ Quote name +:+ " image=" +:+ Quote image
                   +:+ "; add an explicit image_names mapping")
  | Some cb => Ok cb
  end.

(** * Specification *)

(** How well [cb] fits the image: 2 when it names the very tag or digest asked
    for ([:latest] when none is), 1 when it names the repository alone. *)
Definition names_exactly (image : string) (cb : Cookbook) : Prop :=
  ∃ c, c ∈ ImageNames cb
    ∧ splitImageReference c
      = ((splitImageReference image).1,
         if bool_decide ((splitImageReference image).2 = EmptyString)
         then ":latest" else (splitImageReference image).2).

Definition names_repository (image : string) (cb : Cookbook) : Prop :=
  ∃ c, c ∈ ImageNames cb ∧ splitImageReference c = ((splitImageReference image).1, EmptyString).

Definition fits (image : string) (cb : Cookbook) (n : nat) : Prop :=
  (n = 2 ∧ names_exactly image cb)
  ∨ (n = 1 ∧ ¬ names_exactly image cb ∧ names_repository image cb)
  ∨ (n = 0 ∧ ¬ names_exactly image cb ∧ ¬ names_repository image cb).

(** [cb], under [kind], fits better than every other cookbook. *)
Definition best_match (cookbooks : gmap string Cookbook) (image kind : string) (cb : Cookbook) : Prop :=
  cookbooks !! kind = Some cb
  ∧ ∃ n, fits image cb n ∧ 0 < n
    ∧ ∀ kind' cb' n', kind' ≠ kind → cookbooks !! kind' = Some cb' → fits image cb' n' → n' < n.

(** * Scores *)

Lemma sortedCookbookKinds_perm cookbooks :
  sortedCookbookKinds cookbooks ≡ₚ (map_to_list cookbooks).*1.
Proof.
  unfold sortedCookbookKinds, sort_strings. by rewrite merge_sort_Permutation, range_perm.
Qed.

Lemma elem_of_sortedCookbookKinds cookbooks kind :
  kind ∈ sortedCookbookKinds cookbooks ↔ is_Some (cookbooks !! kind).
Proof.
  rewrite sortedCookbookKinds_perm, list_elem_of_fmap. split.
  - intros ([k cb] & -> & ?%elem_of_map_to_list). by eexists.
  - intros [cb Hcb]. exists (kind, cb). by rewrite elem_of_map_to_list.
Qed.

Lemma sortedCookbookKinds_NoDup cookbooks : NoDup (sortedCookbookKinds cookbooks).
Proof. rewrite sortedCookbookKinds_perm. apply NoDup_fst_map_to_list. Qed.

(** The score one image name contributes. *)
Definition name_score (image c : string) : nat :=
  if bool_decide (splitImageReference c
      = ((splitImageReference image).1,
         if bool_decide ((splitImageReference image).2 = EmptyString)
         then ":latest" else (splitImageReference image).2)) then 2
  else if bool_decide (splitImageReference c = ((splitImageReference image).1, EmptyString)) then 1
  else 0.

Lemma score_step_max image score c :
  score ≤ 2 →
  score_step (splitImageReference image).1 (splitImageReference image).2 score c
  = score `max` name_score image c.
Proof.
  intros Hs. unfold score_step, name_score.
  destruct (splitImageReference image) as [repo q], (splitImageReference c) as [repo' q']; simpl.
  repeat case_bool_decide; simplify_eq/=; try lia; destruct_and?; try done; exfalso; naive_solver.
Qed.

Lemma image_score_fits image cb :
  fits image cb (image_score (splitImageReference image).1 (splitImageReference image).2 cb).
Proof.
  unfold image_score, fits, names_exactly, names_repository.
  induction (ImageNames cb) as [|c l IH] using rev_ind.
  { right; right. set_solver. }
  rewrite foldl_app. cbn [foldl].
  assert (Hle : ∀ l, foldl (score_step (splitImageReference image).1
                              (splitImageReference image).2) 0 l ≤ 2).
  { clear. intros l. induction l as [|c l IH] using rev_ind; [simpl; lia|].
    rewrite foldl_app. cbn [foldl]. rewrite score_step_max by done.
    unfold name_score. repeat case_bool_decide; lia. }
  rewrite score_step_max by done.
  setoid_rewrite elem_of_app. setoid_rewrite list_elem_of_singleton.
  unfold name_score. set (n := foldl _ _ _) in *. clearbody n.
  repeat case_bool_decide; naive_solver lia.
Qed.

Lemma fits_unique image cb n n' : fits image cb n → fits image cb n' → n = n'.
Proof. unfold fits. naive_solver. Qed.

Lemma best_match_unique cookbooks image kind cb kind' cb' :
  best_match cookbooks image kind cb → best_match cookbooks image kind' cb' → cb = cb'.
Proof.
  intros (Hcb & n & Hn & _ & Hall) (Hcb' & n' & Hn' & _ & Hall').
  destruct (decide (kind = kind')) as [->|]; [by simplify_eq|].
  specialize (Hall kind' cb' n'). specialize (Hall' kind cb n). naive_solver lia.
Qed.

(** * The loop *)

Section loop.
Context (cookbooks : gmap string Cookbook) (image : string).

Definition score_of (cb : Cookbook) : nat :=
  image_score (splitImageReference image).1 (splitImageReference image).2 cb.

(** Where the loop stands after the kinds [ks]. *)
Definition match_inv (ks : list string) (st : match_state) : Prop :=
  let '(selected, best, ambiguous) := st in
  (∀ k cb, k ∈ ks → cookbooks !! k = Some cb → score_of cb ≤ best)
  ∧ (best = 0 → selected = None ∧ ambiguous = false)
  ∧ (0 < best → ∃ k cb, k ∈ ks ∧ cookbooks !! k = Some cb ∧ selected = Some cb
      ∧ score_of cb = best
      ∧ (ambiguous = true → ∃ k' cb', k' ∈ ks ∧ k' ≠ k ∧ cookbooks !! k' = Some cb'
           ∧ score_of cb' = best)
      ∧ (ambiguous = false → ∀ k' cb', k' ∈ ks → k' ≠ k → cookbooks !! k' = Some cb' →
           score_of cb' < best)).

Lemma match_step_inv ks k st :
  k ∉ ks → is_Some (cookbooks !! k) → match_inv ks st →
  match_inv (ks ++ [k])
    (match_step cookbooks (splitImageReference image).1 (splitImageReference image).2 st k).
Proof.
  destruct st as [[selected best] ambiguous]. intros Hk [cb Hcb] (Hle & Hzero & Hpos).
  unfold match_inv, match_step. rewrite Hcb. fold (score_of cb).
  repeat case_bool_decide; destruct_and?;
    setoid_rewrite elem_of_app; setoid_rewrite list_elem_of_singleton.
  - split_and!; [|lia|].
    + intros k' cb' [?| ->] ?; [|by simplify_eq]. etrans; [by eapply Hle|lia].
    + intros _. exists k, cb. split_and!; auto; [done|]. intros _ k' cb' [?|?] ??; [|done].
      assert (score_of cb' ≤ best) by eauto. lia.
  - split_and!; [|lia|].
    + intros k' cb' [?| ->] ?; [eauto|simplify_eq; lia].
    + intros _. destruct Hpos as (k1 & cb1 & ? & ? & ? & ? & _); [lia|].
      exists k1, cb1. split_and!; auto; [|done]. intros _. exists k, cb. split_and!; auto. by intros ->.
  - split_and!; [|done|].
    + intros k' cb' [?| ->] ?; [eauto|simplify_eq; lia].
    + intros Hbest. destruct (Hpos Hbest) as (k1 & cb1 & ? & ? & ? & ? & Htrue & Hfalse).
      exists k1, cb1. split_and!; auto.
      * intros (k2 & cb2 & ? & ? & ? & ?)%Htrue. exists k2, cb2. auto.
      * intros Hamb k' cb' [?| ->] ??; [eauto|]. simplify_eq. lia.
Qed.

Lemma match_loop_inv ks :
  NoDup ks → (∀ k, k ∈ ks → is_Some (cookbooks !! k)) →
  match_inv ks (foldl (match_step cookbooks (splitImageReference image).1
                         (splitImageReference image).2) (None, 0, false) ks).
Proof.
  induction ks as [|k ks IH] using rev_ind; intros Hnd Hin.
  { split_and!; [set_solver|done|lia]. }
  apply NoDup_app in Hnd as (Hnd & Hdis & _). rewrite foldl_app. cbn [foldl].
  apply match_step_inv; [set_solver|apply Hin; set_solver|apply IH; set_solver].
Qed.

(** The three ways [cookbookFor] ends. *)
Lemma cookbookFor_cases name :
  match cookbookFor cookbooks name image with
  | Ok cb => ∃ kind, best_match cookbooks image kind cb
  | Err _ => ∀ kind cb, ¬ best_match cookbooks image kind cb
  end.
Proof.
  pose proof (match_loop_inv (sortedCookbookKinds cookbooks) (sortedCookbookKinds_NoDup _)
    (λ k, proj1 (elem_of_sortedCookbookKinds cookbooks k))) as Hinv.
  unfold cookbookFor. rewrite (surjective_pairing (splitImageReference image)).
  destruct (foldl _ _ _) as [[selected best] ambiguous].
  destruct Hinv as (Hle & Hzero & Hpos).
  setoid_rewrite elem_of_sortedCookbookKinds in Hle.
  setoid_rewrite elem_of_sortedCookbookKinds in Hpos.
  assert (∀ cb, fits image cb (score_of cb)) as Hfits by (intros; apply image_score_fits).
  destruct (decide (best = 0)) as [->|Hbest].
  { destruct Hzero as [-> ->]; [done|]. intros kind cb (Hcb & n & Hn & ? & _).
    rewrite (fits_unique _ _ _ _ Hn (Hfits cb)) in *. assert (score_of cb ≤ 0) by eauto. lia. }
  destruct Hpos as (k & cb & _ & Hcb & -> & Hs & Htrue & Hfalse); [lia|]. destruct ambiguous.
  - intros kind cb0 (Hcb0 & n & Hn & ? & Hall). destruct Htrue as (k' & cb' & _ & ? & ? & ?); [done|].
    rewrite (fits_unique _ _ _ _ Hn (Hfits cb0)) in *. assert (score_of cb0 ≤ best) by eauto.
    destruct (decide (k = kind)) as [->|].
    + assert (score_of cb' < score_of cb0) by eauto. lia.
    + assert (score_of cb < score_of cb0) by eauto. lia.
  - exists k. split; [done|]. exists best. rewrite <-Hs at 1. split_and!; [done|lia|].
    intros kind' cb' n' ?? Hn. rewrite (fits_unique _ _ _ _ Hn (Hfits cb')).
    eapply Hfalse; eauto.
Qed.
End loop.
End image_match.

(** * Theorems *)

(** C34: the cookbook chosen for an image is the one that fits it strictly better
    than every other - the exact tag or digest ([:latest] when the reference has
    none) before the bare repository - whatever the order in which the map is
    visited; when no cookbook is strictly best the call fails. *)
Theorem cookbookFor_exact `{RangeOrder} `{Unicode} cookbooks name image cb :
  cookbookFor cookbooks name image = Ok cb ↔ ∃ kind, best_match cookbooks image kind cb.
Proof.
  pose proof (cookbookFor_cases cookbooks image name) as Hcases. split.
  { intros Heq. by rewrite Heq in Hcases. }
  intros (kind & Hbest). destruct (cookbookFor _ _ _) as [cb'|e]; [|by destruct (Hcases kind cb)].
  destruct Hcases as (kind' & Hbest'). by rewrite (best_match_unique _ _ _ _ _ _ Hbest Hbest').
Qed.

Section aliases.
Context {UN : Unicode}.

(** The characters a repository name, a tag and a digest are made of here. *)
Definition plain (s : string) : Prop :=
  clean s = true ∧ free_of "/" s = true ∧ free_of ":" s = true ∧ free_of "@" s = true.
Definition a_tag (tag : string) : Prop := tag = EmptyString ∨ ∃ t, plain t ∧ tag = ":" +:+ t.
Definition a_digest (digest : string) : Prop :=
  digest = EmptyString ∨ ∃ d, clean d = true ∧ digest = "@" +:+ d.

Definition registry_prefixes : list string :=
  [EmptyString; "library/"; "docker.io/"; "docker.io/library/"; "index.docker.io/";
   "index.docker.io/library/"; "registry-1.docker.io/"; "registry-1.docker.io/library/"].

Lemma prefix_ok p : p ∈ registry_prefixes → clean p = true ∧ free_of "@" p = true ∧ free_of ":" p = true.
Proof.
  intros Hp. apply (proj1 (Forall_forall (λ p, clean p = true ∧ free_of "@" p = true ∧ free_of ":" p = true)
    registry_prefixes)); [|done]. repeat constructor; vm_compute; done.
Qed.

Lemma a_tag_clean tag : a_tag tag → clean tag = true ∧ free_of "@" tag = true.
Proof. intros [->|(t & (? & _ & _ & ?) & ->)]; done. Qed.

Lemma a_digest_clean digest : a_digest digest → clean digest = true.
Proof. intros [->|(d & ? & ->)]; done. Qed.

(** Cutting the digest off, then the tag. *)
Lemma cut_digest r digest :
  free_of "@" r = true → a_digest digest →
  match IndexByte (r +:+ digest) "@" with
  | Some i => (drop_string i (r +:+ digest), take_string i (r +:+ digest))
  | None => (EmptyString, r +:+ digest)
  end = (digest, r).
Proof.
  intros Hr [->|(d & _ & ->)].
  - by rewrite app_nil_r_string, IndexByte_free.
  - rewrite app_cons_string, app_nil_l_string, IndexByte_app by done.
    by rewrite drop_string_app, take_string_app.
Qed.

Lemma cut_tag r tag digest :
  free_of ":" r = true → a_tag tag →
  match LastIndexByte (r +:+ tag) ":" with
  | Some i =>
    if match LastIndexByte (r +:+ tag) "/" with
       | Some slash => bool_decide (slash < i)
       | None => true
       end
    then (drop_string i (r +:+ tag) +:+ digest, take_string i (r +:+ tag))
    else (digest, r +:+ tag)
  | None => (digest, r +:+ tag)
  end = (tag +:+ digest, r).
Proof.
  intros Hr [->|(t & (_ & Hslash & Hcolon & _) & ->)].
  - by rewrite app_nil_r_string, LastIndexByte_free, app_nil_l_string.
  - rewrite app_cons_string, app_nil_l_string, LastIndexByte_app, LastIndexByte_app_free by done.
    rewrite drop_string_app, take_string_app.
    destruct (LastIndexByte r "/") as [j|] eqn:Hj; [|done].
    by rewrite bool_decide_true by (by eapply LastIndexByte_lt).
Qed.

Lemma Contains_slash n : Contains ("library/" +:+ n) "/" = true.
Proof. apply (Contains_byte "library" "/" n). Qed.

(** Evaluates the host and path of [h/rest]. *)
Ltac cut_at h rest :=
  lazymatch goal with |- context [SplitN ?s "/" 2] =>
    change s with (h +:+ String "/" rest) end;
  cbn -[Contains String.append]; rewrite (Cut_byte h "/" rest) by done;
  lazy -[Contains String.append];
  first [by rewrite Contains_byte_free | by rewrite Contains_slash | by rewrite Contains_byte].

(** every way to write an official image - with or without the registry host
    and its aliases, with or without [library/] - is the same repository, and the
    tag and the digest written after it are its qualifier. *)
Theorem official_aliases p n tag digest :
  p ∈ registry_prefixes → plain n → a_tag tag → a_digest digest →
  splitImageReference (p +:+ n +:+ tag +:+ digest) = ("docker.io/library/" +:+ n, tag +:+ digest).
Proof.
  intros Hp (Hn & Hslash & Hcolon & Hat) Htag Hdigest.
  destruct (prefix_ok p Hp) as (Hpc & Hpa & Hpcolon). destruct (a_tag_clean tag Htag) as [Htc Hta].
  unfold splitImageReference. rewrite TrimSpace_clean; last first.
  { rewrite !clean_app. auto using a_digest_clean. }
  rewrite <-!app_assoc_string. rewrite cut_digest; [|by rewrite !free_of_app|done].
  rewrite cut_tag; [|by rewrite free_of_app|done].
  unfold registry_prefixes in Hp. rewrite !elem_of_cons, elem_of_nil in Hp.
  pose proof (Contains_byte_free n "/" Hslash) as Hnone.
  destruct_or?; subst p.
  { rewrite app_nil_l_string. cbn -[Contains]. rewrite Cut_byte_free by done.
    cbn -[Contains]. by rewrite Hnone. }
  all: first [cut_at "library" n | cut_at "docker.io" n | cut_at "docker.io" ("library/" +:+ n)
    | cut_at "index.docker.io" n | cut_at "index.docker.io" ("library/" +:+ n)
    | cut_at "registry-1.docker.io" n | cut_at "registry-1.docker.io" ("library/" +:+ n)].
Qed.

End aliases.

Lemma official_aliases_witness :
  splitImageReference (UN := unicode_none) "index.docker.io/nginx:1.27@sha256:ab"
  = ("docker.io/library/nginx", ":1.27@sha256:ab").
Proof.
  apply (official_aliases (UN := unicode_none) "index.docker.io/" "nginx" ":1.27" "@sha256:ab");
    [by do 4 apply list_elem_of_further; apply list_elem_of_here|by vm_compute|right; exists "1.27"; split; [by vm_compute|done]
     |right; exists "sha256:ab"; split; [by vm_compute|done]].
Defined.
