(* ===== verification/EngineTypes.v ===== *)
(** Networks and volumes: the types of [engine_core.go], and the Go values of type
    [any] the engine stores in them.

    A network's [Containers] maps the ID of an attached container to its endpoint,
    itself a Go map; [endpoint_of] reads the two keys the engine looks up. *)
From Stdlib Require Import Ascii.
From S2P Require Import Prelude GoStrings.

(** The dynamic types the program puts into an [any]. *)
Inductive any : Type :=
| AnyNil
| AnyBool (b : bool)
| AnyInt (z : Z)
| AnyString (s : string)
| AnyStrings (l : list string)   (* []string *)
| AnyList (l : list any)         (* []any *)
| AnyMap (l : list (string * any))    (* a map, by distinct keys *)
| AnyStruct (l : list (string * any)) (* a struct, by its JSON names in order *)
| AnyRaw (text : string).             (* json.RawMessage *)

Definition endpoint : Type := gmap string any.

Record Network := mkNetwork {
  nName : string;
  nID : string;
  nCreated : string;
  nScope : string;
  nDriver : string;
  EnableIPv6 : bool;
  Internal : bool;
  Attachable : bool;
  Ingress : bool;
  IPAM : gmap string any;
  Containers : gmap string endpoint;
  nOptions : gmap string string;
  nLabels : gmap string string;
  Index : Z;
  NextHost : Z
}.
#[export] Instance Network_eta : Eta Network := λ n,
  mkNetwork (nName n) (nID n) (nCreated n) (nScope n) (nDriver n) (EnableIPv6 n) (Internal n)
    (Attachable n) (Ingress n) (IPAM n) (Containers n) (nOptions n) (nLabels n) (Index n)
    (NextHost n).

Record Volume := mkVolume {
  CreatedAt : string;
  vDriver : string;
  vLabels : gmap string string;
  Mountpoint : string;
  vName : string;
  vOptions : gmap string string;
  vScope : string
}.
