(* ===== verification/DockerFilters.v ===== *)
(** The [filters] query parameter: [docker_filters.go].

    A filter set is Go's [map[string][]string].  Both loops of
    [parseDockerFilters] range over maps, so the order of the values of a key is
    open; the theorems show that no verdict depends on it. *)
From Stdlib Require Import Ascii.
From S2P Require Import Prelude GoStrings Json Cookbook Container EngineTypes.

Notation dockerFilters := (gmap string (list string)).

(** [f[key]] *)
Definition values_of (f : dockerFilters) (key : string) : list string := default [] (f !! key).

(** [out[key] = append(out[key], values...)] *)
Definition append_values (key : string) (values : list string) (f : dockerFilters) : dockerFilters :=
  <[key := values_of f key ++ values]> f.

Section filters.
Context {RO : RangeOrder} {UN : Unicode}.

(** One filter: its payload is an object of flags, a list or a string. *)
Definition add_payload (key : string) (payload : json) (out : dockerFilters) : option dockerFilters :=
  match as_bool_map payload with
  | Some (Some object) =>
    Some (foldl (λ out kb, if kb.2 : bool then append_values key [kb.1] out else out) out
            (range "docker_filters.go:30" object))
  | _ =>
    match as_string_list payload with
    | Some l => Some (append_values key l out)
    | None => (λ s, append_values key [s] out) <$> as_string payload
    end
  end.

(** The loop over the filters. *)
Fixpoint filter_loop (generic : list (string * json)) (out : dockerFilters) : result dockerFilters :=
  match generic with
  | [] => Ok out
  | (key, payload) :: generic =>
    let key := ToLower (TrimSpace key) in
    if bool_decide (key = EmptyString) then Err "empty filter name"
    else match add_payload key payload out with
    | Some out => filter_loop generic out
    | None => Err ("unsupported value for filter " +:+ Quote key)
    end
  end.

Definition parseDockerFilters (raw : string) : result dockerFilters :=
  let raw := TrimSpace raw in
  if bool_decide (raw = EmptyString ∨ raw = "{}") then Ok ∅
  else match v ← parse raw; as_object v with
  | None => Err "invalid JSON"
  | Some generic => filter_loop (range "docker_filters.go:25" generic) ∅
  end.

(** * Matching *)

Fixpoint matchLabels (labels : gmap string string) (expressions : list string) : bool :=
  match expressions with
  | [] => true
  | expr :: expressions =>
    match Cut expr "!=" with
    | Some (key, value) =>
      if bool_decide (labels !! key = Some value) then false else matchLabels labels expressions
    | None =>
      match Cut expr "=" with
      | Some (key, value) =>
        if bool_decide (labels !! key ≠ Some value) then false else matchLabels labels expressions
      | None =>
        if bool_decide (labels !! expr = None) then false else matchLabels labels expressions
      end
    end
  end.

Definition matchesAnySubstring (value : string) (patterns : list string) : bool :=
  match patterns with [] => true | _ => existsb (Contains value) patterns end.

Definition matchesAnyExact (value : string) (patterns : list string) : bool :=
  match patterns with [] => true | _ => existsb (λ p, bool_decide (value = p)) patterns end.

(** [len(values) > 0 && !test(values)] is the refusal of most filters. *)
Definition unless_empty (values : list string) (test : list string → bool) : bool :=
  match values with [] => true | _ => test values end.

Definition containerMatchesFilters (c : Container) (f : dockerFilters) : bool :=
  if negb (matchLabels (Labels c) (values_of f "label")) then false
  else if negb (unless_empty (values_of f "name") (matchesAnySubstring (Name c))) then false
  else if negb (unless_empty (values_of f "id") (existsb (HasPrefix (ID c)))) then false
  else if negb (unless_empty (values_of f "status")
                  (matchesAnyExact (snStatus (stateSnapshotLocked c)))) then false
  else unless_empty (values_of f "ancestor")
         (existsb (λ v, bool_decide (Image c = v) || bool_decide (ImageID c = v)
                        || HasPrefix (ImageID c) v)).

Definition networkMatchesFilters (n : Network) (f : dockerFilters) : bool :=
  if negb (matchLabels (nLabels n) (values_of f "label")) then false
  else if negb (unless_empty (values_of f "name") (matchesAnySubstring (nName n))) then false
  else if negb (unless_empty (values_of f "id") (existsb (HasPrefix (nID n)))) then false
  else if negb (unless_empty (values_of f "driver") (matchesAnyExact (nDriver n))) then false
  else if negb (unless_empty (values_of f "scope") (matchesAnyExact (nScope n))) then false
  else unless_empty (values_of f "type")
         (matchesAnyExact (if bool_decide (nName n = "bridge") then "builtin" else "custom")).

Definition volumeMatchesFilters (v : Volume) (f : dockerFilters) : bool :=
  if negb (matchLabels (vLabels v) (values_of f "label")) then false
  else if negb (unless_empty (values_of f "name") (matchesAnySubstring (vName v))) then false
  else unless_empty (values_of f "driver") (matchesAnyExact (vDriver v)).
End filters.

(** * Filter sets up to the order of the values *)

Definition filters_equiv (f g : dockerFilters) : Prop :=
  ∀ key, values_of f key ≡ₚ values_of g key.
Infix "≈" := filters_equiv (at level 70) : go_scope.

#[export] Instance filters_equivalence : Equivalence filters_equiv.
Proof.
  split.
  - intros f key. done.
  - intros f g H key. by rewrite (H key).
  - intros f g h H1 H2 key. by rewrite (H1 key).
Qed.

Lemma values_of_append f key values k :
  values_of (append_values key values f) k
  = if decide (k = key) then values_of f key ++ values else values_of f k.
Proof.
  unfold append_values, values_of. destruct (decide _) as [->|].
  - by rewrite lookup_insert_eq.
  - by rewrite lookup_insert_ne.
Qed.

#[export] Instance append_values_proper key :
  Proper ((≡ₚ) ==> filters_equiv ==> filters_equiv) (append_values key).
Proof.
  intros v1 v2 Hv f g Hf k. rewrite !values_of_append.
  destruct (decide _); [|apply Hf]. by rewrite (Hf key), Hv.
Qed.

(** Appends commute, up to the order of the values. *)
Lemma append_values_comm key1 v1 key2 v2 f :
  append_values key1 v1 (append_values key2 v2 f)
  ≈ append_values key2 v2 (append_values key1 v1 f).
Proof.
  intros k. rewrite !values_of_append.
  repeat case_decide; subst; try done. rewrite <-!app_assoc. f_equiv. apply Permutation_app_comm.
Qed.

(** The values a payload adds. *)
Definition payload_values (RO : RangeOrder) (payload : json) : option (list string) :=
  match as_bool_map payload with
  | Some (Some object) =>
    Some (fst <$> filter (λ kb, kb.2 = true) (range "docker_filters.go:30" object))
  | _ =>
    match as_string_list payload with
    | Some l => Some l
    | None => (λ s, [s]) <$> as_string payload
    end
  end.

Lemma append_flags key (l : list (string * bool)) out :
  foldl (λ out kb, if kb.2 : bool then append_values key [kb.1] out else out) out l
  ≈ append_values key (filter (λ kb, kb.2 = true) l).*1 out.
Proof.
  revert out. induction l as [|[v b] l IH]; intros out; cbn [foldl].
  - intros k. rewrite values_of_append. cbn. rewrite app_nil_r. by case_decide; subst.
  - rewrite IH. simpl. destruct b.
    + rewrite filter_cons_True by done. intros k. cbn. rewrite !values_of_append.
      repeat case_decide; subst; try done. by rewrite <-app_assoc.
    + by rewrite filter_cons_False by done.
Qed.

Lemma add_payload_values (RO : RangeOrder) key payload out :
  match add_payload key payload out, payload_values RO payload with
  | Some f, Some values => f ≈ append_values key values out
  | None, None => True
  | _, _ => False
  end.
Proof.
  unfold add_payload, payload_values. destruct (as_bool_map payload) as [[object|]|].
  - apply append_flags.
  - destruct (as_string_list payload); [|destruct (as_string payload)]; simpl; reflexivity || done.
  - destruct (as_string_list payload); [|destruct (as_string payload)]; simpl; reflexivity || done.
Qed.

Lemma payload_values_any (RO1 RO2 : RangeOrder) payload :
  match payload_values RO1 payload, payload_values RO2 payload with
  | Some v1, Some v2 => v1 ≡ₚ v2
  | None, None => True
  | _, _ => False
  end.
Proof.
  unfold payload_values. destruct (as_bool_map payload) as [[object|]|].
  { apply fmap_Permutation, filter_Permutation, range_any. }
  all: destruct (as_string_list payload); [|destruct (as_string payload)]; simpl; reflexivity || done.
Qed.

(** What a filter set is read for. *)
#[export] Instance unless_empty_proper test :
  Proper ((≡ₚ) ==> eq) test → Proper ((≡ₚ) ==> eq) (λ values, unless_empty values test).
Proof.
  intros Htest v1 v2 Hv. unfold unless_empty.
  destruct v1 as [|x v1], v2 as [|y v2]; [done| | |by apply Htest].
  - by apply Permutation_nil_l in Hv.
  - by apply Permutation_nil_r in Hv.
Qed.

#[export] Instance existsb_proper {A} (p : A → bool) : Proper ((≡ₚ) ==> eq) (existsb p).
Proof.
  intros l1 l2 Hl. apply eq_bool_prop_intro. rewrite !Is_true_true, !existsb_exists.
  setoid_rewrite <-list_elem_of_In. by setoid_rewrite Hl.
Qed.

#[export] Instance matchesAnySubstring_proper value : Proper ((≡ₚ) ==> eq) (matchesAnySubstring value).
Proof. apply (unless_empty_proper (existsb (Contains value))), _. Qed.

#[export] Instance matchesAnyExact_proper value : Proper ((≡ₚ) ==> eq) (matchesAnyExact value).
Proof. apply (unless_empty_proper (existsb (λ p, bool_decide (value = p)))), _. Qed.

(** The verdict of one label expression. *)
Definition label_holds (labels : gmap string string) (expr : string) : bool :=
  match Cut expr "!=" with
  | Some (key, value) => bool_decide (labels !! key ≠ Some value)
  | None =>
    match Cut expr "=" with
    | Some (key, value) => bool_decide (labels !! key = Some value)
    | None => bool_decide (is_Some (labels !! expr))
    end
  end.

Lemma matchLabels_forallb labels l : matchLabels labels l = forallb (label_holds labels) l.
Proof.
  induction l as [|expr l IH]; [done|]. cbn [matchLabels forallb]. rewrite IH. unfold label_holds.
  destruct (Cut expr "!=") as [[k v]|]; [by repeat case_bool_decide|].
  destruct (Cut expr "=") as [[k v]|]; [by repeat case_bool_decide|].
  by destruct (labels !! expr).
Qed.

#[export] Instance matchLabels_proper labels : Proper ((≡ₚ) ==> eq) (matchLabels labels).
Proof.
  intros l1 l2 Hl. apply eq_bool_prop_intro.
  rewrite !matchLabels_forallb, !Is_true_true, !forallb_forall.
  split; intros H x Hx%list_elem_of_In; apply H, list_elem_of_In;
    [by rewrite Hl|by rewrite <-Hl].
Qed.

(** Equivalent filter sets give the same verdict on every object. *)
Definition same_verdicts (f g : dockerFilters) : Prop :=
  (∀ c, containerMatchesFilters c f = containerMatchesFilters c g)
  ∧ (∀ n, networkMatchesFilters n f = networkMatchesFilters n g)
  ∧ (∀ v, volumeMatchesFilters v f = volumeMatchesFilters v g).

Lemma equiv_same_verdicts f g : f ≈ g → same_verdicts f g.
Proof.
  intros Hfg.
  assert (∀ test key, Proper ((≡ₚ) ==> eq) test →
            unless_empty (values_of f key) test = unless_empty (values_of g key) test) as Htest.
  { intros test key Hp. apply (unless_empty_proper test Hp), Hfg. }
  split_and!; intros x;
    unfold containerMatchesFilters, networkMatchesFilters, volumeMatchesFilters;
    rewrite (matchLabels_proper _ _ _ (Hfg "label")), !Htest by apply _; done.
Qed.

Section loop.
Context {UN : Unicode}.

(** The filters in the order [l], without their loop over the flags. *)
Definition key_of (kp : string * json) : string := ToLower (TrimSpace kp.1).
Definition all_readable (RO : RangeOrder) (l : list (string * json)) : Prop :=
  Forall (λ kp, key_of kp ≠ EmptyString ∧ is_Some (payload_values RO kp.2)) l.
Definition append_all (RO : RangeOrder) (l : list (string * json)) (out : dockerFilters) : dockerFilters :=
  foldl (λ out kp, append_values (key_of kp) (default [] (payload_values RO kp.2)) out) out l.

#[export] Instance append_all_proper RO l : Proper (filters_equiv ==> filters_equiv) (append_all RO l).
Proof.
  unfold append_all. induction l as [|kp l IH]; intros f g Hfg; [done|]. cbn [foldl].
  apply IH. by apply append_values_proper.
Qed.

Lemma filter_loop_spec (RO : RangeOrder) l out :
  match filter_loop l out with
  | Ok f => all_readable RO l ∧ f ≈ append_all RO l out
  | Err _ => ¬ all_readable RO l
  end.
Proof.
  unfold all_readable, append_all.
  revert out. induction l as [|[key payload] l IH]; intros out; cbn [filter_loop foldl]; [by split|].
  pose proof (add_payload_values RO (ToLower (TrimSpace key)) payload out) as Hadd.
  change (ToLower (TrimSpace key)) with (key_of (key, payload)) in *. case_bool_decide as Hkey.
  { intros [[? _] _]%Forall_cons. done. }
  destruct (add_payload _ payload out) as [out'|], (payload_values RO payload) as [values|] eqn:Hv;
    try done; [|intros [[_ [? Heq]] _]%Forall_cons; cbn in Heq; congruence].
  specialize (IH out'). destruct (filter_loop l out') as [f|e].
  - destruct IH as [? Hf]. split; [constructor; [|done]; cbn [snd]; rewrite Hv; by eauto|].
    cbn [snd]. rewrite Hv. etrans; [exact Hf|]. by apply append_all_proper.
  - intros [_ ?]%Forall_cons. done.
Qed.

Lemma append_all_perm RO l1 l2 out : l1 ≡ₚ l2 → append_all RO l1 out ≈ append_all RO l2 out.
Proof.
  intros Hl. revert out. induction Hl as [|kp l1 l2 _ IH|kp1 kp2 l|l1 l2 l3 _ IH1 _ IH2];
    intros out; unfold append_all in *; cbn [foldl].
  - done.
  - apply IH.
  - apply append_all_proper, append_values_comm.
  - etrans; [apply IH1|apply IH2].
Qed.

Lemma append_all_any RO1 RO2 l out : append_all RO1 l out ≈ append_all RO2 l out.
Proof.
  revert out. induction l as [|kp l IH]; intros out; unfold append_all in *; cbn [foldl]; [done|].
  etrans; [apply IH|]. apply append_all_proper, append_values_proper; [|done].
  pose proof (payload_values_any RO1 RO2 kp.2).
  by destruct (payload_values RO1 kp.2), (payload_values RO2 kp.2).
Qed.

Lemma all_readable_any RO1 RO2 l1 l2 : l1 ≡ₚ l2 → all_readable RO1 l1 → all_readable RO2 l2.
Proof.
  unfold all_readable. intros Hl. rewrite Hl. intros Hall.
  eapply Forall_impl; [exact Hall|]. intros [k payload] [? [v Hv]].
  split; [done|]. cbn [snd] in *. pose proof (payload_values_any RO1 RO2 payload) as Hany.
  rewrite Hv in Hany. by destruct (payload_values RO2 payload).
Qed.
End loop.

(** * Theorems *)

(** C35: how Go happens to order the maps of a [filters] parameter does not matter:
    two runs on the same text both refuse it, or read filters that select the same
    containers, networks and volumes. *)
Theorem filters_order_independent `{Unicode} (RO1 RO2 : RangeOrder) raw :
  match parseDockerFilters (RO := RO1) raw, parseDockerFilters (RO := RO2) raw with
  | Ok f, Ok g => same_verdicts f g
  | Err _, Err _ => True
  | _, _ => False
  end.
Proof.
  unfold parseDockerFilters. case_bool_decide; [by split_and!|].
  destruct (parse _ ≫= as_object) as [generic|]; [|done].
  pose proof (range_any RO1 RO2 "docker_filters.go:25" "docker_filters.go:25" generic) as Hl.
  pose proof (filter_loop_spec RO1 (range (RangeOrder := RO1) "docker_filters.go:25" generic) ∅) as H1.
  pose proof (filter_loop_spec RO2 (range (RangeOrder := RO2) "docker_filters.go:25" generic) ∅) as H2.
  destruct (filter_loop (RO := RO1) _ _) as [f|], (filter_loop (RO := RO2) _ _) as [g|]; try done.
  - apply equiv_same_verdicts. destruct H1 as [_ H1], H2 as [_ H2].
    etrans; [exact H1|]. etrans; [|symmetry; exact H2].
    etrans; [by apply append_all_perm|apply append_all_any].
  - destruct H1 as [H1 _]. by apply H2, (all_readable_any RO1 RO2 _ _ Hl).
  - destruct H2 as [H2 _]. apply H1. by eapply (all_readable_any RO2 RO1); [symmetry|].
Qed.

(** The label expressions a client can mean, and how it writes them. *)
Inductive label_expr :=
| HasLabel (key : string)
| LabelIs (key value : string)
| LabelIsNot (key value : string).

Definition print_label (e : label_expr) : string :=
  match e with
  | HasLabel key => key
  | LabelIs key value => key +:+ "=" +:+ value
  | LabelIsNot key value => key +:+ "!=" +:+ value
  end.

(** Keys without [=] and [!], and no [!=] in the value of an equality: such an
    expression is read as an inequality. *)
Definition label_expr_ok (e : label_expr) : Prop :=
  match e with
  | HasLabel key => free_of "=" key = true
  | LabelIs key value => free_of "=" key = true ∧ free_of "!" key = true ∧ Contains value "!=" = false
  | LabelIsNot key value => free_of "!" key = true
  end.

Definition label_expr_holds (labels : gmap string string) (e : label_expr) : Prop :=
  match e with
  | HasLabel key => is_Some (labels !! key)
  | LabelIs key value => labels !! key = Some value
  | LabelIsNot key value => labels !! key ≠ Some value
  end.

(** [a] cannot begin an occurrence of [c::sep]. *)
Lemma Cut_app_free c sep a t :
  free_of c a = true →
  Cut (a +:+ t) (String c sep) = prod_map (String.append a) id <$> Cut t (String c sep).
Proof.
  induction a as [|d a IH]; intros Ha.
  - rewrite app_nil_l_string. by destruct (Cut t _) as [[? ?]|].
  - apply free_of_cons in Ha as [Hd Ha]. rewrite app_cons_string. cbn -[HasPrefix String.append].
    rewrite HasPrefix_cons, bool_decide_false by done. cbn -[String.append].
    rewrite IH by done. by destruct (Cut t _) as [[? ?]|].
Qed.

Lemma Cut_here sep t : Cut (sep +:+ t) sep = Some (EmptyString, t).
Proof.
  assert (∀ s, HasPrefix s sep = true → Cut s sep = Some (EmptyString, drop_string (String.length sep) s))
    as Hcut by (intros [|c s]; cbn -[HasPrefix]; by intros ->).
  by rewrite Hcut, drop_string_app by apply HasPrefix_app.
Qed.

Lemma Cut_no_match s sep : Contains s sep = false → Cut s sep = None.
Proof.
  induction s as [|c s IH]; cbn -[HasPrefix]; rewrite orb_false_iff; intros [-> Hs]; [done|].
  by rewrite IH.
Qed.

Lemma Contains_skip c s d sep :
  d ≠ c → Contains (String d s) (String c sep) = Contains s (String c sep).
Proof. intros Hd. cbn -[HasPrefix]. by rewrite HasPrefix_cons, bool_decide_false. Qed.

Lemma Contains_bang_eq s : free_of "=" s = true → Contains s "!=" = false.
Proof.
  induction s as [|c s IH]; [done|]. rewrite free_of_cons. intros [Hc Hs].
  cbn -[HasPrefix]. rewrite HasPrefix_cons, IH by done. rewrite orb_false_r, andb_false_iff.
  right. destruct s as [|d s]; [done|]. apply free_of_cons in Hs as [Hd _].
  by rewrite HasPrefix_cons, bool_decide_false.
Qed.

Lemma label_holds_print labels e :
  label_expr_ok e → label_holds labels (print_label e) = true ↔ label_expr_holds labels e.
Proof.
  destruct e as [key|key value|key value]; unfold label_holds; cbn [print_label label_expr_ok label_expr_holds].
  - intros Hk. rewrite Cut_no_match; last first.
    { apply Bool.not_true_iff_false. intros Hc. by rewrite Contains_bang_eq in Hc. }
    rewrite Cut_byte_free by done. apply bool_decide_eq_true.
  - intros (Hk & Hbang & Hv).
    rewrite (Cut_app_free "!" "=" key) by done. change ("=" +:+ value) with (String "=" value).
    assert (Cut (String "=" value) "!=" = None) as -> by (apply Cut_no_match; by rewrite Contains_skip).
    cbn [fmap option_fmap option_map]. rewrite Cut_byte by done. apply bool_decide_eq_true.
  - intros Hk. rewrite (Cut_app_free "!" "=" key) by done.
    rewrite Cut_here. cbn -[String.append]. rewrite app_nil_r_string. apply bool_decide_eq_true.
Qed.

(** a list of label expressions, written as a client writes them, matches
    exactly the objects on which each of them holds. *)
Theorem matchLabels_exact labels exprs :
  Forall label_expr_ok exprs →
  matchLabels labels (print_label <$> exprs) = true ↔ Forall (label_expr_holds labels) exprs.
Proof.
  intros Hok. rewrite matchLabels_forallb. induction Hok as [|e exprs He _ IH]; [by split|].
  cbn. rewrite andb_true_iff, IH, Forall_cons. by rewrite label_holds_print.
Qed.

Lemma matchLabels_exact_witness :
  matchLabels {["tier" := "web"]} (print_label <$> [LabelIs "tier" "web"; LabelIsNot "env" "prod"]) = true.
Proof.
  apply (matchLabels_exact {["tier" := "web"]} [LabelIs "tier" "web"; LabelIsNot "env" "prod"]);
    repeat constructor; vm_compute; done.
Defined.
