(* ===== verification/ApiUtil.v ===== *)
(** The helpers of the Docker API: [docker_api_util.go], and the version constants
    of [docker_api_server.go].

    A byte slice is a [string].  The JSON writers and [decodeJSON] are I/O around
    [encoding/json] and are not modelled here. *)
From Stdlib Require Import Ascii.
From S2P Require Import Prelude GoStrings.

Definition apiVersion : string := "1.43".
Definition minAPIVersion : string := "1.24".

(** * Stream frames *)

Definition byte_of_Z (z : Z) : ascii := ascii_of_N (Z.to_N (z `mod` 256)).

(** [binary.BigEndian.PutUint32] *)
Definition PutUint32 (v : Z) : string :=
  String (byte_of_Z (Z.shiftr v 24)) (String (byte_of_Z (Z.shiftr v 16))
    (String (byte_of_Z (Z.shiftr v 8)) (String (byte_of_Z v) EmptyString))).

(** What is written to [w]; [uint32] keeps the low 32 bits of the length. *)
Definition writeDockerStreamFrame (stream : ascii) (payload : string) : string :=
  if bool_decide (payload = EmptyString) then EmptyString
  else
    let header := String stream (String "000" (String "000" (String "000"
      (PutUint32 (Z.of_nat (String.length payload) `mod` 2^32))))) in
    header +:+ payload.

(** * API versions *)

Section versions.
Context {UN : Unicode}.

(** [strings.IndexFunc(part, not a digit) >= 0] *)
Definition has_non_digit (part : string) : bool :=
  existsb (λ r, bool_decide (r < 48 ∨ 57 < r)%Z) (runes part).

Definition parseAPIVersion (value : string) : result (Z * Z) :=
  let invalid := Err ("invalid API version " +:+ Quote value) in
  match Split value "." with
  | [first; second] =>
    if existsb (λ part, bool_decide (part = EmptyString) || has_non_digit part) [first; second]
    then invalid
    else match Atoi_ok first with
    | None => invalid
    | Some major =>
      match Atoi_ok second with
      | None => invalid
      | Some minor => Ok (major, minor)
      end
    end
  | _ => invalid
  end.

Definition stripAPIVersion (path : string) : string :=
  match SplitN path "/" 3 with
  | [_; version; rest] =>
    if HasPrefix version "v" then
      match parseAPIVersion (TrimPrefix version "v") with
      | Ok _ => "/" +:+ rest
      | Err _ => path
      end
    else path
  | _ => path
  end.

(** The version segment of a path, if it has one: [v], then a digit. *)
Definition version_segment (path : string) : option string :=
  match SplitN path "/" 3 with
  | [_; String v (String d value); _] =>
    if bool_decide (v ≠ "v")%char || negb (is_digit d) then None
    else Some (String d value)
  | _ => None
  end.

(** [None] is a nil error. *)
Definition validateAPIVersionPath (path : string) : option string :=
  match version_segment path with
  | None => None
  | Some value =>
    match parseAPIVersion value with
    | Err e => Some e
    | Ok (major, minor) =>
      let '(minMajor, minMinor) :=
        match parseAPIVersion minAPIVersion with Ok v => v | Err _ => (0, 0)%Z end in
      let '(maxMajor, maxMinor) :=
        match parseAPIVersion apiVersion with Ok v => v | Err _ => (0, 0)%Z end in
      if bool_decide (major < minMajor ∨ (major = minMajor ∧ minor < minMinor))%Z
      then Some ("client version " +:+ value +:+
                 " is too old. Minimum supported API version is " +:+ minAPIVersion)
      else if bool_decide (maxMajor < major ∨ (major = maxMajor ∧ maxMinor < minor))%Z
      then Some ("client version " +:+ value +:+
                 " is too new. Maximum supported API version is " +:+ apiVersion)
      else None
    end
  end.

(** * Small helpers *)

Definition parseBoolQuery (value : string) : bool :=
  let value := ToLower (TrimSpace value) in
  bool_decide (value = "1") || bool_decide (value = "true") || bool_decide (value = "yes").
End versions.

Definition firstOrEmpty (items : list string) : string :=
  match items with [] => EmptyString | item :: _ => item end.

Definition restOrEmpty (items : list string) : list string :=
  match items with [] | [_] => [] | _ :: rest => rest end.

(** * Specification *)

(** The reader at the other end: the stream and the payload of the first frame. *)
Definition Uint32 (a b c d : ascii) : Z :=
  (((byte_of a * 256 + byte_of b) * 256 + byte_of c) * 256 + byte_of d)%Z.

Definition readDockerStreamFrame (s : string) : option (ascii * string * string) :=
  match s with
  | String stream (String _ (String _ (String _
      (String a (String b (String c (String d rest))))))) =>
    let n := Z.to_nat (Uint32 a b c d) in
    if bool_decide (n ≤ String.length rest)
    then Some (stream, take_string n rest, drop_string n rest) else None
  | _ => None
  end.

(** Versions are pairs of numbers, compared part by part. *)
Definition supported (major minor : Z) : Prop := (major = 1 ∧ 24 ≤ minor ≤ 43)%Z.

(** * Lemmas *)

Lemma byte_of_byte_of_Z z : byte_of (byte_of_Z z) = (z `mod` 256)%Z.
Proof.
  unfold byte_of, byte_of_Z. pose proof (Z.mod_pos_bound z 256 ltac:(lia)).
  rewrite N_ascii_embedding by lia. lia.
Qed.

Lemma Uint32_PutUint32 v :
  (0 ≤ v < 2^32)%Z →
  Uint32 (byte_of_Z (Z.shiftr v 24)) (byte_of_Z (Z.shiftr v 16)) (byte_of_Z (Z.shiftr v 8))
    (byte_of_Z v) = v.
Proof.
  intros Hv. unfold Uint32. rewrite !byte_of_byte_of_Z, !Z.shiftr_div_pow2 by lia.
  change (2^8)%Z with 256%Z. change (2^16)%Z with (256 * 256)%Z. change (2^24)%Z with (256 * 256 * 256)%Z.
  rewrite <-!Z.div_div by lia.
  pose proof (Z.div_mod v 256). pose proof (Z.div_mod (v / 256) 256).
  pose proof (Z.div_mod (v / 256 / 256) 256).
  assert (v / 256 / 256 / 256 < 256)%Z by (rewrite !Z.div_div by lia; apply Z.div_lt_upper_bound; lia).
  assert (0 ≤ v / 256 / 256 / 256)%Z by (rewrite !Z.div_div by lia; apply Z.div_pos; lia).
  rewrite (Z.mod_small (v / 256 / 256 / 256)) by lia. lia.
Qed.

Lemma drop_string_app_length n s t : n = String.length s → drop_string n (s +:+ t) = t.
Proof. intros ->. apply drop_string_app. Qed.

Lemma runes_digits s :
  string_forallb is_digit s = true → Forall (λ r, 48 ≤ r ≤ 57)%Z (runes s).
Proof.
  induction s as [|c s IH]; [constructor|]. cbn [string_forallb]. rewrite andb_true_iff.
  intros [Hc Hs]. unfold is_digit, in_range in Hc. apply bool_decide_eq_true in Hc.
  change (byte_of "0") with 48%Z in Hc. change (byte_of "9") with 57%Z in Hc.
  cbn [runes]. rewrite bool_decide_true by lia. constructor; [done|auto].
Qed.

Lemma has_non_digit_digits s : string_forallb is_digit s = true → has_non_digit s = false.
Proof.
  intros Hs%runes_digits. unfold has_non_digit. induction Hs as [|r l Hr _ IH]; [done|].
  cbn. rewrite IH, bool_decide_false by lia. done.
Qed.

Lemma Itoa_not_empty z : (0 ≤ z)%Z → is_int64 z → Itoa z ≠ EmptyString.
Proof. intros Hz Hi Heq. pose proof (Atoi_Itoa z Hi) as Ha. rewrite Heq in Ha. by vm_compute in Ha. Qed.

Section version_lemmas.
Context {UN : Unicode}.

Lemma parseAPIVersion_print a b :
  (0 ≤ a)%Z → (0 ≤ b)%Z → is_int64 a → is_int64 b →
  parseAPIVersion (Itoa a +:+ "." +:+ Itoa b) = Ok (a, b).
Proof.
  intros Ha Hb Hai Hbi. unfold parseAPIVersion. change ("." +:+ Itoa b) with (String "." (Itoa b)).
  rewrite Split_cons, Split_free by (by apply Itoa_free_of).
  cbn [existsb]. rewrite !has_non_digit_digits by (by apply Itoa_digits).
  rewrite !bool_decide_false by (by apply Itoa_not_empty). cbn.
  by rewrite !Atoi_ok_Itoa.
Qed.

Lemma split_versioned_path version rest :
  free_of "/" version = true → SplitN ("/" +:+ version +:+ "/" +:+ rest) "/" 3 = [EmptyString; version; rest].
Proof.
  intros Hv. change ("/" +:+ version +:+ "/" +:+ rest)
    with (EmptyString +:+ String "/" (version +:+ "/" +:+ rest)).
  cbn [SplitN]. rewrite Cut_byte by done. change ("/" +:+ rest) with (String "/" rest). by rewrite Cut_byte.
Qed.

Lemma gate_supported value a b :
  parseAPIVersion value = Ok (a, b) → ∀ path, version_segment path = Some value →
  validateAPIVersionPath path = None ↔ supported a b.
Proof.
  intros Hp path Hseg. unfold validateAPIVersionPath, supported. rewrite Hseg, Hp.
  change (parseAPIVersion minAPIVersion) with (@Ok (Z * Z) (1, 24)%Z).
  change (parseAPIVersion apiVersion) with (@Ok (Z * Z) (1, 43)%Z).
  cbv beta iota. repeat case_bool_decide; split; try done; lia.
Qed.
End version_lemmas.

(** * Theorems *)

(** a frame of container output is read back as it was sent, whatever follows
    it on the stream, as long as its length fits the 32-bit length field. *)
Theorem stream_frame_roundtrip stream payload rest :
  payload ≠ EmptyString → (Z.of_nat (String.length payload) < 2^32)%Z →
  readDockerStreamFrame (writeDockerStreamFrame stream payload +:+ rest) = Some (stream, payload, rest).
Proof.
  intros Hne Hlen. unfold writeDockerStreamFrame. rewrite bool_decide_false by done.
  rewrite Z.mod_small by lia. rewrite app_assoc_string.
  unfold PutUint32. rewrite !app_cons_string, app_nil_l_string. cbn [readDockerStreamFrame].
  rewrite Uint32_PutUint32 by lia. rewrite Nat2Z.id.
  rewrite bool_decide_true by (rewrite length_app_string; lia).
  by rewrite take_string_app, drop_string_app.
Qed.

Lemma stream_frame_roundtrip_witness :
  readDockerStreamFrame (writeDockerStreamFrame "001" ("hi" +:+ nl) +:+ "next") = Some ("001"%char, "hi" +:+ nl, "next").
Proof. apply stream_frame_roundtrip; [done|vm_compute; done]. Defined.

(** C36: a path that begins with an API version is served without it, and only for
    the versions 1.24 to 1.43, the two numbers of a version compared as integers
    (so 1.100 is newer than 1.43 and 1.5 older than 1.24). *)
Theorem api_version_gate `{Unicode} a b rest :
  (0 ≤ a)%Z → (0 ≤ b)%Z → is_int64 a → is_int64 b →
  let path := "/v" +:+ Itoa a +:+ "." +:+ Itoa b +:+ "/" +:+ rest in
  stripAPIVersion path = "/" +:+ rest ∧ (validateAPIVersionPath path = None ↔ supported a b).
Proof.
  intros Ha Hb Hai Hbi path.
  set (value := Itoa a +:+ "." +:+ Itoa b).
  assert (path = "/" +:+ ("v" +:+ value) +:+ "/" +:+ rest) as Hpath.
  { subst path value. by rewrite !app_assoc_string. }
  assert (free_of "/" ("v" +:+ value) = true) as Hfree.
  { subst value. rewrite !free_of_app. by rewrite !(Itoa_free_of "/"). }
  pose proof (parseAPIVersion_print a b Ha Hb Hai Hbi) as Hparse. fold value in Hparse.
  split.
  - unfold stripAPIVersion. rewrite Hpath, split_versioned_path by done.
    rewrite HasPrefix_app, TrimPrefix_app, Hparse. done.
  - apply (gate_supported _ _ _ Hparse). unfold version_segment.
    rewrite Hpath, split_versioned_path by done. change ("v" +:+ value) with (String "v" value).
    pose proof (Itoa_digits a Ha) as Hd. pose proof (Itoa_not_empty a Ha Hai).
    subst value. destruct (Itoa a) as [|d t]; [done|]. cbn [string_forallb] in Hd.
    apply andb_true_iff in Hd as [Hd _]. rewrite app_cons_string, Hd. done.
Qed.

Lemma api_version_gate_witness :
  (0 ≤ 1)%Z ∧ stripAPIVersion (UN := unicode_none) "/v1.100/containers/json" = "/containers/json"
  ∧ (validateAPIVersionPath (UN := unicode_none) "/v1.100/containers/json" = None ↔ supported 1 100).
Proof. split; [lia|]. apply (api_version_gate (H := unicode_none) 1 100 "containers/json"); vm_compute; done. Defined.
