(* ===== verification/Ledger.v ===== *)
(** The run ledger: [ledger.go].

    [Log] and [Close] hold [l.mu] for their whole body, so each is one atomic step
    on the ledger.  The file system is part of the state ([disk]); whether an
    operation on it fails, and how much of a failing write reaches the file, is
    decided by an arbitrary [FileSystem], asked with the number of operations
    performed so far.  Every theorem holds for all of them. *)
From Stdlib Require Import Ascii.
From S2P Require Import Prelude GoStrings GoTime Json Cookbook Container EngineTypes.

(** * Entries *)

Record LedgerEntry := mkEntry {
  eSeq : Z;
  eTimestamp : string;
  eSeed : Z;
  eScenario : Z;
  eContainer : string;
  eKind : string;
  eChannel : string;
  eEvent : string;
  eCount : Z;
  eRequest : any;
  eResponse : any;
  eTransition : string;
  eBefore : option ContainerStateSnapshot;
  eAfter : option ContainerStateSnapshot;
  eNote : string
}.
#[export] Instance LedgerEntry_eta : Eta LedgerEntry := λ e,
  mkEntry (eSeq e) (eTimestamp e) (eSeed e) (eScenario e) (eContainer e) (eKind e) (eChannel e)
    (eEvent e) (eCount e) (eRequest e) (eResponse e) (eTransition e) (eBefore e) (eAfter e)
    (eNote e).

(** ** [json.Marshal] of an entry *)

Definition key_le (p q : string * json) : Prop := String.le p.1 q.1.
#[export] Instance key_le_dec p q : Decision (key_le p q) := String.le_dec p.1 q.1.

Fixpoint any_json (v : any) : json :=
  match v with
  | AnyNil => JNull
  | AnyBool b => JBool b
  | AnyInt z => JNumber (Itoa z)
  | AnyString s => JString s
  | AnyStrings l => JArray (JString <$> l)
  | AnyList l => JArray (any_json <$> l)
  | AnyMap l => JObject (merge_sort key_le ((λ kv, (kv.1, any_json kv.2)) <$> l))
  | AnyStruct l => JObject ((λ kv, (kv.1, any_json kv.2)) <$> l)
  | AnyRaw text => JRaw text
  end.

Definition omit_empty (key s : string) : list (string * json) :=
  if bool_decide (s = EmptyString) then [] else [(key, JString s)].
Definition omit_nil (key : string) (v : any) : list (string * json) :=
  match v with AnyNil => [] | _ => [(key, any_json v)] end.

Definition snapshot_json (s : ContainerStateSnapshot) : json :=
  JObject ([("status", JString (snStatus s)); ("running", JBool (snRunning s));
    ("restarting", JBool (snRestarting s)); ("paused", JBool (snPaused s));
    ("dead", JBool (snDead s)); ("health", JString (snHealth s));
    ("exit_code", JNumber (Itoa (snExitCode s)));
    ("restart_count", JNumber (Itoa (snRestartCount s)))] ++ omit_empty "error" (snError s)).

Definition entry_json (e : LedgerEntry) : json :=
  JObject ([("seq", JNumber (Itoa (eSeq e))); ("timestamp", JString (eTimestamp e));
    ("seed", JNumber (Itoa (eSeed e))); ("scenario", JNumber (Itoa (eScenario e)))]
    ++ omit_empty "container" (eContainer e) ++ omit_empty "kind" (eKind e)
    ++ [("channel", JString (eChannel e)); ("event", JString (eEvent e))]
    ++ (if bool_decide (eCount e = 0)%Z then [] else [("count", JNumber (Itoa (eCount e)))])
    ++ omit_nil "request" (eRequest e) ++ omit_nil "response" (eResponse e)
    ++ omit_empty "transition" (eTransition e)
    ++ match eBefore e with Some s => [("before", snapshot_json s)] | None => [] end
    ++ match eAfter e with Some s => [("after", snapshot_json s)] | None => [] end
    ++ omit_empty "note" (eNote e)).

(** The bytes of one ledger line. *)
Definition entry_line (e : LedgerEntry) : string := print (entry_json e) +:+ nl.

(** * State *)

Class FileSystem := {
  open_error : nat → string → option string;
  write_result : nat → string → string → nat * option string;
  sync_error : nat → string → option string;
  close_error : nat → string → option string
}.

(** [global] and [files] hold open files, named by their path; [errors] is the
    content of the channel of capacity one. *)
Record Ledger := mkLedger {
  seq : Z;
  lSeed : Z;
  runDir : string;
  global : option string;
  files : gmap string string;
  firstErr : option string;
  errors : list string;
  errors_closed : bool;
  closed : bool;
  ticks : nat;
  disk : gmap string string
}.
#[export] Instance Ledger_eta : Eta Ledger := λ l,
  mkLedger (seq l) (lSeed l) (runDir l) (global l) (files l) (firstErr l) (errors l)
    (errors_closed l) (closed l) (ticks l) (disk l).

(** [uint64] addition. *)
Definition wrap_uint64 (z : Z) : Z := (z `mod` 2^64)%Z.

Definition sanitize_rune (r : Z) : string :=
  if bool_decide (97 ≤ r ≤ 122 ∨ 65 ≤ r ≤ 90 ∨ 48 ≤ r ≤ 57 ∨ r = 45 ∨ r = 95 ∨ r = 46)%Z
  then encode_rune r else "_".
Definition sanitizeFilename (value : string) : string :=
  foldr (λ r acc, sanitize_rune r +:+ acc) EmptyString (runes value).

(** [filepath.Join] on the clean run directory and names without a slash. *)
Definition global_path (dir : string) : string := dir +:+ "/global.ledger.jsonl".
Definition container_path (dir name : string) : string :=
  dir +:+ "/containers/" +:+ sanitizeFilename name +:+ ".ledger.jsonl".

(** What [newLedger] returns once its directory and its files are made. *)
Definition newLedger (dir : string) (seed : Z) : Ledger := {|
  seq := 0; lSeed := seed; runDir := dir; global := Some (global_path dir); files := ∅;
  firstErr := None; errors := []; errors_closed := false; closed := false;
  ticks := 0; disk := {[ global_path dir := EmptyString ]} |}.

Definition RunDir (l : Ledger) : string := runDir l.
Definition Errors (l : Ledger) : list string := errors l.
Definition Ledger_Err (l : Ledger) : option string := firstErr l.

Section ledger.
Context {FS : FileSystem}.

Definition tick (l : Ledger) : Ledger := l <| ticks := S (ticks l) |>.
Definition contents (l : Ledger) (path : string) : string := default EmptyString (disk l !! path).

(** [file.Write]: [O_APPEND], at most all of [data]. *)
Definition file_write (path data : string) (l : Ledger) : Ledger * (nat * option string) :=
  let '(n, err) := write_result (ticks l) path data in
  let n := n `min` String.length data in
  (tick l <| disk := <[path := contents l path +:+ take_string n data]> (disk l) |>, (n, err)).

Definition writeAndSync (file : option string) (data : string) (l : Ledger) : Ledger * option string :=
  match file with
  | None => (l, Some "ledger file is nil")
  | Some path =>
    let '(l, (written, err)) := file_write path data l in
    match err with
    | Some e => (l, Some e)
    | None =>
      if bool_decide (written ≠ String.length data) then (l, Some "short write")
      else (tick l, sync_error (ticks l) path)
    end
  end.

(** A send on [l.errors] when there is room for it. *)
Definition failLocked (err : string) (l : Ledger) : Ledger :=
  match firstErr l with
  | Some _ => l
  | None => (* [err] is never nil here *)
    let l := l <| firstErr := Some err |> in
    match errors l with [] => l <| errors := [err] |> | _ => l end
  end.

(** [os.OpenFile] with [O_CREATE|O_WRONLY|O_APPEND]. *)
Definition open_append (path : string) (l : Ledger) : Ledger * option string :=
  match open_error (ticks l) path with
  | Some e => (tick l, Some e)
  | None => (tick l <| disk := <[path := contents l path]> (disk l) |>, None)
  end.

(** The file of a container, opened if it is not, and the path on failure. *)
Definition container_file (name : string) (l : Ledger) : Ledger * result string :=
  match files l !! name with
  | Some path => (l, Ok path)
  | None =>
    let path := container_path (runDir l) name in
    let '(l, err) := open_append path l in
    match err with
    | Some e => (l, Err (path +:+ ": " +:+ e))
    | None => (l <| files := <[name := path]> (files l) |>, Ok path)
    end
  end.

Definition Log (now : Time) (entry : LedgerEntry) (l : Ledger) : Ledger :=
  if closed l || bool_decide (firstErr l ≠ None) then l
  else
    let l := l <| seq := wrap_uint64 (seq l + 1) |> in
    let entry := entry <| eSeq := seq l |> <| eSeed := lSeed l |> <| eTimestamp := RFC3339Nano now |> in
    let data := entry_line entry in
    let '(l, err) := writeAndSync (global l) data l in
    match err with
    | Some e => failLocked ("write global ledger entry " +:+ Itoa (eSeq entry) +:+ ": " +:+ e) l
    | None =>
      if bool_decide (eContainer entry = EmptyString) then l
      else
        let '(l, file) := container_file (eContainer entry) l in
        match file with
        | Err e => failLocked ("open container ledger " +:+ e) l
        | Ok path =>
          let '(l, err) := writeAndSync (Some path) data l in
          match err with
          | Some e =>
            failLocked ("write container ledger for " +:+ eContainer entry +:+ " entry "
              +:+ Itoa (eSeq entry) +:+ ": " +:+ e) l
          | None => l
          end
        end
    end.

(** [file.Close] in a loop: the first error is kept. *)
Definition close_file (st : Ledger * option string) (path : string) : Ledger * option string :=
  let '(l, first) := st in
  (tick l, match first with Some _ => first | None => close_error (ticks l) path end).

Definition Close {RO : RangeOrder} (l : Ledger) : Ledger * option string :=
  if closed l then (l, firstErr l)
  else
    let l := l <| closed := true |> in
    let '(l, first) := foldl close_file (l, firstErr l) (range "ledger.go:163" (files l)).*2 in
    let '(l, first) := match global l with Some path => close_file (l, first) path | None => (l, first) end in
    let l := match firstErr l, first with None, Some _ => l <| firstErr := first |> | _, _ => l end in
    (l <| errors_closed := true |>, first).
End ledger.

(** * Specification *)

Section spec.
Context {FS : FileSystem}.

Definition log_all (es : list (Time * LedgerEntry)) (l : Ledger) : Ledger :=
  foldl (λ l te, Log te.1 te.2 l) l es.

(** The entry as the ledger records it under the number [i]. *)
Definition stamped (seed : Z) (i : nat) (te : Time * LedgerEntry) : LedgerEntry :=
  te.2 <| eSeq := Z.of_nat i |> <| eSeed := seed |> <| eTimestamp := RFC3339Nano te.1 |>.

Definition lines (seed : Z) (es : list (Time * LedgerEntry)) : list (LedgerEntry) :=
  imap (λ i te, stamped seed (S i) te) es.

(** The file of all entries, numbered from 1 without a gap. *)
Definition ideal_global (seed : Z) (es : list (Time * LedgerEntry)) : string :=
  Join (entry_line <$> lines seed es) EmptyString.

(** The entries of one container, numbered as in the global file. *)
Definition of_file (name : string) (e : LedgerEntry) : Prop :=
  eContainer e ≠ EmptyString ∧ sanitizeFilename (eContainer e) = sanitizeFilename name.
#[export] Instance of_file_dec name e : Decision (of_file name e) := _.

Definition ideal_container (seed : Z) (name : string) (es : list (Time * LedgerEntry)) : string :=
  Join (entry_line <$> filter (of_file name) (lines seed es)) EmptyString.

(** The ledger after [es] without an error. *)
Definition ledger_ok (dir : string) (seed : Z) (es : list (Time * LedgerEntry)) (l : Ledger) : Prop :=
  seq l = Z.of_nat (length es) ∧ lSeed l = seed ∧ runDir l = dir ∧ global l = Some (global_path dir)
  ∧ firstErr l = None ∧ errors l = [] ∧ closed l = false
  ∧ (∀ name path, files l !! name = Some path → path = container_path dir name)
  ∧ contents l (global_path dir) = ideal_global seed es
  ∧ ∀ name, contents l (container_path dir name) = ideal_container seed name es.

(** The ledger after a failure at some entry: what the global file holds is the
    beginning of what it should hold, and the error is reported once. *)
Definition ledger_failed (dir : string) (seed : Z) (es : list (Time * LedgerEntry)) (l : Ledger) : Prop :=
  (∃ e, firstErr l = Some e ∧ errors l = [e])
  ∧ ∃ rest, ideal_global seed es = contents l (global_path dir) +:+ rest.

(** * Lemmas *)

Lemma app_inj_r_string s t u : s +:+ u = t +:+ u → s = t.
Proof.
  revert t. induction s as [|c s IH]; intros [|d t]; rewrite ?app_nil_l_string, ?app_cons_string.
  - done.
  - intros Heq. apply (f_equal String.length) in Heq. simpl in Heq.
    rewrite length_app_string in Heq. lia.
  - intros Heq. apply (f_equal String.length) in Heq. simpl in Heq.
    rewrite length_app_string in Heq. lia.
  - intros [= -> Heq]. f_equal. by apply IH.
Qed.

Lemma Join_empty_cons w l : Join (w :: l) EmptyString = w +:+ Join l EmptyString.
Proof. simpl. f_equal. destruct l as [|v l]; [done|]. simpl. done. Qed.

Lemma Join_empty_snoc l w : Join (l ++ [w]) EmptyString = Join l EmptyString +:+ w.
Proof.
  induction l as [|v l IH].
  - simpl. by rewrite app_nil_r_string.
  - rewrite <-app_comm_cons, !Join_empty_cons, IH. by rewrite app_assoc_string.
Qed.

Lemma lines_snoc seed es te : lines seed (es ++ [te]) = lines seed es ++ [stamped seed (S (length es)) te].
Proof. unfold lines. rewrite imap_app. simpl. by rewrite Nat.add_0_r. Qed.

Lemma container_path_inj dir a b :
  container_path dir a = container_path dir b ↔ sanitizeFilename a = sanitizeFilename b.
Proof.
  unfold container_path. split; [|by intros ->].
  intros Heq%app_inj_l_string%app_inj_l_string%app_inj_r_string. done.
Qed.

Lemma container_path_global dir a : container_path dir a ≠ global_path dir.
Proof. unfold container_path, global_path. intros Heq%app_inj_l_string. by cbn in Heq. Qed.

Lemma take_string_all s : take_string (String.length s) s = s.
Proof. rewrite <-(app_nil_r_string s) at 2. apply take_string_app. Qed.

(** Two ledgers that differ in the file system only. *)
Definition same_meta (l l' : Ledger) : Prop :=
  l' = l <| ticks := ticks l' |> <| disk := disk l' |>.

Lemma same_meta_refl l : same_meta l l.
Proof. by destruct l. Qed.

Lemma writeAndSync_spec path data l l' err :
  writeAndSync (Some path) data l = (l', err) →
  same_meta l l'
  ∧ (∃ k, contents l' path = contents l path +:+ take_string k data)
  ∧ (err = None → contents l' path = contents l path +:+ data)
  ∧ ∀ p, p ≠ path → contents l' p = contents l p.
Proof.
  unfold writeAndSync, file_write. destruct (write_result _ _ _) as [n werr].
  set (k := n `min` String.length data).
  set (l1 := tick l <| disk := _ |>).
  assert (same_meta l l1) as Hmeta by by destruct l.
  assert (contents l1 path = contents l path +:+ take_string k data) as Hpath.
  { unfold contents at 1. subst l1. destruct l. cbn. by rewrite lookup_insert_eq. }
  assert (∀ p, p ≠ path → contents l1 p = contents l p) as Hother.
  { intros p Hp. unfold contents. subst l1. destruct l. cbn. by rewrite lookup_insert_ne. }
  clearbody l1. destruct werr as [e|]; [intros [= <- <-]; split_and!; by eauto|].
  case_bool_decide as Hk; intros [= <- <-]; [split_and!; by eauto|].
  assert (∀ p, contents (tick l1) p = contents l1 p) as Htick by by destruct l1.
  rewrite Htick. setoid_rewrite Htick. split_and!; eauto.
  - unfold same_meta in *. rewrite Hmeta. by destruct l.
  - intros _. by rewrite Hpath, Hk, take_string_all.
Qed.

Lemma open_append_spec path l l' err :
  open_append path l = (l', err) → same_meta l l' ∧ ∀ p, contents l' p = contents l p.
Proof.
  unfold open_append. destruct (open_error _ _); intros [= <- <-]; [by destruct l|].
  split; [by destruct l|]. intros p. unfold contents. destruct l. cbn.
  destruct (decide (p = path)) as [->|]; [by rewrite lookup_insert_eq|by rewrite lookup_insert_ne].
Qed.

Lemma container_file_spec dir name l l' r :
  runDir l = dir → (∀ n p, files l !! n = Some p → p = container_path dir n) →
  container_file name l = (l', r) →
  (∀ p, contents l' p = contents l p)
  ∧ same_meta l (l' <| files := files l |>)
  ∧ (∀ n p, files l' !! n = Some p → p = container_path dir n)
  ∧ match r with Ok path => path = container_path dir name | Err _ => True end.
Proof.
  intros Hdir Hfiles. unfold container_file. destruct (files l !! name) as [path|] eqn:Hn.
  { intros [= <- <-]. split_and!; [done|by destruct l|done|by apply Hfiles]. }
  destruct (open_append _ l) as [l1 err] eqn:Ho. apply open_append_spec in Ho as [Hmeta Hc].
  rewrite Hdir. assert (files l1 = files l) as Hf1 by by rewrite Hmeta; destruct l.
  destruct err as [e|]; intros [= <- <-].
  - split_and!; [done| |by rewrite Hf1|done].
    rewrite <-Hf1. unfold same_meta in *. rewrite Hmeta. by destruct l.
  - split_and!; [intros p; rewrite <-Hc; by destruct l1| | |done].
    + unfold same_meta in *. rewrite Hmeta. by destruct l.
    + intros n p. rewrite Hf1. destruct l1; cbn. rewrite lookup_insert_Some.
      intros [[<- <-]|[_ ?]]; [done|by apply Hfiles].
Qed.

Lemma failLocked_spec e l :
  firstErr l = None → errors l = [] →
  firstErr (failLocked e l) = Some e ∧ errors (failLocked e l) = [e]
  ∧ ∀ p, contents (failLocked e l) p = contents l p.
Proof. destruct l; cbn. intros -> ->. done. Qed.

Lemma ideal_global_snoc seed es te :
  ideal_global seed (es ++ [te])
  = ideal_global seed es +:+ entry_line (stamped seed (S (length es)) te).
Proof. unfold ideal_global. rewrite lines_snoc, fmap_app. apply Join_empty_snoc. Qed.

Lemma ideal_container_snoc seed name es te :
  ideal_container seed name (es ++ [te])
  = ideal_container seed name es +:+
      (if decide (of_file name te.2) then entry_line (stamped seed (S (length es)) te) else EmptyString).
Proof.
  unfold ideal_container. rewrite lines_snoc, filter_app, fmap_app.
  assert (of_file name (stamped seed (S (length es)) te) ↔ of_file name te.2) as Hiff by (by destruct te as [? []]).
  destruct (decide (of_file name te.2)).
  - rewrite filter_cons_True by by apply Hiff. apply Join_empty_snoc.
  - rewrite filter_cons_False by by rewrite Hiff. cbn [filter list_filter fmap list_fmap].
    by rewrite app_nil_r, app_nil_r_string.
Qed.

Lemma failed_snoc dir seed es te l :
  ledger_failed dir seed es l → ledger_failed dir seed (es ++ [te]) l.
Proof.
  intros [He [rest Hrest]]. split; [done|]. rewrite ideal_global_snoc, Hrest.
  rewrite app_assoc_string. by eexists.
Qed.

(** A failure after the global file holds [k] bytes of the new line. *)
Lemma fail_at dir seed es te l e k :
  firstErr l = None → errors l = [] →
  contents l (global_path dir)
  = ideal_global seed es +:+ take_string k (entry_line (stamped seed (S (length es)) te)) →
  ledger_failed dir seed (es ++ [te]) (failLocked e l).
Proof.
  intros H1 H2 Hc. destruct (failLocked_spec e l H1 H2) as (Hf & He & Hk).
  split; [by eexists|]. exists (drop_string k (entry_line (stamped seed (S (length es)) te))).
  by rewrite ideal_global_snoc, Hk, Hc, app_assoc_string, take_drop_string.
Qed.

Lemma Log_failed now e dir seed es l :
  ledger_failed dir seed es l → Log now e l = l.
Proof. intros [(err & Hf & _) _]. unfold Log. rewrite Hf, orb_true_r. done. Qed.

(** The second half of [Log], after the global file. *)
Definition log_to_container (entry : LedgerEntry) (l : Ledger) : Ledger :=
  if bool_decide (eContainer entry = EmptyString) then l
  else
    let '(l, file) := container_file (eContainer entry) l in
    match file with
    | Err e => failLocked ("open container ledger " +:+ e) l
    | Ok path =>
      let '(l, err) := writeAndSync (Some path) (entry_line entry) l in
      match err with
      | Some e =>
        failLocked ("write container ledger for " +:+ eContainer entry +:+ " entry "
          +:+ Itoa (eSeq entry) +:+ ": " +:+ e) l
      | None => l
      end
    end.

(** [Log] on an open ledger, with the entry in its final form. *)
Definition log_stamped (entry : LedgerEntry) (l : Ledger) : Ledger :=
  let '(l, err) := writeAndSync (global l) (entry_line entry) l in
  match err with
  | Some e => failLocked ("write global ledger entry " +:+ Itoa (eSeq entry) +:+ ": " +:+ e) l
  | None => log_to_container entry l
  end.

Lemma Log_stamped dir seed es te l :
  ledger_ok dir seed es l → (Z.of_nat (S (length es)) < 2^64)%Z →
  Log te.1 te.2 l = log_stamped (stamped seed (S (length es)) te) (l <| seq := Z.of_nat (S (length es)) |>).
Proof.
  intros (Hseq & Hseed & _ & _ & Hfirst & _ & Hclosed & _) Hlen.
  unfold Log. rewrite Hclosed, Hfirst, bool_decide_false by (by intros ?).
  assert (wrap_uint64 (seq l + 1) = Z.of_nat (S (length es))) as ->.
  { unfold wrap_uint64. rewrite Hseq, Z.mod_small; lia. }
  unfold log_stamped, log_to_container, stamped. rewrite <-Hseed. by destruct l.
Qed.

(** What no write of a line changes. *)
Definition open_meta (dir : string) (seed : Z) (n : nat) (l : Ledger) : Prop :=
  seq l = Z.of_nat n ∧ lSeed l = seed ∧ runDir l = dir ∧ global l = Some (global_path dir)
  ∧ firstErr l = None ∧ errors l = [] ∧ closed l = false.

Lemma open_meta_same dir seed n l l' : same_meta l l' → open_meta dir seed n l → open_meta dir seed n l'.
Proof. intros ->. by destruct l. Qed.

Definition files_ok (dir : string) (l : Ledger) : Prop :=
  ∀ name path, files l !! name = Some path → path = container_path dir name.

Lemma log_to_container_spec dir seed es te l :
  let entry := stamped seed (S (length es)) te in
  open_meta dir seed (S (length es)) l → files_ok dir l →
  contents l (global_path dir) = ideal_global seed (es ++ [te]) →
  (∀ name, contents l (container_path dir name) = ideal_container seed name es) →
  ledger_ok dir seed (es ++ [te]) (log_to_container entry l)
  ∨ ledger_failed dir seed (es ++ [te]) (log_to_container entry l).
Proof.
  intros entry Hm Hfiles Hg Hc. unfold log_to_container.
  assert (eContainer entry = eContainer te.2) as Hname by (subst entry; by destruct te as [? []]).
  assert (Z.of_nat (length (es ++ [te])) = Z.of_nat (S (length es))) as Hlen by (rewrite length_app; simpl; lia).
  assert (∀ e l', open_meta dir seed (S (length es)) l' →
    contents l' (global_path dir) = ideal_global seed (es ++ [te]) →
    ledger_failed dir seed (es ++ [te]) (failLocked e l')) as Hfail.
  { intros e l' (_ & _ & _ & _ & H1 & H2 & _) Hg'. destruct (failLocked_spec e l' H1 H2) as (? & ? & Hk).
    split; [by eexists|]. exists EmptyString. by rewrite app_nil_r_string, Hk, Hg'. }
  case_bool_decide as Hempty.
  { left. destruct Hm as (? & ? & ? & ? & ? & ? & ?). unfold ledger_ok. rewrite Hlen.
    split_and!; try done. intros name. rewrite ideal_container_snoc, decide_False, app_nil_r_string; [done|].
    intros [Hn _]. congruence. }
  destruct (container_file _ l) as [l1 file] eqn:Hfile.
  apply (container_file_spec dir) in Hfile as (Hc1 & Hmeta & Hfiles1 & Hpath); [|apply Hm|done].
  assert (open_meta dir seed (S (length es)) l1) as Hm1.
  { clear -Hm Hmeta. unfold same_meta in Hmeta. destruct l, l1. cbn in Hmeta. injection Hmeta; intros; subst. exact Hm. }
  destruct file as [path|e]; [|right; apply Hfail; [done|by rewrite Hc1]]. subst path.
  destruct (writeAndSync _ _ l1) as [l2 err] eqn:Hw.
  apply writeAndSync_spec in Hw as (Hmeta2 & _ & Hall & Hother).
  apply (open_meta_same dir seed (S (length es))) in Hmeta2 as Hm2; [|done].
  assert (contents l2 (global_path dir) = ideal_global seed (es ++ [te])) as Hg2.
  { rewrite Hother, Hc1 by (symmetry; apply container_path_global). done. }
  destruct err as [e|]; [right; by apply Hfail|]. specialize (Hall eq_refl). left.
  destruct Hm2 as (? & ? & ? & ? & ? & ? & ?). unfold ledger_ok. rewrite Hlen.
  split_and!; try done.
  { intros n p. rewrite Hmeta2. destruct l1. apply Hfiles1. }
  intros name. rewrite ideal_container_snoc. rewrite Hname in *.
  destruct (decide (of_file name te.2)) as [[_ Hs]|Hno].
  - apply (container_path_inj dir) in Hs. rewrite <-Hs at 1. rewrite Hall, Hc1, Hs. by rewrite Hc.
  - rewrite app_nil_r_string, <-Hc, <-Hc1. apply Hother. intros Heq%container_path_inj.
    apply Hno. by split.
Qed.

Lemma Log_step dir seed es te l :
  ledger_ok dir seed es l → (Z.of_nat (S (length es)) < 2^64)%Z →
  ledger_ok dir seed (es ++ [te]) (Log te.1 te.2 l) ∨ ledger_failed dir seed (es ++ [te]) (Log te.1 te.2 l).
Proof.
  intros Hok Hlen. rewrite (Log_stamped _ _ _ _ _ Hok Hlen).
  destruct Hok as (Hseq & Hseed & Hdir & Hglobal & Hfirst & Herrs & Hclosed & Hfiles & Hg & Hc).
  set (entry := stamped seed (S (length es)) te).
  set (l0 := l <| seq := _ |>).
  assert (open_meta dir seed (S (length es)) l0) as Hm0 by (by destruct l).
  assert (∀ p, contents l0 p = contents l p) as Hc0 by (by destruct l).
  assert (files l0 = files l) as Hf0 by (by destruct l).
  clearbody l0. unfold log_stamped. rewrite (proj1 (proj2 (proj2 (proj2 Hm0)))).
  destruct (writeAndSync _ _ l0) as [l1 err] eqn:Hw.
  apply writeAndSync_spec in Hw as (Hmeta & [k Hk] & Hall & Hother).
  apply (open_meta_same dir seed (S (length es))) in Hmeta as Hm1; [|done].
  rewrite Hc0, Hg in *. setoid_rewrite Hc0 in Hother.
  destruct err as [e|].
  { right. destruct Hm1 as (_ & _ & _ & _ & ? & ? & _). by eapply fail_at. }
  apply log_to_container_spec; [done| | |].
  - intros name path. rewrite Hmeta. destruct l0; cbn in Hf0 |- *. rewrite Hf0. apply Hfiles.
  - rewrite ideal_global_snoc. by apply Hall.
  - intros name. rewrite <-Hc. apply Hother, container_path_global.
Qed.

Lemma log_all_spec dir seed es :
  (Z.of_nat (length es) < 2^64)%Z →
  ledger_ok dir seed es (log_all es (newLedger dir seed))
  ∨ ledger_failed dir seed es (log_all es (newLedger dir seed)).
Proof.
  induction es as [|te es IH] using rev_ind; intros Hlen.
  - left. unfold ledger_ok. split_and!; try done.
    + unfold contents. cbn. by rewrite lookup_singleton_eq.
    + intros name. unfold contents. cbn. rewrite lookup_singleton_ne; [done|].
      symmetry. apply container_path_global.
  - rewrite length_app in Hlen. simpl in Hlen. unfold log_all. rewrite foldl_app. cbn [foldl].
    destruct IH as [Hok|Hf]; [lia| |].
    + apply Log_step; [done|lia].
    + right. fold (log_all es (newLedger dir seed)). rewrite (Log_failed _ _ _ _ _ _ Hf).
      by apply failed_snoc.
Qed.

Lemma close_files_meta paths l first :
  firstErr (foldl close_file (l, first) paths).1 = firstErr l
  ∧ closed (foldl close_file (l, first) paths).1 = closed l
  ∧ (first ≠ None → (foldl close_file (l, first) paths).2 = first).
Proof.
  revert l first. induction paths as [|p paths IH]; intros l first; [done|]. cbn [foldl].
  destruct (IH (tick l) (match first with Some _ => first | None => close_error (ticks l) p end))
    as (H1 & H2 & H3).
  cbn [close_file]. split_and!; [rewrite H1|rewrite H2|]; [by destruct l..|].
  intros Hf. destruct first as [e|]; [|done]. by apply H3.
Qed.

Lemma Close_open {RO : RangeOrder} l :
  closed l = false →
  firstErr (Close l).1 = (Close l).2 ∧ closed (Close l).1 = true ∧ errors_closed (Close l).1 = true
  ∧ (firstErr l ≠ None → (Close l).2 = firstErr l).
Proof.
  intros Hopen. unfold Close. rewrite Hopen.
  set (l0 := l <| closed := true |>).
  assert (firstErr l0 = firstErr l ∧ closed l0 = true) as [Hf0 Hc0] by (by destruct l).
  clearbody l0. set (paths := (range _ _).*2). clearbody paths. rewrite <-Hf0.
  destruct (close_files_meta paths l0 (firstErr l0)) as (H1 & H2 & H3).
  destruct (foldl close_file (l0, firstErr l0) paths) as [l1 first]. cbn [fst snd] in *.
  assert (∃ l2 first2, match global l1 with Some path => close_file (l1, first) path | None => (l1, first) end
      = (l2, first2) ∧ firstErr l2 = firstErr l0 ∧ closed l2 = true
      ∧ (firstErr l0 ≠ None → first2 = firstErr l0)) as (l2 & first2 & -> & Hf2 & Hc2 & H32).
  { destruct (global l1) as [p|]; do 2 eexists; (split; [reflexivity|]).
    - destruct l1. cbn in *. split_and!; [congruence|congruence|]. intros Hn.
      rewrite <-(H3 Hn). specialize (H3 Hn). by destruct first.
    - split_and!; [congruence|congruence|done]. }
  rewrite <-Hf2 in H32 |- *. clear -Hc2 H32. destruct l2; cbn in *.
  destruct firstErr0 as [e|]; [rewrite H32 by done; done|]. by destruct first2.
Qed.
End spec.

(** * Theorems *)

(** C16: whatever the file system does, the ledger never invents, drops or reorders
    an entry. Without a failure the global file holds every entry in call order,
    numbered 1, 2, 3, ..., and every container's file holds the lines of that
    container; at the first failure the error is sent once, the ledger falls silent
    and its global file is a beginning of the complete one. *)
Theorem ledger_records `{FileSystem} dir seed es :
  (Z.of_nat (length es) < 2^64)%Z →
  let l := log_all es (newLedger dir seed) in
  match firstErr l with
  | None =>
    errors l = [] ∧ seq l = Z.of_nat (length es)
    ∧ contents l (global_path dir) = ideal_global seed es
    ∧ ∀ name, contents l (container_path dir name) = ideal_container seed name es
  | Some e =>
    errors l = [e] ∧ ∃ rest, ideal_global seed es = contents l (global_path dir) +:+ rest
  end.
Proof.
  intros Hlen. cbv zeta. destruct (log_all_spec dir seed es Hlen) as [Hok|[(e & He & Hs) Hrest]].
  - destruct Hok as (? & _ & _ & _ & -> & ? & _ & _ & ? & ?). done.
  - by rewrite He.
Qed.

(** A file system that never fails, and one whose second sync does. *)
Definition fs_good : FileSystem := {|
  open_error := λ _ _, None; write_result := λ _ _ data, (String.length data, None);
  sync_error := λ _ _, None; close_error := λ _ _, None |}.
Definition fs_bad : FileSystem := {|
  open_error := λ _ _, None; write_result := λ _ _ data, (String.length data, None);
  sync_error := λ n _, if bool_decide (n = 4) then Some "disk full" else None;
  close_error := λ _ _, None |}.

Definition demo_entry (container event : string) : LedgerEntry :=
  mkEntry 0 EmptyString 0 0 container EmptyString "docker" event 0 AnyNil AnyNil EmptyString None None
    EmptyString.

Definition demo_entries : list (Time * LedgerEntry) :=
  [(0%Z, demo_entry "web" "a"); (0%Z, demo_entry EmptyString "b")].

Lemma ledger_records_witness :
  (Z.of_nat (length demo_entries) < 2^64)%Z
  ∧ seq (log_all (FS := fs_good) demo_entries (newLedger "run" 7)) = 2%Z
  ∧ errors (log_all (FS := fs_bad) demo_entries (newLedger "run" 7))
    = ["write container ledger for web entry 1: disk full"].
Proof.
  assert (firstErr (log_all (FS := fs_good) demo_entries (newLedger "run" 7)) = None) as Hg
    by (vm_compute; reflexivity).
  assert (firstErr (log_all (FS := fs_bad) demo_entries (newLedger "run" 7))
    = Some "write container ledger for web entry 1: disk full") as Hb by (vm_compute; reflexivity).
  pose proof (@ledger_records fs_good "run" 7 demo_entries ltac:(done)) as Hgood.
  pose proof (@ledger_records fs_bad "run" 7 demo_entries ltac:(done)) as Hbad.
  cbv zeta in Hgood, Hbad. rewrite Hg in Hgood. rewrite Hb in Hbad.
  split; [done|]. split; [exact (proj1 (proj2 Hgood))|exact (proj1 Hbad)].
Defined.

(** closing reports the first error, of a write or of a file that does not
    close, once and for all; afterwards nothing is logged. *)
Theorem closed_ledger_is_silent `{FileSystem} `{RangeOrder} l now entry :
  closed l = false →
  let '(l', first) := Close l in
  firstErr l' = first
  ∧ (firstErr l ≠ None → first = firstErr l)
  ∧ errors_closed l' = true
  ∧ Log now entry l' = l'
  ∧ Close l' = (l', first).
Proof.
  intros Hopen. destruct (Close_open l Hopen) as (H1 & H2 & H3 & H4).
  destruct (Close l) as [l' first]. cbn [fst snd] in *. split_and!; try done.
  - unfold Log. by rewrite H2.
  - unfold Close. by rewrite H2, H1.
Qed.

Lemma closed_ledger_is_silent_witness :
  firstErr (Close (FS := fs_good) (RO := range_forward) (newLedger "run" 7)).1 = None.
Proof.
  pose proof (@closed_ledger_is_silent fs_good range_forward (newLedger "run" 7) 0%Z
    (demo_entry "web" "a") eq_refl) as Hclosed.
  destruct (Close (newLedger "run" 7)) as [l first] eqn:Heq.
  vm_compute in Heq. injection Heq as <- <-. exact (proj1 Hclosed).
Defined.
