(* ===== verification/Net.v ===== *)
(** The part of package [net] the program uses on texts: [ParseIP], [ParseCIDR],
    [IP.String], [IP.IsLoopback], [JoinHostPort] and [SplitHostPort].

    An address is its sixteen bytes; an IPv4 address is stored as an IPv4-mapped
    one, as [net.IP] does. *)
From Stdlib Require Import Ascii.
From S2P Require Import Prelude GoStrings Json.

Definition IP : Type := list Z.

Definition v4_prefix : list Z := [0; 0; 0; 0; 0; 0; 0; 0; 0; 0; 255; 255]%Z.
Definition IPv4 (a b c d : Z) : IP := v4_prefix ++ [a; b; c; d].

(** [ip.To4()] *)
Definition To4 (ip : IP) : option (list Z) :=
  if bool_decide (take 12 ip = v4_prefix) then Some (drop 12 ip) else None.

(** * Parsing: [netip.ParseAddr] without zones *)

(** One field of a dotted quad: digits, no leading zero, at most 255. *)
Fixpoint octet_digits (s : string) (val : Z) (first : bool) : option Z :=
  match s with
  | EmptyString => if first then None else Some val
  | String c s =>
    if negb (is_digit c) then None
    else if negb first && bool_decide (val = 0)%Z then None
    else
      let val := (val * 10 + (byte_of c - 48))%Z in
      if bool_decide (255 < val)%Z then None else octet_digits s val false
  end.

Definition parseIPv4Fields (s : string) : option (list Z) :=
  match Split s "." with
  | [a; b; c; d] => mapM (λ field, octet_digits field 0 true) [a; b; c; d]
  | _ => None
  end.

(** The hex digits at the head of a text: the value, how many, what follows. *)
Fixpoint hex_field (s : string) (acc : Z) (off : nat) : option (Z * nat * string) :=
  match s with
  | EmptyString => Some (acc, off, s)
  | String c t =>
    match hex_value c with
    | None => Some (acc, off, s)
    | Some d => if bool_decide (3 < off) then None else hex_field t (acc * 16 + d)%Z (S off)
    end
  end.

(** The loop of [parseIPv6]: [fields] are the bytes so far, [ellipsis] the index of
    the [::], [fuel] the number of groups that still fit. *)
Fixpoint ipv6_loop (fuel : nat) (s : string) (fields : list Z) (ellipsis : option nat) :
    option (list Z * option nat) :=
  match fuel with
  | 0 => match s with EmptyString => Some (fields, ellipsis) | _ => None end
  | S fuel =>
    '(acc, off, rest) ← hex_field s 0 0;
    if bool_decide (off = 0) then None
    else match rest with
    | String "." _ =>
      if bool_decide (ellipsis = None ∧ length fields ≠ 12) then None
      else if bool_decide (16 < length fields + 4) then None
      else quad ← parseIPv4Fields s; Some (fields ++ quad, ellipsis)
    | _ =>
      let fields := fields ++ [(acc / 256)%Z; (acc `mod` 256)%Z] in
      match rest with
      | EmptyString => Some (fields, ellipsis)
      | String ":" EmptyString => None
      | String ":" (String ":" t) =>
        match ellipsis with
        | Some _ => None
        | None =>
          match t with
          | EmptyString => Some (fields, Some (length fields))
          | _ => ipv6_loop fuel t fields (Some (length fields))
          end
        end
      | String ":" t => ipv6_loop fuel t fields ellipsis
      | _ => None
      end
    end
  end.

Definition expand_ellipsis (fields : list Z) (ellipsis : option nat) : option IP :=
  let n := length fields in
  if bool_decide (n < 16) then
    match ellipsis with
    | None => None
    | Some e => Some (take e fields ++ replicate (16 - n) 0%Z ++ drop e fields)
    end
  else match ellipsis with None => Some fields | Some _ => None end.

Definition parseIPv6 (s : string) : option IP :=
  if ContainsByte s "%" then None
  else match s with
  | String ":" (String ":" EmptyString) => Some (replicate 16 0%Z)
  | String ":" (String ":" t) => '(fields, e) ← ipv6_loop 8 t [] (Some 0); expand_ellipsis fields e
  | _ => '(fields, e) ← ipv6_loop 8 s [] None; expand_ellipsis fields e
  end.

(** The first of [.], [:] and [%] decides the family. *)
Fixpoint ip_family (s : string) : option ascii :=
  match s with
  | EmptyString => None
  | String c t => if ContainsByte ".:%" c then Some c else ip_family t
  end.

Definition ParseIP (s : string) : option IP :=
  match ip_family s with
  | Some "."%char => quad ← parseIPv4Fields s; Some (v4_prefix ++ quad)
  | Some ":"%char => parseIPv6 s
  | _ => None
  end.

(** [dtoi]: the mask length must be the whole of the text. *)
Fixpoint dtoi (s : string) (n : Z) : option Z :=
  match s with
  | EmptyString => Some n
  | String c t =>
    if negb (is_digit c) then None
    else
      let n := (n * 10 + (byte_of c - 48))%Z in
      if bool_decide (16777215 ≤ n)%Z then None else dtoi t n
  end.

(** The address of [ParseCIDR]. *)
Definition ParseCIDR (s : string) : option IP :=
  '(addr, mask) ← Cut s "/";
  ip ← ParseIP addr;
  n ← (match mask with EmptyString => None | _ => dtoi mask 0 end);
  let bits := match ip_family addr with Some "."%char => 32%Z | _ => 128%Z end in
  if bool_decide (n ≤ bits)%Z then Some ip else None.

(** * Printing *)

Fixpoint hex_digits (fuel : nat) (z : Z) : string :=
  match fuel with
  | 0 => EmptyString
  | S fuel =>
    (if bool_decide (z < 16)%Z then EmptyString else hex_digits fuel (z / 16)) +:+
    String (hex_digit (Z.to_N (z `mod` 16))) EmptyString
  end.

Fixpoint pairs (l : list Z) : list Z :=
  match l with a :: b :: l => (a * 256 + b)%Z :: pairs l | _ => [] end.

(** The length of the run of zero groups at the head. *)
Fixpoint zero_run (l : list Z) : nat :=
  match l with x :: l => if bool_decide (x = 0)%Z then S (zero_run l) else 0 | [] => 0 end.

(** The first longest run of at least two zero groups: start and length. *)
Fixpoint longest_run (i : nat) (l : list Z) (best : nat * nat) : nat * nat :=
  match l with
  | [] => best
  | _ :: t =>
    let n := zero_run l in
    longest_run (S i) t (if bool_decide (best.2 < n ∧ 1 < n) then (i, n) else best)
  end.

Definition groups_string (l : list Z) : string := Join (hex_digits 4 <$> l) ":".

Definition string6 (ip : IP) : string :=
  let groups := pairs ip in
  let '(start, n) := longest_run 0 groups (0, 0) in
  if bool_decide (n = 0) then groups_string groups
  else groups_string (take start groups) +:+ "::" +:+ groups_string (drop (start + n) groups).

Definition IP_String (ip : IP) : string :=
  match To4 ip with
  | Some quad => Join (Itoa <$> quad) "."
  | None => string6 ip
  end.

Definition IsLoopback (ip : IP) : bool :=
  match To4 ip with
  | Some quad => bool_decide (head quad = Some 127%Z)
  | None => bool_decide (ip = replicate 15 0%Z ++ [1%Z])
  end.

(** * Host and port *)

Definition JoinHostPort (host port : string) : string :=
  if ContainsAny host ":%" then "[" +:+ host +:+ "]:" +:+ port else host +:+ ":" +:+ port.

(** [net.SplitHostPort]: host and port. *)
Definition SplitHostPort (hostport : string) : option (string * string) :=
  match LastIndexByte hostport ":" with
  | None => None
  | Some i =>
    let port := drop_string (S i) hostport in
    match hostport with
    | String "[" rest =>
      match IndexByte rest "]" with
      | None => None
      | Some e =>
        if bool_decide (e + 2 = i) && negb (ContainsByte rest "[") && negb (ContainsByte (drop_string (e + 1) rest) "]")
        then Some (take_string e rest, port) else None
      end
    | _ =>
      let host := take_string i hostport in
      if ContainsByte host ":" || ContainsByte hostport "[" || ContainsByte hostport "]" then None
      else Some (host, port)
    end
  end.

Example split_host_port :
  SplitHostPort <$> ["127.0.0.1:80"; "[::1]:8080"; "::1:80"; "[::1]"; "host"; ":0"; "[a]b:1"; "[a]]:1"]
  = [Some ("127.0.0.1", "80"); Some ("::1", "8080"); None; None; None; Some (EmptyString, "0"); None; None].
Proof. by vm_compute. Qed.

Example parse_ips :
  (λ s, IP_String <$> ParseIP s) <$>
    ["127.0.0.1"; "127.0.0.01"; "256.0.0.1"; "1.2.3"; "::1"; "::"; "fe80::1:0"; "::ffff:127.0.0.9";
     "2001:db8:0:0:1:0:0:1"; "1::2::3"; "::1%lo"; "1:2:3:4:5:6:7:8"; "1:2:3:4:5:6:7:8:9"; EmptyString]
  = [Some "127.0.0.1"; None; None; None; Some "::1"; Some "::"; Some "fe80::1:0"; Some "127.0.0.9";
     Some "2001:db8::1:0:0:1"; None; None; Some "1:2:3:4:5:6:7:8"; None; None].
Proof. by vm_compute. Qed.

(** * Dotted quads *)

Definition dotted (a b c d : Z) : string := Join (Itoa <$> [a; b; c; d]) ".".

Definition is_octet (z : Z) : Prop := (0 ≤ z ≤ 255)%Z.

Lemma octet_digits_Itoa z : is_octet z → octet_digits (Itoa z) 0 true = Some z.
Proof.
  intros Hz.
  assert (Forall (λ z, octet_digits (Itoa z) 0 true = Some z) (seqZ 0 256)) as Hall.
  { apply (bool_decide_unpack _). by vm_compute. }
  rewrite Forall_forall in Hall. apply Hall, elem_of_seqZ. unfold is_octet in Hz. lia.
Qed.

Lemma octet_free z c : is_octet z → is_digit c = false → free_of c (Itoa z) = true.
Proof. intros [? _] ?. apply digits_free_of; [done|]. by apply Itoa_digits. Qed.

Lemma dotted_unfold a b c d :
  dotted a b c d = Itoa a +:+ String "." (Itoa b +:+ String "." (Itoa c +:+ String "." (Itoa d))).
Proof. unfold dotted. simpl. by rewrite app_nil_r_string. Qed.

Section dotted.
Context (a b c d : Z) (Ha : is_octet a) (Hb : is_octet b) (Hc : is_octet c) (Hd : is_octet d).

Lemma Split_dotted : Split (dotted a b c d) "." = Itoa <$> [a; b; c; d].
Proof.
  rewrite dotted_unfold, !Split_cons by (by apply octet_free). by rewrite Split_free by (by apply octet_free).
Qed.

Lemma dotted_free x : is_digit x = false → x ≠ "."%char → free_of x (dotted a b c d) = true.
Proof.
  intros Hx Hdot. rewrite dotted_unfold.
  repeat (apply free_of_app; split; [by apply octet_free|]; apply free_of_cons; split; [done|]).
  by apply octet_free.
Qed.

Lemma parseIPv4Fields_dotted : parseIPv4Fields (dotted a b c d) = Some [a; b; c; d].
Proof.
  unfold parseIPv4Fields. rewrite Split_dotted. cbn -[octet_digits Itoa].
  by rewrite !octet_digits_Itoa by done.
Qed.

Lemma ip_family_digits s t :
  string_forallb is_digit s = true → ip_family (s +:+ String "." t) = Some "."%char.
Proof.
  induction s as [|x s IH]; [done|]. simpl. intros [Hx Hs]%andb_true_iff.
  rewrite IH by done.
  destruct (ContainsByte ".:%" x) eqn:Hin; [|done]. exfalso. revert Hx Hin.
  clear. destruct x as [[] [] [] [] [] [] [] []]; vm_compute; congruence.
Qed.

Lemma ip_family_dotted : ip_family (dotted a b c d) = Some "."%char.
Proof. rewrite dotted_unfold. apply ip_family_digits, Itoa_digits. by destruct Ha. Qed.

Lemma ParseIP_dotted : ParseIP (dotted a b c d) = Some (IPv4 a b c d).
Proof. unfold ParseIP. by rewrite ip_family_dotted, parseIPv4Fields_dotted. Qed.

Lemma IP_String_IPv4 : IP_String (IPv4 a b c d) = dotted a b c d.
Proof. done. Qed.

Lemma ParseCIDR_dotted : ParseCIDR (dotted a b c d +:+ "/24") = Some (IPv4 a b c d).
Proof.
  unfold ParseCIDR. rewrite Cut_byte by (by apply dotted_free). cbn -[dotted].
  rewrite ParseIP_dotted. cbn -[dotted]. by rewrite ip_family_dotted.
Qed.

Lemma dotted_inj a' b' c' d' : is_octet a' → is_octet b' → is_octet c' → is_octet d' →
  dotted a b c d = dotted a' b' c' d' → a = a' ∧ b = b' ∧ c = c' ∧ d = d'.
Proof.
  intros ????. rewrite !dotted_unfold.
  do 3 (intros [?%Itoa_inj Heq]%sep_inj; [revert Heq|by apply octet_free..]).
  intros ?%Itoa_inj. auto.
Qed.
End dotted.
