(* ===== verification/Diagnostic.v ===== *)
(** Configuration diagnostics: the pure part of [diagnostic.go], and
    [lastJSONPointerSegment] of [cookbook_load.go].

    A source text is a [string], an offset into it a [Z].  The scan of a document
    and the classification of decoding errors are in [DocumentScan]. *)
From Stdlib Require Import Ascii.
From S2P Require Import Prelude GoStrings.

Record DiagnosticError := mkDiagnostic {
  Code : string;
  File : string;
  JSONPath : string;
  dMessage : string;
  Hint : string;
  Line : Z;
  Column : Z;
  SourceLine : string
}.

(** * Text helpers of the standard library *)

(** [bytes.Count] of one byte. *)
Fixpoint CountByte (s : string) (c : ascii) : nat :=
  match s with
  | EmptyString => 0
  | String d s => (if bool_decide (d = c) then 1 else 0) + CountByte s c
  end.

(** [bytes.Index] *)
Definition StringIndex (s sub : string) : option nat := (λ ab, String.length ab.1) <$> Cut s sub.

(** [strings.Repeat] *)
Fixpoint Repeat (s : string) (n : nat) : string :=
  match n with 0 => EmptyString | S n => s +:+ Repeat s n end.

(** [strings.TrimRight(s, cut)] for a one-byte [cut]. *)
Fixpoint TrimRightByte (s : string) (c : ascii) : string :=
  match s with
  | EmptyString => EmptyString
  | String d s =>
    match TrimRightByte s c with
    | EmptyString => if bool_decide (d = c) then EmptyString else String d EmptyString
    | t => String d t
    end
  end.

(** [data[from:to]] *)
Definition slice (data : string) (from to : nat) : string := take_string (to - from) (drop_string from data).

(** * Coordinates *)

Definition newline : ascii := "010"%char.

Definition sourceCoordinates (data : string) (offset : Z) : Z * Z * string :=
  if bool_decide (data = EmptyString) then (1%Z, 1%Z, EmptyString)
  else
    let offset := if bool_decide (offset < 0)%Z then 0 else Z.to_nat offset in
    let offset := if bool_decide (String.length data ≤ offset) then String.length data - 1 else offset in
    let lineStart :=
      match LastIndexByte (take_string offset data) newline with Some i => S i | None => 0 end in
    let lineEnd :=
      match IndexByte (drop_string offset data) newline with
      | Some i => offset + i
      | None => String.length data
      end in
    (Z.of_nat (CountByte (take_string lineStart data) newline) + 1,
     Z.of_nat (length (runes (slice data lineStart offset))) + 1,
     TrimSuffix (slice data lineStart lineEnd) (String "013" EmptyString))%Z.

Definition newSourceDiagnostic (code file jsonPath message hint data : string) (offset : Z) : DiagnosticError :=
  let '(line, column, sourceLine) := sourceCoordinates data offset in
  mkDiagnostic code file jsonPath message hint line column sourceLine.

Definition Render (e : DiagnosticError) : string :=
  let code := if bool_decide (Code e = EmptyString) then "CONFIG_ERROR" else Code e in
  let out := code +:+ ": " +:+ dMessage e +:+ nl in
  let out := if bool_decide (File e ≠ EmptyString)
             then out +:+ "  file   : " +:+ File e +:+ nl else out in
  let out := if bool_decide (JSONPath e ≠ EmptyString)
             then out +:+ "  path   : " +:+ JSONPath e +:+ nl else out in
  let out :=
    if bool_decide (0 < Line e)%Z then
      let out := out +:+ "  line   : " +:+ Itoa (Line e) +:+ nl in
      let out := out +:+ "  column : " +:+ Itoa (Column e) +:+ nl in
      if bool_decide (SourceLine e ≠ EmptyString) then
        let width := String.length (Itoa (Line e)) in
        out +:+ nl +:+ "  " +:+ Itoa (Line e) +:+ " | " +:+ SourceLine e +:+ nl
            +:+ "  " +:+ Repeat " " width +:+ " | " +:+ Repeat " " (Z.to_nat (Column e - 1)) +:+ "^" +:+ nl
      else out
    else out in
  let out := if bool_decide (Hint e ≠ EmptyString)
             then out +:+ nl +:+ "  hint   : " +:+ Hint e +:+ nl else out in
  TrimRightByte out newline.

(** * JSON pointers *)

Definition escapeJSONPointer (value : string) : string :=
  ReplaceAll (ReplaceAll value "~" "~0") "/" "~1".

Definition lastJSONPointerSegment (path : string) : string :=
  if bool_decide (path = EmptyString) then EmptyString
  else
    let parts := Split (TrimPrefix path "/") "/" in
    let value := default EmptyString (last parts) in
    ReplaceAll (ReplaceAll value "~1" "/") "~0" "~".

(** * Searching the source *)

Definition is_json_space (c : ascii) : bool :=
  bool_decide (c = " " ∨ c = "009" ∨ c = "013" ∨ c = "010")%char.

Definition byte_is (data : string) (i : Z) (f : ascii → bool) : bool :=
  if bool_decide (i < 0)%Z then false
  else match String.get (Z.to_nat i) data with Some c => f c | None => false end.

(** [for i >= 0 && test(data[i]) { i-- }] *)
Fixpoint scan_back (fuel : nat) (data : string) (i : Z) (f : ascii → bool) : Z :=
  match fuel with
  | 0 => i
  | S fuel => if byte_is data i f then scan_back fuel data (i - 1) f else i
  end.

(** The loop that looks for the unescaped opening quote, from [i] down. *)
Fixpoint opening_quote (i : nat) (data : string) : nat :=
  let backslashes := (Z.of_nat i - 1 - scan_back i data (Z.of_nat i - 1) (λ c, bool_decide (c = "\")%char))%Z in
  if byte_is data (Z.of_nat i) (λ c, bool_decide (c = "034")%char) && Z.even backslashes then i
  else match i with 0 => 0 | S i => opening_quote i data end.

Definition jsonStringTokenStart (data : string) (endOffset : Z) : Z :=
  let i := Z.min (Z.of_nat (String.length data) - 1) (endOffset - 1) in
  let i := scan_back (String.length data) data i is_json_space in
  if bool_decide (i < 0)%Z || negb (byte_is data i (λ c, bool_decide (c = "034")%char)) then Z.max 0 i
  else if bool_decide (i = 0)%Z then 0%Z
  else Z.of_nat (opening_quote (Z.to_nat (i - 1)) data).

(** [for after < len(data) && isSpace(data[after]) { after++ }] *)
Fixpoint skip_json_space (s : string) : string :=
  match s with
  | String c t => if is_json_space c then skip_json_space t else s
  | EmptyString => EmptyString
  end.

(** A quoted key at the head of [s], as an object key: a colon follows. *)
Definition key_follows (s : string) (needle : string) : bool :=
  match skip_json_space (drop_string (String.length needle) s) with
  | String ":" _ => true
  | _ => false
  end.

Section search.
Context {RO : RangeOrder} {UN : Unicode}.

(** The first occurrence of the key from [start] on; the needle is not empty, so
    [String.length data] rounds are enough. *)
Fixpoint key_loop (fuel : nat) (data needle : string) (start : nat) : nat :=
  match fuel with
  | 0 => 0
  | S fuel =>
    if bool_decide (String.length data ≤ start) then 0
    else match StringIndex (drop_string start data) needle with
    | None => 0
    | Some index =>
      let index := index + start in
      if key_follows (drop_string index data) needle then index
      else key_loop fuel data needle (index + String.length needle)
    end
  end.

Definition findJSONKeyOffset (data key : string) : Z :=
  Z.of_nat (key_loop (String.length data) data (Quote key) 0).

(** The last occurrence that ends before [before]. *)
Fixpoint last_key_loop (fuel : nat) (data needle : string) (start before : nat) (best : option nat) :
    option nat :=
  match fuel with
  | 0 => best
  | S fuel =>
    if bool_decide (before ≤ start) then best
    else match StringIndex (slice data start before) needle with
    | None => best
    | Some index =>
      let index := index + start in
      last_key_loop fuel data needle (index + String.length needle) before
        (if key_follows (drop_string index data) needle then Some index else best)
    end
  end.

Definition findJSONKeyOffsetBefore (data key : string) (before : Z) : Z :=
  let before :=
    if bool_decide (before ≤ 0 ∨ Z.of_nat (String.length data) < before)%Z
    then String.length data else Z.to_nat before in
  match last_key_loop (String.length data) data (Quote key) 0 before None with
  | Some best => Z.of_nat best
  | None => findJSONKeyOffset data key
  end.

(** The path of the closest occurrence of a key; of two at the same distance the
    one that the map yields first. *)
Definition closer (escaped : string) (targetOffset : Z) (best : string * Z) (entry : string * Z) : string * Z :=
  let '(path, offset) := entry in
  if HasSuffix path escaped then
    let distance := Z.abs (offset - targetOffset) in
    if bool_decide (distance < best.2)%Z then (path, distance) else best
  else best.

Definition closestJSONPath (locations : gmap string Z) (field : string) (targetOffset : Z) : string :=
  (foldl (closer ("/" +:+ escapeJSONPointer field) targetOffset) (EmptyString, int64_max)
     (range "diagnostic.go:288" locations)).1.
End search.

Example coordinates_example :
  sourceCoordinates ("ab" +:+ crlf +:+ "c" +:+ nl +:+ "d") 4 = (2%Z, 1%Z, "c").
Proof. by vm_compute. Qed.

Example key_example :
  findJSONKeyOffset (UN := unicode_none) ("{" +:+ dquote +:+ "a" +:+ dquote +:+ " : 1}") "a" = 1%Z.
Proof. by vm_compute. Qed.
