(* ===== verification/CookbookValidate.v ===== *)
(** Validation of a whole cookbook, and of the set of cookbooks:
    [cookbook_validate.go] and [validateCookbookSet] of [cookbook_load.go].

    The checks run in the order of the source and stop at the first error; a check
    that can panic is an [outcome verr].  Reading and decoding the
    files is in [CookbookLoad]. *)
From Stdlib Require Import Ascii.
From S2P Require Import Prelude GoStrings Cookbook Resp CookbookValidation Container ContainerFacts ContainerConfig ContainerLife Net Diagnostic.

(** [if err := a; err != nil { return err }; b], where [a] can panic. *)
Definition check : Type := outcome verr.
Definition and_then (a b : check) : check := match a with Done None => b | _ => a end.
Notation "a ;;! b" := (and_then a b) (at level 100, right associativity) : go_scope.
(** A loop with an index. *)
Fixpoint each {A} (f : Z → A → check) (index : Z) (l : list A) : check :=
  match l with [] => Done None | x :: l => f index x;;! each f (index + 1)%Z l end.

Section validate.
Context {RO : RangeOrder} {UN : Unicode}.

Definition no (cond : bool) (path message : string) : check := Done (reject cond path message).

(** Lines 19-47. *)
Definition validateDefaults (kind : string) (d : ServiceDefaults) : check :=
  no (bool_decide (TrimSpace (sName d) = EmptyString)) "/defaults/name" "defaults.name is required";;!
  no (ContainsAny (sName d) ("/\" +:+ String "000" (crlf +:+ String "009" " "))) "/defaults/name"
    ("defaults.name " +:+ Quote (sName d) +:+ " contains a forbidden character");;!
  no (bool_decide (TrimSpace (sImage d) = EmptyString)) "/defaults/image" "defaults.image is required";;!
  let expectedServiceType := if bool_decide (kind = "nginx") then "http"
                             else if bool_decide (kind = "redis") then "redis" else EmptyString in
  no (bool_decide (ServiceType d ≠ expectedServiceType)) "/defaults/service_type"
    ("defaults.service_type for " +:+ kind +:+ " must be " +:+ Quote expectedServiceType);;!
  match ParseIP (IPAddress d) with
  | None => Done (fail "/defaults/ip_address"
      ("defaults.ip_address " +:+ Quote (IPAddress d) +:+ " is not a valid IP address"))
  | Some ip => no (negb (IsLoopback ip)) "/defaults/ip_address"
      ("defaults.ip_address " +:+ Quote (IPAddress d) +:+ " is not loopback; docker-zero refuses "
       +:+ "to expose fake services on a non-loopback container address")
  end;;!
  no (bool_decide (ContainerPort d < 1 ∨ 65535 < ContainerPort d)%Z) "/defaults/container_port"
    "defaults.container_port must be between 1 and 65535";;!
  no (bool_decide (TrimSpace (HostIP d) = EmptyString) || bool_decide (ParseIP (HostIP d) = None))
    "/defaults/host_ip" ("defaults.host_ip " +:+ Quote (HostIP d) +:+ " is not a valid IP address");;!
  no (bool_decide (HostPort d < 1 ∨ 65535 < HostPort d)%Z) "/defaults/host_port"
    "defaults.host_port must be between 1 and 65535".

(** Lines 52-63; [seen] are the keys so far. *)
Fixpoint validateImages (index : Z) (seen : list string) (images : list string) : check :=
  match images with
  | [] => Done None
  | image :: images =>
    let image := TrimSpace image in
    let key := ToLower image in
    no (bool_decide (image = EmptyString)) ("/image_names/" +:+ Itoa index)
      "image matcher cannot be empty";;!
    no (bool_decide (key ∈ seen)) ("/image_names/" +:+ Itoa index)
      ("duplicate image matcher " +:+ Quote image);;!
    validateImages (index + 1)%Z (key :: seen) images
  end.

Definition seed_names : list string := ["0"; "1"; "2"].

(** Lines 68-72. *)
Definition validateSeedName (seed : string) : check :=
  no (negb (bool_decide (seed ∈ seed_names))) ("/seeds/" +:+ escapeJSONPointer seed)
    ("unsupported seed " +:+ Quote seed +:+ "; this release supports exactly 0, 1, and 2").

(** Lines 65-77. *)
Definition validateSeedNames (seeds : gmap string Scenario) : check :=
  no (bool_decide (size seeds ≠ 3)) "/seeds" "seeds must contain exactly 0, 1, and 2";;!
  each (λ _ kv, validateSeedName kv.1) 0 (range "cookbook_validate.go:68" seeds);;!
  each (λ _ seed, no (bool_decide (seeds !! seed = None)) "/seeds" ("seed " +:+ seed +:+ " is required"))
    0 seed_names.

(** Lines 93-113: what a scenario of this kind must have and must not have. *)
Definition validateShape (kind basePath : string) (sc : Scenario) : check :=
  if bool_decide (kind = "nginx") then
    no (bool_decide (HTTP sc = ∅)) (basePath +:+ "/http") "nginx scenario must define HTTP responses";;!
    no (bool_decide (HTTP sc !! "GET /health" = None)) (basePath +:+ "/http")
      "nginx scenario must define GET /health";;!
    no (bool_decide (RedisReplies sc ≠ ∅)) (basePath +:+ "/redis")
      "nginx cookbook cannot contain Redis responses"
  else
    no (bool_decide (RedisReplies sc = ∅)) (basePath +:+ "/redis")
      "redis scenario must define Redis responses";;!
    no (bool_decide (RedisReplies sc !! "PING" = None)) (basePath +:+ "/redis")
      "redis scenario must define PING";;!
    no (bool_decide (HTTP sc ≠ ∅)) (basePath +:+ "/http") "redis cookbook cannot contain HTTP responses".

(** Lines 116-137. *)
Definition validateTransition (basePath : string) (sc : Scenario) (index : Z) (t : Transition) : check :=
  let path := basePath +:+ "/transitions/" +:+ Itoa index in
  no (bool_decide (TrimSpace (tEvent t) = EmptyString)) (path +:+ "/event") "transition event is required";;!
  no (bool_decide (tCount t < 0)%Z) (path +:+ "/count") "transition count cannot be negative";;!
  Done (validateStateValue (path +:+ "/when_status") "status" (tWhenStatus t) true);;!
  Done (validateStateValue (path +:+ "/when_health") "health" (tWhenHealth t) true);;!
  no (isZeroStatePatch (tSet t)) (path +:+ "/set") "transition set patch cannot be empty";;!
  Done (validateStatePatch (path +:+ "/set") (tSet t) true);;!
  Done (validateTransitionEvent (path +:+ "/event") (tEvent t) sc).

(** Lines 152-175: one configured response of a route. *)
Definition validateHeader (path header value : string) : check :=
  no (negb (validHTTPHeaderName header)) (path +:+ "/headers/" +:+ escapeJSONPointer header)
    ("invalid HTTP header name " +:+ Quote header);;!
  no (ContainsAny value crlf) (path +:+ "/headers/" +:+ escapeJSONPointer header)
    "HTTP header value contains a newline".

Definition validateHTTPResponse (routePath : string) (index : Z) (r : HTTPResponse) : check :=
  let path := routePath +:+ "/" +:+ Itoa index in
  Done (validateStateValue (path +:+ "/when_status") "status" (hWhenStatus r) true);;!
  Done (validateStateValue (path +:+ "/when_health") "health" (hWhenHealth r) true);;!
  no (bool_decide (hStatus r < 100 ∨ 599 < hStatus r)%Z) (path +:+ "/status")
    "HTTP status must be between 100 and 599";;!
  no (bool_decide (hDelayMS r < 0)%Z) (path +:+ "/delay_ms") "delay_ms cannot be negative";;!
  each (λ _ kv, validateHeader path kv.1 kv.2) 0 (range "cookbook_validate.go:165" (hHeaders r));;!
  Done (validateStatePatch (path +:+ "/set") (hStatePatch r) true).

(** Lines 141-176. *)
Definition validateRoute (basePath route : string) (responses : list HTTPResponse) : check :=
  let routePath := basePath +:+ "/http/" +:+ escapeJSONPointer route in
  Done (validateHTTPRoute routePath route);;!
  no (bool_decide (responses = [])) routePath ("route " +:+ Quote route +:+ " has no responses");;!
  validateResponseOrderHTTP routePath responses;;!
  each (validateHTTPResponse routePath) 0 responses.

(** Lines 194-214: one configured response of a command. *)
Definition validateRedisResponse (commandPath : string) (index : Z) (r : RedisResponse) : check :=
  let path := commandPath +:+ "/" +:+ Itoa index in
  Done (validateStateValue (path +:+ "/when_status") "status" (rWhenStatus r) true);;!
  Done (validateStateValue (path +:+ "/when_health") "health" (rWhenHealth r) true);;!
  no (bool_decide (rDelayMS r < 0)%Z) (path +:+ "/delay_ms") "delay_ms cannot be negative";;!
  no (bool_decide (rReply r = EmptyString) && negb (rClose r)) (path +:+ "/reply")
    "Redis response requires reply or close=true";;!
  (if bool_decide (rReply r ≠ EmptyString) then
     match validateRESPReply (rReply r) with
     | Some err => Done (fail (path +:+ "/reply") ("invalid RESP2 reply: " +:+ err))
     | None => Done None
     end
   else Done None);;!
  Done (validateStatePatch (path +:+ "/set") (rStatePatch r) true).

(** Lines 180-215. *)
Definition validateCommand (basePath command : string) (responses : list RedisResponse) : check :=
  let commandPath := basePath +:+ "/redis/" +:+ escapeJSONPointer command in
  no (bool_decide (command ≠ "*") && bool_decide (command ≠ ToUpper command)) commandPath
    "Redis command keys must be uppercase";;!
  no (bool_decide (command ≠ "*") && negb (validRedisCommandName command)) commandPath
    ("invalid Redis command name " +:+ Quote command);;!
  no (bool_decide (responses = [])) commandPath ("command " +:+ Quote command +:+ " has no responses");;!
  validateResponseOrderRedis commandPath responses;;!
  each (validateRedisResponse commandPath) 0 responses.

(** Lines 80-216, for one seed. *)
Definition validateScenario (kind seed : string) (sc : Scenario) : check :=
  let basePath := "/seeds/" +:+ seed in
  no (bool_decide (TrimSpace (Description sc) = EmptyString)) (basePath +:+ "/description")
    "scenario description is required";;!
  Done (validateStatePatch (basePath +:+ "/initial") (Initial sc) false);;!
  (if bool_decide (seed = "0")
   then Done (validateHealthyBaseline (basePath +:+ "/initial") (Initial sc)) else Done None);;!
  validateShape kind basePath sc;;!
  each (validateTransition basePath sc) 0 (Transitions sc);;!
  each (λ _ kv, validateRoute basePath kv.1 kv.2) 0 (range "cookbook_validate.go:140" (HTTP sc));;!
  each (λ _ kv, validateCommand basePath kv.1 kv.2) 0 (range "cookbook_validate.go:179" (RedisReplies sc)).

(** [(c *Cookbook) validate()]: the kind is stored in its normal form. *)
Definition validate (c : Cookbook) : Cookbook * check :=
  let kind := ToLower (TrimSpace (cbKind c)) in
  if bool_decide (kind = EmptyString) then (c, Done (fail "/kind" "kind is required"))
  else if bool_decide (kind ≠ "nginx" ∧ kind ≠ "redis")
  then (c, Done (fail "/kind" ("kind must be nginx or redis, got " +:+ Quote (cbKind c))))
  else
    let c := c <| cbKind := kind |> in
    (c,
     validateDefaults kind (Defaults c);;!
     no (bool_decide (ImageNames c = [])) "/image_names"
       "image_names must contain at least one image matcher";;!
     validateImages 0 [] (ImageNames c);;!
     validateSeedNames (Seeds c);;!
     each (λ _ seed, validateScenario kind seed (default zero_Scenario (Seeds c !! seed))) 0 seed_names).

(** * The set of cookbooks: [validateCookbookSet] *)

Definition commonCookbookRoot (Dir : string → string) (origins : gmap string string) : string :=
  match range "cookbook_load.go:185" origins with
  | (_, origin) :: _ => Dir origin
  | [] => EmptyString
  end.

(** The maps [names], [endpoints] and [images] of the loop. *)
Record set_state := mkSetState {
  ssNames : gmap string string; ssEndpoints : gmap string string; ssImages : gmap string string
}.

Fixpoint claim_images (origin kind : string) (l : list string) (images : gmap string string) :
    gmap string string + DiagnosticError :=
  match l with
  | [] => inl images
  | image :: l =>
    let key := ToLower (TrimSpace image) in
    if bool_decide (key = EmptyString) then claim_images origin kind l images
    else match images !! key with
    | Some previous =>
      if bool_decide (previous ≠ kind) then
        inr (mkDiagnostic "CONFIG_AMBIGUOUS_IMAGE" origin "/image_names"
          ("image matcher " +:+ Quote image +:+ " is also owned by " +:+ previous)
          "image names must map to only one cookbook" 0 0 EmptyString)
      else claim_images origin kind l (<[key := kind]> images)
    | None => claim_images origin kind l (<[key := kind]> images)
    end
  end.

Fixpoint set_loop (origins : gmap string string) (l : list (string * Cookbook)) (st : set_state) :
    option DiagnosticError :=
  match l with
  | [] => None
  | (kind, cb) :: l =>
    let origin := default EmptyString (origins !! kind) in
    let d := Defaults cb in
    let nameKey := ToLower (sName d) in
    match ssNames st !! nameKey with
    | Some previous => Some (mkDiagnostic "CONFIG_DUPLICATE_CONTAINER_NAME" origin "/defaults/name"
        ("default container name " +:+ Quote (sName d) +:+ " is already used by " +:+ previous)
        "use a unique defaults.name per cookbook" 0 0 EmptyString)
    | None =>
      let endpoint := JoinHostPort (IPAddress d) (Itoa (ContainerPort d)) in
      match ssEndpoints st !! endpoint with
      | Some previous => Some (mkDiagnostic "CONFIG_DUPLICATE_ENDPOINT" origin "/defaults/ip_address"
          ("container endpoint " +:+ endpoint +:+ " is already used by " +:+ previous)
          "assign a unique loopback IP and port to each cookbook" 0 0 EmptyString)
      | None =>
        match claim_images origin kind (sImage d :: ImageNames cb) (ssImages st) with
        | inr e => Some e
        | inl images =>
          set_loop origins l (mkSetState (<[nameKey := kind]> (ssNames st))
            (<[endpoint := kind]> (ssEndpoints st)) images)
        end
      end
    end
  end.

(** [Dir] is [filepath.Dir], used for the text of one message only. *)
Definition validateCookbookSet (Dir : string → string) (cookbooks : gmap string Cookbook)
    (origins : gmap string string) : option DiagnosticError :=
  match filter (λ required, cookbooks !! required = None) ["nginx"; "redis"] with
  | required :: _ => Some (mkDiagnostic "CONFIG_MISSING_COOKBOOK" (commonCookbookRoot Dir origins)
      EmptyString ("required " +:+ required +:+ " cookbook is missing")
      ("add " +:+ required +:+ ".json or omit --cookbook-dir to use the embedded cookbooks") 0 0 EmptyString)
  | [] =>
    match filter (λ kv, kv.1 ≠ "nginx" ∧ kv.1 ≠ "redis") (range "cookbook_load.go:149" cookbooks) with
    | (kind, _) :: _ => Some (mkDiagnostic "CONFIG_UNSUPPORTED_COOKBOOK"
        (default EmptyString (origins !! kind)) "/kind"
        ("cookbook kind " +:+ Quote kind +:+ " is not supported by docker-zero 0.3")
        "this release supports exactly nginx and redis" 0 0 EmptyString)
    | [] => set_loop origins (range "cookbook_load.go:158" cookbooks) (mkSetState ∅ ∅ ∅)
    end
  end.
End validate.

(** * Acceptance

What the checks accept, without their order and without paths and messages. *)

Definition accepts (c : check) : Prop := c = Done None.
Definition is_check (c : check) : Prop := is_Done c = true.

Lemma accepts_and_then a b : accepts (a ;;! b) ↔ accepts a ∧ accepts b.
Proof. unfold accepts. destruct a as [[]| |]; simpl; naive_solver. Qed.

Lemma accepts_Done v : accepts (Done v) ↔ v = None.
Proof. unfold accepts. naive_solver. Qed.

Lemma is_check_and_then a b : is_check a → is_check b → is_check (a ;;! b).
Proof. unfold is_check. by destruct a as [[]| |]. Qed.

Lemma accepts_each {A} (f : Z → A → check) l i :
  accepts (each f i l) ↔ ∀ k x, l !! k = Some x → accepts (f (i + Z.of_nat k)%Z x).
Proof.
  revert i. induction l as [|x l IH]; intros i; simpl.
  - split; [done|]. intros _. done.
  - rewrite accepts_and_then, IH. split.
    + intros [Hx Hl] [|k] y; [intros [= <-]; by rewrite Z.add_0_r|]. intros Hy.
      replace (i + Z.of_nat (S k))%Z with (i + 1 + Z.of_nat k)%Z by lia. by apply Hl.
    + intros H. split; [specialize (H 0 x eq_refl); by rewrite Z.add_0_r in H|].
      intros k y Hy. replace (i + 1 + Z.of_nat k)%Z with (i + Z.of_nat (S k))%Z by lia. by apply H.
Qed.

Lemma is_check_each {A} (f : Z → A → check) l i :
  (∀ j x, x ∈ l → is_check (f j x)) → is_check (each f i l).
Proof.
  revert i. induction l as [|x l IH]; intros i H; simpl; [done|].
  apply is_check_and_then; [apply H; set_solver|apply IH; set_solver].
Qed.

(** A loop over a map accepts when every entry is accepted. *)
Lemma accepts_range {RO : RangeOrder} {V} site (m : gmap string V) (f : string → V → check) i :
  accepts (each (λ _ kv, f kv.1 kv.2) i (range site m)) ↔ ∀ k x, m !! k = Some x → accepts (f k x).
Proof.
  rewrite accepts_each. split.
  - intros H k x Hx. apply (elem_of_range site) in Hx. apply list_elem_of_lookup in Hx as [j Hj].
    exact (H j _ Hj).
  - intros H j [k x] Hj%list_elem_of_lookup_2. apply elem_of_range in Hj. by apply H.
Qed.

Lemma accepts_range_keys {RO : RangeOrder} {V} site (m : gmap string V) (f : string → check) i :
  accepts (each (λ _ kv, f kv.1) i (range site m)) ↔ ∀ k x, m !! k = Some x → accepts (f k).
Proof. apply (accepts_range site m (λ k _, f k)). Qed.

#[export] Hint Rewrite accepts_and_then accepts_Done @reject_None : dzero.

(** * No check panics *)

Section no_panic.
Context {RO : RangeOrder} {UN : Unicode}.

Lemma is_check_no c path msg : is_check (no c path msg).
Proof. done. Qed.

Lemma is_check_Done v : is_check (Done v).
Proof. done. Qed.

(** [items[0]] is reached only behind a test that there is one. *)
Lemma is_check_order {R} (From_ : R → Z) path msg path' items rest :
  is_check rest →
  is_check (no (bool_decide (items = [])) path msg;;! validateResponseOrder From_ path' items;;! rest).
Proof.
  intros Hrest. destruct items as [|first items]; [done|].
  apply is_check_and_then; [done|]. apply is_check_and_then; [|done].
  unfold validateResponseOrder. by destruct (order_loop _ _ _ _ _).
Qed.

Ltac check_parts := repeat lazymatch goal with
  | |- is_check (no _ _ _;;! validateResponseOrder _ _ _;;! _) => apply is_check_order
  | |- is_check (_;;! _) => apply is_check_and_then
  | |- is_check (no _ _ _) => apply is_check_no
  | |- is_check (Done _) => apply is_check_Done
  | |- is_check (each _ _ _) => apply is_check_each; intros ? ? _
  end.

Lemma is_check_images i seen images : is_check (validateImages i seen images).
Proof. revert i seen. induction images as [|x l IH]; intros i seen; cbn [validateImages]; [done|].
  check_parts. apply IH. Qed.

Lemma is_check_defaults kind d : is_check (validateDefaults kind d).
Proof. unfold validateDefaults. check_parts. destruct (ParseIP _); done. Qed.

Lemma is_check_scenario kind seed sc : is_check (validateScenario kind seed sc).
Proof.
  unfold validateScenario. check_parts.
  - by case_bool_decide.
  - unfold validateShape. case_bool_decide; check_parts.
  - unfold validateTransition. check_parts.
  - unfold validateRoute, validateResponseOrderHTTP. check_parts.
    unfold validateHTTPResponse, validateHeader. check_parts.
  - unfold validateCommand, validateResponseOrderRedis. check_parts.
    unfold validateRedisResponse. check_parts.
    case_bool_decide; [destruct (validateRESPReply _)|]; done.
Qed.

Lemma is_check_validate c : is_check (validate c).2.
Proof.
  unfold validate. case_bool_decide; [done|]. case_bool_decide; [done|]. cbn [snd].
  unfold validateSeedNames, validateSeedName. check_parts; auto using is_check_images, is_check_defaults, is_check_scenario.
Qed.
End no_panic.

(** * Acceptance does not depend on the order of the maps *)

Section any_order.
Context {UN : Unicode} (RO1 RO2 : RangeOrder).

Lemma validateHTTPResponse_any path i r :
  accepts (validateHTTPResponse (RO := RO1) path i r) ↔ accepts (validateHTTPResponse (RO := RO2) path i r).
Proof. unfold validateHTTPResponse. by rewrite !accepts_and_then, !accepts_range. Qed.

Lemma validateRoute_any base route rs :
  accepts (validateRoute (RO := RO1) base route rs) ↔ accepts (validateRoute (RO := RO2) base route rs).
Proof.
  unfold validateRoute. rewrite !accepts_and_then, !accepts_each.
  by setoid_rewrite validateHTTPResponse_any.
Qed.

Lemma validateScenario_any kind seed sc :
  accepts (validateScenario (RO := RO1) kind seed sc) ↔ accepts (validateScenario (RO := RO2) kind seed sc).
Proof.
  unfold validateScenario. rewrite !accepts_and_then, !accepts_range.
  by setoid_rewrite validateRoute_any.
Qed.

Lemma validate_any c : accepts (validate (RO := RO1) c).2 ↔ accepts (validate (RO := RO2) c).2.
Proof.
  unfold validate. case_bool_decide; [done|]. case_bool_decide; [done|]. cbn [snd].
  unfold validateSeedNames. rewrite !accepts_and_then, !accepts_range_keys.
  rewrite (accepts_each (λ _ seed, validateScenario (RO := RO1) _ seed _)).
  rewrite (accepts_each (λ _ seed, validateScenario (RO := RO2) _ seed _)).
  by setoid_rewrite validateScenario_any.
Qed.
End any_order.

(** * What acceptance says of the cookbook *)

Section responses_spec.
Context {UN : Unicode}.

(** A configured HTTP response the service can send as it is. *)
Definition http_response_ok (r : HTTPResponse) : Prop :=
  patch_ok (hStatePatch r) ∧ (100 ≤ hStatus r ≤ 599)%Z ∧ (0 ≤ hDelayMS r)%Z
  ∧ ∀ header value, hHeaders r !! header = Some value →
      validHTTPHeaderName header = true ∧ ContainsAny value crlf = false.

(** A configured Redis response: well-formed frames, or a closed connection. *)
Definition redis_response_ok (r : RedisResponse) : Prop :=
  patch_ok (rStatePatch r) ∧ (0 ≤ rDelayMS r)%Z
  ∧ if bool_decide (rReply r = EmptyString) then rClose r = true
    else validateRESPReply (rReply r) = None.

(** The responses of a route or a command, in the order of their [from]. *)
Definition sequence_ok {R} (From_ : R → Z) (ok : R → Prop) (rs : list R) : Prop :=
  Forall ok rs ∧ ∃ first rest, rs = first :: rest ∧ From_ first = 1%Z ∧ StronglySorted Z.le (From_ <$> rs).

Definition responses_ok (sc : Scenario) : Prop :=
  (∀ route rs, HTTP sc !! route = Some rs → sequence_ok hFrom http_response_ok rs)
  ∧ ∀ command rs, RedisReplies sc !! command = Some rs → sequence_ok rFrom redis_response_ok rs.

End responses_spec.

Section accepted.
Context {RO : RangeOrder} {UN : Unicode}.

Lemma accepted_patch path p b : validateStatePatch path p b = None → patch_ok p.
Proof. rewrite validateStatePatch_checks. intros (_ & Hst & _). exact Hst. Qed.

Lemma accepted_each {A} (f : Z → A → check) (P : A → Prop) l i :
  accepts (each f i l) → (∀ j x, accepts (f j x) → P x) → Forall P l.
Proof.
  rewrite accepts_each. intros H HP. apply Forall_lookup. intros k x Hx. eapply HP, H, Hx.
Qed.

Lemma accepted_http_response path i r : accepts (validateHTTPResponse path i r) → http_response_ok r.
Proof.
  unfold validateHTTPResponse, no. rewrite !accepts_and_then, accepts_range. autorewrite with dzero.
  intros (_ & _ & Hs & Hd & Hh & Hp). apply bool_decide_eq_false in Hs, Hd.
  split; [by eapply accepted_patch|]. split; [lia|]. split; [lia|].
  intros header value Hv. specialize (Hh header value Hv). unfold validateHeader, no in Hh. autorewrite with dzero in Hh.
  by rewrite negb_false_iff in Hh.
Qed.

Lemma accepted_redis_response path i r : accepts (validateRedisResponse path i r) → redis_response_ok r.
Proof.
  unfold validateRedisResponse, no. autorewrite with dzero.
  intros (_ & _ & Hd & Hclose & Hreply & Hp). apply bool_decide_eq_false in Hd.
  split; [by eapply accepted_patch|]. split; [lia|].
  destruct (decide (rReply r = EmptyString)) as [Heq|Hne].
  - rewrite bool_decide_true in Hclose |- * by done. by destruct (rClose r).
  - rewrite bool_decide_false by done. rewrite bool_decide_true in Hreply by done.
    by destruct (validateRESPReply (rReply r)).
Qed.

Lemma accepted_scenario kind seed sc :
  accepts (validateScenario kind seed sc) → scenario_ok sc ∧ responses_ok sc.
Proof.
  unfold validateScenario. rewrite !accepts_and_then, !accepts_range.
  intros (_ & Hinit & _ & _ & Htrans & Hroutes & Hcommands). rewrite accepts_Done in Hinit.
  split; [split; [by eapply accepted_patch|]|split].
  - eapply accepted_each; [exact Htrans|]. intros j t. unfold validateTransition, no.
    autorewrite with dzero. intros (_ & _ & _ & _ & _ & Hp & _). by eapply accepted_patch.
  - intros route rs Hrs. specialize (Hroutes route rs Hrs). unfold validateRoute in Hroutes.
    rewrite !accepts_and_then in Hroutes. destruct Hroutes as (_ & _ & Ho & Hr). split.
    + eapply accepted_each; [exact Hr|]. intros j r. apply accepted_http_response.
    + by eapply order_accepted.
  - intros command rs Hrs. specialize (Hcommands command rs Hrs). unfold validateCommand in Hcommands.
    rewrite !accepts_and_then in Hcommands. destruct Hcommands as (_ & _ & _ & Ho & Hr). split.
    + eapply accepted_each; [exact Hr|]. intros j r. apply accepted_redis_response.
    + by eapply order_accepted.
Qed.

Lemma accepted_validate c :
  accepts (validate c).2 →
  cbKind (validate c).1 ∈ ["nginx"; "redis"] ∧ Seeds (validate c).1 = Seeds c
  ∧ ∀ seed sc, Seeds c !! seed = Some sc → seed ∈ seed_names ∧ scenario_ok sc ∧ responses_ok sc.
Proof.
  unfold validate. case_bool_decide; [done|]. case_bool_decide as Hk; [done|]. cbn [fst snd].
  unfold validateSeedNames. rewrite !accepts_and_then, accepts_range_keys.
  intros (_ & _ & _ & (_ & Hnames & _) & Hscen).
  split; [|split; [by destruct c|]].
  { destruct c. cbn. rewrite !elem_of_cons. destruct (decide (ToLower (TrimSpace cbKind) = "nginx")); [auto|].
    destruct (decide (ToLower (TrimSpace cbKind) = "redis")); [auto|]. exfalso. by apply Hk. }
  intros seed sc Hsc. assert (seed ∈ seed_names) as Hin.
  { assert (Seeds (c <| cbKind := ToLower (TrimSpace (cbKind c)) |>) !! seed = Some sc) as Hsc' by by destruct c.
    specialize (Hnames seed sc Hsc'). unfold validateSeedName, no in Hnames. autorewrite with dzero in Hnames.
    by rewrite negb_false_iff, bool_decide_eq_true in Hnames. }
  split; [done|]. apply list_elem_of_lookup in Hin as [k Hk'].
  rewrite accepts_each in Hscen. specialize (Hscen k seed Hk').
  assert (Seeds (c <| cbKind := ToLower (TrimSpace (cbKind c)) |>) !! seed = Some sc) as Hsc' by by destruct c.
  rewrite Hsc' in Hscen. by eapply accepted_scenario.
Qed.
End accepted.

(** * The set of cookbooks *)

Section cookbook_set.
Context {RO : RangeOrder} {UN : Unicode}.

Definition endpoint_key (cb : Cookbook) : string :=
  JoinHostPort (IPAddress (Defaults cb)) (Itoa (ContainerPort (Defaults cb))).

Definition keys_of (l : list string) : list string :=
  filter (λ key, key ≠ EmptyString) ((λ image, ToLower (TrimSpace image)) <$> l).

(** The matchers of a cookbook, as the set keeps them apart. *)
Definition image_keys (cb : Cookbook) : list string := keys_of (sImage (Defaults cb) :: ImageNames cb).

(** Two cookbooks that can be served side by side. *)
Definition set_disjoint (a b : Cookbook) : Prop :=
  ToLower (sName (Defaults a)) ≠ ToLower (sName (Defaults b)) ∧ endpoint_key a ≠ endpoint_key b
  ∧ ∀ key, key ∈ image_keys a → key ∉ image_keys b.

Lemma keys_of_cons image l :
  keys_of (image :: l)
  = if decide (ToLower (TrimSpace image) = EmptyString) then keys_of l
    else ToLower (TrimSpace image) :: keys_of l.
Proof.
  unfold keys_of. rewrite fmap_cons. destruct (decide _).
  - by rewrite filter_cons_False by (by intros ?).
  - by rewrite filter_cons_True.
Qed.

Lemma claim_images_spec origin kind l images :
  match claim_images origin kind l images with
  | inl images' =>
    (∀ key, key ∈ keys_of l → ∀ k, images !! key = Some k → k = kind)
    ∧ ∀ key, images' !! key = if decide (key ∈ keys_of l) then Some kind else images !! key
  | inr _ => ∃ key k, key ∈ keys_of l ∧ images !! key = Some k ∧ k ≠ kind
  end.
Proof.
  revert images. induction l as [|image l IH]; intros images; cbn [claim_images].
  { split; [set_solver|]. intros key. by rewrite decide_False by set_solver. }
  rewrite keys_of_cons. set (key := ToLower (TrimSpace image)).
  destruct (decide (key = EmptyString)) as [He|He].
  { rewrite bool_decide_true by done. apply IH. }
  rewrite bool_decide_false by done.
  assert (match images !! key with Some k => k = kind | None => True end →
    match claim_images origin kind l (<[key := kind]> images) with
    | inl images' =>
      (∀ key', key' ∈ key :: keys_of l → ∀ k, images !! key' = Some k → k = kind)
      ∧ ∀ key', images' !! key' = if decide (key' ∈ key :: keys_of l) then Some kind else images !! key'
    | inr _ => ∃ key' k, key' ∈ key :: keys_of l ∧ images !! key' = Some k ∧ k ≠ kind
    end) as Hclaim.
  { intros Hfree. specialize (IH (<[key := kind]> images)). destruct (claim_images _ _ _ _) as [images'|e].
    - destruct IH as [H1 H2]. split.
      + intros key' [->|Hin]%elem_of_cons k Hk; [by rewrite Hk in Hfree|].
        destruct (decide (key' = key)) as [->|]; [by rewrite Hk in Hfree|].
        apply (H1 key' Hin k). by rewrite lookup_insert_ne.
      + intros key'. rewrite H2. destruct (decide (key' = key)) as [->|Hne].
        * rewrite (decide_True (P := key ∈ key :: _)) by set_solver. rewrite lookup_insert_eq.
          by destruct (decide _).
        * rewrite lookup_insert_ne by done. destruct (decide (key' ∈ keys_of l)).
          -- by rewrite decide_True by set_solver.
          -- by rewrite decide_False by set_solver.
    - destruct IH as (key' & k & Hin & Hk & Hne). destruct (decide (key' = key)) as [->|].
      + rewrite lookup_insert_eq in Hk. congruence.
      + rewrite lookup_insert_ne in Hk by done. exists key', k. set_solver. }
  destruct (images !! key) as [k|] eqn:Hk; [|by apply Hclaim].
  case_bool_decide; [exists key, k; set_solver|by apply Hclaim].
Qed.

Lemma set_loop_two origins k1 a k2 b :
  k1 ≠ k2 → set_loop origins [(k1, a); (k2, b)] (mkSetState ∅ ∅ ∅) = None ↔ set_disjoint a b.
Proof.
  intros Hk. unfold set_disjoint, endpoint_key, image_keys. cbn [set_loop ssNames ssEndpoints ssImages].
  rewrite !lookup_empty.
  pose proof (claim_images_spec (default EmptyString (origins !! k1)) k1
    (sImage (Defaults a) :: ImageNames a) ∅) as Ha.
  destruct (claim_images _ k1 _ ∅) as [images|e]; last first.
  { destruct Ha as (key & k & _ & Hn & _). by rewrite lookup_empty in Hn. }
  destruct Ha as [_ Ha]. cbn [set_loop ssNames ssEndpoints ssImages].
  destruct (decide (ToLower (sName (Defaults a)) = ToLower (sName (Defaults b)))) as [->|Hname].
  { rewrite lookup_insert_eq. naive_solver. }
  rewrite lookup_insert_ne, lookup_empty by done.
  set (e1 := JoinHostPort (IPAddress (Defaults a)) _). set (e2 := JoinHostPort _ _).
  destruct (decide (e1 = e2)) as [->|Hend].
  { rewrite lookup_insert_eq. naive_solver. }
  rewrite lookup_insert_ne, lookup_empty by done.
  pose proof (claim_images_spec (default EmptyString (origins !! k2)) k2
    (sImage (Defaults b) :: ImageNames b) images) as Hb.
  destruct (claim_images _ k2 _ images) as [images'|e].
  - split; [intros _|done]. split; [done|]. split; [done|]. intros key Hin Hin'.
    destruct Hb as [Hb _]. apply Hk, (Hb key Hin'). by rewrite Ha, decide_True.
  - split; [done|]. intros (_ & _ & Hdis). destruct Hb as (key & k & Hin & Hkey & _).
    rewrite Ha in Hkey. destruct (decide (key ∈ _)) as [Hin'|]; [by destruct (Hdis key)|].
    by rewrite lookup_empty in Hkey.
Qed.

Lemma set_disjoint_sym a b : set_disjoint a b ↔ set_disjoint b a.
Proof. unfold set_disjoint. naive_solver. Qed.

(** A map whose keys are two given ones. *)
Lemma two_keys (m : gmap string Cookbook) n r :
  m !! "nginx" = Some n → m !! "redis" = Some r → (∀ k x, m !! k = Some x → k = "nginx" ∨ k = "redis") →
  m = {["nginx" := n; "redis" := r]}.
Proof.
  intros Hn Hr Hall. apply map_eq. intros k.
  destruct (decide (k = "nginx")) as [->|]; [by rewrite lookup_insert_eq|].
  destruct (decide (k = "redis")) as [->|].
  { by rewrite lookup_insert_ne, lookup_singleton_eq. }
  rewrite lookup_insert_ne, lookup_singleton_ne by done.
  destruct (m !! k) as [x|] eqn:Hk; [|done]. by destruct (Hall k x Hk).
Qed.

Lemma set_loop_range origins n r :
  let m : gmap string Cookbook := {["nginx" := n; "redis" := r]} in
  set_loop origins (range "cookbook_load.go:158" m) (mkSetState ∅ ∅ ∅) = None ↔ set_disjoint n r.
Proof.
  cbv zeta. set (l := range _ _).
  assert ([("nginx", n); ("redis", r)] ≡ₚ l) as Hl.
  { subst l. rewrite range_perm, map_to_list_insert by by apply lookup_singleton_ne.
    by rewrite map_to_list_singleton. }
  clearbody l. apply Permutation_length_2_inv in Hl as [->| ->].
  - by apply set_loop_two.
  - rewrite set_disjoint_sym. by apply set_loop_two.
Qed.
End cookbook_set.

(** * Theorems *)

(** A container of an accepted cookbook. *)
Lemma accepted_container `{RangeOrder} `{Unicode} c now id name image seed pids :
  accepts (validate c).2 → (0 ≤ pids < 2^61)%Z →
  let container := newContainer now id name image (validate c).1 seed in
  initial (mkCState container pids) ∧ responses_ok (cScenario container)
  ∧ Kind container ∈ ["nginx"; "redis"].
Proof.
  intros Hacc Hpids. destruct (accepted_validate c Hacc) as (Hkind & Hseeds & Hall).
  assert (∀ sc, default zero_Scenario (Seeds (validate c).1 !! Itoa seed) = sc →
            scenario_ok sc ∧ responses_ok sc) as Hsc.
  { rewrite Hseeds. destruct (Seeds c !! Itoa seed) as [sc'|] eqn:Hsc; cbn; intros sc <-.
    - by apply (Hall (Itoa seed)).
    - split; [split; [done|constructor]|]. split; intros k rs Hrs; exfalso;
      exact (lookup_empty_Some (M := gmap string) _ _ Hrs). }
  destruct (Hsc _ eq_refl) as [Hs Hr]. cbv zeta. split_and!; [|exact Hr|exact Hkind].
  exists now, id, name, image, (validate c).1, seed. split_and!; [done|exact Hs|..]; apply Hpids.
Qed.

(** An accepted cookbook is safe to serve. A container made from it for any
    seed satisfies the assumptions of the lifecycle theorems (so no operation on it
    panics or blocks), every state patch of its responses is applicable, its HTTP
    responses have sendable status lines and headers, its Redis replies are
    complete RESP frames, and every response sequence answers from the first
    request on. *)
Theorem accepted_cookbook_is_safe `{RangeOrder} `{Unicode} c now id name image seed pids :
  accepts (validate c).2 → (0 ≤ pids < 2^61)%Z →
  let container := newContainer now id name image (validate c).1 seed in
  initial (mkCState container pids) ∧ responses_ok (cScenario container)
  ∧ Kind container ∈ ["nginx"; "redis"].
Proof. apply accepted_container. Qed.

(** Validation always ends with a verdict - no check panics, not even the one
    that looks at the first response of a route - and whether it accepts does not
    depend on the order in which Go visits the cookbook's maps. *)
Theorem validate_total {UN : Unicode} (RO1 RO2 : RangeOrder) c :
  ∃ e1 e2, (validate (RO := RO1) c).2 = Done e1 ∧ (validate (RO := RO2) c).2 = Done e2
    ∧ (e1 = None ↔ e2 = None).
Proof.
  pose proof (is_check_validate (RO := RO1) c) as H1. pose proof (is_check_validate (RO := RO2) c) as H2.
  pose proof (validate_any RO1 RO2 c) as Hany. unfold accepts, is_check in *.
  destruct (validate (RO := RO1) c).2 as [e1| |]; [|done..].
  destruct (validate (RO := RO2) c).2 as [e2| |]; [|done..].
  exists e1, e2. split_and!; [done..|]. naive_solver.
Qed.

(** A small cookbook that is accepted. *)
Definition demo_patch : StatePatch :=
  mkStatePatch (Some "running") (Some true) (Some false) None (Some "healthy") (Some 0%Z) None (Some 0%Z) 0.
Definition demo_scenario : Scenario :=
  mkScenario "demo" demo_patch [mkTransition "http.GET /health" 3 "running" EmptyString true
      (zero_patch <| pHealth := Some "unhealthy" |>)]
    {["GET /health" := [mkHTTPResponse 1 EmptyString EmptyString 200 {["Content-Type" := "text/plain"]} "ok" 0 false zero_patch]]} ∅.
Definition demo_cookbook : Cookbook :=
  mkCookbook " NGINX" ["nginx"; "nginx:1.27"]
    (mkServiceDefaults "nginx-zero" "nginx" "http" "127.0.0.2" 80 "127.0.0.1" 8080)
    {["0" := demo_scenario; "1" := demo_scenario; "2" := demo_scenario]}.

Lemma accepted_cookbook_is_safe_witness :
  Kind (newContainer 1%Z "id" "web" "nginx"
    (validate (RO := range_forward) (UN := unicode_none) demo_cookbook).1 0) ∈ ["nginx"; "redis"].
Proof.
  apply (@accepted_cookbook_is_safe range_forward unicode_none demo_cookbook 1%Z "id" "web" "nginx" 0%Z 0%Z);
    [vm_compute; reflexivity|lia].
Defined.

(** The set check accepts exactly one nginx and one redis cookbook whose
    default names (up to case), endpoints and image matchers (up to case and outer
    white space) do not clash, in whatever order Go visits the cookbooks. *)
Lemma validateCookbookSet_spec `{RangeOrder} `{Unicode} Dir cookbooks origins :
  validateCookbookSet Dir cookbooks origins = None ↔
  ∃ n r, cookbooks = {["nginx" := n; "redis" := r]} ∧ set_disjoint n r.
Proof.
  unfold validateCookbookSet. cbn [filter list_filter].
  destruct (cookbooks !! "nginx") as [n|] eqn:Hn; last first.
  { rewrite decide_True by done. split; [done|]. intros (n & r & -> & _). by rewrite lookup_insert_eq in Hn. }
  rewrite decide_False by done.
  destruct (cookbooks !! "redis") as [r|] eqn:Hr; last first.
  { rewrite decide_True by done. split; [done|]. intros (n' & r & -> & _).
    by rewrite lookup_insert_ne, lookup_singleton_eq in Hr. }
  rewrite decide_False by done.
  destruct (filter _ (range "cookbook_load.go:149" cookbooks)) as [|[kind cb] l] eqn:Hf.
  - assert (cookbooks = {["nginx" := n; "redis" := r]}) as ->.
    { apply two_keys; [done..|]. intros k x Hk. apply (elem_of_range "cookbook_load.go:149") in Hk.
      destruct (decide (k = "nginx" ∨ k = "redis")) as [|Hno]; [done|].
      assert ((k, x) ∈ filter (λ kv : string * Cookbook, kv.1 ≠ "nginx" ∧ kv.1 ≠ "redis")
        (range "cookbook_load.go:149" cookbooks)) as Hin by (apply list_elem_of_filter; naive_solver).
      rewrite Hf in Hin. by apply elem_of_nil in Hin. }
    rewrite set_loop_range. split; [eauto|]. intros (n' & r' & Heq & Hdis).
    rewrite Heq in Hn, Hr. rewrite lookup_insert_eq in Hn.
    rewrite lookup_insert_ne, lookup_singleton_eq in Hr by done. by simplify_eq.
  - split; [done|]. intros (n' & r' & -> & _).
    assert ((kind, cb) ∈ (kind, cb) :: l) as Hin by by apply list_elem_of_here.
    rewrite <-Hf in Hin. apply list_elem_of_filter in Hin as [[??] Hin]. apply elem_of_range in Hin.
    by rewrite lookup_insert_ne, lookup_singleton_ne in Hin.
Qed.
