(* ===== verification/Url.v ===== *)
(** The parts of [net/url] that the handlers use: percent-decoding, and the lookup
    of a query parameter.

    [escape] is the client's side, for the round trips. *)
From Stdlib Require Import Ascii.
From S2P Require Import Prelude GoStrings Json.

(** [plus]: a plus sign is a space, as in a query. *)
Fixpoint unescape_url (plus : bool) (s : string) : option string :=
  match s with
  | EmptyString => Some EmptyString
  | String "%" t =>
    match t with
    | String a (String b u) =>
      a ← hex_value a; b ← hex_value b;
      String (byte_at (a * 16 + b)) <$> unescape_url plus u
    | _ => None
    end
  | String c t =>
    String (if plus && bool_decide (c = "+") then " " else c) <$> unescape_url plus t
  end%char.

(** The text is empty when there is an error, which the handlers ignore. *)
Definition PathUnescape (s : string) : string := default EmptyString (unescape_url false s).
Definition QueryUnescape (s : string) : option string := unescape_url true s.

(** One piece of a query; those that cannot be read are passed over. *)
Definition query_pair (piece : string) : option (string * string) :=
  if ContainsByte piece ";" then None
  else if bool_decide (piece = EmptyString) then None
  else
    let '(key, value) := default (piece, EmptyString) (Cut piece "=") in
    key ← QueryUnescape key; value ← QueryUnescape value; Some (key, value).

(** [r.URL.Query().Get(key)]: the first value, or empty. *)
Definition Query_Get (rawQuery key : string) : string :=
  match filter (λ kv, kv.1 = key) (omap query_pair (Split rawQuery "&")) with
  | (_, value) :: _ => value
  | [] => EmptyString
  end.

(** * The client's side *)

Definition url_plain (c : ascii) : bool := is_alnum c || bool_decide (c = "-" ∨ c = "_" ∨ c = "." ∨ c = "~")%char.
Definition escape_byte_url (c : ascii) : string :=
  if url_plain c then String c EmptyString
  else String "%" (String (hex_digit (N_of_ascii c / 16)) (String (hex_digit (N_of_ascii c `mod` 16)) EmptyString)).
Fixpoint escape_url (s : string) : string :=
  match s with
  | EmptyString => EmptyString
  | String c s => escape_byte_url c +:+ escape_url s
  end.

Definition print_query (l : list (string * string)) : string :=
  Join ((λ kv, escape_url kv.1 +:+ "=" +:+ escape_url kv.2) <$> l) "&".

Lemma unescape_escape_byte plus c t :
  unescape_url plus (escape_byte_url c +:+ t) = String c <$> unescape_url plus t.
Proof.
  destruct c as [[] [] [] [] [] [] [] []]; cbv -[unescape_url fmap option_fmap]; by destruct plus.
Qed.

Lemma unescape_escape plus s : unescape_url plus (escape_url s) = Some s.
Proof.
  induction s as [|c s IH]; [done|]. cbn [escape_url]. by rewrite unescape_escape_byte, IH.
Qed.

Lemma PathUnescape_escape s : PathUnescape (escape_url s) = s.
Proof. unfold PathUnescape. by rewrite unescape_escape. Qed.

(** An escaped text has no separator in it. *)
Lemma escape_plain s : string_forallb (λ c, url_plain c || bool_decide (c = "%")%char) (escape_url s) = true.
Proof.
  induction s as [|c s IH]; [done|]. cbn [escape_url]. rewrite string_forallb_app, IH, andb_true_r.
  by destruct c as [[] [] [] [] [] [] [] []].
Qed.

Lemma escape_free c s : url_plain c = false → c ≠ "%"%char → free_of c (escape_url s) = true.
Proof.
  intros Hc Hp. eapply string_forallb_impl, escape_plain. intros d Hd. apply bool_decide_eq_true.
  intros ->. rewrite Hc in Hd. by apply bool_decide_eq_true in Hd.
Qed.

Lemma ContainsByte_absent c s : free_of c s = true → ContainsByte s c = false.
Proof.
  intros Hs. apply bool_decide_eq_false. induction s as [|d s IH]; [by intros [? ?]|].
  apply free_of_cons in Hs as [Hd Hs]. cbn. rewrite bool_decide_false by done.
  specialize (IH Hs). destruct (IndexByte s c); [by destruct IH|by intros [? ?]].
Qed.

Lemma query_pair_print k v :
  query_pair (escape_url k +:+ "=" +:+ escape_url v) = Some (k, v).
Proof.
  unfold query_pair. rewrite ContainsByte_absent by by rewrite !free_of_app, !escape_free.
  rewrite bool_decide_false by by destruct (escape_url k).
  change ("=" +:+ escape_url v) with (String "=" (escape_url v)).
  rewrite Cut_byte by by apply escape_free. unfold QueryUnescape. cbn [from_option id]. by rewrite !unescape_escape.
Qed.

Lemma Split_query l : l ≠ [] →
  Split (print_query l) "&" = (λ kv, escape_url kv.1 +:+ "=" +:+ escape_url kv.2) <$> l.
Proof.
  unfold print_query. set (f := λ kv : string * string, escape_url kv.1 +:+ "=" +:+ escape_url kv.2).
  assert (∀ kv, free_of "&" (f kv) = true) as Hfree by (intros kv; unfold f; by rewrite !free_of_app, !escape_free).
  induction l as [|kv l IH]; [done|]. intros _. destruct l as [|kv2 l].
  - cbn [fmap list_fmap Join foldr]. rewrite app_nil_r_string. by apply Split_free.
  - transitivity (Split (f kv +:+ String "&" (Join (f <$> kv2 :: l) "&")) "&"); [done|].
    rewrite Split_cons by done. by rewrite IH.
Qed.

(** What a client puts into a query is what the handler finds in it. *)
Lemma Query_Get_print l key :
  Query_Get (print_query l) key = default EmptyString (snd <$> head (filter (λ kv, kv.1 = key) l)).
Proof.
  unfold Query_Get. destruct l as [|kv l]; [done|]. rewrite Split_query by done. set (l' := kv :: l).
  assert (omap query_pair ((λ kv, escape_url kv.1 +:+ "=" +:+ escape_url kv.2) <$> l') = l') as ->.
  { clear. induction l' as [|[k v] l' IH]; [done|]. csimpl. by rewrite query_pair_print, IH. }
  by destruct (filter _ l') as [|[? ?] ?].
Qed.
