(* ===== verification/TokenDecoder.v ===== *)
(** The tokens of [json.Decoder]: the part of [encoding/json] that [scanJSONDocument]
    drives.

    A decoder is the text it has not read, and where the grammar stands: a state and
    the states of the open brackets around it.  The error of a call that fails is not
    documented; the next file makes it a parameter. *)
From Stdlib Require Import Ascii.
From S2P Require Import Prelude GoStrings Json.

(** What the decoder may meet next. *)
Inductive token_state :=
| tokenTopValue
| tokenArrayStart | tokenArrayValue | tokenArrayComma
| tokenObjectStart | tokenObjectKey | tokenObjectColon | tokenObjectValue | tokenObjectComma.
#[export] Instance token_state_eq_dec : EqDecision token_state.
Proof. solve_decision. Defined.

Record Decoder := mkDecoder {
  unread : string;
  tokenState : token_state;
  tokenStack : list token_state
}.
#[export] Instance Decoder_eta : Eta Decoder := λ d, mkDecoder (unread d) (tokenState d) (tokenStack d).

(** [json.NewDecoder(bytes.NewReader(data))] *)
Definition NewDecoder (data : string) : Decoder := mkDecoder data tokenTopValue [].

(** A [json.Token]: a delimiter, a string (an object key among them) or another
    value without parts; [UseNumber] keeps a number as its text. *)
Inductive token :=
| Delim (c : ascii)
| Text (s : string)
| Scalar (v : json).

(** [fmt.Sprint] of a token. *)
Definition token_text (t : token) : string :=
  match t with
  | Delim c => String c EmptyString
  | Text s => s
  | Scalar JNull => "<nil>"
  | Scalar (JBool b) => if b then "true" else "false"
  | Scalar (JNumber text) => text
  | Scalar (JString s) => s
  | Scalar (JArray _ | JObject _ | JRaw _) => EmptyString
  end.

Definition tokenValueAllowed (st : token_state) : bool :=
  match st with
  | tokenTopValue | tokenArrayStart | tokenArrayValue | tokenObjectValue => true
  | _ => false
  end.

Definition tokenValueEnd (st : token_state) : token_state :=
  match st with
  | tokenArrayStart | tokenArrayValue => tokenArrayComma
  | tokenObjectValue => tokenObjectComma
  | st => st
  end.

Definition key_allowed (st : token_state) : bool :=
  match st with tokenObjectStart | tokenObjectKey => true | _ => false end.
Definition array_may_end (st : token_state) : bool :=
  match st with tokenArrayStart | tokenArrayComma => true | _ => false end.
Definition object_may_end (st : token_state) : bool :=
  match st with tokenObjectStart | tokenObjectComma => true | _ => false end.

(** A colon or a comma that may stand here is passed over; what follows is the
    token, since two of them never stand together. *)
Definition separator (d : Decoder) : Decoder :=
  match skip_space (unread d), tokenState d with
  | String c t, tokenObjectColon =>
    if bool_decide (c = ":")%char then mkDecoder t tokenObjectValue (tokenStack d) else d
  | String c t, tokenArrayComma =>
    if bool_decide (c = ",")%char then mkDecoder t tokenArrayValue (tokenStack d) else d
  | String c t, tokenObjectComma =>
    if bool_decide (c = ",")%char then mkDecoder t tokenObjectKey (tokenStack d) else d
  | _, _ => d
  end.

(** A bracket is opened; the outermost open one is closed, which ends a value. *)
Definition open_bracket (st : token_state) (rest : string) (d : Decoder) : option Decoder :=
  if tokenValueAllowed (tokenState d) then Some (mkDecoder rest st (tokenState d :: tokenStack d)) else None.
Definition close_bracket (allowed : bool) (rest : string) (d : Decoder) : option Decoder :=
  match tokenStack d with
  | st :: stack => if allowed then Some (mkDecoder rest (tokenValueEnd st) stack) else None
  | [] => None
  end.

(** The token at the head of the text; [None] is a syntax error or a text that ends
    too early. *)
Definition token_at (d : Decoder) : option (token * Decoder) :=
  let st := tokenState d in
  match skip_space (unread d) with
  | EmptyString => None
  | String c t =>
    if bool_decide (c = "[")%char then pair (Delim c) <$> open_bracket tokenArrayStart t d
    else if bool_decide (c = "]")%char then pair (Delim c) <$> close_bracket (array_may_end st) t d
    else if bool_decide (c = "{")%char then pair (Delim c) <$> open_bracket tokenObjectStart t d
    else if bool_decide (c = "}")%char then pair (Delim c) <$> close_bracket (object_may_end st) t d
    else if bool_decide (c = "034")%char then
      '(body, u) ← scan_string t;
      if key_allowed st then Some (Text (unquote body), mkDecoder u tokenObjectColon (tokenStack d))
      else if tokenValueAllowed st
      then Some (Text (unquote body), mkDecoder u (tokenValueEnd st) (tokenStack d)) else None
    else
      '(v, u) ← scalar (String c t);
      if tokenValueAllowed st then Some (Scalar v, mkDecoder u (tokenValueEnd st) (tokenStack d)) else None
  end.

(** [Token]: a token, the end of the text between two values, or an error. *)
Inductive token_result :=
| Read (t : token) (d : Decoder)
| EndOfText
| Broken.

Definition Token (d : Decoder) : token_result :=
  match skip_space (unread d), tokenStack d with
  | EmptyString, [] => EndOfText
  | _, _ =>
    match token_at (separator d) with
    | Some (t, d) => Read t d
    | None => Broken
    end
  end.

(** [More] looks at the next character and stays in front of it. *)
Definition More (d : Decoder) : bool * Decoder :=
  match skip_space (unread d) with
  | EmptyString => (false, d)
  | String c _ as s => (negb (bool_decide (c = "]" ∨ c = "}")%char), d <| unread := s |>)
  end.

(** [InputOffset] of a decoder of [data]. *)
Definition InputOffset (data : string) (d : Decoder) : Z :=
  Z.of_nat (String.length data - String.length (unread d)).

(** All tokens of a text, for the examples. *)
Fixpoint tokens (fuel : nat) (d : Decoder) : list token * bool :=
  match fuel with
  | 0 => ([], false)
  | S fuel =>
    match Token d with
    | Read t d => prod_map (cons t) id (tokens fuel d)
    | EndOfText => ([], true)
    | Broken => ([], false)
    end
  end.

Example tokens_example :
  tokens 20 (NewDecoder ("{ " +:+ dquote +:+ "a" +:+ dquote +:+ " : [1, {}],"
    +:+ dquote +:+ "b" +:+ dquote +:+ ": null} "))
  = ([Delim "{"; Text "a"; Delim "["; Scalar (JNumber "1"); Delim "{"; Delim "}"; Delim "]"; Text "b";
      Scalar JNull; Delim "}"]%char, true).
Proof. by vm_compute. Qed.

Example tokens_errors :
  (λ s, (length (tokens 20 (NewDecoder s)).1, (tokens 20 (NewDecoder s)).2))
    <$> ["[1,]"; "[1 2]"; "[,"; "{]"; "1 2"; "[01]"; "{1:2}"; "[1"]
  = [(2, false); (2, false); (1, false); (1, false); (2, true); (2, false); (1, false); (2, false)].
Proof. by vm_compute. Qed.
