(* ===== verification/DocumentScan.v ===== *)
(** The scan of a cookbook document and the diagnostics of decoding errors:
    [scanJSONDocument], [scanJSONValue] and [jsonDecodeDiagnostic] of [diagnostic.go].

    What package encoding/json says of a text it refuses - the error and the
    [InputOffset] after it - is given by the class [JsonErrors]; when it refuses a
    text, and what it reads of one it accepts, is modelled. *)
From Stdlib Require Import Ascii.
From S2P Require Import Prelude GoStrings Json Diagnostic TokenDecoder.

(** * Errors of the decoder *)

Inductive json_failure :=
| SyntaxError (text : string) (Offset : Z)
| UnmarshalTypeError (text Field : string) (Offset : Z)
| OtherError (text : string).

Definition Error (err : json_failure) : string :=
  match err with SyntaxError text _ | UnmarshalTypeError text _ _ | OtherError text => text end.

Class JsonErrors := {
  (* of [Token], for a document and the decoder before the call *)
  token_failure : string → Decoder → json_failure * Z;
  (* of [Decode], for a document and the text it begins at *)
  decode_failure : string → string → json_failure * Z;
  (* of a value of the wrong type, for a document *)
  type_failure : string → json_failure
}.

(** * [strconv.Unquote] of a text in double quotes *)

Fixpoint hex_number (digits : list ascii) (n : Z) : option Z :=
  match digits with
  | [] => Some n
  | c :: digits => h ← hex_value c; hex_number digits (n * 16 + h)
  end.

Definition is_octal (c : ascii) : bool := in_range "0" "7" c.

(** [\u] and [\U] stand for a rune that is a scalar value. *)
Definition unquote_rune (digits : list ascii) : option string :=
  r ← hex_number digits 0;
  if is_surrogate r || bool_decide (1114111 < r)%Z then None else Some (encode_rune r).

Definition simple_escape (c : ascii) : option ascii :=
  match c with
  | "a" => Some "007" | "b" => Some "008" | "f" => Some "012" | "n" => Some "010"
  | "r" => Some "013" | "t" => Some "009" | "v" => Some "011"
  | "\" => Some "\" | "034" => Some "034"
  | _ => None
  end%char.

Fixpoint unquote_body (s : string) : option string :=
  match s with
  | EmptyString => Some EmptyString
  | String c s =>
    if bool_decide (c = "034" ∨ c = "010")%char then None
    else if bool_decide (c ≠ "\")%char then String c <$> unquote_body s
    else match s with
    | EmptyString => None
    | String e t =>
      if bool_decide (e = "x")%char then
        match t with
        | String a (String b t) =>
          n ← hex_number [a; b] 0; String (byte_at n) <$> unquote_body t
        | _ => None
        end
      else if bool_decide (e = "u")%char then
        match t with
        | String a (String b (String c (String d t))) =>
          r ← unquote_rune [a; b; c; d]; String.append r <$> unquote_body t
        | _ => None
        end
      else if bool_decide (e = "U")%char then
        match t with
        | String a (String b (String c (String d (String e (String f (String g (String h t))))))) =>
          r ← unquote_rune [a; b; c; d; e; f; g; h]; String.append r <$> unquote_body t
        | _ => None
        end
      else if is_octal e then
        match t with
        | String b (String c t) =>
          let n := (((byte_of e - 48) * 8 + (byte_of b - 48)) * 8 + (byte_of c - 48))%Z in
          if is_octal b && is_octal c && bool_decide (n ≤ 255)%Z
          then String (byte_at n) <$> unquote_body t else None
        | _ => None
        end
      else b ← simple_escape e; String b <$> unquote_body t
    end
  end.

(** The text between two double quotes. *)
Definition between_quotes (s : string) : option string :=
  match s with
  | String c t =>
    if bool_decide (c = "034")%char && HasSuffix t dquote
    then Some (take_string (String.length t - 1) t) else None
  | EmptyString => None
  end.

(** Bytes that are not UTF-8 become U+FFFD, as in every text that is built from runes. *)
Definition Unquote (s : string) : option string :=
  body ← between_quotes s; unquote_body (encode_runes (runes body)).

(** [strings.Trim(s, cut)] for a one-byte [cut]. *)
Fixpoint TrimLeftByte (s : string) (c : ascii) : string :=
  match s with
  | String d t => if bool_decide (d = c) then TrimLeftByte t c else s
  | EmptyString => EmptyString
  end.
Definition TrimByte (s : string) (c : ascii) : string := TrimRightByte (TrimLeftByte s c) c.

(** * [jsonDecodeDiagnostic] *)

Definition check_hint : string := "correct the cookbook and run docker-zero --check --cookbook-dir <directory>".
Definition unknown_prefix : string := "json: unknown field ".

(** The name in the text of the error. *)
Definition unknown_name (text : string) : string :=
  let quoted := TrimPrefix text unknown_prefix in
  default (TrimByte quoted "034"%char) (Unquote quoted).

Section diagnostics.
Context {RO : RangeOrder} {UN : Unicode}.

Definition type_path (field : string) : string :=
  if bool_decide (field ≠ EmptyString) && negb (HasPrefix field "/")
  then "/" +:+ ReplaceAll field "." "/" else field.

(** [locations] is not [nil] only where the document could be scanned. *)
Definition jsonDecodeDiagnostic (file data : string) (err : json_failure) (decoderOffset : Z)
    (locations : option (gmap string Z)) : DiagnosticError :=
  match err with
  | SyntaxError text offset =>
    newSourceDiagnostic "CONFIG_SYNTAX_ERROR" file EmptyString text check_hint data (Z.max 0 (offset - 1))
  | UnmarshalTypeError text field offset =>
    newSourceDiagnostic "CONFIG_TYPE_ERROR" file (type_path field) text check_hint data (Z.max 0 (offset - 1))
  | OtherError text =>
    if HasPrefix text unknown_prefix then
      let field := unknown_name text in
      let offset := findJSONKeyOffsetBefore data field decoderOffset in
      let candidate :=
        match locations with Some locations => closestJSONPath locations field offset | None => EmptyString end in
      let jsonPath := if bool_decide (candidate ≠ EmptyString) then candidate else "/" +:+ escapeJSONPointer field in
      newSourceDiagnostic "CONFIG_UNKNOWN_FIELD" file jsonPath
        ("unknown field " +:+ Quote field +:+ "; this is usually a typo") check_hint data offset
    else
      let offset := if bool_decide (0 < decoderOffset)%Z then (decoderOffset - 1)%Z else decoderOffset in
      newSourceDiagnostic "CONFIG_PARSE_ERROR" file EmptyString text check_hint data offset
  end.
End diagnostics.

(** * The scan *)

Record scanner := mkScanner { decoder : Decoder; locations : gmap string Z }.
#[export] Instance scanner_eta : Eta scanner := λ s, mkScanner (decoder s) (locations s).

Section scan.
Context {RO : RangeOrder} {UN : Unicode} {JE : JsonErrors}.
Context (file data : string).

(** A call of [Token] that fails, and the diagnostic of its error. *)
Definition token_diagnostic (d : Decoder) : DiagnosticError :=
  let '(err, offset) := token_failure data d in jsonDecodeDiagnostic file data err offset None.

(** [decoder.Token()] and [return jsonDecodeDiagnostic] where it fails. *)
Definition next_token : prog scanner (token + DiagnosticError) := λ s,
  match Token (decoder s) with
  | Read t d => (s <| decoder := d |>, Done (inl t))
  | EndOfText | Broken => (s, Done (inr (token_diagnostic (decoder s))))
  end.

Definition offset_here : prog scanner Z := s ← get; mret (InputOffset data (decoder s)).

Definition more : prog scanner bool := λ s,
  let '(b, d) := More (decoder s) in (s <| decoder := d |>, Done b).

Definition locate (path : string) (offset : Z) : prog scanner () :=
  modify (λ s, s <| locations := <[path := offset]> (locations s) |>).

(** The closing bracket. *)
Definition closing : prog scanner (option DiagnosticError) :=
  t ← next_token;
  mret (match t with inl _ => None | inr err => Some err end).

(** A recursive call for a value, and the rest of the loop. *)
Definition then_ {S E} (first rest : prog S (option E)) : prog S (option E) :=
  e ← first; match e with Some err => mret (Some err) | None => rest end.

(** [scanJSONValue] with its two loops; [fuel] is enough when it is more than twice
    the length of the text. *)
Fixpoint scanJSONValue (fuel : nat) (path : string) : prog scanner (option DiagnosticError) :=
  match fuel with
  | 0 => λ s, (s, Blocked)
  | S fuel =>
    t ← next_token;
    match t with
    | inr err => mret (Some err)
    | inl (Delim c) =>
      if bool_decide (c = "{")%char then then_ (scan_members fuel path []) closing
      else if bool_decide (c = "[")%char then then_ (scan_items fuel path 0) closing
      else
        offset ← offset_here;
        mret (Some (newSourceDiagnostic "CONFIG_SYNTAX_ERROR" file path
          ("unexpected delimiter " +:+ Quote (String c EmptyString)) "correct the JSON structure" data offset))
    | inl _ => mret None
    end
  end
with scan_members (fuel : nat) (path : string) (seen : list string) : prog scanner (option DiagnosticError) :=
  match fuel with
  | 0 => λ s, (s, Blocked)
  | S fuel =>
    b ← more;
    if negb b then mret None
    else
      t ← next_token;
      match t with
      | inr err => mret (Some err)
      | inl (Text key) =>
        offset ← offset_here;
        let keyOffset := jsonStringTokenStart data offset in
        let keyPath := path +:+ "/" +:+ escapeJSONPointer key in
        if bool_decide (key ∈ seen) then
          mret (Some (newSourceDiagnostic "CONFIG_DUPLICATE_KEY" file keyPath
            ("duplicate JSON key " +:+ Quote key +:+ "; encoding/json would silently keep only the last value")
            "remove one of the duplicate keys" data keyOffset))
        else
          locate keyPath keyOffset;;
          then_ (scanJSONValue fuel keyPath) (scan_members fuel path (key :: seen))
      | inl _ =>
        offset ← offset_here;
        mret (Some (newSourceDiagnostic "CONFIG_SYNTAX_ERROR" file path "object key is not a string"
          "use quoted JSON object keys" data offset))
      end
  end
with scan_items (fuel : nat) (path : string) (index : Z) : prog scanner (option DiagnosticError) :=
  match fuel with
  | 0 => λ s, (s, Blocked)
  | S fuel =>
    b ← more;
    if negb b then mret None
    else
      let itemPath := path +:+ "/" +:+ Itoa index in
      offset ← offset_here;
      locate itemPath offset;;
      then_ (scanJSONValue fuel itemPath) (scan_items fuel path (index + 1)%Z)
  end.

Definition scan_fuel : nat := 2 * String.length data + 2.

Definition scanJSONDocument : outcome (gmap string Z + DiagnosticError) :=
  let '(s, ended) := scanJSONValue scan_fuel EmptyString (mkScanner (NewDecoder data) ∅) in
  match ended with
  | Panic msg => Panic msg
  | Blocked => Blocked
  | Done (Some err) => Done (inr err)
  | Done None =>
    match Token (decoder s) with
    | EndOfText => Done (inl (locations s))
    | Read t d => Done (inr (newSourceDiagnostic "CONFIG_TRAILING_DATA" file EmptyString
        ("unexpected JSON token " +:+ token_text t +:+ " after the cookbook document")
        "remove the trailing document or data" data (InputOffset data d)))
    | Broken => Done (inr (token_diagnostic (decoder s)))
    end
  end.
End scan.

(** * Examples *)

Definition errors_plain : JsonErrors := {|
  token_failure := λ _ _, (SyntaxError "invalid character" 1%Z, 0%Z);
  decode_failure := λ _ _, (OtherError "unexpected end of JSON input", 0%Z);
  type_failure := λ _, UnmarshalTypeError "json: wrong type" EmptyString 0%Z
|}.

(** A text with every [`] for a double quote. *)
Definition json_text (s : string) : string := string_map (λ c, if bool_decide (c = "`")%char then "034"%char else c) s.

Section examples.
#[local] Existing Instances unicode_none errors_plain range_forward.

Definition scanned (s : string) : option (gmap string Z) :=
  match scanJSONDocument "f" (json_text s) with Done (inl l) => Some l | _ => None end.

Example scan_example :
  (λ l, (size l, (λ path, l !! path) <$> ["/a~1b"; "/a~1b/0"; "/a~1b/1"; "/a~1b/1/c"; "/d"]))
    <$> scanned "{`a/b` : [10, {`c`:null}], `d`:1}"
  = Some (5, [Some 1; Some 10; Some 12; Some 15; Some 27]%Z).
Proof. by vm_compute. Qed.

Example scan_duplicate :
  (λ r : outcome (gmap string Z + DiagnosticError),
    match r with Done (inr e) => (Code e, JSONPath e, Line e, Column e) | _ => (EmptyString, EmptyString, 0, 0)%Z end)
   (scanJSONDocument "f" (json_text ("{`a`:{`x`:1}," +:+ nl +:+ "  `a`:2}")))
  = ("CONFIG_DUPLICATE_KEY", "/a", 2, 3)%Z.
Proof. by vm_compute. Qed.

Example unquote_examples :
  Unquote <$> [json_text "`a\`\\\n`"; json_text "`\u00e9\x41\101`"; json_text "`a"; "a"; json_text "`\q`"]
  = [Some (json_text "a`\" +:+ nl); Some (encode_rune 233 +:+ "AA"); None; None; None].
Proof. by vm_compute. Qed.
End examples.
