(* ===== verification/ScanFacts.v ===== *)
(** Facts about the readers of [Json] and the tokens of [TokenDecoder] that the
    theorems on the document scan need: what a reader leaves of its text, where a
    string begins that ends at a given offset, and the depth of a parse. *)
From Stdlib Require Import Ascii.
From S2P Require Import Prelude GoStrings Json Diagnostic TokenDecoder DocumentScan.

(** * Strings from their end *)

Lemma string_snoc_ind (P : string → Prop) :
  P EmptyString → (∀ s c, P s → P (s +:+ String c EmptyString)) → ∀ s, P s.
Proof.
  intros H0 Hsnoc s. remember (String.length s) as n eqn:Hn. revert s Hn.
  induction n as [|n IH]; intros s Hn; [by destruct s|].
  assert (∃ t c, s = t +:+ String c EmptyString) as (t & c & ->).
  { clear IH. revert n Hn. induction s as [|d s IHs]; intros n Hn; [done|].
    destruct s as [|e s]; [by exists EmptyString, d|].
    destruct n as [|n]; [done|]. destruct (IHs n) as (t & c & Heq); [by injection Hn as ->|].
    exists (String d t), c. by rewrite app_cons_string, Heq. }
  apply Hsnoc, IH. rewrite length_app_string in Hn. simpl in Hn. lia.
Qed.

Lemma get_app s c t : String.get (String.length s) (s +:+ String c t) = Some c.
Proof. induction s as [|d s IH]; [done|]. rewrite app_cons_string. apply IH. Qed.

Lemma byte_is_app s c t f : byte_is (s +:+ String c t) (Z.of_nat (String.length s)) f = f c.
Proof. unfold byte_is. rewrite bool_decide_false by lia. by rewrite Nat2Z.id, get_app. Qed.

(** * Which quotes are escaped *)

Definition is_backslash (c : ascii) : bool := bool_decide (c = "\")%char.

(** Whether the character after [s] is escaped, when the one before [s] said [b]. *)
Fixpoint escaped_after (b : bool) (s : string) : bool :=
  match s with
  | EmptyString => b
  | String c s => escaped_after (negb b && is_backslash c) s
  end.

Lemma escaped_after_app b s t : escaped_after b (s +:+ t) = escaped_after (escaped_after b s) t.
Proof. revert b. induction s as [|c s IH]; intros b; [done|]. rewrite app_cons_string. apply IH. Qed.

(** The parity of the backslashes that a text ends with. *)
Lemma backslash_parity s t :
  let i := String.length s in
  Z.even (Z.of_nat i - 1 - scan_back i (s +:+ t) (Z.of_nat i - 1) (λ c, bool_decide (c = "\")%char))
  = negb (escaped_after false s).
Proof.
  revert t. induction s as [|s c IH] using string_snoc_ind; intros t; cbv zeta; [done|].
  rewrite app_assoc_string, length_app_string, app_cons_string, app_nil_l_string. cbn [String.length].
  rewrite Nat.add_1_r. cbn [scan_back].
  replace (Z.of_nat (S (String.length s)) - 1)%Z with (Z.of_nat (String.length s)) by lia.
  rewrite byte_is_app, escaped_after_app. cbn [escaped_after].
  specialize (IH (String c t)). cbv zeta in IH. unfold is_backslash. case_bool_decide as Hc.
  - rewrite andb_true_r, negb_involutive.
    match goal with |- Z.even (?a - ?r) = _ => replace (a - r)%Z with (Z.succ (a - 1 - r)) by lia end.
    rewrite Z.even_succ, <-Z.negb_even, IH. apply negb_involutive.
  - rewrite andb_false_r. by rewrite Z.sub_diag.
Qed.

Lemma hex_value_plain c h : hex_value c = Some h → c ≠ "034"%char ∧ is_backslash c = false.
Proof. intros Hc. split; [intros ->|unfold is_backslash; apply bool_decide_false; intros ->]; done. Qed.

(** Where a character of a concatenation is. *)
Lemma append_split x y p c q :
  x +:+ y = p +:+ String c q → (∃ r, p = x +:+ r ∧ y = r +:+ String c q) ∨ ∃ r, x = p +:+ String c r.
Proof.
  revert p. induction x as [|d x IH]; intros p Hp; [left; by exists p|].
  rewrite app_cons_string in Hp. destruct p as [|e p].
  - injection Hp as -> Hp. right. by exists x.
  - rewrite app_cons_string in Hp. injection Hp as -> Hp.
    destruct (IH p Hp) as [(r & -> & Hr)|(r & ->)]; [left|right]; exists r; by rewrite ?app_cons_string.
Qed.

(** In a body that [scan_string] accepts every quote is escaped. *)
Lemma scan_string_spec s body rest :
  scan_string s = Some (body, rest) →
  s = body +:+ String "034" rest
  ∧ ∀ p q, body = p +:+ String "034" q → escaped_after false p = true.
Proof.
  revert body rest. induction s as [s IH] using (induction_ltof1 _ String.length).
  assert (∀ (pre u : string) body t, (prod_map (String.append pre) id <$> scan_string u) = Some (body, t) →
    String.length u < String.length s → s = pre +:+ u →
    (∀ p q, pre = p +:+ String "034" q → escaped_after false p = true) → escaped_after false pre = false →
    s = body +:+ String "034" t ∧ ∀ p q, body = p +:+ String "034" q → escaped_after false p = true) as Hstep.
  { intros pre u body t Hu Hlt Hs Hpre Hesc. destruct (scan_string u) as [[body' t']|] eqn:Heq; [|done].
    destruct (IH u Hlt body' t' Heq) as [Hu' Hq]. cbn in Hu. injection Hu as <- <-. split.
    - by rewrite Hs, Hu', app_assoc_string.
    - intros p q Hp. apply append_split in Hp as [(r & -> & Hr)|(r & Hr)].
      + rewrite escaped_after_app, Hesc. by eapply Hq.
      + by eapply Hpre. }
  clear IH. intros body rest. destruct s as [|c s]; [done|]. cbn [scan_string].
  case_bool_decide as Hq; [|case_bool_decide; [done|case_bool_decide as Hb]].
  - intros [= <- <-]. subst c. split; [done|]. by intros [|??].
  - subst c. destruct s as [|e u]; [done|]. case_bool_decide as He.
    + subst e. destruct u as [|a [|b [|c [|d u]]]]; try done.
      unfold hex4. destruct (hex_value a) eqn:Ha; [|done]. destruct (hex_value b) eqn:Hb; [|done].
      destruct (hex_value c) eqn:Hc; [|done]. destruct (hex_value d) eqn:Hd; [|done].
      apply hex_value_plain in Ha as [? Ha], Hb as [? Hb], Hc as [? Hc], Hd as [? Hd].
      cbn. intros Hu. apply (Hstep (String "\" (String "u" (String a (String b (String c (String d EmptyString))))))) in Hu;
        [done|cbn; lia|done| |cbn; by rewrite Ha, Hb, Hc, Hd].
      intros p q Hp. do 6 (destruct p as [|? p]; [injection Hp; intros; congruence|]; injection Hp as _ Hp); by destruct p.
    + destruct (escape_byte e) eqn:Hesc; [|done]. cbn. intros Hu.
      apply (Hstep (String "\" (String e EmptyString))) in Hu; [done|cbn; lia|done| |by cbn; rewrite andb_false_l].
      intros [|? [|? p]] q Hp; [done|by injection Hp as <- _|]. by destruct p.
  - intros Hu. apply (Hstep (String c EmptyString)) in Hu; [done|cbn; lia|done| |].
    + intros [|? p] q Hp; [by injection Hp as ->|]. by destruct p.
    + cbn. unfold is_backslash. by rewrite bool_decide_false.
Qed.

(** * [jsonStringTokenStart] *)

Lemma opening_quote_at p c q :
  opening_quote (String.length p) (p +:+ String c q)
  = if bool_decide (c = "034")%char && negb (escaped_after false p) then String.length p
    else match String.length p with 0 => 0 | S i => opening_quote i (p +:+ String c q) end.
Proof.
  assert (∀ i data, opening_quote i data
    = if byte_is data (Z.of_nat i) (λ c, bool_decide (c = "034")%char)
         && Z.even (Z.of_nat i - 1 - scan_back i data (Z.of_nat i - 1) (λ c, bool_decide (c = "\")%char))
      then i else match i with 0 => 0 | S i => opening_quote i data end) as Hunfold by by intros [].
  rewrite Hunfold, byte_is_app. pose proof (backslash_parity p (String c q)) as Hp. cbv zeta in Hp.
  by rewrite Hp.
Qed.

(** The opening quote is found from a place in the body. *)
Lemma opening_quote_body pre body rest b1 b2 :
  escaped_after false pre = false →
  (∀ p q, body = p +:+ String "034" q → escaped_after false p = true) → body = b1 +:+ b2 →
  opening_quote (String.length pre + String.length b1) (pre +:+ String "034" (body +:+ rest)) = String.length pre.
Proof.
  intros Hpre Hbody. revert b2. induction b1 as [|b1 c IH] using string_snoc_ind; intros b2 Hb.
  - rewrite Nat.add_0_r, opening_quote_at, bool_decide_true by done. by rewrite Hpre.
  - rewrite app_assoc_string, app_cons_string, app_nil_l_string in Hb. specialize (IH (String c b2) Hb).
    assert (pre +:+ String "034" (body +:+ rest)
      = (pre +:+ String "034" b1) +:+ String c (b2 +:+ rest)) as Hdata.
    { by rewrite Hb, !app_assoc_string, !app_cons_string. }
    assert (String.length pre + String.length (b1 +:+ String c EmptyString)
      = String.length (pre +:+ String "034" b1)) as Hlen.
    { rewrite !length_app_string. simpl. lia. }
    rewrite Hlen, Hdata, opening_quote_at, <-Hdata.
    replace (String.length (pre +:+ String "034" b1)) with (S (String.length pre + String.length b1)) at 2
      by (rewrite length_app_string; simpl; lia).
    rewrite IH. case_bool_decide as Hc; [|done]. subst c.
    rewrite escaped_after_app, Hpre. change (escaped_after false (String "034" b1)) with (escaped_after false b1).
    by rewrite (Hbody b1 b2 Hb).
Qed.

Lemma scan_back_stop fuel data i f : byte_is data i f = false → scan_back fuel data i f = i.
Proof. destruct fuel; cbn; [done|]. by intros ->. Qed.

Lemma jsonStringTokenStart_spec pre s body rest :
  escaped_after false pre = false → scan_string s = Some (body, rest) →
  let data := pre +:+ String "034" s in
  jsonStringTokenStart data (Z.of_nat (String.length data - String.length rest)) = Z.of_nat (String.length pre).
Proof.
  intros Hpre Hs. apply scan_string_spec in Hs as [-> Hbody]. cbv zeta.
  set (data := pre +:+ _). set (p := pre +:+ String "034" body).
  assert (data = p +:+ String "034" rest) as Hdata.
  { subst data p. by rewrite app_assoc_string, app_cons_string. }
  assert (String.length p = S (String.length pre + String.length body)) as Hp.
  { subst p. rewrite length_app_string. simpl. lia. }
  assert (String.length data = String.length p + 1 + String.length rest) as Hlen.
  { rewrite Hdata, length_app_string. simpl. lia. }
  unfold jsonStringTokenStart.
  replace (Z.min (Z.of_nat (String.length data) - 1) (Z.of_nat (String.length data - String.length rest) - 1))
    with (Z.of_nat (String.length p)) by lia.
  rewrite scan_back_stop by by rewrite Hdata, byte_is_app.
  rewrite bool_decide_false by lia. cbn [orb]. rewrite Hdata, byte_is_app, bool_decide_true by done.
  cbn [negb]. rewrite bool_decide_false by lia. rewrite <-Hdata. f_equal. replace (Z.to_nat (Z.of_nat (String.length p) - 1))
    with (String.length pre + String.length body) by lia.
  subst data. eapply opening_quote_body; [done..|]. symmetry. apply app_nil_r_string.
Qed.

(** * What a reader leaves

    [placed data s]: a reader of [data] can stand before [s]; what it has read does
    not end in a backslash. *)

Definition placed (data s : string) : Prop := ∃ pre, data = pre +:+ s ∧ escaped_after false pre = false.

(** The text [x] was read and [s] is left. *)
Lemma placed_app data x s : placed data (x +:+ s) → escaped_after false x = false → placed data s.
Proof.
  intros (pre & -> & Hpre) Hx. exists (pre +:+ x).
  by rewrite app_assoc_string, escaped_after_app, Hpre.
Qed.

Lemma placed_cons data c s : placed data (String c s) → c ≠ "\"%char → placed data s.
Proof.
  intros Hs Hc. apply (placed_app _ (String c EmptyString)); [done|].
  cbn. unfold is_backslash. by rewrite bool_decide_false.
Qed.

Lemma placed_skip data s : placed data s → placed data (skip_space s).
Proof.
  induction s as [|c s IH]; [done|]. intros Hs.
  assert (skip_space (String c s) = skip_space s ∧ c ≠ "\"%char ∨ skip_space (String c s) = String c s)
    as [[-> Hc]| ->]; [|by eapply IH, placed_cons|done].
  destruct c as [[] [] [] [] [] [] [] []]; auto.
Qed.

Lemma placed_expect data c s t : c ≠ "\"%char → expect c s = Some t → placed data s → placed data t.
Proof.
  unfold expect. intros Hc He Hs%placed_skip. destruct (skip_space s) as [|d u]; [done|].
  case_bool_decide as Hd; [|done]. injection He as <-. subst d. by eapply placed_cons.
Qed.

Lemma placed_string data s body rest :
  scan_string s = Some (body, rest) → placed data s → placed data rest.
Proof.
  intros [-> _]%scan_string_spec Hs. apply (placed_app _ (body +:+ String "034" EmptyString)).
  - by rewrite app_assoc_string.
  - rewrite escaped_after_app. cbn. by rewrite andb_false_r.
Qed.

Lemma placed_digits data s d t : scan_digits s = (d, t) → placed data s → placed data t.
Proof.
  revert d t. induction s as [|c s IH]; intros d t; cbn; [by intros [= _ <-]|].
  destruct (is_digit c) eqn:Hc; [|by intros [= _ <-]].
  destruct (scan_digits s) as [d' t'] eqn:Hs. intros [= _ <-] Hp. eapply IH; [done|].
  apply placed_cons in Hp; [done|]. by intros ->.
Qed.

Lemma placed_digits1 data s r : scan_digits1 s = Some r → placed data s → placed data r.2.
Proof.
  unfold scan_digits1. destruct (scan_digits s) as [d t] eqn:Hs. destruct d; [done|].
  intros [= <-]. by eapply placed_digits.
Qed.

Lemma placed_optional data chars s o t :
  ContainsByte chars "\" = false → optional chars s = (o, t) → placed data s → placed data t.
Proof.
  intros Hc. destruct s as [|c s]; cbn; [by intros [= _ <-]|].
  destruct (ContainsByte chars c) eqn:Hin; [|by intros [= _ <-]].
  intros [= _ <-]. intros Hp. apply placed_cons in Hp; [done|]. congruence.
Qed.

Lemma placed_number data s text t : scan_number s = Some (text, t) → placed data s → placed data t.
Proof.
  unfold scan_number. destruct (optional "-" s) as [sign s1] eqn:H1. intros Hn Hp.
  eapply placed_optional in H1; [|done..]. clear Hp. revert Hn.
  assert (∀ s r, scan_int s = Some r → placed data s → placed data r.2) as Hint.
  { clear. intros s r. unfold scan_int. destruct (optional "0" s) as [o u] eqn:Ho. destruct o.
    - apply placed_digits1.
    - intros [= <-] Hp. eapply placed_optional; [|exact Ho|exact Hp]; done. }
  assert (∀ s r, scan_frac s = Some r → placed data s → placed data r.2) as Hfrac.
  { clear. intros s r. unfold scan_frac. destruct (optional "." s) as [o u] eqn:Ho. destruct o; [by intros [= <-]|].
    destruct (scan_digits1 u) as [d|] eqn:Hd; [|done]. intros [= <-] Hp.
    apply (placed_digits1 data _ _ Hd). eapply placed_optional; [|exact Ho|exact Hp]; done. }
  assert (∀ s r, scan_exp s = Some r → placed data s → placed data r.2) as Hexp.
  { clear. intros s r. unfold scan_exp. destruct (optional "eE" s) as [o u] eqn:Ho. destruct o; [by intros [= <-]|].
    destruct (optional "+-" u) as [sg w] eqn:Hw. destruct (scan_digits1 w) as [d|] eqn:Hd; [|done].
    intros [= <-] Hp. apply (placed_digits1 data _ _ Hd).
    eapply placed_optional; [|exact Hw|]; [done|]. eapply placed_optional; [|exact Ho|exact Hp]; done. }
  destruct (scan_int s1) as [[i s2]|] eqn:H2; [|done]. apply Hint in H2; [|done].
  cbn. destruct (scan_frac s2) as [[f s3]|] eqn:H3; [|done]. apply Hfrac in H3; [|done].
  cbn. destruct (scan_exp s3) as [[e s4]|] eqn:H4; [|done]. apply Hexp in H4; [|done].
  by intros [= _ <-].
Qed.

Lemma placed_literal data s word t :
  literal s word = Some t → escaped_after false word = false → placed data s → placed data t.
Proof.
  unfold literal. destruct (HasPrefix s word) eqn:Hp; [|done]. apply HasPrefix_true in Hp as [u ->].
  rewrite drop_string_app. intros [= <-] Hw Hs. by eapply placed_app.
Qed.

Lemma placed_scalar data s v t : scalar s = Some (v, t) → placed data s → placed data t.
Proof.
  unfold scalar.
  destruct (literal s "true") eqn:H1; [intros [= _ <-]; by apply (placed_literal _ _ _ _ H1)|].
  destruct (literal s "false") eqn:H2; [intros [= _ <-]; by apply (placed_literal _ _ _ _ H2)|].
  destruct (literal s "null") eqn:H3; [intros [= _ <-]; by apply (placed_literal _ _ _ _ H3)|].
  destruct (scan_number s) as [[text u]|] eqn:H4; [|done]. intros [= _ <-]. by eapply placed_number.
Qed.

Ltac placed_expect H := eapply placed_expect; [|exact H|]; [done|].

Lemma parse_placed data fuel :
  (∀ depth s v t, parse_value fuel depth s = Some (v, t) → placed data s → placed data t)
  ∧ (∀ depth s v t, parse_items fuel depth s = Some (v, t) → placed data s → placed data t)
  ∧ (∀ depth s v t, parse_members fuel depth s = Some (v, t) → placed data s → placed data t).
Proof.
  induction fuel as [|fuel (IHv & IHi & IHm)]; [done|]. split_and!; intros depth s v t.
  - cbn [parse_value]. intros Hv Hs%placed_skip. destruct (skip_space s) as [|c u]; [done|].
    case_bool_decide as Hc; [subst c; apply placed_cons in Hs; [|done]|
    clear Hc; case_bool_decide as Hc; [subst c; apply placed_cons in Hs; [|done]|
    clear Hc; case_bool_decide as Hc; [subst c; apply placed_cons in Hs; [|done]|]]].
    + case_bool_decide; [done|]. destruct (expect "}" u) eqn:He.
      { injection Hv as _ <-. by placed_expect He. }
      destruct (parse_members _ _ u) as [[l r]|] eqn:Hm; [|done]. injection Hv as _ <-. by eapply IHm.
    + case_bool_decide; [done|]. destruct (expect "]" u) eqn:He.
      { injection Hv as _ <-. by placed_expect He. }
      destruct (parse_items _ _ u) as [[l r]|] eqn:Hm; [|done]. injection Hv as _ <-. by eapply IHi.
    + destruct (scan_string u) as [[body r]|] eqn:Hm; [|done]. injection Hv as _ <-. by eapply placed_string.
    + by eapply placed_scalar.
  - cbn [parse_items]. destruct (parse_value _ _ s) as [[x u]|] eqn:Hv; [|done]. cbn. intros Hi Hs.
    eapply IHv in Hv; [|done]. destruct (expect "," u) as [u'|] eqn:He.
    + destruct (parse_items _ _ u') as [[l r]|] eqn:Hi'; [|done]. injection Hi as _ <-.
      eapply IHi; [done|]. by placed_expect He.
    + destruct (expect "]" u) as [u'|] eqn:He'; [|done]. injection Hi as _ <-. by placed_expect He'.
  - cbn [parse_members]. destruct (expect "034" s) as [s1|] eqn:H1; [|done].
    cbn. destruct (scan_string s1) as [[k s2]|] eqn:H2; [|done].
    cbn. destruct (expect ":" s2) as [s3|] eqn:H3; [|done].
    cbn. destruct (parse_value _ _ s3) as [[x u]|] eqn:Hv; [|done]. intros Hm Hs.
    eapply IHv in Hv; [|placed_expect H3; eapply placed_string; [exact H2|]; by placed_expect H1].
    cbn in Hm. destruct (expect "," u) as [u'|] eqn:He.
    + destruct (parse_members _ _ u') as [[l r]|] eqn:Hm'; [|done]. injection Hm as _ <-.
      eapply IHm; [done|]. by placed_expect He.
    + destruct (expect "}" u) as [u'|] eqn:He'; [|done]. injection Hm as _ <-. by placed_expect He'.
Qed.

(** * White space and depth *)

Lemma skip_space_idem s : skip_space (skip_space s) = skip_space s.
Proof.
  induction s as [|c s IH]; [done|].
  assert (skip_space (String c s) = skip_space s ∨ skip_space (String c s) = String c s) as [Hs|Hs];
    [destruct c as [[] [] [] [] [] [] [] []]; auto|..]; by rewrite !Hs.
Qed.

Lemma expect_skip c s : expect c (skip_space s) = expect c s.
Proof. unfold expect. by rewrite skip_space_idem. Qed.

Lemma parse_value_skip fuel depth s : parse_value fuel depth (skip_space s) = parse_value fuel depth s.
Proof. destruct fuel; [done|]. cbn [parse_value]. by rewrite skip_space_idem. Qed.

Lemma parse_items_skip fuel depth s : parse_items fuel depth (skip_space s) = parse_items fuel depth s.
Proof. destruct fuel; [done|]. cbn [parse_items]. by rewrite parse_value_skip. Qed.

Lemma parse_members_skip fuel depth s : parse_members fuel depth (skip_space s) = parse_members fuel depth s.
Proof. destruct fuel; [done|]. cbn [parse_members]. by rewrite expect_skip. Qed.

(** What can be read at a depth can be read with fewer brackets around it. *)
Lemma parse_depth fuel :
  (∀ depth depth' s r, (depth' ≤ depth)%Z → parse_value fuel depth s = Some r → parse_value fuel depth' s = Some r)
  ∧ (∀ depth depth' s r, (depth' ≤ depth)%Z → parse_items fuel depth s = Some r → parse_items fuel depth' s = Some r)
  ∧ (∀ depth depth' s r, (depth' ≤ depth)%Z → parse_members fuel depth s = Some r → parse_members fuel depth' s = Some r).
Proof.
  induction fuel as [|fuel (IHv & IHi & IHm)]; [done|]. split_and!; intros depth depth' s r Hle.
  - cbn [parse_value]. destruct (skip_space s) as [|c u]; [done|].
    case_bool_decide; [|case_bool_decide; [|done]].
    + case_bool_decide; [done|]. rewrite bool_decide_false by lia. destruct (expect "}" u); [done|].
      destruct (parse_members fuel (depth + 1) u) eqn:Hm; [|done].
      by rewrite (IHm (depth + 1)%Z (depth' + 1)%Z _ _ ltac:(lia) Hm).
    + case_bool_decide; [done|]. rewrite bool_decide_false by lia. destruct (expect "]" u); [done|].
      destruct (parse_items fuel (depth + 1) u) eqn:Hm; [|done].
      by rewrite (IHi (depth + 1)%Z (depth' + 1)%Z _ _ ltac:(lia) Hm).
  - cbn [parse_items]. destruct (parse_value fuel depth s) as [[x u]|] eqn:Hv; [|done].
    rewrite (IHv _ _ _ _ Hle Hv). cbn. destruct (expect "," u) as [u'|]; [|done].
    destruct (parse_items fuel depth u') eqn:Hi; [|done]. by rewrite (IHi _ _ _ _ Hle Hi).
  - cbn [parse_members]. destruct (expect "034" s) as [s1|]; [|done]. cbn.
    destruct (scan_string s1) as [[k s2]|]; [|done]. cbn. destruct (expect ":" s2) as [s3|]; [|done]. cbn.
    destruct (parse_value fuel depth s3) as [[x u]|] eqn:Hv; [|done].
    rewrite (IHv _ _ _ _ Hle Hv). cbn. destruct (expect "," u) as [u'|]; [|done].
    destruct (parse_members fuel depth u') eqn:Hm; [|done]. by rewrite (IHm _ _ _ _ Hle Hm).
Qed.
