(* ===== verification/ScanTheorems.v ===== *)
(** The document scan does what its comment says: it accepts exactly the texts that
    are one JSON value without a duplicate key, and it records where every key is.

    [free_value] is the grammar without the limit on nested brackets, which [Token]
    does not have.  [document_spots] reads off the grammar what the scan records. *)
From Stdlib Require Import Ascii.
From S2P Require Import Prelude GoStrings Json Diagnostic TokenDecoder DocumentScan ScanFacts.

(** * The grammar without fuel and without a limit on depth *)

Definition low_depth (s : string) : Z := (- Z.of_nat (String.length s))%Z.
Definition free_value (s : string) : option (json * string) :=
  parse_value (2 * String.length s + 1) (low_depth s) s.
Definition free_items (s : string) : option (list json * string) :=
  parse_items (2 * String.length s + 2) (low_depth s) s.
Definition free_members (s : string) : option (list (string * json) * string) :=
  parse_members (2 * String.length s + 1) (low_depth s) s.

(** Below the limit the depth plays no part. *)
Lemma parse_depth_low fuel :
  let low depth s := (depth + Z.of_nat (String.length s) ≤ max_depth)%Z in
  (∀ depth depth' s, low depth s → low depth' s → parse_value fuel depth s = parse_value fuel depth' s)
  ∧ (∀ depth depth' s, low depth s → low depth' s → parse_items fuel depth s = parse_items fuel depth' s)
  ∧ (∀ depth depth' s, low depth s → low depth' s → parse_members fuel depth s = parse_members fuel depth' s).
Proof.
  cbv zeta. induction fuel as [|fuel (IHv & IHi & IHm)]; [done|]. split_and!; intros depth depth' s H1 H2.
  - cbn [parse_value]. pose proof (length_skip_space s) as Hs. destruct (skip_space s) as [|c u]; [done|].
    cbn in Hs. rewrite !(bool_decide_false (max_depth ≤ _)%Z) by lia.
    by rewrite (IHm (depth + 1)%Z (depth' + 1)%Z), (IHi (depth + 1)%Z (depth' + 1)%Z) by lia.
  - cbn [parse_items]. rewrite (IHv depth depth') by done.
    destruct (parse_value _ _ s) as [[x u]|] eqn:Hv; [|done]. apply parse_shortens in Hv.
    cbn. destruct (expect "," u) as [u'|] eqn:He; [|done]. apply expect_shorter in He.
    by rewrite (IHi depth depth') by lia.
  - cbn [parse_members]. destruct (expect "034" s) as [s1|] eqn:E1; [|done].
    cbn. destruct (scan_string s1) as [[k s2]|] eqn:E2; [|done]. cbn. destruct (expect ":" s2) as [s3|] eqn:E3; [|done].
    apply expect_shorter in E1, E3. apply scan_string_shorter in E2.
    cbn. rewrite (IHv depth depth') by lia.
    destruct (parse_value _ _ s3) as [[x u]|] eqn:Hv; [|done]. apply parse_shortens in Hv.
    cbn. destruct (expect "," u) as [u'|] eqn:He; [|done]. apply expect_shorter in He.
    by rewrite (IHm depth depth') by lia.
Qed.

Lemma free_value_at fuel depth s :
  2 * String.length s < fuel → (depth + Z.of_nat (String.length s) ≤ max_depth)%Z →
  parse_value fuel depth s = free_value s.
Proof.
  intros Hf Hd. unfold free_value, low_depth. etrans; [apply parse_depth_low|apply parse_fuel]; try lia.
  all: unfold max_depth in *; lia.
Qed.
Lemma free_items_at fuel depth s :
  2 * String.length s + 1 < fuel → (depth + Z.of_nat (String.length s) ≤ max_depth)%Z →
  parse_items fuel depth s = free_items s.
Proof.
  intros Hf Hd. unfold free_items, low_depth. etrans; [apply parse_depth_low|apply parse_fuel]; try lia.
  all: unfold max_depth in *; lia.
Qed.
Lemma free_members_at fuel depth s :
  2 * String.length s < fuel → (depth + Z.of_nat (String.length s) ≤ max_depth)%Z →
  parse_members fuel depth s = free_members s.
Proof.
  intros Hf Hd. unfold free_members, low_depth. etrans; [apply parse_depth_low|apply parse_fuel]; try lia.
  all: unfold max_depth in *; lia.
Qed.

Lemma low_depth_ok s t : String.length t ≤ String.length s →
  (low_depth s + Z.of_nat (String.length t) ≤ max_depth)%Z.
Proof. unfold low_depth, max_depth. lia. Qed.

Lemma free_value_eq s : free_value s =
  match skip_space s with
  | EmptyString => None
  | String c t =>
    if bool_decide (c = "{")%char then
      match expect "}" t with
      | Some u => Some (JObject [], u)
      | None => prod_map JObject id <$> free_members t
      end
    else if bool_decide (c = "[")%char then
      match expect "]" t with
      | Some u => Some (JArray [], u)
      | None => prod_map JArray id <$> free_items t
      end
    else if bool_decide (c = "034")%char then
      '(body, u) ← scan_string t; Some (JString (unquote body), u)
    else scalar (String c t)
  end.
Proof.
  unfold free_value. rewrite Nat.add_1_r. cbn [parse_value]. pose proof (length_skip_space s) as Hs.
  destruct (skip_space s) as [|c t]; [done|]. cbn in Hs.
  rewrite !(bool_decide_false (max_depth ≤ _)%Z) by (unfold low_depth, max_depth; lia).
  rewrite free_members_at, free_items_at; [done|..]; unfold low_depth, max_depth; lia.
Qed.

Lemma free_items_eq s : free_items s =
  '(v, t) ← free_value s;
  match expect "," t with
  | Some u => prod_map (cons v) id <$> free_items u
  | None => u ← expect "]" t; Some ([v], u)
  end.
Proof.
  unfold free_items. replace (2 * String.length s + 2) with (S (2 * String.length s + 1)) by lia. cbn [parse_items].
  rewrite free_value_at by first [lia|by apply low_depth_ok].
  destruct (free_value s) as [[x u]|] eqn:Hv; [|done]. apply parse_shortens in Hv.
  cbn [mbind option_bind]. destruct (expect "," u) as [u'|] eqn:He; [|done]. apply expect_shorter in He.
  rewrite free_items_at by first [lia|apply low_depth_ok; lia]. done.
Qed.

Lemma free_members_eq s : free_members s =
  t ← expect "034" s;
  '(body, t) ← scan_string t;
  t ← expect ":" t;
  '(v, t) ← free_value t;
  match expect "," t with
  | Some u => prod_map (cons (unquote body, v)) id <$> free_members u
  | None => u ← expect "}" t; Some ([(unquote body, v)], u)
  end.
Proof.
  unfold free_members. rewrite Nat.add_1_r. cbn [parse_members].
  destruct (expect "034" s) as [s1|] eqn:E1; [|done].
  cbn [mbind option_bind]. destruct (scan_string s1) as [[k s2]|] eqn:E2; [|done]. cbn [mbind option_bind]. destruct (expect ":" s2) as [s3|] eqn:E3; [|done].
  apply expect_shorter in E1, E3. apply scan_string_shorter in E2.
  cbn [mbind option_bind].
  rewrite free_value_at by first [lia|apply low_depth_ok; lia].
  destruct (free_value s3) as [[x u]|] eqn:Hv; [|done]. apply parse_shortens in Hv.
  cbn [mbind option_bind]. destruct (expect "," u) as [u'|] eqn:He; [|done]. apply expect_shorter in He.
  rewrite free_members_at by first [lia|apply low_depth_ok; lia]. done.
Qed.

(** A text that is a value within the limit is one without it. *)
Lemma parse_prefix_free s r : parse_prefix s = Some r → free_value s = Some r.
Proof. unfold parse_prefix, free_value, low_depth. apply parse_depth. lia. Qed.

Lemma free_value_placed data s v t : free_value s = Some (v, t) → placed data s → placed data t.
Proof. apply parse_placed. Qed.
Lemma free_value_shorter s v t : free_value s = Some (v, t) → String.length t < String.length s.
Proof. apply parse_shortens. Qed.

(** * What the scan records

    The pointer of every key, with the text that begins at its opening quote, and of
    every item of an array, with the text that begins where [More] stopped: at the
    item for the first one, at the comma before it for the others. *)

Fixpoint value_spots (fuel : nat) (path s : string) : list (string * string) :=
  match fuel with
  | 0 => []
  | S fuel =>
    match skip_space s with
    | EmptyString => []
    | String c t =>
      if bool_decide (c = "{")%char
      then match expect "}" t with Some _ => [] | None => member_spots fuel path t end
      else if bool_decide (c = "[")%char
      then match expect "]" t with Some _ => [] | None => item_spots fuel path 0 (skip_space t) t end
      else []
    end
  end
with member_spots (fuel : nat) (path s : string) : list (string * string) :=
  match fuel with
  | 0 => []
  | S fuel =>
    match t ← expect "034" s; '(body, t) ← scan_string t; t ← expect ":" t; Some (body, t) with
    | None => []
    | Some (body, t) =>
      let key_path := path +:+ "/" +:+ escapeJSONPointer (unquote body) in
      (key_path, skip_space s) :: value_spots fuel key_path t
        ++ match '(_, u) ← free_value t; expect "," u with Some w => member_spots fuel path w | None => [] end
    end
  end
with item_spots (fuel : nat) (path : string) (index : Z) (here s : string) : list (string * string) :=
  match fuel with
  | 0 => []
  | S fuel =>
    let item_path := path +:+ "/" +:+ Itoa index in
    (item_path, here) :: value_spots fuel item_path s
      ++ match free_value s with
         | Some (_, u) =>
           match expect "," u with Some w => item_spots fuel path (index + 1) (skip_space u) w | None => [] end
         | None => []
         end
  end.

Definition document_spots (data : string) : list (string * string) :=
  value_spots (2 * String.length data + 1) EmptyString data.

(** The offset in [data] of what is left of it. *)
Definition offset_of (data s : string) : Z := Z.of_nat (String.length data - String.length s).

Definition record_spots (data : string) (l : list (string * string)) (locs : gmap string Z) : gmap string Z :=
  foldl (λ m spot, <[spot.1 := offset_of data spot.2]> m) locs l.
Definition document_locations (data : string) : gmap string Z := record_spots data (document_spots data) ∅.

(** No object has a key twice. *)
Fixpoint distinct (v : json) : bool :=
  match v with
  | JArray items => forallb distinct items
  | JObject members => bool_decide (NoDup members.*1) && forallb (λ kv, distinct kv.2) members
  | _ => true
  end.

(** The same, for the rest of an object of which some keys were seen. *)
Fixpoint distinct_from (seen : list string) (members : list (string * json)) : bool :=
  match members with
  | [] => true
  | (key, v) :: members =>
    negb (bool_decide (key ∈ seen)) && distinct v && distinct_from (key :: seen) members
  end.

Lemma distinct_from_spec seen members :
  distinct_from seen members
  = bool_decide (NoDup members.*1 ∧ Forall (.∉ seen) members.*1) && forallb (λ kv, distinct kv.2) members.
Proof.
  revert seen. induction members as [|[key v] members IH]; intros seen; cbn; [done|].
  rewrite IH. apply Bool.eq_iff_eq_true. rewrite !andb_true_iff, negb_true_iff, bool_decide_eq_false, !bool_decide_eq_true.
  rewrite NoDup_cons, Forall_cons, !Forall_forall. set_solver.
Qed.

Lemma distinct_object members : distinct (JObject members) = distinct_from [] members.
Proof.
  rewrite distinct_from_spec. cbn. f_equal. apply bool_decide_ext.
  rewrite Forall_forall. set_solver.
Qed.

(** * Running the scan *)

Section verdict.
Context {RO : RangeOrder} {UN : Unicode} {JE : JsonErrors}.
Context (file data : string).

Notation scan_value := (scanJSONValue file data).
Notation members_loop := (scan_members file data).
Notation items_loop := (scan_items file data).

Lemma next_token_eq sc :
  next_token file data sc
  = match token_at (separator (decoder sc)) with
    | Some (t, d) => (mkScanner d (locations sc), Done (inl t))
    | None => (sc, Done (inr (token_diagnostic file data (decoder sc))))
    end.
Proof.
  destruct sc as [[s st k] locs]. unfold next_token, Token. cbn [decoder unread tokenState tokenStack].
  destruct (skip_space s) as [|c t] eqn:Hs.
  - assert (token_at (separator (mkDecoder s st k)) = None) as ->.
    { unfold separator, token_at. cbn [unread tokenState tokenStack]. by rewrite Hs; cbn [unread]; rewrite Hs. }
    by destruct k.
  - by destruct (token_at _) as [[]|].
Qed.

Lemma then_eval {S E} (m rest : prog S (option E)) s :
  then_ m rest s = match m s with
                   | (s', Done None) => rest s'
                   | (s', Done (Some e)) => (s', Done (Some e))
                   | (s', Panic msg) => (s', Panic msg)
                   | (s', Blocked) => (s', Blocked)
                   end.
Proof. unfold then_, mbind, prog_bind. by destruct (m s) as [? [[]| |]]. Qed.

Lemma then_assoc {S E} (a b c : prog S (option E)) s : then_ (then_ a b) c s = then_ a (then_ b c) s.
Proof. rewrite !then_eval. destruct (a s) as [? [[]| |]]; by rewrite ?then_eval. Qed.

(** The scan of a part of the text went well, or ended with a diagnostic. *)
Definition goes_on (r : scanner * outcome (option DiagnosticError)) (d : Decoder) (spots : list (string * string))
    (locs : gmap string Z) : Prop :=
  r = (mkScanner d (record_spots data spots locs), Done None).
Definition refused (r : scanner * outcome (option DiagnosticError)) : Prop := ∃ sc e, r = (sc, Done (Some e)).

(** [r] is right about a text that the grammar reads as [p]. *)
Definition verdict {A} (r : scanner * outcome (option DiagnosticError)) (p : option (A * string))
    (ok : A → bool) (after : string → Decoder) (spots : list (string * string)) (locs : gmap string Z) : Prop :=
  match p with
  | Some (a, t) => if ok a then goes_on r (after t) spots locs else refused r
  | None => refused r
  end.

Lemma token_at_none d :
  tokenValueAllowed (tokenState d) = false → key_allowed (tokenState d) = false →
  array_may_end (tokenState d) = false → object_may_end (tokenState d) = false → token_at d = None.
Proof.
  intros H1 H2 H3 H4. unfold token_at, open_bracket, close_bracket. rewrite H1, H2, H3, H4.
  destruct (skip_space (unread d)) as [|c t]; [done|]. repeat case_bool_decide; try done.
  - by destruct (tokenStack d).
  - by destruct (tokenStack d).
  - by destruct (scan_string t) as [[]|].
  - by destruct (scalar (String c t)) as [[]|].
Qed.

Lemma refused_token sc (k : token → prog scanner (option DiagnosticError)) rest :
  token_at (separator (decoder sc)) = None →
  refused (then_ (t ← next_token file data; match t with inr err => mret (Some err) | inl t => k t end) rest sc).
Proof.
  intros Hn. rewrite then_eval. unfold mbind, prog_bind. rewrite next_token_eq, Hn. by repeat eexists.
Qed.

(** ** One round of each loop *)

Definition member_step (fuel : nat) (path : string) (seen : list string) : prog scanner (option DiagnosticError) :=
  t ← next_token file data;
  match t with
  | inr err => mret (Some err)
  | inl (Text key) =>
    offset ← offset_here data;
    let keyOffset := jsonStringTokenStart data offset in
    let keyPath := path +:+ "/" +:+ escapeJSONPointer key in
    if bool_decide (key ∈ seen) then
      mret (Some (newSourceDiagnostic "CONFIG_DUPLICATE_KEY" file keyPath
        ("duplicate JSON key " +:+ Quote key +:+ "; encoding/json would silently keep only the last value")
        "remove one of the duplicate keys" data keyOffset))
    else
      locate keyPath keyOffset;;
      then_ (scan_value fuel keyPath) (members_loop fuel path (key :: seen))
  | inl _ =>
    offset ← offset_here data;
    mret (Some (newSourceDiagnostic "CONFIG_SYNTAX_ERROR" file path "object key is not a string"
      "use quoted JSON object keys" data offset))
  end.

Lemma members_loop_eq fuel path seen sc c t :
  skip_space (unread (decoder sc)) = String c t → c ≠ "]"%char → c ≠ "}"%char →
  then_ (members_loop (S fuel) path seen) (closing file data) sc
  = then_ (member_step fuel path seen) (closing file data)
      (mkScanner ((decoder sc) <| unread := String c t |>) (locations sc)).
Proof.
  intros Hs H1 H2. rewrite !then_eval. cbn [scan_members]. unfold more, More, mbind, prog_bind at 1.
  rewrite Hs, bool_decide_false by naive_solver. done.
Qed.

Lemma items_loop_eq fuel path index sc c t :
  skip_space (unread (decoder sc)) = String c t → c ≠ "]"%char → c ≠ "}"%char →
  let path' := path +:+ "/" +:+ Itoa index in
  then_ (items_loop (S fuel) path index) (closing file data) sc
  = then_ (scan_value fuel path') (then_ (items_loop fuel path (index + 1)%Z) (closing file data))
      (mkScanner ((decoder sc) <| unread := String c t |>)
        (<[path' := offset_of data (String c t)]> (locations sc))).
Proof.
  intros Hs H1 H2. cbv zeta. rewrite <-then_assoc, (then_eval (items_loop _ _ _)), (then_eval (then_ _ _)). cbn [scan_items]. unfold more, More, mbind, prog_bind at 1.
  rewrite Hs, bool_decide_false by naive_solver. done.
Qed.

(** Where [More] says no, what follows is the closing bracket or an error. *)
Definition no_more (d : Decoder) : Prop :=
  match skip_space (unread d) with EmptyString => True | String c _ => c = "]"%char ∨ c = "}"%char end.

Lemma closing_eq sc :
  closing file data sc
  = match token_at (separator (decoder sc)) with
    | Some (_, d) => (mkScanner d (locations sc), Done None)
    | None => (sc, Done (Some (token_diagnostic file data (decoder sc))))
    end.
Proof.
  unfold closing, mbind, prog_bind. rewrite next_token_eq. by destruct (token_at _) as [[]|].
Qed.

Definition more_decoder (sc : scanner) : scanner := sc <| decoder := (More (decoder sc)).2 |>.

Lemma members_loop_end fuel path seen sc : no_more (decoder sc) →
  then_ (members_loop (S fuel) path seen) (closing file data) sc = closing file data (more_decoder sc).
Proof.
  intros Hno. rewrite then_eval. cbn [scan_members]. unfold more, mbind, prog_bind at 1, more_decoder.
  unfold no_more in Hno. unfold More. destruct (skip_space _) as [|c t]; [done|].
  rewrite bool_decide_true by done. done.
Qed.

Lemma items_loop_end fuel path index sc : no_more (decoder sc) →
  then_ (items_loop (S fuel) path index) (closing file data) sc = closing file data (more_decoder sc).
Proof.
  intros Hno. rewrite then_eval. cbn [scan_items]. unfold more, mbind, prog_bind at 1, more_decoder.
  unfold no_more in Hno. unfold More. destruct (skip_space _) as [|c t]; [done|].
  rewrite bool_decide_true by done. done.
Qed.

(** ** The loops against the grammar *)

Definition members_here (st : token_state) (u : string) : option (list (string * json) * string) :=
  match st with
  | tokenObjectStart => match expect "}" u with Some w => Some ([], w) | None => free_members u end
  | _ => match expect "," u with Some w => free_members w | None => w ← expect "}" u; Some ([], w) end
  end.
Definition member_spots_here (st : token_state) (fuel : nat) (path u : string) : list (string * string) :=
  match st with
  | tokenObjectStart => match expect "}" u with Some _ => [] | None => member_spots fuel path u end
  | _ => match expect "," u with Some w => member_spots fuel path w | None => [] end
  end.
Definition items_here (st : token_state) (u : string) : option (list json * string) :=
  match st with
  | tokenArrayStart => match expect "]" u with Some w => Some ([], w) | None => free_items u end
  | _ => match expect "," u with Some w => free_items w | None => w ← expect "]" u; Some ([], w) end
  end.
Definition item_spots_here (st : token_state) (fuel : nat) (path : string) (index : Z) (u : string) :
    list (string * string) :=
  match st with
  | tokenArrayStart =>
    match expect "]" u with Some _ => [] | None => item_spots fuel path index (skip_space u) u end
  | _ => match expect "," u with Some w => item_spots fuel path index (skip_space u) w | None => [] end
  end.

Definition value_right (fs : nat) : Prop := ∀ fp path sc s st k,
  separator (decoder sc) = mkDecoder s st k → tokenValueAllowed st = true →
  (st = tokenArrayStart → expect "]" s = None) → placed data s →
  2 * String.length s < fs → 2 * String.length s < fp →
  verdict (scan_value fs path sc) (free_value s) distinct (λ t, mkDecoder t (tokenValueEnd st) k)
    (value_spots fp path s) (locations sc).
Definition members_right (fs : nat) : Prop := ∀ fp path seen sc u st st0 k,
  decoder sc = mkDecoder u st (st0 :: k) → st ∈ [tokenObjectStart; tokenObjectComma] → placed data u →
  2 * String.length u < fs → 2 * String.length u < fp →
  verdict (then_ (members_loop fs path seen) (closing file data) sc) (members_here st u) (distinct_from seen)
    (λ t, mkDecoder t (tokenValueEnd st0) k) (member_spots_here st fp path u) (locations sc).
Definition items_right (fs : nat) : Prop := ∀ fp path index sc u st st0 k,
  decoder sc = mkDecoder u st (st0 :: k) → st ∈ [tokenArrayStart; tokenArrayComma] → placed data u →
  2 * String.length u + 1 < fs → 2 * String.length u + 1 < fp →
  verdict (then_ (items_loop fs path index) (closing file data) sc) (items_here st u) (forallb distinct)
    (λ t, mkDecoder t (tokenValueEnd st0) k) (item_spots_here st fp path index u) (locations sc).

Lemma token_at_value s st k c t :
  tokenValueAllowed st = true → (st = tokenArrayStart → expect "]" s = None) → skip_space s = String c t →
  token_at (mkDecoder s st k)
  = if bool_decide (c = "[")%char then Some (Delim c, mkDecoder t tokenArrayStart (st :: k))
    else if bool_decide (c = "{")%char then Some (Delim c, mkDecoder t tokenObjectStart (st :: k))
    else if bool_decide (c = "034")%char then
      '(body, u) ← scan_string t; Some (Text (unquote body), mkDecoder u (tokenValueEnd st) k)
    else '(v, u) ← scalar (String c t); Some (Scalar v, mkDecoder u (tokenValueEnd st) k).
Proof.
  intros Hst Hend Hs. unfold token_at, open_bracket, close_bracket. cbn [unread tokenState tokenStack].
  rewrite Hs, Hst. case_bool_decide; [done|]. unfold expect in Hend. rewrite Hs in Hend.
  assert (key_allowed st = false ∧ object_may_end st = false) as [-> ->] by by destruct st.
  case_bool_decide as Hb; [|case_bool_decide; [done|case_bool_decide as Hb'; [|done]]].
  - subst c. assert (array_may_end st = false) as ->.
    { destruct st; try done. by specialize (Hend eq_refl). }
    by destruct k.
  - subst c. by destruct k.
Qed.

Lemma scalar_distinct s v t : scalar s = Some (v, t) → distinct v = true.
Proof.
  unfold scalar. destruct (literal s "true"); [by intros [= <- _]|].
  destruct (literal s "false"); [by intros [= <- _]|]. destruct (literal s "null"); [by intros [= <- _]|].
  destruct (scan_number s) as [[]|]; [|done]. by intros [= <- _].
Qed.

Lemma verdict_fmap {A B} (f : A → B) r p ok ok' after spots locs :
  verdict r p ok after spots locs → (∀ a t, p = Some (a, t) → ok' (f a) = ok a) →
  verdict r (prod_map f id <$> p) ok' after spots locs.
Proof. destruct p as [[a t]|]; cbn; [|done]. intros H1 H2. by rewrite (H2 a t). Qed.

(** Comparisons of known characters. *)
Ltac decide_chars := repeat first [rewrite bool_decide_true by done|rewrite bool_decide_false by done].

Lemma value_step fs : members_right fs → items_right fs → value_right (S fs).
Proof.
  intros Hm Hi fp path sc s st k Hsep Hst Hend Hp Hfs Hfp.
  destruct fp as [|fp]; [lia|]. cbn [value_spots]. rewrite free_value_eq.
  cbn [scanJSONValue]. unfold mbind at 1, prog_bind at 1. rewrite next_token_eq, Hsep.
  destruct (skip_space s) as [|c t] eqn:Hs.
  { unfold token_at. cbn [unread]. rewrite Hs. by repeat eexists. }
  pose proof (length_skip_space s) as Hlen. rewrite Hs in Hlen. cbn in Hlen.
  pose proof (placed_skip _ _ Hp) as Hpt. rewrite Hs in Hpt.
  rewrite (token_at_value _ _ _ _ _ Hst Hend Hs).
  case_bool_decide as Hc; [|case_bool_decide as Hc'; [|case_bool_decide as Hq]].
  - subst c. apply placed_cons in Hpt; [|done]. decide_chars.
    specialize (Hi fp path 0%Z (mkScanner (mkDecoder t tokenArrayStart (st :: k)) (locations sc)) t tokenArrayStart st k
      eq_refl ltac:(by left) Hpt ltac:(lia) ltac:(lia)).
    apply (verdict_fmap JArray _ _ _ distinct) in Hi; [|done].
    unfold items_here, item_spots_here in Hi. by destruct (expect "]" t).
  - subst c. apply placed_cons in Hpt; [|done]. decide_chars.
    specialize (Hm fp path [] (mkScanner (mkDecoder t tokenObjectStart (st :: k)) (locations sc)) t tokenObjectStart st k
      eq_refl ltac:(by left) Hpt ltac:(lia) ltac:(lia)).
    apply (verdict_fmap JObject _ _ _ distinct) in Hm; [|intros; apply distinct_object].
    unfold members_here, member_spots_here in Hm. by destruct (expect "}" t).
  - destruct (scan_string t) as [[body u]|]; [done|]. by repeat eexists.
  - destruct (scalar (String c t)) as [[v u]|] eqn:Hv; [|by repeat eexists].
    cbn. by rewrite (scalar_distinct _ _ _ Hv).
Qed.

Lemma refused_then m rest sc : refused (m sc) → refused (then_ m rest sc).
Proof. intros (sc' & e & He). rewrite then_eval, He. by repeat eexists. Qed.

Lemma verdict_refused {A} r p (ok : A → bool) after spots locs :
  refused r → (∀ a t, p = Some (a, t) → ok a = false) → verdict r p ok after spots locs.
Proof. intros Hr Hp. destruct p as [[a t]|]; cbn; [|done]. by rewrite (Hp a t). Qed.

Lemma verdict_spots {A} r p (ok : A → bool) after l1 l2 locs :
  verdict r p ok after l2 (record_spots data l1 locs) → verdict r p ok after (l1 ++ l2) locs.
Proof.
  unfold verdict, goes_on. destruct p as [[a t]|]; [|done]. destruct (ok a); [|done].
  unfold record_spots. by rewrite foldl_app.
Qed.

Lemma verdict_none {A} r (ok : A → bool) after spots locs : refused r → verdict r None ok after spots locs.
Proof. done. Qed.

(** A call for a value where the grammar has a separator that is missing. *)
Lemma value_refused fs path sc : 0 < fs → token_at (separator (decoder sc)) = None → refused (scan_value fs path sc).
Proof.
  intros Hf Hn. destruct fs as [|fs]; [lia|]. cbn [scanJSONValue]. unfold mbind at 1, prog_bind at 1.
  rewrite next_token_eq, Hn. by repeat eexists.
Qed.

(** A value, and the rest of the loop after it. *)
Lemma value_then {A} fs path sc s st k rest p (ok : A → bool) ok' (f : json → A → A) after spots fp :
  value_right fs → separator (decoder sc) = mkDecoder s st k → tokenValueAllowed st = true →
  (st = tokenArrayStart → expect "]" s = None) → placed data s →
  2 * String.length s < fs → 2 * String.length s < fp →
  (∀ v a, ok' (f v a) = distinct v && ok a) →
  (∀ v t, free_value s = Some (v, t) →
    let locs := record_spots data (value_spots fp path s) (locations sc) in
    verdict (rest (mkScanner (mkDecoder t (tokenValueEnd st) k) locs)) (p t) ok after (spots t) locs) →
  verdict (then_ (scan_value fs path) rest sc) ('(v, t) ← free_value s; prod_map (f v) id <$> p t) ok' after
    (value_spots fp path s ++ match free_value s with Some (_, t) => spots t | None => [] end) (locations sc).
Proof.
  intros Hv Hsep Hst Hend Hp Hfs Hfp Hok Hrest. specialize (Hv fp path sc s st k Hsep Hst Hend Hp Hfs Hfp).
  destruct (free_value s) as [[v t]|]; cbn [mbind option_bind]; [|by apply refused_then].
  specialize (Hrest v t eq_refl). cbv zeta in Hrest. cbn [verdict] in Hv. destruct (distinct v) eqn:Hd.
  - unfold goes_on in Hv. rewrite then_eval, Hv. apply verdict_spots. eapply verdict_fmap; [exact Hrest|].
    intros a u _. by rewrite Hok, Hd.
  - apply verdict_refused; [by apply refused_then|]. intros a u. destruct (p t) as [[a' u']|]; [|done].
    intros [= <- _]. by rewrite Hok, Hd.
Qed.

Lemma free_members_skip s : free_members (skip_space s) = free_members s.
Proof. by rewrite !free_members_eq, expect_skip. Qed.
Lemma free_value_skip s : free_value (skip_space s) = free_value s.
Proof. by rewrite !free_value_eq, skip_space_idem. Qed.
Lemma free_items_skip s : free_items (skip_space s) = free_items s.
Proof. by rewrite !free_items_eq, free_value_skip. Qed.
Lemma member_spots_skip fp path s : member_spots fp path (skip_space s) = member_spots fp path s.
Proof. destruct fp; [done|]. cbn [member_spots]. by rewrite expect_skip, skip_space_idem. Qed.
Lemma value_spots_skip fp path s : value_spots fp path (skip_space s) = value_spots fp path s.
Proof. destruct fp; [done|]. cbn [value_spots]. by rewrite skip_space_idem. Qed.
Lemma item_spots_skip fp path index here s : item_spots fp path index here (skip_space s) = item_spots fp path index here s.
Proof. destruct fp; [done|]. cbn [item_spots]. by rewrite value_spots_skip, free_value_skip. Qed.

(** The tail of an object: the loop goes on where the grammar does. *)
Lemma members_tail body x v :
  match expect "," x with
  | Some u => prod_map (cons (unquote body, v)) id <$> free_members u
  | None => u ← expect "}" x; Some ([(unquote body, v)], u)
  end = prod_map (cons (unquote body, v)) id <$> members_here tokenObjectComma x.
Proof. unfold members_here. destruct (expect "," x); [done|]. by destruct (expect "}" x). Qed.

Lemma items_tail x v :
  match expect "," x with
  | Some u => prod_map (cons v) id <$> free_items u
  | None => u ← expect "]" x; Some ([v], u)
  end = prod_map (cons v) id <$> items_here tokenArrayComma x.
Proof. unfold items_here. destruct (expect "," x); [done|]. by destruct (expect "]" x). Qed.

(** The token where a key must stand. *)
Lemma token_at_key s st k :
  key_allowed st = true → (st = tokenObjectStart → expect "}" s = None) →
  token_at (mkDecoder s st k)
  = (t ← expect "034" s; '(body, u) ← scan_string t; Some (Text (unquote body), mkDecoder u tokenObjectColon k)).
Proof.
  intros Hst Hend. unfold token_at, open_bracket, close_bracket. cbn [unread tokenState tokenStack].
  unfold expect in *. destruct (skip_space s) as [|c t]; [done|].
  assert (tokenValueAllowed st = false ∧ array_may_end st = false) as [-> ->] by by destruct st.
  rewrite Hst. destruct (decide (c = "034"%char)) as [->|Hq]; [by decide_chars|].
  rewrite !(bool_decide_false (c = "034"%char)) by done.
  destruct (decide (c = "}"%char)) as [->|Hb].
  { decide_chars. destruct k as [|st0 k]; [done|]. destruct st; try done. by specialize (Hend eq_refl). }
  rewrite !(bool_decide_false (c = "}"%char)) by done. repeat case_bool_decide; try done.
  - by destruct k.
  - by destruct (scalar (String c t)) as [[]|].
Qed.

Lemma offset_of_app pre s : offset_of (pre +:+ s) s = Z.of_nat (String.length pre).
Proof. unfold offset_of. rewrite length_app_string. lia. Qed.

(** A separator that stands where it must. *)
Lemma separator_colon u k : separator (mkDecoder u tokenObjectColon k)
  = match expect ":" u with
    | Some w => mkDecoder w tokenObjectValue k | None => mkDecoder u tokenObjectColon k end.
Proof.
  unfold separator, expect. cbn. destruct (skip_space u) as [|c w]; [done|].
  by destruct (decide (c = ":"%char)) as [->|]; decide_chars.
Qed.

Lemma member_step_right fs fp path seen sc s st st0 k :
  value_right fs → members_right fs →
  separator (decoder sc) = mkDecoder s st (st0 :: k) → key_allowed st = true →
  (st = tokenObjectStart → expect "}" s = None) → placed data s →
  2 * String.length s < S fs → 2 * String.length s < S fp →
  verdict (then_ (member_step fs path seen) (closing file data) sc) (free_members s) (distinct_from seen)
    (λ t, mkDecoder t (tokenValueEnd st0) k) (member_spots (S fp) path s) (locations sc).
Proof.
  intros Hv Hm Hsep Hst Hend Hp Hfs Hfp. rewrite free_members_eq. cbn [member_spots].
  pose proof (token_at_key s st (st0 :: k) Hst Hend) as Htok. rewrite <-Hsep in Htok.
  destruct (expect "034" s) as [t|] eqn:He; [|by apply refused_token].
  cbn [mbind option_bind] in Htok |- *.
  destruct (scan_string t) as [[body u]|] eqn:Hs; [|by apply refused_token].
  cbn [mbind option_bind] in Htok |- *.
  rewrite then_eval. unfold member_step, mbind at 1, prog_bind at 1. rewrite next_token_eq, Htok. cbn [locations].
  unfold offset_here, mbind at 1, prog_bind at 1, mbind at 1, prog_bind at 1, get at 1. cbn [mret prog_ret decoder].
  set (d := mkDecoder u tokenObjectColon (st0 :: k)). set (keyPath := path +:+ _).
  assert (skip_space s = String "034" t) as Hq.
  { unfold expect in He. destruct (skip_space s) as [|c t']; [done|]. case_bool_decide; [|done]. by simplify_eq. }
  assert (jsonStringTokenStart data (InputOffset data d) = offset_of data (skip_space s)) as Hstart.
  { apply placed_skip in Hp as (pre & Hdata & Hpre). rewrite Hq in Hdata |- *.
    unfold InputOffset. cbn [unread d]. rewrite Hdata at 3. rewrite offset_of_app, Hdata.
    by eapply jsonStringTokenStart_spec. }
  rewrite Hstart. apply expect_shorter in He as Hl1. apply scan_string_shorter in Hs as Hl2.
  assert (placed data u) as Hpu by by (eapply placed_string; [exact Hs|]; placed_expect He).
  case_bool_decide as Hseen.
  { apply verdict_refused; [by repeat eexists|]. intros members r.
    destruct (expect ":" u) as [w|]; [|done]. cbn [mbind option_bind].
    destruct (free_value w) as [[v x]|]; [|done]. cbn [mbind option_bind].
    rewrite members_tail. destruct (members_here _ x) as [[l y]|]; [|done]. intros [= <- _].
    cbn. by rewrite bool_decide_true. }
  unfold locate, mbind at 1, prog_bind at 1, modify at 1. cbn [decoder locations].
  set (sc2 := _ <| locations := _ |>).
  assert (sc2 = mkScanner d (<[keyPath:=offset_of data (skip_space s)]> (locations sc))) as Hsc2 by done.
  rewrite <-(then_eval (then_ (scan_value fs keyPath) (members_loop fs path (unquote body :: seen)))), then_assoc.
  pose proof (separator_colon u (st0 :: k)) as Hcolon. fold d in Hcolon.
  destruct (expect ":" u) as [w|] eqn:Hw; last first.
  { apply verdict_refused; [|done]. apply refused_then, value_refused; [lia|].
    rewrite Hsc2. cbn [decoder]. rewrite Hcolon. by apply token_at_none. }
  cbn [mbind option_bind].
  apply expect_shorter in Hw as Hl3. assert (placed data w) as Hpw by by placed_expect Hw.
  apply (verdict_spots _ _ _ _ [(keyPath, skip_space s)]).
  change (record_spots data [(keyPath, skip_space s)] (locations sc)) with (locations sc2).
  erewrite (option_bind_ext _ (λ '(v, x), prod_map (cons (unquote body, v)) id <$> members_here tokenObjectComma x));
    [|intros [v x]; apply members_tail|done].
  assert (match '(_, x) ← free_value w; expect "," x with Some w' => member_spots fp path w' | None => [] end
    = match free_value w with Some (_, x) => member_spots_here tokenObjectComma fp path x | None => [] end) as ->.
  { by destruct (free_value w) as [[??]|]. }
  eapply (value_then fs keyPath sc2 w tokenObjectValue (st0 :: k)
    (then_ (members_loop fs path (unquote body :: seen)) (closing file data)) (members_here tokenObjectComma)
    (distinct_from (unquote body :: seen)) (distinct_from seen) (λ v, cons (unquote body, v))
    _ (member_spots_here tokenObjectComma fp path)); try done; [lia|lia|..].
  - intros v l. cbn. by rewrite bool_decide_false.
  - intros v x Hx. cbv zeta. apply free_value_shorter in Hx as Hl4.
    apply (Hm fp path (unquote body :: seen) (mkScanner (mkDecoder x tokenObjectComma (st0 :: k)) _) x
      tokenObjectComma st0 k); [done|set_solver|by eapply free_value_placed|lia|lia].
Qed.

(** [More] in front of something else than a closing bracket. *)
Definition other_than_end (c : ascii) : Prop := c ≠ "]"%char ∧ c ≠ "}"%char.

Lemma expect_other c d s t : skip_space s = String c t → c ≠ d → expect d s = None.
Proof. intros Hs Hc. unfold expect. by rewrite Hs, bool_decide_false. Qed.
Lemma expect_this c s t : skip_space s = String c t → expect c s = Some t.
Proof. intros Hs. unfold expect. by rewrite Hs, bool_decide_true. Qed.
Lemma expect_empty d s : skip_space s = EmptyString → expect d s = None.
Proof. intros Hs. unfold expect. by rewrite Hs. Qed.

Lemma free_value_empty s : skip_space s = EmptyString → free_value s = None.
Proof. intros Hs. by rewrite free_value_eq, Hs. Qed.
Lemma free_value_bracket s c t : skip_space s = String c t → c = "]"%char ∨ c = "}"%char → free_value s = None.
Proof. intros Hs Hc. rewrite free_value_eq, Hs. by destruct Hc as [->| ->]. Qed.

(** Where the closing bracket is not the right one. *)
Lemma closing_refused sc : token_at (separator (decoder sc)) = None → refused (closing file data sc).
Proof. intros Hn. rewrite closing_eq, Hn. by repeat eexists. Qed.

Lemma more_decoder_eq sc :
  more_decoder sc = mkScanner (mkDecoder (match skip_space (unread (decoder sc)) with
      | EmptyString => unread (decoder sc) | s => s end) (tokenState (decoder sc)) (tokenStack (decoder sc)))
    (locations sc).
Proof. destruct sc as [[s st k] locs]. unfold more_decoder, More. cbn [decoder unread]. by destruct (skip_space s). Qed.

Lemma separator_idle s st k :
  match skip_space s with String c _ => c ≠ ":"%char ∧ c ≠ ","%char | EmptyString => True end →
  separator (mkDecoder s st k) = mkDecoder s st k.
Proof.
  unfold separator. cbn [unread tokenState tokenStack]. destruct (skip_space s) as [|c t]; [done|].
  intros [H1 H2]. destruct st; by rewrite ?bool_decide_false.
Qed.

Lemma separator_start s st k :
  st ∈ [tokenArrayStart; tokenObjectStart] → separator (mkDecoder s st k) = mkDecoder s st k.
Proof.
  unfold separator. cbn [unread tokenState tokenStack].
  rewrite !elem_of_cons. by intros [->|[->|[]%elem_of_nil]]; destruct (skip_space s).
Qed.

Lemma separator_comma s t st st' k :
  skip_space s = String "," t → (st, st') ∈ [(tokenArrayComma, tokenArrayValue); (tokenObjectComma, tokenObjectKey)] →
  separator (mkDecoder s st k) = mkDecoder t st' k.
Proof.
  intros Hs Hst. unfold separator. cbn [unread tokenState tokenStack]. rewrite Hs.
  rewrite !elem_of_cons in Hst. destruct Hst as [[= -> ->]|[[= -> ->]|[]%elem_of_nil]]; by decide_chars.
Qed.

Lemma token_at_end s c t st st0 k :
  skip_space s = String c t → c = "]"%char ∨ c = "}"%char →
  token_at (mkDecoder s st (st0 :: k))
  = if (if bool_decide (c = "]"%char) then array_may_end st else object_may_end st)
    then Some (Delim c, mkDecoder t (tokenValueEnd st0) k) else None.
Proof.
  intros Hs Hc. unfold token_at, close_bracket. cbn [unread tokenState tokenStack]. rewrite Hs.
  destruct Hc as [->| ->]; decide_chars; [by destruct (array_may_end st)|by destruct (object_may_end st)].
Qed.

Lemma token_at_comma s c t st k :
  st ∈ [tokenArrayComma; tokenObjectComma] → skip_space s = String c t → ¬ (c = "]"%char ∨ c = "}"%char) →
  token_at (mkDecoder s st k) = None.
Proof.
  intros Hst Hs Hc. unfold token_at, open_bracket. cbn [unread tokenState tokenStack]. rewrite Hs.
  rewrite !(bool_decide_false (c = "]"%char)), !(bool_decide_false (c = "}"%char)) by naive_solver.
  rewrite !elem_of_cons in Hst.
  assert (tokenValueAllowed st = false ∧ key_allowed st = false) as [-> ->]
    by by destruct Hst as [->|[->|[]%elem_of_nil]].
  repeat case_bool_decide; try done.
  - by destruct (scan_string t) as [[]|].
  - by destruct (scalar (String c t)) as [[]|].
Qed.

Lemma skip_space_fix s c t : skip_space s = String c t → skip_space (String c t) = String c t.
Proof. intros <-. apply skip_space_idem. Qed.

Lemma length_skipped s c t : skip_space s = String c t → S (String.length t) ≤ String.length s.
Proof. intros Hs. pose proof (length_skip_space s) as Hl. by rewrite Hs in Hl. Qed.

Lemma members_end fs fp path seen sc u st st0 k :
  decoder sc = mkDecoder u st (st0 :: k) → st ∈ [tokenObjectStart; tokenObjectComma] → no_more (decoder sc) →
  verdict (then_ (members_loop (S fs) path seen) (closing file data) sc) (members_here st u) (distinct_from seen)
    (λ t, mkDecoder t (tokenValueEnd st0) k) (member_spots_here st fp path u) (locations sc).
Proof.
  intros Hd Hst Hno. rewrite members_loop_end by done. rewrite more_decoder_eq, Hd.
  cbn [unread tokenState tokenStack]. unfold no_more in Hno. rewrite Hd in Hno. cbn [unread] in Hno.
  destruct (skip_space u) as [|c w] eqn:Hu.
  - assert (members_here st u = None) as ->.
    { unfold members_here. rewrite !(expect_empty _ u Hu). rewrite free_members_eq, (expect_empty _ u Hu).
      by destruct st. }
    apply verdict_none, closing_refused. cbn [decoder]. unfold token_at. rewrite separator_idle by by rewrite Hu.
    cbn [unread]. by rewrite Hu.
  - rewrite closing_eq. cbn [decoder locations].
    rewrite separator_idle by (rewrite (skip_space_fix _ _ _ Hu); destruct Hno as [->| ->]; done).
    rewrite (token_at_end _ c w) by first [exact (skip_space_fix _ _ _ Hu)|done].
    assert (members_here st u = if bool_decide (c = "}"%char) then Some ([], w) else None) as ->.
    { unfold members_here. rewrite free_members_eq. destruct Hno as [->| ->]; decide_chars.
      - rewrite !(expect_other _ _ u _ Hu) by done. by destruct st.
      - rewrite (expect_this _ u _ Hu), (expect_other _ _ u _ Hu) by done. by destruct st. }
    rewrite !elem_of_cons in Hst.
    destruct Hno as [->| ->]; decide_chars; destruct Hst as [->|[->|[]%elem_of_nil]]; cbn; try by repeat eexists.
    + by rewrite (expect_this _ u _ Hu).
    + by rewrite (expect_other _ _ u _ Hu).
Qed.

Lemma members_step fs : value_right fs → members_right fs → members_right (S fs).
Proof.
  intros Hv Hm fp path seen sc u st st0 k Hd Hst Hp Hfs Hfp.
  destruct fp as [|fp]; [lia|].
  destruct (skip_space u) as [|c w] eqn:Hu; [apply members_end; [done..|]; unfold no_more; rewrite Hd; cbn [unread]; by rewrite Hu|].
  destruct (decide (c = "]"%char ∨ c = "}"%char)) as [Hc|Hc];
    [apply members_end; [done..|]; unfold no_more; rewrite Hd; cbn [unread]; by rewrite Hu|].
  rewrite (members_loop_eq _ _ _ _ c w) by first [by rewrite Hd|naive_solver]. rewrite Hd.
  set (sc1 := mkScanner _ _). pose proof (skip_space_fix _ _ _ Hu) as Hfix. apply length_skipped in Hu as Hlen.
  pose proof (placed_skip _ _ Hp) as Hps. rewrite Hu in Hps.
  rewrite !elem_of_cons in Hst. destruct Hst as [->|[->|[]%elem_of_nil]].
  - unfold members_here, member_spots_here. rewrite (expect_other c "}" u w) by naive_solver.
    rewrite <-free_members_skip, <-member_spots_skip, Hu.
    apply (member_step_right fs fp path seen sc1 (String c w) tokenObjectStart st0 k Hv Hm);
      [apply separator_start; set_solver|done|intros _; apply (expect_other c _ _ w Hfix); naive_solver|done|cbn; lia..].
  - unfold members_here, member_spots_here.
    destruct (decide (c = ","%char)) as [->|Hne].
    + rewrite (expect_this _ u _ Hu).
      apply (member_step_right fs fp path seen sc1 w tokenObjectKey st0 k Hv Hm);
        [eapply separator_comma; [exact Hfix|set_solver]|done|done|by apply (placed_cons _ _ _ Hps)|lia..].
    + rewrite !(expect_other c _ u w) by naive_solver. apply verdict_none, refused_token.
      assert (separator (decoder sc1) = decoder sc1) as ->;
        [|apply (token_at_comma (String c w) c w); [set_solver|done..]].
      unfold separator. change (unread (decoder sc1)) with (String c w). rewrite Hfix.
      change (tokenState (decoder sc1)) with tokenObjectComma. by rewrite bool_decide_false.
Qed.

Lemma items_end fs fp path index sc u st st0 k :
  decoder sc = mkDecoder u st (st0 :: k) → st ∈ [tokenArrayStart; tokenArrayComma] → no_more (decoder sc) →
  verdict (then_ (items_loop (S fs) path index) (closing file data) sc) (items_here st u) (forallb distinct)
    (λ t, mkDecoder t (tokenValueEnd st0) k) (item_spots_here st fp path index u) (locations sc).
Proof.
  intros Hd Hst Hno. rewrite items_loop_end by done. rewrite more_decoder_eq, Hd.
  cbn [unread tokenState tokenStack]. unfold no_more in Hno. rewrite Hd in Hno. cbn [unread] in Hno.
  destruct (skip_space u) as [|c w] eqn:Hu.
  - assert (items_here st u = None) as ->.
    { unfold items_here. rewrite !(expect_empty _ u Hu). rewrite free_items_eq, (free_value_empty u Hu).
      by destruct st. }
    apply verdict_none, closing_refused. cbn [decoder]. unfold token_at. rewrite separator_idle by by rewrite Hu.
    cbn [unread]. by rewrite Hu.
  - rewrite closing_eq. cbn [decoder locations].
    rewrite separator_idle by (rewrite (skip_space_fix _ _ _ Hu); destruct Hno as [->| ->]; done).
    rewrite (token_at_end _ c w) by first [exact (skip_space_fix _ _ _ Hu)|done].
    assert (items_here st u = if bool_decide (c = "]"%char) then Some ([], w) else None) as ->.
    { unfold items_here. rewrite free_items_eq, (free_value_bracket u c w Hu Hno). destruct Hno as [->| ->]; decide_chars.
      - rewrite (expect_this _ u _ Hu), (expect_other _ _ u _ Hu) by done. by destruct st.
      - rewrite !(expect_other _ _ u _ Hu) by done. by destruct st. }
    rewrite !elem_of_cons in Hst.
    destruct Hno as [->| ->]; decide_chars; destruct Hst as [->|[->|[]%elem_of_nil]]; cbn; try by repeat eexists.
    + by rewrite (expect_this _ u _ Hu).
    + by rewrite (expect_other _ _ u _ Hu).
Qed.

(** An item and the rest of its array; [here] is where [More] stopped. *)
Lemma item_step_right fs fp path index sc here s st st0 k :
  value_right fs → items_right fs → separator (decoder sc) = mkDecoder s st (st0 :: k) →
  tokenValueAllowed st = true → tokenValueEnd st = tokenArrayComma → (st = tokenArrayStart → expect "]" s = None) →
  placed data s → 2 * String.length s < fs → 2 * String.length s < fp →
  let path' := path +:+ "/" +:+ Itoa index in
  verdict (then_ (scan_value fs path') (then_ (items_loop fs path (index + 1)%Z) (closing file data))
      (mkScanner (decoder sc) (<[path' := offset_of data here]> (locations sc))))
    (free_items s) (forallb distinct) (λ t, mkDecoder t (tokenValueEnd st0) k)
    (item_spots (S fp) path index here s) (locations sc).
Proof.
  intros Hv Hi Hsep Hst Hafter Hend Hp Hfs Hfp path'. rewrite free_items_eq. cbn [item_spots].
  erewrite (option_bind_ext _ (λ '(v, x), prod_map (cons v) id <$> items_here tokenArrayComma x));
    [|intros [v x]; apply items_tail|done].
  apply (verdict_spots _ _ _ _ [(path', here)]).
  set (sc2 := mkScanner _ _).
  change (record_spots data [(path', here)] (locations sc)) with (locations sc2).
  eapply (value_then fs path' sc2 s st (st0 :: k) _ (items_here tokenArrayComma) (forallb distinct)
    (forallb distinct) (λ v, cons v) _ (item_spots_here tokenArrayComma fp path (index + 1)%Z)); try done.
  intros v x Hx. cbv zeta. apply free_value_shorter in Hx as Hl. rewrite Hafter.
  apply (Hi fp path (index + 1)%Z (mkScanner (mkDecoder x tokenArrayComma (st0 :: k)) _) x tokenArrayComma st0 k);
    [done|set_solver|by eapply free_value_placed|lia|lia].
Qed.

Lemma items_step fs : value_right fs → items_right fs → items_right (S fs).
Proof.
  intros Hv Hi fp path index sc u st st0 k Hd Hst Hp Hfs Hfp.
  destruct fp as [|fp]; [lia|].
  destruct (skip_space u) as [|c w] eqn:Hu;
    [apply items_end; [done..|]; unfold no_more; rewrite Hd; cbn [unread]; by rewrite Hu|].
  destruct (decide (c = "]"%char ∨ c = "}"%char)) as [Hc|Hc];
    [apply items_end; [done..|]; unfold no_more; rewrite Hd; cbn [unread]; by rewrite Hu|].
  rewrite (items_loop_eq _ _ _ _ c w) by first [by rewrite Hd|naive_solver]. rewrite Hd.
  pose proof (skip_space_fix _ _ _ Hu) as Hfix. apply length_skipped in Hu as Hlen.
  pose proof (placed_skip _ _ Hp) as Hps. rewrite Hu in Hps.
  pose (sc1 := mkScanner (mkDecoder (String c w) st (st0 :: k)) (locations sc)).
  rewrite !elem_of_cons in Hst. destruct Hst as [->|[->|[]%elem_of_nil]].
  - unfold items_here, item_spots_here. rewrite (expect_other c "]" u w) by naive_solver.
    rewrite <-free_items_skip, <-(item_spots_skip _ _ _ _ u), Hu.
    apply (item_step_right fs fp path index sc1 (String c w) (String c w) tokenArrayStart st0 k Hv Hi);
      [apply separator_start; set_solver|done|done|intros _; apply (expect_other c _ _ w Hfix); naive_solver|done|cbn; lia..].
  - unfold items_here, item_spots_here.
    destruct (decide (c = ","%char)) as [->|Hne].
    + rewrite (expect_this _ u _ Hu), Hu.
      apply (item_step_right fs fp path index sc1 (String "," w) w tokenArrayValue st0 k Hv Hi);
        [eapply separator_comma; [exact Hfix|set_solver]|done|done|done|by apply (placed_cons _ _ _ Hps)|lia..].
    + rewrite !(expect_other c _ u w) by naive_solver. apply verdict_none, refused_then, value_refused; [lia|].
      cbn [decoder]. change ((mkDecoder u tokenArrayComma (st0 :: k)) <| unread := String c w |>)
        with (mkDecoder (String c w) tokenArrayComma (st0 :: k)).
      assert (separator (mkDecoder (String c w) tokenArrayComma (st0 :: k))
        = mkDecoder (String c w) tokenArrayComma (st0 :: k)) as ->;
        [|apply (token_at_comma (String c w) c w); [set_solver|done..]].
      unfold separator. cbn [unread tokenState]. rewrite Hfix. by rewrite bool_decide_false.
Qed.

Lemma scan_right fs : value_right fs ∧ members_right fs ∧ items_right fs.
Proof.
  induction fs as [|fs (IHv & IHm & IHi)]; [split_and!; intros ?; intros; lia|].
  auto using value_step, members_step, items_step.
Qed.

(** ** The whole document *)

(** The text is one value, white space around it, without duplicate keys. *)
Definition one_value (v : json) : Prop :=
  ∃ rest, free_value data = Some (v, rest) ∧ skip_space rest = EmptyString ∧ distinct v = true.

Lemma scanJSONDocument_spec :
  (∀ v, one_value v → scanJSONDocument file data = Done (inl (document_locations data)))
  ∧ ((∀ v, ¬ one_value v) → ∃ err, scanJSONDocument file data = Done (inr err)).
Proof.
  destruct (scan_right (scan_fuel data)) as [Hv _]. unfold scan_fuel in *.
  specialize (Hv (2 * String.length data + 1) EmptyString (mkScanner (NewDecoder data) ∅) data tokenTopValue []).
  assert (placed data data) as Hp by by exists EmptyString.
  specialize (Hv ltac:(by unfold separator; destruct (skip_space _)) eq_refl ltac:(done) Hp ltac:(lia) ltac:(lia)).
  unfold scanJSONDocument, scan_fuel. unfold one_value.
  destruct (free_value data) as [[v rest]|] eqn:Hfree; cbn [verdict] in Hv; last first.
  { destruct Hv as (sc & e & ->). split; [by intros v (? & ? & _)|by exists e]. }
  destruct (distinct v) eqn:Hdist; last first.
  { destruct Hv as (sc & e & ->). split; [|by exists e]. intros v' (rest' & [= <- <-] & _ & ?). congruence. }
  unfold goes_on in Hv. rewrite Hv. cbn [decoder locations]. unfold Token. cbn [unread tokenStack tokenState].
  destruct (skip_space rest) as [|c t] eqn:Hrest.
  - split; [done|]. intros Hno. exfalso. by apply (Hno v), (ex_intro _ rest).
  - split; [intros v' (rest' & [= <- <-] & ? & _); congruence|]. intros _.
    destruct (token_at _) as [[]|]; by eexists.
Qed.
End verdict.

(** * What a recorded place is *)

(** A pointer with the text it points at: a key from its opening quote, the first
    item of an array, or the comma in front of another item. *)
Definition spot_ok (data : string) (spot : string * string) : Prop :=
  (∃ pre, data = pre +:+ spot.2) ∧ ∃ parent,
  (∃ body rest, spot = (parent +:+ "/" +:+ escapeJSONPointer (unquote body), String "034" (body +:+ String "034" rest)))
  ∨ (∃ index, spot.1 = parent +:+ "/" +:+ Itoa index ∧ (index = 0%Z ∨ ∃ rest, spot.2 = String "," rest)).

Section spots.
Context (data : string).

Lemma placed_suffix s : placed data s → ∃ pre, data = pre +:+ s.
Proof. intros (pre & ? & _). by exists pre. Qed.

Lemma spots_ok fuel :
  (∀ path s, placed data s → Forall (spot_ok data) (value_spots fuel path s))
  ∧ (∀ path s, placed data s → Forall (spot_ok data) (member_spots fuel path s))
  ∧ (∀ path index here s, placed data here → (index = 0%Z ∨ ∃ rest, here = String "," rest) → placed data s →
       Forall (spot_ok data) (item_spots fuel path index here s)).
Proof.
  induction fuel as [|fuel (IHv & IHm & IHi)]; [split_and!; intros; constructor|]. split_and!.
  - intros path s Hs%placed_skip. cbn [value_spots]. destruct (skip_space s) as [|c t]; [constructor|].
    case_bool_decide as Hc; [|case_bool_decide as Hc'; [|constructor]].
    + subst c. apply placed_cons in Hs; [|done]. destruct (expect "}" t); [constructor|]. by apply IHm.
    + subst c. apply placed_cons in Hs; [|done]. destruct (expect "]" t); [constructor|].
      apply IHi; [by apply placed_skip|by left|done].
  - intros path s Hs. cbn [member_spots]. destruct (expect "034" s) as [t|] eqn:He; [|constructor].
    cbn [mbind option_bind]. destruct (scan_string t) as [[body u]|] eqn:Hb; [|constructor]. cbn [mbind option_bind].
    destruct (expect ":" u) as [w|] eqn:Hw; [|constructor]. cbn [mbind option_bind].
    assert (placed data w) as Hpw by by (placed_expect Hw; eapply placed_string; [exact Hb|]; placed_expect He).
    apply scan_string_spec in Hb as [-> _]. constructor; [|apply Forall_app; split; [by apply IHv|]].
    + split; [by apply placed_suffix, placed_skip|]. exists path. left. exists body, u. f_equal.
      unfold expect in He. destruct (skip_space s) as [|c t]; [done|]. case_bool_decide; [|done]. by simplify_eq.
    + destruct (free_value w) as [[v x]|] eqn:Hv; [|constructor]. cbn [mbind option_bind].
      destruct (expect "," x) as [y|] eqn:Hy; [|constructor]. apply IHm. placed_expect Hy. by eapply free_value_placed.
  - intros path index here s Hhere Hindex Hs. cbn [item_spots]. constructor; [|apply Forall_app; split; [by apply IHv|]].
    + split; [by apply placed_suffix|]. exists path. right. by exists index.
    + destruct (free_value s) as [[v x]|] eqn:Hv; [|constructor].
      destruct (expect "," x) as [y|] eqn:Hy; [|constructor].
      assert (placed data x) as Hx by by eapply free_value_placed.
      apply IHi; [by apply placed_skip| |by placed_expect Hy].
      right. exists y. unfold expect in Hy. destruct (skip_space x) as [|c z]; [done|].
      case_bool_decide; [|done]. by simplify_eq.
Qed.

Lemma record_spots_lookup l locs path offset :
  record_spots data l locs !! path = Some offset →
  locs !! path = Some offset ∨ ∃ s, (path, s) ∈ l ∧ offset = offset_of data s.
Proof.
  revert locs. induction l as [|[path' s] l IH]; intros locs; cbn; [by left|].
  intros [Hin|(s' & Hin & ->)]%IH; [|right; exists s'; split; [by apply elem_of_cons; right|done]].
  destruct (decide (path' = path)) as [->|Hne].
  - rewrite lookup_insert_eq in Hin. injection Hin as <-. right. exists s. split; [by apply elem_of_cons; left|done].
  - rewrite lookup_insert_ne in Hin by done. by left.
Qed.
End spots.


