(* ===== verification/Decode.v ===== *)
(** Decoding request bodies: [decodeJSON] of [docker_api_util.go], the request types
    of the handlers and [UnmarshalJSON] of [container_config.go].

    A [decoder] is what [encoding/json] does with a value of a Go type: it updates
    the variable it is given, since an object may name a field twice.  A value that
    does not fit is reported by the first thing in it that does not: a value of the
    wrong type ([UnmarshalTypeError]) or, after [DisallowUnknownFields], a member
    that is no field.  The text of an error is not documented, so it is a
    parameter.  A JSON number that is only stored as an [any] is kept as its text:
    that [float64] may not hold it is not modelled. *)
From Stdlib Require Import Ascii.
From S2P Require Import Prelude GoStrings Json Cookbook Container ContainerConfig.

Class JsonMessages := { json_error : string → string }.

Inductive mismatch := WrongType | UnknownField (key : string).
Inductive fits (A : Type) := Fits (a : A) | Unfit (m : mismatch).
Arguments Fits {A} _.
Arguments Unfit {A} _.
#[export] Instance fits_ret : MRet fits := λ A a, Fits a.
#[export] Instance fits_bind : MBind fits := λ A B f x,
  match x with Fits a => f a | Unfit m => Unfit m end.
#[export] Instance fits_fmap : FMap fits := λ A B f x,
  match x with Fits a => Fits (f a) | Unfit m => Unfit m end.

Definition fitting {A} (x : fits A) : option A := match x with Fits a => Some a | Unfit _ => None end.

Definition decoder (A : Type) : Type := A → json → fits A.

(** * Go types *)

Definition into_string : decoder string := λ old v,
  match v with JNull => Fits old | JString s => Fits s | _ => Unfit WrongType end.
Definition into_bool : decoder bool := λ old v,
  match v with JNull => Fits old | JBool b => Fits b | _ => Unfit WrongType end.
(** [int] and [int64]: no fraction, no exponent, in range. *)
Definition into_int : decoder Z := λ old v,
  match v with JNull => Fits old | JNumber text => match Atoi_ok text with Some n => Fits n | None => Unfit WrongType end | _ => Unfit WrongType end.
Definition into_any : decoder json := λ _ v, Fits v.

(** The elements of a slice, over the ones it has. *)
Fixpoint into_items {A} (zero : A) (d : decoder A) (old : list A) (items : list json) : fits (list A) :=
  match items with
  | [] => Fits []
  | v :: items =>
    x ← d (default zero (head old)) v;
    xs ← into_items zero d (tail old) items;
    Fits (x :: xs)
  end.
Definition into_slice {A} (zero : A) (d : decoder A) : decoder (list A) := λ old v,
  match v with JNull => Fits [] | JArray items => into_items zero d old items | _ => Unfit WrongType end.

(** A map keeps the entries it has; every value is decoded from zero. *)
Fixpoint into_entries {A} (zero : A) (d : decoder A) (old : gmap string A) (members : list (string * json)) :
    fits (gmap string A) :=
  match members with
  | [] => Fits old
  | (key, v) :: members => x ← d zero v; into_entries zero d (<[key := x]> old) members
  end.
Definition into_map {A} (zero : A) (d : decoder A) : decoder (gmap string A) := λ old v,
  match v with JNull => Fits ∅ | JObject members => into_entries zero d old members | _ => Unfit WrongType end.

Definition into_pointer {A} (zero : A) (d : decoder A) : decoder (option A) := λ old v,
  match v with JNull => Fits None | _ => Some <$> d (default zero old) v end.

(** One field of a struct. *)
Definition field {S T} (f : S → T) `{!FieldSet f} (d : decoder T) : decoder S := λ s v,
  x ← d (f s) v; Fits (fset f (λ _, x) s).

Section decode.
Context {UN : Unicode} {JM : JsonMessages}.

(** The field a member is for: by its exact name, else up to case. *)
Definition field_for {S} (fields : list (string * decoder S)) (key : string) : option (decoder S) :=
  match filter (λ f, f.1 = key) fields with
  | (_, d) :: _ => Some d
  | [] => snd <$> head (filter (λ f, EqualFold f.1 key = true) fields)
  end.

(** [strict] is set by [DisallowUnknownFields]. *)
Fixpoint into_members {S} (strict : bool) (fields : list (string * decoder S)) (s : S)
    (members : list (string * json)) : fits S :=
  match members with
  | [] => Fits s
  | (key, v) :: members =>
    match field_for fields key with
    | Some d => s ← d s v; into_members strict fields s members
    | None => if strict then Unfit (UnknownField key) else into_members strict fields s members
    end
  end.
Definition into_fields {S} (strict : bool) (fields : list (string * decoder S)) : decoder S := λ old v,
  match v with
  | JNull => Fits old
  | JObject members => into_members strict fields old members
  | _ => Unfit WrongType
  end.
Definition into_struct {S} : list (string * decoder S) → decoder S := into_fields false.

(** * [decodeJSON] *)

Definition body_limit : Z := 16 * 2^20.
(** [io.LimitReader] *)
Definition limited (body : string) : string :=
  if bool_decide (Z.of_nat (String.length body) ≤ body_limit)%Z then body
  else take_string (Z.to_nat body_limit) body.

(** The text that was read from [s] when [rest] is left. *)
Definition text_before (s rest : string) : string := take_string (String.length s - String.length rest) s.

(** One value that [unmarshal] accepts, and white space after it. *)
Definition decodeJSON {A} (unmarshal : string → option A) (body : string) : result A :=
  let body := limited body in
  match parse_prefix body with
  | None => Err (json_error body)
  | Some (_, rest) =>
    match unmarshal (text_before body rest) with
    | None => Err (json_error body)
    | Some a =>
      match skip_space rest with
      | EmptyString => Ok a
      | _ =>
        match parse_prefix rest with
        | Some _ => Err "unexpected trailing JSON value"
        | None => Err (json_error body)
        end
      end
    end
  end.

Definition unmarshal_into {A} (zero : A) (d : decoder A) (text : string) : option A :=
  v ← parse text; fitting (d zero v).

(** * Requests of the handlers *)

Definition into_strings : decoder (list string) := into_slice EmptyString into_string.
Definition into_string_map : decoder (gmap string string) := into_map EmptyString into_string.

Record networkCreateRequest := mkNetworkCreate { ncName : string; ncDriver : string; ncLabels : gmap string string }.
#[export] Instance networkCreateRequest_eta : Eta networkCreateRequest := λ r,
  mkNetworkCreate (ncName r) (ncDriver r) (ncLabels r).
Definition decode_network_create : string → option networkCreateRequest :=
  unmarshal_into (mkNetworkCreate EmptyString EmptyString ∅)
    (into_struct [("Name", field ncName into_string); ("Driver", field ncDriver into_string);
       ("Labels", field ncLabels into_string_map)]).

Record connectRequest := mkConnect { conContainer : string; conAliases : list string }.
#[export] Instance connectRequest_eta : Eta connectRequest := λ r, mkConnect (conContainer r) (conAliases r).
Definition decode_connect : string → option connectRequest :=
  unmarshal_into (mkConnect EmptyString [])
    (into_struct [("Container", field conContainer into_string);
       ("EndpointConfig", into_struct [("Aliases", field conAliases into_strings)])]).

Record volumeCreateRequest := mkVolumeCreate {
  vcName : string; vcDriver : string; vcDriverOpts : gmap string string; vcLabels : gmap string string
}.
#[export] Instance volumeCreateRequest_eta : Eta volumeCreateRequest := λ r,
  mkVolumeCreate (vcName r) (vcDriver r) (vcDriverOpts r) (vcLabels r).
Definition decode_volume_create : string → option volumeCreateRequest :=
  unmarshal_into (mkVolumeCreate EmptyString EmptyString ∅ ∅)
    (into_struct [("Name", field vcName into_string); ("Driver", field vcDriver into_string);
       ("DriverOpts", field vcDriverOpts into_string_map); ("Labels", field vcLabels into_string_map)]).

(** The [Cmd] of an exec request. *)
Definition decode_exec : string → option (list string) :=
  unmarshal_into [] (into_struct [("Cmd", into_strings)]).

(** * The create request *)

#[export] Instance RestartPolicy_eta : Eta RestartPolicy := λ p, mkRestartPolicy (PolicyName p) (MaximumRetryCount p).
#[export] Instance HealthcheckConfig_eta : Eta HealthcheckConfig := λ h,
  mkHealthcheck (Test h) (Interval h) (Timeout h) (Retries h) (StartPeriod h).
#[export] Instance hostPort_eta : Eta hostPort := λ h, mkHostPort (hpHostIP h) (hpHostPort h).

Definition into_policy : decoder RestartPolicy :=
  into_struct [("Name", field PolicyName into_string); ("MaximumRetryCount", field MaximumRetryCount into_int)].

Definition into_healthcheck : decoder HealthcheckConfig :=
  into_struct [("Test", field Test into_strings); ("Interval", field Interval into_int);
    ("Timeout", field Timeout into_int); ("Retries", field Retries into_int);
    ("StartPeriod", field StartPeriod into_int)].

Definition into_host_port : decoder hostPort :=
  into_struct [("HostIp", field hpHostIP into_string); ("HostPort", field hpHostPort into_string)].

Definition into_host_config : decoder createContainerRequest :=
  into_struct [("RestartPolicy", field rRestartPolicy into_policy);
    ("NetworkMode", field rNetworkMode into_string);
    ("PortBindings", field rPortBindings
       (into_map [] (into_slice (mkHostPort EmptyString EmptyString) into_host_port)))].

Definition into_networking_config : decoder createContainerRequest :=
  into_struct [("EndpointsConfig", field rEndpoints (into_map [] (into_struct [("Aliases", into_strings)])))].

Definition into_create : decoder createContainerRequest :=
  into_struct [("User", field rUser into_string); ("WorkingDir", field rWorkingDir into_string);
    ("Entrypoint", field rEntrypoint into_strings);
    ("Healthcheck", field rHealthcheck (into_pointer (mkHealthcheck [] 0 0 0 0) into_healthcheck));
    ("Tty", field rTty into_bool); ("Hostname", field rHostname into_string);
    ("Image", field rImage into_string); ("Cmd", field rCmd into_strings);
    ("Env", field rEnv into_strings); ("Labels", field rLabels into_string_map);
    ("ExposedPorts", field rExposedPorts (into_map JNull into_any));
    ("HostConfig", into_host_config); ("NetworkingConfig", into_networking_config)].

Definition zero_request : createContainerRequest :=
  mkRequest ∅ ∅ EmptyString EmptyString [] None false EmptyString EmptyString [] [] ∅ ∅
    (mkRestartPolicy EmptyString 0) EmptyString ∅ ∅.
End decode.

(** ** Raw members

    The members of an object with the text of their values, from after the brace. *)
Fixpoint raw_members (fuel : nat) (s : string) : option (list (string * string)) :=
  match fuel with
  | 0 => None
  | S fuel =>
    t ← expect "034" s;
    '(body, t) ← scan_string t;
    t ← expect ":" t;
    let t := skip_space t in
    '(_, u) ← parse_prefix t;
    let member := (unquote body, text_before t u) in
    match expect "," u with
    | Some w => cons member <$> raw_members fuel w
    | None => Some [member]
    end
  end.

(** Into a [map[string]json.RawMessage]; [null] is a nil map. *)
Definition raw_object (text : string) : option (gmap string string) :=
  match parse text with
  | Some JNull => Some ∅
  | Some (JObject _) =>
    t ← expect "{" text;
    match expect "}" t with
    | Some _ => Some ∅
    | None => last_members <$> raw_members (String.length t) t
    end
  | _ => None
  end.

(** [UnmarshalJSON] of a create request. *)
Definition UnmarshalJSON {UN : Unicode} (text : string) : option createContainerRequest :=
  decoded ← unmarshal_into zero_request into_create text;
  raw ← raw_object text;
  raw_host ← match raw !! "HostConfig" with Some host => raw_object host | None => Some ∅ end;
  Some (decoded <| rawConfig := delete "NetworkingConfig" (delete "HostConfig" raw) |>
          <| rawHostConfig := raw_host |>).

(** * Examples *)

Section examples.
#[local] Existing Instance unicode_none.

Definition quoted (s : string) : string := dquote +:+ s +:+ dquote.
Definition sample_body : string :=
  "{ " +:+ quoted "image" +:+ ":" +:+ quoted "nginx" +:+ ", " +:+ quoted "HostConfig" +:+ ": {"
  +:+ quoted "Memory" +:+ ": 1e3 ," +:+ quoted "PortBindings" +:+ ":{" +:+ quoted "80/tcp" +:+ ":[{"
  +:+ quoted "HostPort" +:+ ":" +:+ quoted "8080" +:+ "}]}}}".

Example decode_sample :
  (λ r, (rImage r, map_to_list (rPortBindings r), map_to_list (rawConfig r), rawHostConfig r !! "Memory"))
    <$> UnmarshalJSON sample_body
  = Some ("nginx", [("80/tcp", [mkHostPort EmptyString "8080"])], [("image", quoted "nginx")], Some "1e3").
Proof. by vm_compute. Qed.

Example decode_trailing (JM : JsonMessages) :
  decodeJSON decode_exec ("{" +:+ quoted "cmd" +:+ ":[" +:+ quoted "ls" +:+ ",null]} ") = Ok ["ls"; EmptyString] ∧
  decodeJSON decode_exec "{} {}" = Err "unexpected trailing JSON value" ∧
  decodeJSON decode_exec ("{" +:+ quoted "Cmd" +:+ ":1}") = Err (json_error ("{" +:+ quoted "Cmd" +:+ ":1}")).
Proof. by vm_compute. Qed.
End examples.
