(* ===== verification/Engine.v ===== *)
(** The engine: its state, and the containers it keeps - [engine_core.go] without
    [removeContainer], which is with the runtimes.

    A [*Container] is a [ptr] into [heap], so that a container that has been taken
    out of the maps is still the object its holders see; networks and volumes are
    only reached through the engine's maps and are kept there by value.

    A handler is a [prog Engine]: the sections it runs under [e.mu] or a container's
    own lock are atomic, and a handler is their composition.  [time.Now()] is an
    argument of each operation. *)
From Stdlib Require Import Ascii.
From S2P Require Import Prelude GoStrings GoTime Cookbook Sha256 CookbookValidation Container ImageMatch EngineTypes Ledger.

Definition ptr : Type := nat.

(** One running service; a listener and a connection are numbers. *)
Record ContainerRuntime := mkRuntime {
  rt_container : ptr;
  active : bool;
  listeners : list nat;
  connections : gset nat
}.
#[export] Instance ContainerRuntime_eta : Eta ContainerRuntime := λ r,
  mkRuntime (rt_container r) (active r) (listeners r) (connections r).

(** [internalErrors] is the content of the channel of capacity four; [pids] is the
    process-wide [syntheticPID]; [listens] counts the calls of [net.Listen], and
    [sockets] are the listeners that are open. *)
Record Engine := mkEngine {
  cookbooks : gmap string Cookbook;
  seed : Z;
  overrides : gmap string Z;
  ledger : Ledger;
  startedAt : Time;
  nextId : Z;
  heap : gmap ptr Container;
  containers : gmap string ptr;
  names : gmap string string;
  networks : gmap string Network;
  volumes : gmap string Volume;
  runtimes : gmap string ContainerRuntime;
  endpointMode : string;
  runtimeClosing : bool;
  internalErrors : list string;
  pids : Z;
  listens : nat;
  sockets : gset nat
}.
#[export] Instance Engine_eta : Eta Engine := λ e,
  mkEngine (cookbooks e) (seed e) (overrides e) (ledger e) (startedAt e) (nextId e) (heap e)
    (containers e) (names e) (networks e) (volumes e) (runtimes e) (endpointMode e)
    (runtimeClosing e) (internalErrors e) (pids e) (listens e) (sockets e).

Definition bridge_network (now : Time) : Network := {|
  nName := "bridge"; nID := hashID "network:bridge"; nCreated := formatDockerTime now;
  nScope := "local"; nDriver := "bridge"; EnableIPv6 := false; Internal := false;
  Attachable := false; Ingress := false;
  IPAM := list_to_map [("Driver", AnyString "default"); ("Options", AnyNil);
    ("Config", AnyList [AnyMap [("Subnet", AnyString "127.19.0.0/24"); ("Gateway", AnyString "127.19.0.1")]])];
  Containers := ∅; nOptions := ∅; nLabels := ∅; Index := 0; NextHost := 2 |}.

Definition newEngine (now created : Time) (cbs : gmap string Cookbook) (sd : Z) (ov : gmap string Z)
    (l : Ledger) : Engine := {|
  cookbooks := cbs; seed := sd; overrides := ov; ledger := l; startedAt := now; nextId := 0;
  heap := ∅; containers := ∅; names := ∅; networks := {["bridge" := bridge_network created]};
  volumes := ∅; runtimes := ∅; endpointMode := "auto"; runtimeClosing := false;
  internalErrors := []; pids := 0; listens := 0; sockets := ∅ |}.

Definition cloneStringMap (input : gmap string string) : gmap string string := input.

(** * Names *)

(** The characters after the first: ASCII letters, digits, and [_.-]. *)
Definition name_rune (r : Z) : bool :=
  bool_decide (97 ≤ r ≤ 122 ∨ 65 ≤ r ≤ 90 ∨ 48 ≤ r ≤ 57)%Z.
Definition name_rune_later (r : Z) : bool :=
  name_rune r || bool_decide (r = 95 ∨ r = 46 ∨ r = 45)%Z.

Section engine.
Context {FS : FileSystem} {RO : RangeOrder} {UN : Unicode}.

Definition validateContainerName (name : string) : option string :=
  if bool_decide (255 < String.length name)
  then Some ("invalid container name " +:+ Quote name +:+ ": maximum length is 255 bytes")
  else match runes name with
  | [] => None
  | first :: rest =>
    if negb (name_rune first)
    then Some ("invalid container name " +:+ Quote name +:+ ": first character must be ASCII alphanumeric")
    else if negb (forallb name_rune_later rest)
    then Some ("invalid container name " +:+ Quote name +:+ ": allowed characters are ASCII letters, "
                 +:+ "digits, underscore, period, and hyphen")
    else None
  end.

Definition seedFor (e : Engine) (kind name : string) : Z :=
  match overrides e !! ToLower (TrimPrefix name "/") with
  | Some value => value
  | None => match overrides e !! ToLower kind with Some value => value | None => seed e end
  end.

(** * Access to the objects *)

(** A method of the container at [p]; a nil pointer panics. *)
Definition on {A} (p : ptr) (m : prog CState A) : prog Engine A := λ e,
  match heap e !! p with
  | None => (e, Panic "invalid memory address or nil pointer dereference")
  | Some c =>
    let '(s, r) := m (mkCState c (pids e)) in
    (e <| heap := <[p := this s]> (heap e) |> <| pids := syntheticPID s |>, r)
  end.

(** The container at [p], for fields that never change and for snapshots. *)
Definition deref (p : ptr) : prog Engine Container := on p (s ← get; mret (this s)).

Definition log_entry (now : Time) (entry : LedgerEntry) : prog Engine () :=
  modify (λ e, e <| ledger := Log now entry (ledger e) |>).

(** An entry about a container, with the fields the callers leave out. *)
Definition container_entry (c : Container) (channel event : string) : LedgerEntry :=
  mkEntry 0 EmptyString 0 (Seed c) (Name c) (Kind c) channel event 0 AnyNil AnyNil EmptyString None None
    EmptyString.
Definition engine_entry (channel event : string) (request response : any) : LedgerEntry :=
  mkEntry 0 EmptyString 0 0 EmptyString EmptyString channel event 0 request response EmptyString None None
    EmptyString.

Definition logContainerEvent (now : Time) (p : ptr) (event : string) (advance : eventAdvance)
    (request response : any) : prog Engine () :=
  c ← deref p;
  log_entry now ((container_entry c "docker" event) <| eCount := aCount advance |>
    <| eRequest := request |> <| eResponse := response |> <| eTransition := aTransition advance |>
    <| eBefore := Some (aBefore advance) |> <| eAfter := Some (aAfter advance) |>).

(** [e.counter.Add(1)] *)
Definition counter_add : prog Engine Z := λ e,
  let n := wrap64 (nextId e + 1) in (e <| nextId := n |>, Done n).

(** * Creation *)

(** The section of [createContainer] under [e.mu]. *)
Definition registerContainer (now : Time) (name image : string) (cb : Cookbook) (sd : Z)
    (labels : gmap string string) (env command : list string) : prog Engine (result ptr) := λ e,
  match names e !! name with
  | Some _ => (e, Done (Err ("conflict: the container name " +:+ Quote name +:+ " is already in use")))
  | None =>
    let n := wrap64 (nextId e + 1) in
    let id := containerID name n in
    let container := newContainer now id name image cb sd in
    let container := container <| Labels := cloneStringMap labels |> <| Env := env |> <| Command := command |> in
    let p := fresh (dom (heap e)) in
    (e <| nextId := n |> <| heap := <[p := container]> (heap e) |>
       <| containers := <[id := p]> (containers e) |> <| names := <[name := id]> (names e) |>,
     Done (Ok p))
  end.

(** The name that is used, and the cookbook and the seed it gets. *)
Definition chooseCookbook (e : Engine) (name image : string) : result (Cookbook * Z) :=
  match validateContainerName name with
  | Some err => Err err
  | None =>
    if bool_decide (image = EmptyString) then Err "image is required"
    else
      cb ← cookbookFor (cookbooks e) name image;
      let sd := seedFor e (cbKind cb) name in
      match Seeds cb !! Itoa sd with
      | None => Err ("cookbook " +:+ cbKind cb +:+ " has no seed " +:+ Itoa sd)
      | Some _ => Ok (cb, sd)
      end
  end.

Definition createContainer (now : Time) (name image : string) (labels : gmap string string)
    (env command : list string) : prog Engine (result ptr) :=
  let name := TrimPrefix (TrimSpace name) "/" in
  name ← (if bool_decide (name = EmptyString)
          then n ← counter_add; mret ("docker-zero-" +:+ Itoa n) else mret name);
  e ← get;
  match chooseCookbook e name image with
  | Err err => mret (Err err)
  | Ok (cb, sd) =>
    created ← registerContainer now name image cb sd labels env command;
    match created with
    | Err err => mret (Err err)
    | Ok p =>
      c ← deref p;
      log_entry now ((container_entry c "docker" "container.create")
        <| eRequest := AnyMap [("image", AnyString image); ("name", AnyString name)] |>
        <| eResponse := AnyMap [("id", AnyString (ID c))] |>
        <| eAfter := Some (stateSnapshotLocked c) |>);;
      mret (Ok p)
    end
  end.

(** * Lookup *)

(** The loop over the containers: [match] is what was found so far. *)
Fixpoint prefix_loop (ref : string) (found : option ptr) (l : list (string * ptr)) : result ptr :=
  match l with
  | [] => match found with Some p => Ok p | None => Err ("no such container: " +:+ ref) end
  | (id, p) :: l =>
    if HasPrefix id ref then
      match found with
      | Some _ => Err ("ambiguous container reference " +:+ Quote ref)
      | None => prefix_loop ref (Some p) l
      end
    else prefix_loop ref found l
  end.

(** [e.containers[id]] of a dangling name would be a nil container. *)
Definition findContainer (ref : string) (e : Engine) : result (option ptr) :=
  let ref := TrimPrefix (TrimSpace ref) "/" in
  match names e !! ref with
  | Some id => Ok (containers e !! id)
  | None =>
    match containers e !! ref with
    | Some p => Ok (Some p)
    | None => p ← prefix_loop ref None (range "engine_core.go:176" (containers e)); Ok (Some p)
    end
  end.

(** The objects of the container map, in the order of a loop over it. *)
Definition objects (site : string) (e : Engine) : list (ptr * Container) :=
  omap (λ p, c ← heap e !! p; Some (p, c)) (range site (containers e)).*2.

(** [sort.Slice] by creation: the loop order decides between equal times. *)
Definition created_le (a b : ptr * Container) : Prop := (Created a.2 ≤ Created b.2)%Z.
#[export] Instance created_le_dec a b : Decision (created_le a b) := Z_le_dec _ _.

Definition listContainers (all : bool) (e : Engine) : list (ptr * Container) :=
  merge_sort created_le
    (filter (λ pc, all = true ∨ isRunning pc.2 = true) (objects "engine_core.go:215" e)).

Definition findContainerByKind (kind : string) (e : Engine) : result ptr :=
  let candidates :=
    merge_sort created_le (filter (λ pc, Kind pc.2 = kind) (objects "engine_core.go:194" e)) in
  match candidates with
  | [] => Err ("no " +:+ kind +:+ " container exists")
  | (p, _) :: _ =>
    match filter (λ pc, isRunning pc.2 = true) candidates with
    | (p, _) :: _ => Ok p
    | [] => Ok p
    end
  end.

Definition snapshots (e : Engine) : list ContainerSnapshot :=
  (λ pc, snapshotLocked pc.2) <$> listContainers true e.
End engine.

(** * Concrete engines, for examples *)

Definition sample_cookbook (kind : string) : Cookbook :=
  mkCookbook kind [kind] (mkServiceDefaults (kind +:+ "-zero") kind "http" "127.0.0.2" 80 "127.0.0.1" 8080)
    {["0" := zero_Scenario]}.
Definition sample_container (id name kind : string) : Container :=
  newContainer 0%Z id name kind (sample_cookbook kind) 0.

(** An engine whose objects are the given containers. *)
Definition sample_engine (cs : list Container) : Engine :=
  let e := newEngine 0%Z 0%Z {["nginx" := sample_cookbook "nginx"; "redis" := sample_cookbook "redis"]} 0 ∅
             (newLedger "run" 0) in
  e <| heap := list_to_map (imap pair cs) |>
    <| containers := list_to_map (imap (λ i c, (ID c, i)) cs) |>
    <| names := list_to_map (zip (Name <$> cs) (ID <$> cs)) |>.
