(* ===== verification/EngineFacts.v ===== *)
(** The engine's registry of containers: names, creation and look-up.

    [registry_ok] says that names and identifiers are two keys of the same set of
    objects; [EngineTheorems.v] shows that every reachable engine satisfies it. *)
From Stdlib Require Import Ascii.
From S2P Require Import Prelude GoStrings GoTime Cookbook Sha256 CookbookValidation Container ContainerIdentity ImageMatch EngineTypes Ledger Engine.

(** * Names *)

Definition name_byte (c : ascii) : bool := is_alnum c || bool_decide (c = "_" ∨ c = "." ∨ c = "-")%char.

(** Go reads runes; a name is accepted when all its bytes are plain. *)
Definition valid_name (name : string) : Prop :=
  String.length name ≤ 255 ∧
  match name with
  | EmptyString => True
  | String c t => is_alnum c = true ∧ string_forallb name_byte t = true
  end.

Lemma runes_ascii c s : (byte_of c < 128)%Z → runes (String c s) = byte_of c :: runes s.
Proof. intros Hc. simpl. by rewrite bool_decide_true. Qed.

Ltac bounds :=
  repeat match goal with
  | H : _ && _ = true |- _ => apply andb_true_iff in H as [??]
  | H : bool_decide _ = true |- _ => apply bool_decide_eq_true in H
  end.

Lemma runes_high c s : ¬ (byte_of c < 128)%Z → ∃ r rs, runes (String c s) = r :: rs ∧ (128 ≤ r)%Z.
Proof.
  intros Hc. cbn [runes]. rewrite (bool_decide_false (byte_of c < 128)%Z) by done.
  assert (128 ≤ RuneError)%Z as Herr by done. cbv zeta.
  destruct s as [|b s2]; [by eexists _, _|].
  destruct (bool_decide (194 ≤ byte_of c ∧ _)%Z && _) eqn:H2.
  { eexists _, _. split; [reflexivity|]. bounds. lia. }
  destruct s2 as [|c3 s3]; [by eexists _, _|].
  destruct (bool_decide (224 ≤ byte_of c ∧ _)%Z && _ && _) eqn:H3.
  { eexists _, _. split; [reflexivity|]. bounds. case_bool_decide; lia. }
  destruct s3 as [|c4 s4]; [by eexists _, _|].
  destruct (bool_decide (240 ≤ byte_of c ∧ _)%Z && _ && _ && _) eqn:H4; [|by eexists _, _].
  eexists _, _. split; [reflexivity|]. bounds. case_bool_decide; lia.
Qed.

Lemma name_rune_byte c : name_rune (byte_of c) = is_alnum c.
Proof. by destruct c as [[] [] [] [] [] [] [] []]. Qed.
Lemma name_rune_later_byte c : name_rune_later (byte_of c) = name_byte c.
Proof. by destruct c as [[] [] [] [] [] [] [] []]. Qed.

Lemma name_rune_high r : (128 ≤ r)%Z → name_rune r = false ∧ name_rune_later r = false.
Proof. intros Hr. unfold name_rune_later, name_rune. rewrite !bool_decide_false by lia. done. Qed.

Lemma high_byte c : ¬ (byte_of c < 128)%Z → is_alnum c = false ∧ name_byte c = false.
Proof.
  rewrite <-name_rune_byte, <-name_rune_later_byte. intros Hc. apply name_rune_high. lia.
Qed.

Lemma runes_name s : forallb name_rune_later (runes s) = string_forallb name_byte s.
Proof.
  induction s as [|c s IH]; [done|]. destruct (decide (byte_of c < 128)%Z) as [Hc|Hc].
  - rewrite runes_ascii by done. simpl. by rewrite IH, name_rune_later_byte.
  - destruct (runes_high c s Hc) as (r & rs & -> & Hr). simpl.
    destruct (name_rune_high r Hr) as [_ ->], (high_byte c Hc) as [_ ->]. done.
Qed.

Lemma validateContainerName_spec `{Unicode} name : validateContainerName name = None ↔ valid_name name.
Proof.
  unfold validateContainerName, valid_name. case_bool_decide as Hlen; [split; [done|lia]|].
  destruct name as [|c s]; [simpl; split; [split; [lia|done]|done]|].
  destruct (decide (byte_of c < 128)%Z) as [Hc|Hc].
  - rewrite runes_ascii by done. rewrite name_rune_byte, runes_name.
    destruct (is_alnum c); simpl; [|naive_solver]. destruct (string_forallb name_byte s); simpl; [|naive_solver].
    split; [|done]. simpl in Hlen. split; [lia|done].
  - destruct (runes_high c s Hc) as (r & rs & -> & Hr).
    destruct (name_rune_high r Hr) as [-> _], (high_byte c Hc) as [-> _]. simpl. naive_solver.
Qed.

(** A valid name is its own file name in the ledger. *)
Lemma sanitizeFilename_valid name : valid_name name → sanitizeFilename name = name.
Proof.
  intros [_ Hname]. assert (string_forallb name_byte name = true) as Hall.
  { destruct name as [|c t]; [done|]. simpl. destruct Hname as [Hc ->]. unfold name_byte. by rewrite Hc. }
  clear Hname. unfold sanitizeFilename. induction name as [|c t IH]; [done|].
  simpl in Hall. apply andb_true_iff in Hall as [Hc Ht].
  destruct (decide (byte_of c < 128)%Z) as [Hlt|Hge]; [|by destruct (high_byte c Hge); congruence].
  rewrite runes_ascii by done. simpl. rewrite IH by done.
  assert (sanitize_rune (byte_of c) = String c EmptyString) as ->; [|done].
  revert Hc Hlt. clear. destruct c as [[] [] [] [] [] [] [] []]; vm_compute; congruence.
Qed.

(** * The registry *)

(** [p] is the container [c] that the engine keeps. *)
Definition registered (e : Engine) (p : ptr) (c : Container) : Prop :=
  containers e !! ID c = Some p ∧ heap e !! p = Some c.

Record registry_ok (e : Engine) : Prop := {
  by_name : ∀ n id, names e !! n = Some id →
    ∃ p c, registered e p c ∧ ID c = id ∧ Name c = n;
  by_id : ∀ id p, containers e !! id = Some p →
    ∃ c, heap e !! p = Some c ∧ ID c = id ∧ names e !! Name c = Some id;
  named : ∀ n id, names e !! n = Some id → n ≠ EmptyString ∧ valid_name n
}.

Section registry.
Context (e : Engine) (He : registry_ok e).

Lemma registered_name p c : registered e p c → names e !! Name c = Some (ID c).
Proof. intros [Hid Hp]. destruct (by_id e He _ _ Hid) as (c' & Hp' & _ & Hn). congruence. Qed.

(** Names, identifiers and objects determine each other. *)
Lemma registered_same_name p1 c1 p2 c2 :
  registered e p1 c1 → registered e p2 c2 → Name c1 = Name c2 → p1 = p2.
Proof.
  intros H1 H2 Heq. pose proof (registered_name _ _ H1) as Hn1. pose proof (registered_name _ _ H2) as Hn2.
  destruct H1 as [H1 _], H2 as [H2 _]. congruence.
Qed.

Lemma registered_same_id p1 c1 p2 c2 :
  registered e p1 c1 → registered e p2 c2 → ID c1 = ID c2 → p1 = p2.
Proof. intros [H1 _] [H2 _] Heq. congruence. Qed.

Lemma registered_by_id id p : containers e !! id = Some p ↔ ∃ c, registered e p c ∧ ID c = id.
Proof.
  split.
  - intros Hid. destruct (by_id e He _ _ Hid) as (c & Hp & Hc & _). exists c. split; [|done].
    split; [by rewrite Hc|done].
  - intros (c & [Hid _] & <-). done.
Qed.
End registry.

(** * Look-up *)

Section lookup.
Context {RO : RangeOrder} {UN : Unicode}.

Lemma prefix_loop_spec ref found l :
  prefix_loop ref found l =
  match found, filter (λ x, HasPrefix x.1 ref = true) l with
  | Some p, [] => Ok p
  | None, [(_, p)] => Ok p
  | None, [] => Err ("no such container: " +:+ ref)
  | _, _ => Err ("ambiguous container reference " +:+ Quote ref)
  end.
Proof.
  revert found. induction l as [|[id p] l IH]; intros found; simpl; [by destruct found|].
  rewrite filter_cons. simpl. destruct (HasPrefix id ref).
  - rewrite decide_True by done. destruct found as [q|]; [done|]. rewrite IH.
    by destruct (filter _ l).
  - rewrite decide_False by done. apply IH.
Qed.

(** [c] is what [r] refers to: by name, else by identifier, else by the only
    identifier that begins with it. *)
Definition refers (e : Engine) (r : string) (p : ptr) : Prop :=
  ∃ c, registered e p c ∧
    (Name c = r ∨
     (∀ p' c', registered e p' c' → Name c' ≠ r) ∧
     (ID c = r ∨
      (∀ p' c', registered e p' c' → ID c' ≠ r) ∧
      HasPrefix (ID c) r = true ∧
      ∀ p' c', registered e p' c' → HasPrefix (ID c') r = true → p' = p)).

Lemma find_prefix_spec e r site : registry_ok e →
  (∀ p c, registered e p c → Name c ≠ r) → (∀ p c, registered e p c → ID c ≠ r) →
  ∀ p, prefix_loop r None (range site (containers e)) = Ok p ↔ refers e r p.
Proof.
  intros He Hn Hid p. rewrite prefix_loop_spec.
  set (l := filter _ _).
  assert (∀ id q, (id, q) ∈ l ↔ ∃ c, registered e q c ∧ ID c = id ∧ HasPrefix id r = true) as Hl.
  { intros id q. unfold l. rewrite list_elem_of_filter, elem_of_range, (registered_by_id e He). naive_solver. }
  assert (refers e r p ↔ ∃ id, (id, p) ∈ l ∧ ∀ id' q, (id', q) ∈ l → q = p) as ->.
  { unfold refers. setoid_rewrite Hl. split.
    - intros (c & Hc & [Heq|[_ [Heq|(_ & Hpre & Huniq)]]]); [by destruct (Hn p c)|by destruct (Hid p c)|].
      exists (ID c). split; [by exists c|]. intros id' q (c' & Hc' & <- & Hpre'). by eapply Huniq.
    - intros (id & (c & Hc & <- & Hpre) & Huniq). exists c. split; [done|]. right. split; [done|]. right.
      split; [done|]. split; [done|]. intros q c' Hc' Hpre'. apply (Huniq (ID c') q). by exists c'. }
  assert (NoDup l.*1) as Hnd.
  { unfold l. eapply sublist_NoDup; [apply (range_NoDup site (containers e))|].
    apply fmap_sublist, sublist_filter. }
  destruct l as [|[id q] [|[id2 q2] l']].
  - split; [done|]. by intros (? & []%elem_of_nil & _).
  - split.
    + intros [= <-]. exists id. split; [by left|]. intros id' q' Hin%list_elem_of_singleton. congruence.
    + intros (? & Hin%list_elem_of_singleton & _). congruence.
  - split; [done|]. intros (id' & _ & Huniq). exfalso.
    assert (q = p) as -> by (eapply Huniq; by left). assert (q2 = p) as -> by (eapply Huniq; right; by left).
    destruct (Hl id p) as [(c & [_ Hc] & <- & _) _]; [by left|].
    destruct (Hl id2 p) as [(c2 & [_ Hc2] & <- & _) _]; [right; by left|]. simplify_eq.
    apply NoDup_cons in Hnd as [Hnd _]. apply Hnd. by left.
Qed.

Lemma findContainer_spec ref e : registry_ok e →
  (∀ p, findContainer ref e = Ok (Some p) ↔ refers e (TrimPrefix (TrimSpace ref) "/") p) ∧
  findContainer ref e ≠ Ok None.
Proof.
  intros He. unfold findContainer. set (r := TrimPrefix _ _).
  destruct (names e !! r) as [id|] eqn:Hname.
  { destruct (by_name e He _ _ Hname) as (p0 & c0 & Hc0 & <- & Hr). pose proof Hc0 as [Hid0 _]. rewrite Hid0.
    split; [|done]. intros p. split.
    - intros [= <-]. exists c0. auto.
    - intros (c & Hc & [Heq|[Hno _]]); [|by destruct (Hno _ _ Hc0)].
      do 2 f_equal. eapply (registered_same_name e He); [done..|congruence]. }
  assert (∀ p c, registered e p c → Name c ≠ r) as Hno.
  { intros p c Hc Heq. pose proof (registered_name e He p c Hc). congruence. }
  destruct (containers e !! r) as [p0|] eqn:Hid.
  { apply (registered_by_id e He) in Hid as (c0 & Hc0 & Hr). split; [|done]. intros p. split.
    - intros [= <-]. exists c0. auto.
    - intros (c & Hc & [Heq|[_ [Heq|[Hno' _]]]]); [by destruct (Hno p c)| |by destruct (Hno' _ _ Hc0)].
      do 2 f_equal. eapply (registered_same_id e); [done..|congruence]. }
  assert (∀ p c, registered e p c → ID c ≠ r) as Hnoid.
  { intros p c [Hc _] <-. congruence. }
  pose proof (find_prefix_spec e r "engine_core.go:176" He Hno Hnoid) as Hspec.
  destruct (prefix_loop _ _ _) as [q|] eqn:Hloop; simpl; (split; [|done]); intros p; rewrite <-Hspec; naive_solver.
Qed.

Lemma findContainer_registered ref e o : registry_ok e → findContainer ref e = Ok o →
  ∃ p c, o = Some p ∧ registered e p c.
Proof.
  intros He Hf. destruct (findContainer_spec ref e He) as [Hspec Hnil].
  destruct o as [p|]; [|done]. apply Hspec in Hf as (c & Hc & _). eauto.
Qed.

(** [findContainer] returns a container exactly when the reference, trimmed and
    without its slash, is the container's name, or nobody's name but its
    identifier, or neither but the beginning of its identifier only; the nil
    container is never returned without an error. *)
Theorem findContainer_exact ref e : registry_ok e →
  (∀ p, findContainer ref e = Ok (Some p) ↔ refers e (TrimPrefix (TrimSpace ref) "/") p) ∧
  findContainer ref e ≠ Ok None.
Proof. apply findContainer_spec. Qed.
End lookup.

(** * Steps that leave the registry alone *)

Definition same_objects (h h' : gmap ptr Container) : Prop :=
  ∀ q, identity <$> h' !! q = identity <$> h !! q.

(** The parts of the engine that only creations, removals and runtimes change. *)
Definition registry (e : Engine) := (containers e, names e, runtimes e, sockets e, listens e).

(** [e'] has the registry of [e], and its objects up to the parts of an object that
    are not its identity. *)
Definition frames (e e' : Engine) : Prop :=
  registry e' = registry e ∧ same_objects (heap e) (heap e').

Lemma frames_fields e e' : frames e e' →
  containers e' = containers e ∧ names e' = names e ∧ same_objects (heap e) (heap e').
Proof. by intros [[=] ?]. Qed.

Lemma frames_runtimes e e' : frames e e' →
  runtimes e' = runtimes e ∧ sockets e' = sockets e ∧ listens e' = listens e.
Proof. by intros [[=] _]. Qed.

Lemma frames_refl e : frames e e.
Proof. by split. Qed.

Lemma frames_trans e1 e2 e3 : frames e1 e2 → frames e2 e3 → frames e1 e3.
Proof. intros (H1 & H3) (G1 & G3). split; [congruence|]. intros q. by rewrite G3. Qed.

Lemma same_object h h' q c : same_objects h h' → h !! q = Some c →
  ∃ c', h' !! q = Some c' ∧ identity c' = identity c.
Proof. intros Hs Hq. specialize (Hs q). rewrite Hq in Hs. by apply fmap_Some in Hs as (c' & ? & ?); eauto. Qed.

Lemma same_objects_sym h h' : same_objects h h' → same_objects h' h.
Proof. intros Hs q. by rewrite Hs. Qed.

Lemma identity_eq c c' : identity c = identity c' → ID c = ID c' ∧ Name c = Name c' ∧ Kind c = Kind c'.
Proof. intros [=]. auto. Qed.

(** [e'] has the containers, the names and the objects of [e]. *)
Definition same_registry (e e' : Engine) : Prop :=
  (containers e', names e') = (containers e, names e) ∧ same_objects (heap e) (heap e').

Lemma frames_same_registry e e' : frames e e' → same_registry e e'.
Proof. intros (? & ? & ?)%frames_fields. split; [congruence|done]. Qed.

Lemma same_registered e e' p c : same_registry e e' → registered e p c →
  ∃ c', registered e' p c' ∧ identity c' = identity c.
Proof.
  intros [[= Hc Hn] Hs] [Hid Hp]. destruct (same_object _ _ _ _ Hs Hp) as (c' & Hp' & Heq).
  exists c'. split; [|done]. split; [|done]. rewrite Hc. by destruct (identity_eq _ _ Heq) as [-> _].
Qed.

Lemma same_registry_ok e e' : same_registry e e' → registry_ok e → registry_ok e'.
Proof.
  intros Hf He. pose proof Hf as [[= Hc Hn] Hs]. split.
  - rewrite Hn. intros n id Hid. destruct (by_name e He _ _ Hid) as (p & c & Hreg & <- & <-).
    destruct (same_registered _ _ _ _ Hf Hreg) as (c' & Hreg' & (? & ? & ?)%identity_eq). eauto 10.
  - rewrite Hc, Hn. intros id p Hid. destruct (by_id e He _ _ Hid) as (c & Hp & <- & Hname).
    destruct (same_object _ _ _ _ Hs Hp) as (c' & Hp' & (? & Heq & ?)%identity_eq). exists c'. by rewrite Heq.
  - rewrite Hn. apply (named e He).
Qed.

Lemma frames_registry e e' : frames e e' → registry_ok e → registry_ok e'.
Proof. intros Hf. by apply same_registry_ok, frames_same_registry. Qed.

Lemma deref_spec p e : deref p e =
  match heap e !! p with
  | Some c => (e, Done c)
  | None => (e, Panic "invalid memory address or nil pointer dereference")
  end.
Proof.
  unfold deref, on. destruct (heap e !! p) as [c|] eqn:Hp; [|done]. unfold mbind, prog_bind. simpl.
  rewrite insert_id by done. by destruct e.
Qed.

Lemma bind_deref {A} p (f : Container → prog Engine A) e c : heap e !! p = Some c → (deref p ≫= f) e = f c e.
Proof. intros Hp. unfold mbind, prog_bind. by rewrite deref_spec, Hp. Qed.

Section frames.
Context {FS : FileSystem} {RO : RangeOrder} {UN : Unicode} (e0 : Engine).
Notation framing := (keeps (frames e0)).

Lemma framing_step {A} (m : prog Engine A) : (∀ e, frames e (m e).1) → framing m.
Proof. intros Hm e He. by eapply frames_trans. Qed.

Lemma framing_modify f : (∀ e, frames e (f e)) → framing (modify f).
Proof. intros Hf. by apply framing_step. Qed.

Lemma framing_on {A} p (m : prog CState A) : (∀ c, keeps (is_same c) m) → framing (on p m).
Proof.
  intros Hm. apply framing_step. intros e. unfold on. destruct (heap e !! p) as [c|] eqn:Hp; [|apply frames_refl].
  pose proof (Hm c (mkCState c (pids e)) eq_refl) as Hsame.
  destruct (m _) as [s r]. split; [done|]. intros q. simpl.
  destruct (decide (q = p)) as [->|Hne]; [|by rewrite lookup_insert_ne].
  rewrite lookup_insert_eq, Hp. simpl. by f_equal.
Qed.

Lemma framing_set p f : (∀ c, identity (f c) = identity c) → framing (on p (modify_this f)).
Proof. intros Hf. apply framing_on. intros c. by apply same_modify_this. Qed.

Lemma framing_deref p : framing (deref p).
Proof. apply framing_on. intros c. apply keeps_bind; [apply keeps_get|intros; apply keeps_ret]. Qed.

Lemma framing_log now entry : framing (log_entry now entry).
Proof. by apply framing_modify. Qed.

Lemma framing_bind {A B} (m : prog Engine A) (f : A → prog Engine B) :
  framing m → (∀ a, framing (f a)) → framing (m ≫= f).
Proof. apply keeps_bind. Qed.

Lemma framing_event now p event advance request response :
  framing (logContainerEvent now p event advance request response).
Proof. apply framing_bind; [apply framing_deref|]. intros c. apply framing_log. Qed.

Lemma framing_counter : framing counter_add.
Proof. by apply framing_step. Qed.
End frames.
Create HintDb framing discriminated.
#[export] Hint Resolve framing_deref framing_log framing_counter framing_event framing_bind framing_set
  framing_on keeps_ret keeps_get : framing.

(** * Creation *)

Section creation.
Context {FS : FileSystem} {RO : RangeOrder} {UN : Unicode}.

(** The name that is used, and the engine with its counter moved when the name is
    made up. *)
Definition chosen_name (name : string) (e : Engine) : string * Engine :=
  let name := TrimPrefix (TrimSpace name) "/" in
  if bool_decide (name = EmptyString)
  then let n := wrap64 (nextId e + 1) in ("docker-zero-" +:+ Itoa n, e <| nextId := n |>)
  else (name, e).

(** The identifier of the container that is created next. *)
Definition next_container_id (name : string) (e : Engine) : string :=
  let '(name, e) := chosen_name name e in containerID name (wrap64 (nextId e + 1)).

(** [e] with a new container [c] at [p]. *)
Definition with_container (e e' : Engine) (p : ptr) (c : Container) : Prop :=
  heap e !! p = None ∧ names e !! Name c = None ∧
  heap e' = <[p := c]> (heap e) ∧ containers e' = <[ID c := p]> (containers e) ∧
  names e' = <[Name c := ID c]> (names e) ∧ networks e' = networks e ∧
  (runtimes e', sockets e', listens e') = (runtimes e, sockets e, listens e).

Lemma with_container_registry e e' p c : registry_ok e → with_container e e' p c →
  containers e !! ID c = None → Name c ≠ EmptyString → valid_name (Name c) → registry_ok e'.
Proof.
  intros He (Hp & Hname & Hh & Hc & Hn & _ & _) Hid Hne Hvalid.
  assert (∀ id q, containers e !! id = Some q → q ≠ p ∧ id ≠ ID c) as Hold.
  { intros id q Hq. destruct (by_id e He _ _ Hq) as (c' & Hq' & _). split; congruence. }
  split.
  - rewrite Hn. intros n id [[<- <-]|[Hne' Hlk]]%lookup_insert_Some.
    + exists p, c. unfold registered. rewrite Hc, Hh. by rewrite !lookup_insert_eq.
    + destruct (by_name e He _ _ Hlk) as (q & c' & [Hq Hq'] & <- & <-). exists q, c'.
      destruct (Hold _ _ Hq). unfold registered. rewrite Hc, Hh. by rewrite !lookup_insert_ne.
  - rewrite Hc, Hh, Hn. intros id q [[<- <-]|[Hne' Hlk]]%lookup_insert_Some.
    + exists c. by rewrite !lookup_insert_eq.
    + destruct (by_id e He _ _ Hlk) as (c' & Hq' & <- & Hname'). destruct (Hold _ _ Hlk).
      exists c'. rewrite !lookup_insert_ne; [done| |done]. congruence.
  - rewrite Hn. intros n id [[<- <-]|[_ Hlk]]%lookup_insert_Some; [done|]. by apply (named e He _ _ Hlk).
Qed.

Lemma chosen_name_spec name e :
  let '(nm, e1) := chosen_name name e in
  nm ≠ EmptyString ∧ e1 = e <| nextId := nextId e1 |> ∧
  ∀ (A : Type) (f : string → prog Engine A),
    ((name ← (if bool_decide (TrimPrefix (TrimSpace name) "/" = EmptyString)
              then n ← counter_add; mret ("docker-zero-" +:+ Itoa n)
              else mret (TrimPrefix (TrimSpace name) "/")); f name) e) = f nm e1.
Proof. unfold chosen_name. case_bool_decide as Hname; split_and!; try done. by destruct e. Qed.

Lemma chooseCookbook_valid e nm image r : chooseCookbook e nm image = Ok r → valid_name nm.
Proof.
  unfold chooseCookbook. destruct (validateContainerName nm) eqn:Hv; [done|]. intros _.
  by apply validateContainerName_spec.
Qed.

(** The container that a creation makes. *)
Definition created (now : Time) (id name image : string) (cb : Cookbook) (sd : Z)
    (labels : gmap string string) (env command : list string) : Container :=
  (newContainer now id name image cb sd) <| Labels := labels |> <| Env := env |> <| Command := command |>.

Lemma createContainer_spec now name image labels env command e : registry_ok e →
  containers e !! next_container_id name e = None →
  let '(nm, e1) := chosen_name name e in
  match createContainer now name image labels env command e with
  | (e', Done (Ok p)) => ∃ cb sd,
      chooseCookbook e nm image = Ok (cb, sd) ∧ names e !! nm = None ∧ registry_ok e' ∧
      with_container e e' p (created now (next_container_id name e) nm image cb sd labels env command)
  | (e', Done (Err _)) =>
      e' = e1 ∧ (is_err (chooseCookbook e nm image) = true ∨ is_Some (names e !! nm))
  | (_, _) => False
  end.
Proof.
  intros He Hid. pose proof (chosen_name_spec name e) as Hname. unfold next_container_id in *.
  destruct (chosen_name name e) as [nm e1]. destruct Hname as (Hne & He1 & Hrun).
  unfold createContainer. rewrite Hrun. clear Hrun.
  set (n1 := nextId e1) in *. clearbody n1. subst e1. unfold mbind at 1, prog_bind at 1. unfold get at 1.
  change (chooseCookbook (e <| nextId := n1 |>) nm image) with (chooseCookbook e nm image).
  destruct (chooseCookbook e nm image) as [[cb sd]|err] eqn:Hchoose; [|split; [done|by left]].
  unfold mbind at 1, prog_bind at 1. unfold registerContainer at 1. simpl names.
  destruct (names e !! nm) as [id|] eqn:Hnm; [split; [done|right; by eexists]|].
  set (e2 := _ <| names := _ |>).
  assert (with_container e e2 (fresh (dom (heap e)))
    (created now (containerID nm (wrap64 (n1 + 1))) nm image cb sd labels env command)) as Hwith.
  { split; [|done]. apply not_elem_of_dom, is_fresh. }
  set (c := created _ _ _ _ _ _ _ _ _) in *.
  rewrite (bind_deref (fresh (dom (heap e))) _ e2 c) by apply lookup_insert_eq.
  exists cb, sd. split; [done|]. split; [done|].
  assert (registry_ok e2) as He2.
  { eapply with_container_registry; [done..|]. by eapply chooseCookbook_valid. }
  split; [|exact Hwith]. by eapply frames_registry; [|apply He2].
Qed.
(** A creation gives the container under its own name (made up when none is
    given), in the state [created], to a caller whose name is well formed and free
    and whose image has a cookbook with the seed; it registers it under that name
    and a new identifier and changes no other container.  Otherwise it returns an
    error and at most the counter has moved. *)
Theorem createContainer_exact now name image labels env command e : registry_ok e →
  containers e !! next_container_id name e = None →
  let '(nm, e1) := chosen_name name e in
  match createContainer now name image labels env command e with
  | (e', Done (Ok p)) => ∃ cb sd,
      chooseCookbook e nm image = Ok (cb, sd) ∧ names e !! nm = None ∧ registry_ok e' ∧
      with_container e e' p (created now (next_container_id name e) nm image cb sd labels env command)
  | (e', Done (Err _)) =>
      e' = e1 ∧ (is_err (chooseCookbook e nm image) = true ∨ is_Some (names e !! nm))
  | (_, _) => False
  end.
Proof. apply createContainer_spec. Qed.
End creation.

(** * Examples *)

Definition sample_web : Container := sample_container "aa11" "web" "nginx".
Definition sample_db : Container := sample_container "bb22" "db" "redis".
Definition sample_pair : Engine := sample_engine [sample_web; sample_db].

Lemma sample_registry : registry_ok sample_pair.
Proof.
  split.
  - intros n id. change (names sample_pair) with (<["web" := "aa11"]> (<["db" := "bb22"]> (∅ : gmap string string))).
    intros [[<- <-]|[_ [[<- <-]|[_ []%lookup_empty_Some]]%lookup_insert_Some]]%lookup_insert_Some.
    + by exists 0, sample_web.
    + by exists 1, sample_db.
  - intros id p. change (containers sample_pair) with (<["aa11" := 0]> (<["bb22" := 1]> (∅ : gmap string ptr))).
    intros [[<- <-]|[_ [[<- <-]|[_ []%lookup_empty_Some]]%lookup_insert_Some]]%lookup_insert_Some.
    + by exists sample_web.
    + by exists sample_db.
  - intros n id. change (names sample_pair) with (<["web" := "aa11"]> (<["db" := "bb22"]> (∅ : gmap string string))).
    intros [[<- <-]|[_ [[<- <-]|[_ []%lookup_empty_Some]]%lookup_insert_Some]]%lookup_insert_Some;
      (split; [done|]; split; [simpl; lia|done]).
Qed.

Lemma findContainer_exact_witness :
  refers sample_pair "bb" 1 ∧ findContainer (RO := range_forward) (UN := unicode_none) " /bb " sample_pair = Ok (Some 1).
Proof.
  assert (findContainer (RO := range_forward) (UN := unicode_none) " /bb " sample_pair = Ok (Some 1)) as Hfind
    by by vm_compute.
  split; [|exact Hfind].
  exact (proj1 (proj1 (findContainer_exact (RO := range_forward) (UN := unicode_none) " /bb " sample_pair
    sample_registry) 1) Hfind).
Defined.

Lemma length_next_id `{Unicode} name e : String.length (next_container_id name e) = 64.
Proof. unfold next_container_id. destruct (chosen_name name e). apply length_containerID. Qed.

Lemma sample_fresh_id `{Unicode} name : containers sample_pair !! next_container_id name sample_pair = None.
Proof.
  pose proof (length_next_id name sample_pair) as Hlen.
  change (containers sample_pair) with (<["aa11" := 0]> (<["bb22" := 1]> (∅ : gmap string ptr))).
  rewrite !lookup_insert_ne; [done|..]; intros Heq; by rewrite <-Heq in Hlen.
Qed.

Lemma createContainer_exact_witness :
  is_Some (names sample_pair !! "web") ∧
  match createContainer (FS := fs_good) (RO := range_forward) (UN := unicode_none) 5%Z "web" "nginx" ∅ [] [] sample_pair with
  | (e', Done (Err _)) => e' = sample_pair
  | _ => False
  end.
Proof.
  split; [by eexists|].
  pose proof (createContainer_exact (FS := fs_good) (RO := range_forward) (UN := unicode_none) 5%Z "web" "nginx" ∅ [] []
    sample_pair sample_registry (sample_fresh_id (H := unicode_none) "web")) as Hspec.
  destruct (createContainer _ _ _ _ _ _ _) as [e' [[p|err]| |]] eqn:Hrun; [|by apply Hspec|done..].
  destruct Hspec as (cb & sd & _ & Hfree & _). by vm_compute in Hfree.
Defined.
