(* ===== verification/EngineNetwork.v ===== *)
(** Virtual networks: [engine_network.go] and [engine_resources.go].

    A [*Network] is only reached through [e.networks] under [e.mu], so it is named
    by its key there; two references that resolve to the same network share it, as
    the pointers do.  Every definition below is one critical section of [e.mu],
    with the container's own lock inside it where the code takes it there. *)
From Stdlib Require Import Ascii.
From S2P Require Import Prelude GoStrings GoTime Cookbook Sha256 CookbookValidation Container EngineTypes Net Ledger Engine.

(** To sort by a text first, by [R] when it is the same. *)
Definition lex_le {A} (f : A → string) (R : relation A) : relation A := λ a b,
  if decide (f a = f b) then R a b else String.le (f a) (f b).
#[export] Instance lex_le_dec {A} (f : A → string) (R : relation A) {H : RelDecision R} : RelDecision (lex_le f R).
Proof. intros a b. unfold lex_le. case_decide; apply _. Defined.

(** * Endpoints *)

Section endpoints.
Context {UN : Unicode}.

(** Values are trimmed, and dropped when empty or seen before up to case. *)
Fixpoint unique_loop (seen : gset string) (values : list string) : list string :=
  match values with
  | [] => []
  | value :: values =>
    let value := TrimSpace value in
    if bool_decide (value = EmptyString) then unique_loop seen values
    else
      let key := ToLower value in
      if bool_decide (key ∈ seen) then unique_loop seen values
      else value :: unique_loop ({[key]} ∪ seen) values
  end.
Definition uniqueStrings (values : list string) : list string := sort_strings (unique_loop ∅ values).

Definition macForContainer (id : string) : string :=
  if bool_decide (String.length id < 8) then "02:42:7f:14:00:02"
  else "02:42:" +:+ take_string 2 id +:+ ":" +:+ take_string 2 (drop_string 2 id) +:+ ":"
       +:+ take_string 2 (drop_string 4 id) +:+ ":" +:+ take_string 2 (drop_string 6 id).

(** [value.(string)], with the zero value when it is something else. *)
Definition any_string (a : option any) : string :=
  match a with Some (AnyString s) => s | _ => EmptyString end.

Definition endpointIPv4 (ep : endpoint) : string :=
  let value := any_string (ep !! "IPv4Address") in
  if bool_decide (value = EmptyString) then EmptyString
  else match ParseCIDR value with
  | Some ip => IP_String ip
  | None => match Cut value "/" with Some (before, _) => before | None => value end
  end.

(** The strings of an [Aliases] value, whichever way it was stored. *)
Definition aliases_of (ep : endpoint) : list string :=
  match ep !! "Aliases" with
  | Some (AnyStrings aliases) => aliases
  | Some (AnyList aliases) => omap (λ a, match a with AnyString s => Some s | _ => None end) aliases
  | _ => []
  end.

Definition service_label (c : Container) : string :=
  default EmptyString (Labels c !! "com.docker.compose.service").

Definition endpointMatchesDNSName (c : Container) (ep : endpoint) (name : string) : bool :=
  let candidates := [Name c; TrimPrefix (Name c) "/"; ID c; take_string 12 (ID c); service_label c]
                    ++ aliases_of ep in
  existsb (λ candidate, EqualFold (TrimSpace candidate) name) candidates.

Definition make_endpoint (network : Network) (c : Container) (ip : string) (aliases : list string) : endpoint :=
  list_to_map [("Name", AnyString (Name c));
    ("EndpointID", AnyString (hashID ("endpoint:" +:+ nID network +:+ ID c)));
    ("MacAddress", AnyString (macForContainer (ID c)));
    ("IPv4Address", AnyString (ip +:+ "/24"));
    ("IPv6Address", AnyString EmptyString);
    ("Aliases", AnyStrings aliases)].

Definition isDefaultNetworkMode (mode : string) : bool :=
  let mode := TrimSpace mode in
  bool_decide (mode = EmptyString ∨ mode = "default" ∨ mode = "bridge").
End endpoints.

(** * Address allocation *)

(** The address of host number [host] in the network number [index]. *)
Definition host_ip (index host : Z) : string :=
  if bool_decide (index = 0)%Z then "127.19.0." +:+ Itoa host
  else "127.20." +:+ Itoa index +:+ "." +:+ Itoa host.

(** The host number of an endpoint: the last of four dotted parts. *)
Definition host_number (ep : endpoint) : option Z :=
  let ip := endpointIPv4 ep in
  if bool_decide (ip = EmptyString) then None
  else match Split ip "." with
  | [_; _; _; part] => Atoi_ok part
  | _ => None
  end.

Fixpoint first_free (used : gset Z) (hosts : list Z) : option Z :=
  match hosts with
  | [] => None
  | host :: hosts => if bool_decide (host ∈ used) then first_free used hosts else Some host
  end.

Section networks.
Context {FS : FileSystem} {RO : RangeOrder} {UN : Unicode}.

Definition usedHosts (network : Network) (id : string) : gset Z :=
  list_to_set (omap (λ '(k, ep), if bool_decide (k = id) then None else host_number ep)
                 (range "engine_network.go:142" (Containers network))).

(** The address and the next host number. *)
Definition planNetworkIPLocked (network : Network) (id : string) : result (string * Z) :=
  let plan :=
    match first_free (usedHosts network id) (seqZ 2 253) with
    | Some host =>
      Ok (host_ip (Index network) host,
          if bool_decide (NextHost network ≤ host)%Z then (host + 1)%Z else NextHost network)
    | None => Err ("network " +:+ nName network +:+ " exhausted its docker-zero /24 address space")
    end in
  match Containers network !! id with
  | Some ep =>
    let existing := endpointIPv4 ep in
    if bool_decide (existing ≠ EmptyString) then Ok (existing, NextHost network) else plan
  | None => plan
  end.

Definition raise_next (next : Z) (network : Network) : Network :=
  if bool_decide (NextHost network < next)%Z then network <| NextHost := next |> else network.

Definition allocateNetworkIPLocked (network : Network) : result (string * Network) :=
  '(ip, nextHost) ← planNetworkIPLocked network EmptyString;
  Ok (ip, raise_next nextHost network).

(** * Networks of the engine *)

Definition network_matches (ref : string) (kn : string * Network) : bool :=
  bool_decide (kn.1 = ref) || bool_decide (nName kn.2 = ref) || HasPrefix kn.1 ref.

(** The first match of a loop over the networks: its key and the network. *)
Definition network_for (site ref : string) (e : Engine) : option (string * Network) :=
  head (filter (λ kn, network_matches ref kn = true) (range site (networks e))).

Definition findNetwork (ref : string) (e : Engine) : result (string * Network) :=
  match network_for "engine_resources.go:58" ref e with
  | Some kn => Ok kn
  | None => Err ("network " +:+ ref +:+ " not found")
  end.

(** [for candidate := 1; candidate <= 220; candidate++] *)
Definition free_index (e : Engine) : option Z :=
  first_free (list_to_set ((λ kn, Index kn.2) <$> range "engine_resources.go:27" (networks e))) (seqZ 1 220).

Definition new_network (now : Time) (name driver id : string) (index : Z) (labels : gmap string string) : Network := {|
  nName := name; nID := id; nCreated := formatDockerTime now; nScope := "local"; nDriver := driver;
  EnableIPv6 := false; Internal := false; Attachable := false; Ingress := false;
  IPAM := list_to_map [("Driver", AnyString "default"); ("Options", AnyNil);
    ("Config", AnyList [AnyMap [("Subnet", AnyString ("127.20." +:+ Itoa index +:+ ".0/24"));
                               ("Gateway", AnyString ("127.20." +:+ Itoa index +:+ ".1"))]])];
  Containers := ∅; nOptions := ∅; nLabels := cloneStringMap labels; Index := index; NextHost := 2 |}.

(** The section of [createNetwork] under [e.mu]. *)
Definition registerNetwork (now : Time) (name driver : string) (labels : gmap string string) : prog Engine (result Network) := λ e,
  if existsb (λ kn, bool_decide (nName kn.2 = name)) (range "engine_resources.go:19" (networks e))
  then (e, Done (Err ("network with name " +:+ name +:+ " already exists")))
  else match free_index e with
  | None => (e, Done (Err "docker-zero exhausted virtual network address space"))
  | Some index =>
    let n := wrap64 (nextId e + 1) in
    let network := new_network now name driver (hashID ("network:" +:+ name +:+ ":" +:+ Itoa n)) index labels in
    (e <| nextId := n |> <| networks := <[nID network := network]> (networks e) |>, Done (Ok network))
  end.

Definition createNetwork (now : Time) (name driver : string) (labels : gmap string string) : prog Engine (result Network) :=
  if bool_decide (name = EmptyString) then mret (Err "network name is required")
  else
    let driver := if bool_decide (driver = EmptyString) then "bridge" else driver in
    created ← registerNetwork now name driver labels;
    match created with
    | Err err => mret (Err err)
    | Ok n =>
      log_entry now (engine_entry "docker" "network.create"
        (AnyMap [("driver", AnyString driver); ("name", AnyString name)]) (AnyMap [("id", AnyString (nID n))]));;
      mret (Ok n)
    end.

Inductive networkOperationError := PredefinedNetwork | NetworkHasEndpoints | NetworkNotFound.

(** The names listed in the error about active endpoints. *)
Definition attached_names (n : Network) (e : Engine) : list string :=
  sort_strings ((λ kep, match containers e !! kep.1 with
                        | Some p => match heap e !! p with Some c => Name c | None => EmptyString end
                        | None => take_string 12 kep.1
                        end) <$> range "engine_resources.go:90" (Containers n)).

Definition removeNetwork (now : Time) (ref : string) : prog Engine (option (networkOperationError * string)) :=
  e ← get;
  match findNetwork ref e with
  | Err err => mret (Some (NetworkNotFound, err))
  | Ok (_, n) =>
    if bool_decide (nName n = "bridge")
    then mret (Some (PredefinedNetwork, "bridge is a pre-defined network and cannot be removed"))
    else if negb (bool_decide (Containers n = ∅))
    then mret (Some (NetworkHasEndpoints, "error while removing network: network " +:+ nName n +:+ " id "
                +:+ nID n +:+ " has active endpoints (" +:+ Join (attached_names n e) ", " +:+ ")"))
    else
      modify (λ e, e <| networks := delete (nID n) (networks e) |>);;
      log_entry now (engine_entry "docker" "network.remove"
        (AnyMap [("id", AnyString (nID n)); ("name", AnyString (nName n))]) AnyNil);;
      mret None
  end.

(** * Attaching containers *)

(** [delete(network.Containers, id)] in every network *)
Definition detach_all (id : string) (nets : gmap string Network) : gmap string Network :=
  (λ n, n <| Containers := delete id (Containers n) |>) <$> nets.

Record endpointPlan := mkPlan { plNetwork : string; plEndpoint : endpoint; plIP : string; plNextHost : Z }.

(** One round of the planning loop. *)
Definition plan_one (c : Container) (aliases : list string) (kn : string * Network) : result endpointPlan :=
  '(ip, nextHost) ← planNetworkIPLocked kn.2 (ID c);
  let aliasesForEndpoint := uniqueStrings (aliases ++ [Name c]) in
  let service := TrimSpace (service_label c) in
  let aliasesForEndpoint :=
    if bool_decide (service ≠ EmptyString) then uniqueStrings (aliasesForEndpoint ++ [service])
    else aliasesForEndpoint in
  Ok (mkPlan kn.1 (make_endpoint kn.2 c ip aliasesForEndpoint) ip nextHost).

(** The networks of the references, in the order of the loop over them. *)
Fixpoint resolve_refs (e : Engine) (refs : list string) : result (list (string * (string * Network))) :=
  match refs with
  | [] => Ok []
  | ref :: refs =>
    match network_for "engine_network.go:49" ref e with
    | None => Err ("network " +:+ ref +:+ " not found")
    | Some kn => rest ← resolve_refs e refs; Ok ((ref, kn) :: rest)
    end
  end.

Fixpoint plan_refs (c : Container) (wanted : gmap string (list string))
    (resolved : gmap string (string * Network)) (refs : list string) : result (list endpointPlan) :=
  match refs with
  | [] => Ok []
  | ref :: refs =>
    match resolved !! ref with
    | None => plan_refs c wanted resolved refs
    | Some kn =>
      plan ← plan_one c (default [] (wanted !! ref)) kn;
      rest ← plan_refs c wanted resolved refs;
      Ok (plan :: rest)
    end
  end.

Definition attach (id : string) (plan : endpointPlan) (nets : gmap string Network) : gmap string Network :=
  alter (λ n, raise_next (plNextHost plan) (n <| Containers := <[id := plEndpoint plan]> (Containers n) |>))
    (plNetwork plan) nets.

Definition wanted_networks (mode : string) (aliases : gmap string (list string)) : gmap string (list string) :=
  let wanted :=
    if negb (isDefaultNetworkMode mode) && bool_decide (aliases !! mode = None)
    then <[mode := []]> aliases else aliases in
  if bool_decide (wanted = ∅) then {["bridge" := []]} else wanted.

(** The references in order with their networks, and the plans: nothing changes. *)
Definition plan_networks (e : Engine) (c : Container) (wanted : gmap string (list string)) :
    result (list string * list endpointPlan) :=
  resolved ← resolve_refs e (range "engine_network.go:47" wanted).*1;
  let resolved : gmap string (string * Network) := list_to_map resolved in
  let refs := sort_strings (range "engine_network.go:62" resolved).*1 in
  plans ← plan_refs c wanted resolved refs;
  Ok (omap (λ ref, (λ kn, nName kn.2) <$> resolved !! ref) refs, plans).

Definition set_network_mode (mode ip : string) (c : Container) : Container :=
  c <| NetworkMode := mode |> <| PrimaryIP := ip |>.

Definition configureContainerNetworks (p : ptr) (networkMode : string) (aliases : gmap string (list string)) : prog Engine (result ()) :=
  c ← deref p;
  e ← get;
  let mode := TrimSpace networkMode in
  if bool_decide (mode = "host" ∨ mode = "none") then
    modify (λ e, e <| networks := detach_all (ID c) (networks e) |>);;
    on p (modify_this (set_network_mode mode EmptyString));;
    mret (Ok ())
  else match plan_networks e c (wanted_networks mode aliases) with
  | Err err => mret (Err err)
  | Ok (resolvedNames, plans) =>
    let primaryIP := default EmptyString (plIP <$> head (filter (λ pl, plIP pl ≠ EmptyString) plans)) in
    modify (λ e, e <| networks := foldl (λ nets pl, attach (ID c) pl nets) (detach_all (ID c) (networks e)) plans |>);;
    let mode := if isDefaultNetworkMode mode
                then default "default" (head (sort_strings resolvedNames)) else mode in
    on p (modify_this (set_network_mode mode primaryIP));;
    mret (Ok ())
  end.

(** The first address the container has in a loop over the networks. *)
Definition primary_ip (site id : string) (nets : gmap string Network) : string :=
  default EmptyString (head (filter (λ ip, ip ≠ EmptyString)
    (omap (λ kn, endpointIPv4 <$> Containers kn.2 !! id) (range site nets)))).

(** What a section of [connectContainerNetwork] does to the networks. *)
Definition connect_network (c : Container) (kn : string * Network) (aliases : list string)
    (nets : gmap string Network) : result (gmap string Network) :=
  let '(k, network) := kn in
  match Containers network !! ID c with
  | Some _ => Err ("endpoint with name " +:+ Name c +:+ " already exists in network " +:+ nName network)
  | None =>
    '(ip, network) ← allocateNetworkIPLocked network;
    let aliases := uniqueStrings (aliases ++ [Name c; service_label c]) in
    Ok (<[k := network <| Containers := <[ID c := make_endpoint network c ip aliases]> (Containers network) |>]> nets)
  end.

Definition connectContainerNetwork (p : ptr) (ref : string) (aliases : list string) : prog Engine (result ()) :=
  c ← deref p;
  e ← get;
  match network_for "engine_network.go:346" ref e with
  | None => mret (Err ("network " +:+ ref +:+ " not found"))
  | Some kn =>
    match connect_network c kn aliases (networks e) with
    | Err err => mret (Err err)
    | Ok nets =>
      modify (λ e, e <| networks := nets |>);;
      on p (modify_this (setPrimaryIP (primary_ip "engine_network.go:371" (ID c) nets)));;
      mret (Ok ())
    end
  end.

Definition disconnectContainerNetwork (p : ptr) (ref : string) : prog Engine (result ()) :=
  c ← deref p;
  e ← get;
  match network_for "engine_network.go:387" ref e with
  | None => mret (Err ("network " +:+ ref +:+ " not found"))
  | Some (k, network) =>
    let nets := <[k := network <| Containers := delete (ID c) (Containers network) |>]> (networks e) in
    modify (λ e, e <| networks := nets |>);;
    on p (modify_this (setPrimaryIP (primary_ip "engine_network.go:399" (ID c) nets)));;
    mret (Ok ())
  end.

Definition containerConnectedToNetwork (c : Container) (ref : string) (e : Engine) : bool * option Network :=
  match network_for "engine_network.go:333" ref e with
  | Some (_, network) => (bool_decide (is_Some (Containers network !! ID c)), Some network)
  | None => (false, None)
  end.

(** * Addresses and names *)

Definition containerEndpointAddresses (c : Container) (e : Engine) : list string :=
  sort_strings (omap (λ kn,
    ep ← Containers kn.2 !! ID c;
    let ip := endpointIPv4 ep in
    if bool_decide (ip = EmptyString) then None
    else Some (JoinHostPort ip (Itoa (ContainerPort (Spec c))))) (range "engine_network.go:226" (networks e))).

Record DNSResult := mkDNS { dName : string; dNetwork : string; dContainer : string; dIP : string }.

(** What one network contributes to a look-up. *)
Definition dns_network (e : Engine) (requester : Container) (name : string) (kn : string * Network) : list DNSResult :=
  match Containers kn.2 !! ID requester with
  | None => []
  | Some _ =>
    omap (λ '(id, ep),
      p ← containers e !! id;
      candidate ← heap e !! p;
      if negb (endpointMatchesDNSName candidate ep name) then None
      else
        let ip := endpointIPv4 ep in
        if bool_decide (ip = EmptyString) then None
        else Some (mkDNS name (nName kn.2) (Name candidate) ip)) (range "engine_network.go:266" (Containers kn.2))
  end.

(** The order of the sort: by network, container and address. *)
Definition dns_le : relation DNSResult :=
  lex_le dNetwork (lex_le dContainer (λ a b, String.le (dIP a) (dIP b))).
#[export] Instance dns_le_dec : RelDecision dns_le :=
  lex_le_dec _ _ (H := lex_le_dec _ _ (H := λ a b, String.le_dec _ _)).

Definition resolveDNS (requester : Container) (name : string) (e : Engine) : list DNSResult :=
  let name := ToLower (TrimSpace (TrimSuffix name ".")) in
  if bool_decide (name = EmptyString) then []
  else merge_sort dns_le (range "engine_network.go:262" (networks e) ≫= dns_network e requester name).

(** The owner of an address; [None] also for an endpoint without a container. *)
Definition findContainerByEndpointIP (ip : string) (e : Engine) : option ptr :=
  '(id, _) ← head (filter (λ kep, endpointIPv4 kep.2 = ip)
    (range "engine_network.go:313" (networks e) ≫= λ kn, range "engine_network.go:314" (Containers kn.2)));
  containers e !! id.

(** * Volumes *)

(** A [map[string]string] inside an [any]. *)
Definition strings_any (m : gmap string string) : any :=
  AnyMap ((λ kv, (kv.1, AnyString kv.2)) <$> map_to_list m).

Definition createVolume (now : Time) (name driver : string) (labels options : gmap string string) : prog Engine Volume :=
  name ← (if bool_decide (name = EmptyString)
          then n ← counter_add; mret ("docker-zero-" +:+ take_string 12 (hashID ("volume:" +:+ Itoa n)))
          else mret name);
  let driver := if bool_decide (driver = EmptyString) then "local" else driver in
  e ← get;
  match volumes e !! name with
  | Some volume => mret volume
  | None =>
    let v := mkVolume (formatDockerTime now) driver (cloneStringMap labels)
      ("/var/lib/docker-zero/volumes/" +:+ name +:+ "/_data") name (cloneStringMap options) "local" in
    modify (λ e, e <| volumes := <[name := v]> (volumes e) |>);;
    log_entry now (engine_entry "docker" "volume.create" (AnyMap [("name", AnyString name)])
      (AnyMap [("CreatedAt", AnyString (CreatedAt v)); ("Driver", AnyString (vDriver v));
               ("Labels", strings_any (vLabels v)); ("Mountpoint", AnyString (Mountpoint v));
               ("Name", AnyString (vName v)); ("Options", strings_any (vOptions v));
               ("Scope", AnyString (vScope v))]));;
    mret v
  end.
End networks.
