(* ===== verification/NetworkTheorems.v ===== *)
(** Correctness of the virtual networks: addresses, allocation, and look-ups.

    [network_ok] is the invariant of one network, [networks_ok] of all of them; the
    first part of the file shows that every operation keeps them. *)
From Stdlib Require Import Ascii.
From S2P Require Import Prelude GoStrings GoTime Cookbook Sha256 CookbookValidation Container EngineTypes Net Ledger Engine EngineFacts EngineNetwork.

(** * Addresses *)

Definition is_host (h : Z) : Prop := (2 ≤ h ≤ 254)%Z.
Definition is_index (i : Z) : Prop := (0 ≤ i ≤ 220)%Z.

Lemma host_ip_dotted i h :
  host_ip i h = if bool_decide (i = 0)%Z then dotted 127 19 0 h else dotted 127 20 i h.
Proof. unfold host_ip. case_bool_decide; by rewrite dotted_unfold. Qed.

Section addresses.
Context (i h : Z) (Hi : is_index i) (Hh : is_host h).

Lemma index_octet : is_octet i.
Proof. unfold is_index, is_octet in *. lia. Qed.
Lemma host_octet : is_octet h.
Proof. unfold is_host, is_octet in *. lia. Qed.
Hint Resolve index_octet host_octet : core.
Hint Extern 1 (is_octet _) => (unfold is_octet; lia) : core.

Lemma ParseCIDR_host : ParseCIDR (host_ip i h +:+ "/24") ≫= Some ∘ IP_String = Some (host_ip i h).
Proof. rewrite host_ip_dotted. case_bool_decide; by rewrite ParseCIDR_dotted by auto. Qed.

Lemma Split_host : ∃ a b c, Split (host_ip i h) "." = [a; b; c; Itoa h].
Proof. rewrite host_ip_dotted. case_bool_decide; rewrite Split_dotted by auto; simpl; eauto. Qed.

Lemma host_ip_nonempty : host_ip i h ≠ EmptyString.
Proof. unfold host_ip. by case_bool_decide. Qed.

Lemma host_ip_inj i' h' : is_index i' → is_host h' → host_ip i h = host_ip i' h' → i = i' ∧ h = h'.
Proof.
  intros Hi' Hh'. assert (is_octet i') by (unfold is_index, is_octet in *; lia).
  assert (is_octet h') by (unfold is_host, is_octet in *; lia).
  rewrite !host_ip_dotted. repeat case_bool_decide; intros Heq%dotted_inj; auto; naive_solver lia.
Qed.
End addresses.

(** * The invariant *)

(** The endpoint [ep] has the address of host [h] of network number [i]. *)
Definition has_host (i h : Z) (ep : endpoint) : Prop :=
  ep !! "IPv4Address" = Some (AnyString (host_ip i h +:+ "/24")).

Definition hosts_ok (i : Z) (eps : gmap string endpoint) : Prop :=
  map_Forall (λ _ ep, ∃ h, is_host h ∧ has_host i h ep) eps ∧
  (∀ id1 id2 ep1 ep2, eps !! id1 = Some ep1 → eps !! id2 = Some ep2 →
    endpointIPv4 ep1 = endpointIPv4 ep2 → id1 = id2) ∧
  eps !! EmptyString = None.

Definition network_ok (n : Network) : Prop :=
  is_index (Index n) ∧ (2 ≤ NextHost n ≤ 255)%Z ∧ hosts_ok (Index n) (Containers n).

Lemma endpointIPv4_host i h ep :
  is_index i → is_host h → has_host i h ep → endpointIPv4 ep = host_ip i h.
Proof.
  intros Hi Hh Hep. unfold endpointIPv4. rewrite Hep. cbn -[ParseCIDR host_ip String.append].
  rewrite bool_decide_false by (unfold host_ip; by case_bool_decide).
  pose proof (ParseCIDR_host i h Hi Hh) as Hp. by destruct (ParseCIDR _); simplify_eq/=.
Qed.

Lemma host_number_host i h ep : is_index i → is_host h → has_host i h ep → host_number ep = Some h.
Proof.
  intros Hi Hh Hep. unfold host_number. rewrite (endpointIPv4_host i h) by done.
  rewrite bool_decide_false by (by apply host_ip_nonempty).
  destruct (Split_host i h Hi Hh) as (a & b & c & ->). apply Atoi_ok_Itoa.
  unfold is_host, is_int64, int64_min, int64_max in *. lia.
Qed.

Lemma has_host_make n c ip aliases i h :
  ip = host_ip i h → has_host i h (make_endpoint n c ip aliases).
Proof. intros ->. unfold has_host, make_endpoint. by simplify_map_eq. Qed.

Lemma has_host_det i h h' ep : is_index i → is_host h → is_host h' →
  has_host i h ep → has_host i h' ep → h = h'.
Proof.
  intros ??? H1%(host_number_host i h) H2%(host_number_host i h'); [|done..]. congruence.
Qed.

Lemma hosts_ok_delete i id eps : hosts_ok i eps → hosts_ok i (delete id eps).
Proof.
  intros (Hall & Hinj & Hempty). split; [by apply map_Forall_delete|]. split.
  - intros id1 id2 ep1 ep2 [_ H1]%lookup_delete_Some [_ H2]%lookup_delete_Some. eauto.
  - apply lookup_delete_None. by right.
Qed.

Lemma hosts_ok_insert i id ep h eps : id ≠ EmptyString → is_index i → is_host h → has_host i h ep → hosts_ok i eps →
  (∀ id' ep', id' ≠ id → eps !! id' = Some ep' → ¬ has_host i h ep') →
  hosts_ok i (<[id := ep]> eps).
Proof.
  intros Hid0 Hi Hh Hep (Hall & Hinj & Hempty) Hfree.
  assert (∀ id' ep', id' ≠ id → eps !! id' = Some ep' → endpointIPv4 ep' ≠ endpointIPv4 ep) as Hne.
  { intros id' ep' Hid Hl Heq. destruct (Hall _ _ Hl) as (h' & Hh' & Hep').
    rewrite (endpointIPv4_host i h' ep'), (endpointIPv4_host i h ep) in Heq by done.
    apply host_ip_inj in Heq as [_ ->]; [|done..]. by eapply Hfree. }
  split; [apply map_Forall_insert_2; eauto|]. split; [|by rewrite lookup_insert_ne].
  intros id1 id2 ep1 ep2. destruct (decide (id1 = id)) as [->|], (decide (id2 = id)) as [->|];
    simplify_map_eq; intros H1 H2 Heq; simplify_eq; [done|exfalso; by eapply Hne..|eauto].
Qed.

Section allocation.
Context {RO : RangeOrder}.

Lemma elem_of_usedHosts n id h : network_ok n → is_host h →
  h ∈ usedHosts n id ↔ ∃ id' ep, id' ≠ id ∧ Containers n !! id' = Some ep ∧ has_host (Index n) h ep.
Proof.
  intros (Hi & _ & Hall & _ & _) Hh. unfold usedHosts. rewrite elem_of_list_to_set, list_elem_of_omap. split.
  - intros ([id' ep] & Hin%elem_of_range & Hep). case_bool_decide; [done|].
    destruct (Hall _ _ Hin) as (h' & Hh' & Hep'). rewrite (host_number_host (Index n) h') in Hep by done.
    simplify_eq. eauto.
  - intros (id' & ep & Hne & Hin & Hep). exists (id', ep). rewrite elem_of_range. split; [done|].
    rewrite bool_decide_false by done. by eapply host_number_host.
Qed.

Lemma usedHosts_are_hosts n id h : network_ok n → h ∈ usedHosts n id → is_host h.
Proof.
  intros (Hi & _ & Hall & _). unfold usedHosts. rewrite elem_of_list_to_set, list_elem_of_omap.
  intros ([id' ep] & Hin%elem_of_range & Hep). case_bool_decide; [done|].
  destruct (Hall _ _ Hin) as (h' & Hh' & Hep'). rewrite (host_number_host (Index n) h') in Hep by done. congruence.
Qed.

Lemma first_free_Some used hosts h :
  first_free used hosts = Some h ↔
  ∃ before after, hosts = before ++ h :: after ∧ h ∉ used ∧ Forall (.∈ used) before.
Proof.
  induction hosts as [|x hosts IH]; simpl.
  { split; [done|]. by intros ([] & ? & ? & ?). }
  case_bool_decide as Hx; [rewrite IH|]; split.
  - intros (b & a & -> & ? & ?). exists (x :: b), a. split_and!; [done..|by constructor].
  - intros ([|y b] & a & ? & ? & Hb); simplify_eq/=; [done|]. inv Hb. eauto.
  - intros [= ->]. by exists [], hosts.
  - intros ([|y b] & a & ? & ? & Hb); simplify_eq/=; [done|]. by inv Hb.
Qed.

Lemma first_free_None used hosts : first_free used hosts = None ↔ Forall (.∈ used) hosts.
Proof.
  induction hosts as [|x hosts IH]; simpl; [done|].
  rewrite Forall_cons, <-IH. case_bool_decide; naive_solver.
Qed.

(** The first free number of an interval is its least free number. *)
Lemma first_free_seqZ used i k h :
  first_free used (seqZ i k) = Some h ↔
  (i ≤ h < i + k)%Z ∧ h ∉ used ∧ ∀ h', (i ≤ h' < h)%Z → h' ∈ used.
Proof.
  rewrite first_free_Some. split.
  - intros (b & a & Heq & Hh & Hb). apply (f_equal (lookup (M := list Z) (length b))) in Heq as Hl.
    rewrite list_lookup_middle in Hl by done. apply lookup_seqZ in Hl as [-> Hlt].
    split; [lia|]. split; [done|]. intros h' Hlt'. rewrite Forall_lookup in Hb.
    apply (Hb (Z.to_nat (h' - i))). rewrite <-(lookup_app_l b ((i + Z.of_nat (length b))%Z :: a)) by lia. rewrite <-Heq.
    apply lookup_seqZ. lia.
  - intros (Hr & Hh & Hb). exists (seqZ i (h - i)), (seqZ (h + 1) (i + k - h - 1)).
    split; [|split; [done|]].
    + replace k with ((h - i) + (1 + (i + k - h - 1)))%Z at 1 by lia.
      rewrite seqZ_app by lia. f_equal. replace (i + (h - i))%Z with h by lia.
      rewrite seqZ_cons by lia. unfold Z.succ, Z.pred. f_equal. f_equal. lia.
    + apply Forall_forall. intros h' [? ?]%elem_of_seqZ. apply Hb. lia.
Qed.

Lemma first_free_seqZ_None used i k :
  first_free used (seqZ i k) = None ↔ ∀ h, (i ≤ h < i + k)%Z → h ∈ used.
Proof.
  rewrite first_free_None, Forall_forall. setoid_rewrite elem_of_seqZ. done.
Qed.

(** A container that is not attached yet gets the least free host. *)
Lemma plan_fresh n id : Containers n !! id = None →
  planNetworkIPLocked n id =
  match first_free (usedHosts n id) (seqZ 2 253) with
  | Some host => Ok (host_ip (Index n) host, Z.max (NextHost n) (host + 1))
  | None => Err ("network " +:+ nName n +:+ " exhausted its docker-zero /24 address space")
  end.
Proof.
  intros Hid. unfold planNetworkIPLocked. rewrite Hid. destruct (first_free _ _) as [h|]; [|done].
  do 2 f_equal. case_bool_decide; lia.
Qed.

(** Whatever is planned is the address of a host no other container has. *)
Lemma plan_ok n id ip next : network_ok n → planNetworkIPLocked n id = Ok (ip, next) →
  ∃ h, is_host h ∧ ip = host_ip (Index n) h ∧ (NextHost n ≤ next ≤ 255)%Z ∧
    ∀ id' ep, id' ≠ id → Containers n !! id' = Some ep → ¬ has_host (Index n) h ep.
Proof.
  intros Hn. pose proof Hn as (Hi & Hnext & Hall & Hinj & _).
  destruct (Containers n !! id) as [ep|] eqn:Hid.
  - destruct (Hall _ _ Hid) as (h & Hh & Hep). unfold planNetworkIPLocked.
    rewrite Hid, (endpointIPv4_host (Index n) h) by done. cbn beta zeta.
    rewrite bool_decide_true by (by apply host_ip_nonempty). intros [= <- <-]. exists h.
    split; [done|]. split; [done|]. split; [lia|]. intros id' ep' Hne Hid' Hep'.
    apply Hne. apply (Hinj _ _ _ _ Hid' Hid). by rewrite !(endpointIPv4_host (Index n) h).
  - rewrite plan_fresh by done. destruct (first_free _ _) as [h|] eqn:Hfree; [|done].
    apply first_free_seqZ in Hfree as (Hr & Hh & _). intros [= <- <-]. exists h.
    assert (is_host h) by (unfold is_host; lia). split; [done|]. split; [done|]. split; [lia|].
    intros id' ep' Hne Hid' Hep'. apply Hh. apply elem_of_usedHosts; eauto 6.
Qed.

(** Attaching a container at a planned address keeps the network well formed. *)
Lemma attach_ok n0 n id ip next ep : id ≠ EmptyString →
  network_ok n0 → planNetworkIPLocked n0 id = Ok (ip, next) →
  network_ok n → Index n = Index n0 →
  (∀ id', id' ≠ id → Containers n !! id' = Containers n0 !! id' ∨ Containers n !! id' = None) →
  ep !! "IPv4Address" = Some (AnyString (ip +:+ "/24")) →
  network_ok (raise_next next (n <| Containers := <[id := ep]> (Containers n) |>)).
Proof.
  intros Hid Hn0 Hplan (Hi & Hnext & Hhosts) Hidx Hsame Hep.
  destruct (plan_ok _ _ _ _ Hn0 Hplan) as (h & Hh & -> & Hnx & Hfree).
  assert (hosts_ok (Index n) (<[id := ep]> (Containers n))).
  { apply (hosts_ok_insert _ _ _ h); [done..| |done|].
    - unfold has_host. by rewrite Hidx.
    - intros id' ep' Hne Hid'. rewrite Hidx. apply (Hfree id'); [done|].
      destruct (Hsame id' Hne); congruence. }
  unfold raise_next. simpl. case_bool_decide; (split; [done|]; split; [simpl; lia|done]).
Qed.
End allocation.

(** * All networks *)

Definition networks_ok (nets : gmap string Network) : Prop :=
  map_Forall (λ _ n, network_ok n) nets ∧
  ∀ k1 k2 n1 n2, nets !! k1 = Some n1 → nets !! k2 = Some n2 →
    Index n1 = Index n2 ∨ nName n1 = nName n2 → k1 = k2.

(** Networks change without their number and name. *)
Definition same_shape (n n' : Network) : Prop := Index n' = Index n ∧ nName n' = nName n.

Lemma networks_ok_insert k n n' nets :
  networks_ok nets → nets !! k = Some n → same_shape n n' → network_ok n' →
  networks_ok (<[k := n']> nets).
Proof.
  intros [Hall Hinj] Hk [Hidx Hname] Hn'. split; [by apply map_Forall_insert_2|].
  intros k1 k2 n1 n2. destruct (decide (k1 = k)) as [->|], (decide (k2 = k)) as [->|];
    simplify_map_eq; intros H1 H2 Heq; simplify_eq; [done| | |eauto].
  - rewrite Hidx, Hname in Heq. eauto.
  - rewrite Hidx, Hname in Heq. eauto.
Qed.

Lemma networks_ok_fmap (f : Network → Network) nets :
  (∀ n, same_shape n (f n)) → (∀ n, network_ok n → network_ok (f n)) →
  networks_ok nets → networks_ok (f <$> nets).
Proof.
  intros Hshape Hf [Hall Hinj]. split.
  - apply map_Forall_fmap. intros k n Hk. apply Hf. by eapply Hall.
  - intros k1 k2 n1 n2. rewrite !lookup_fmap_Some. intros (m1 & <- & H1) (m2 & <- & H2).
    destruct (Hshape m1) as [-> ->], (Hshape m2) as [-> ->]. eauto.
Qed.

Lemma networks_ok_delete k nets : networks_ok nets → networks_ok (delete k nets).
Proof.
  intros [Hall Hinj]. split; [by apply map_Forall_delete|].
  intros k1 k2 n1 n2 [_ H1]%lookup_delete_Some [_ H2]%lookup_delete_Some. eauto.
Qed.

Lemma network_ok_detach id n : network_ok n → network_ok (n <| Containers := delete id (Containers n) |>).
Proof. intros (? & ? & ?). split; [done|]. split; [done|]. by apply hosts_ok_delete. Qed.

Lemma detach_all_ok id nets : networks_ok nets → networks_ok (detach_all id nets).
Proof. apply networks_ok_fmap; [done|]. apply network_ok_detach. Qed.

(** * The operations keep the invariant *)

(** [nets] is [nets0] up to the attachments of the container [id]. *)
Definition derived (id : string) (nets0 nets : gmap string Network) : Prop :=
  networks_ok nets ∧
  ∀ k n, nets !! k = Some n → ∃ n0, nets0 !! k = Some n0 ∧ same_shape n0 n ∧
    ∀ id', id' ≠ id → Containers n !! id' = Containers n0 !! id'.

Section operations.
Context {FS : FileSystem} {RO : RangeOrder} {UN : Unicode}.

(** A plan that was made for [id] from [nets0]. *)
Definition planned (id : string) (nets0 : gmap string Network) (pl : endpointPlan) : Prop :=
  ∃ n0, nets0 !! plNetwork pl = Some n0 ∧ planNetworkIPLocked n0 id = Ok (plIP pl, plNextHost pl) ∧
    plEndpoint pl !! "IPv4Address" = Some (AnyString (plIP pl +:+ "/24")).

Lemma derived_detach id nets0 : networks_ok nets0 → derived id nets0 (detach_all id nets0).
Proof.
  intros Hok. split; [by apply detach_all_ok|]. intros k n. unfold detach_all.
  rewrite lookup_fmap_Some. intros (n0 & <- & Hk). exists n0. split; [done|]. split; [done|].
  intros id' Hne. by apply lookup_delete_ne.
Qed.

Lemma raise_next_shape next n :
  same_shape n (raise_next next n) ∧ Containers (raise_next next n) = Containers n.
Proof. unfold raise_next. by case_bool_decide. Qed.

Lemma derived_attach id nets0 nets pl : id ≠ EmptyString → networks_ok nets0 → derived id nets0 nets →
  planned id nets0 pl → derived id nets0 (attach id pl nets).
Proof.
  intros Hid Hok0 [Hok Hder] (n0 & Hn0 & Hplan & Hep). unfold attach.
  destruct (nets !! plNetwork pl) as [n|] eqn:Hn.
  2: { rewrite alter_id; [done|]. intros n. by rewrite Hn. }
  destruct (Hder _ _ Hn) as (n1 & Hn1 & Hshape & Hsame). simplify_eq.
  set (n' := raise_next (plNextHost pl) (n <| Containers := <[id := plEndpoint pl]> (Containers n) |>)).
  destruct (raise_next_shape (plNextHost pl) (n <| Containers := <[id := plEndpoint pl]> (Containers n) |>))
    as [Hsh Heps]. fold n' in Hsh, Heps. change (same_shape n n') in Hsh.
  assert (network_ok n') as Hn'.
  { apply (attach_ok n0 n id (plIP pl) (plNextHost pl)); [done|by eapply Hok0|done|by eapply Hok| |auto|done].
    by destruct Hshape. }
  rewrite (alter_Some_insert _ _ _ n) by done. split; [by eapply networks_ok_insert|].
  intros k m. destruct (decide (k = plNetwork pl)) as [->|Hk]; simplify_map_eq; [|by apply Hder].
  intros [= <-]. exists n0. split; [done|]. split.
  - change (same_shape n0 n'). destruct Hsh as [? ?], Hshape as [? ?]. split; congruence.
  - intros id' Hne. change (Containers n' !! id' = Containers n0 !! id'). rewrite Heps. rewrite lookup_insert_ne by done. auto.
Qed.

Lemma derived_attach_all id nets0 nets plans : id ≠ EmptyString → networks_ok nets0 → derived id nets0 nets →
  Forall (planned id nets0) plans → derived id nets0 (foldl (λ nets pl, attach id pl nets) nets plans).
Proof.
  intros Hid Hok0 Hder Hall. revert nets Hder. induction Hall as [|pl plans Hpl _ IH]; simpl; [done|].
  intros nets Hder. apply IH. by apply derived_attach.
Qed.

Lemma plan_one_planned c aliases k n pl nets0 :
  nets0 !! k = Some n → plan_one c aliases (k, n) = Ok pl → planned (ID c) nets0 pl.
Proof.
  intros Hk. unfold plan_one. simpl. destruct (planNetworkIPLocked n (ID c)) as [[ip next]|] eqn:Hp; [|done].
  intros [= <-]. exists n. simpl. split_and!; [done..|]. by unfold make_endpoint; simplify_map_eq.
Qed.

(** What a reference resolves to is a network of the engine that matches it. *)
Lemma network_for_Some site ref e k n : network_for site ref e = Some (k, n) →
  networks e !! k = Some n ∧ network_matches ref (k, n) = true.
Proof.
  intros [l Hl]%head_Some. assert ((k, n) ∈ filter (λ kn, network_matches ref kn = true) (range site (networks e)))
    as [Hm Hin]%list_elem_of_filter by (rewrite Hl; left).
  by apply elem_of_range in Hin.
Qed.

Lemma network_for_None site ref e : network_for site ref e = None ↔
  ∀ k n, networks e !! k = Some n → network_matches ref (k, n) = false.
Proof.
  unfold network_for. rewrite head_None. split.
  - intros Hnil k n Hk. apply not_true_iff_false. intros Hm.
    assert ((k, n) ∈ filter (λ kn, network_matches ref kn = true) (range site (networks e))) as Hin.
    { apply list_elem_of_filter. split; [done|]. by apply elem_of_range. }
    rewrite Hnil in Hin. by apply elem_of_nil in Hin.
  - intros Hall. apply elem_of_nil_inv. intros [k n] [Hm Hin%elem_of_range]%list_elem_of_filter.
    by rewrite (Hall k n Hin) in Hm.
Qed.

Lemma resolve_refs_ok e refs resolved : resolve_refs e refs = Ok resolved →
  Forall (λ x, networks e !! x.2.1 = Some x.2.2) resolved.
Proof.
  revert resolved. induction refs as [|ref refs IH]; simpl; [by intros ? [= <-]|].
  intros resolved. destruct (network_for _ ref e) as [[k n]|] eqn:Hk; [|done].
  destruct (resolve_refs e refs) as [rest|]; [|done]. intros [= <-].
  constructor; [|by apply IH]. by apply network_for_Some in Hk as [? _].
Qed.

Lemma plan_refs_planned c wanted resolved nets refs plans :
  (∀ ref k n, resolved !! ref = Some (k, n) → nets !! k = Some n) →
  plan_refs c wanted resolved refs = Ok plans → Forall (planned (ID c) nets) plans.
Proof.
  intros Hres. revert plans. induction refs as [|ref refs IH]; simpl; [by intros ? [= <-]|].
  intros plans. destruct (resolved !! ref) as [[k n]|] eqn:Href; [|by apply IH].
  destruct (plan_one _ _ _) as [pl|] eqn:Hpl; [|done].
  destruct (plan_refs _ _ _ refs) as [rest|]; [|done]. intros [= <-].
  constructor; [|by apply IH]. eapply plan_one_planned; [by eapply Hres|done].
Qed.

Lemma plan_networks_planned e c wanted names plans :
  plan_networks e c wanted = Ok (names, plans) → Forall (planned (ID c) (networks e)) plans.
Proof.
  unfold plan_networks. destruct (resolve_refs _ _) as [resolved|] eqn:Hres; [|done]. simpl.
  destruct (plan_refs _ _ _ _) as [pls|] eqn:Hpl; [|done]. intros [= _ <-].
  eapply plan_refs_planned, Hpl. intros ref k n Hl%elem_of_list_to_map_2.
  apply resolve_refs_ok in Hres. rewrite Forall_forall in Hres. by apply (Hres _ Hl).
Qed.

(** ** Invariants that do not mention the objects, the pids and the ledger *)

Definition framed (P : Engine → Prop) : Prop :=
  ∀ e h z l, P e → P (e <| heap := h |> <| pids := z |> <| ledger := l |>).

Lemma keeps_on P {A} p (m : prog CState A) : framed P → keeps P (on p m).
Proof.
  intros HP e He. unfold on. destruct (heap e !! p) as [c|]; [|done].
  destruct (m _) as [s r]. by apply (HP e (<[p := this s]> (heap e)) (syntheticPID s) (ledger e)).
Qed.

Lemma keeps_log P now entry : framed P → keeps P (log_entry now entry).
Proof. intros HP e He. by apply (HP e (heap e) (pids e) (Log now entry (ledger e))). Qed.

Definition nets_ok (e : Engine) : Prop := networks_ok (networks e).

Lemma nets_ok_framed : framed nets_ok.
Proof. by intros e h z l. Qed.
Hint Resolve nets_ok_framed keeps_on keeps_log keeps_bind keeps_ret keeps_get keeps_modify : core.

Lemma free_index_Some e i : free_index e = Some i →
  is_index i ∧ (1 ≤ i)%Z ∧ ∀ k n, networks e !! k = Some n → Index n ≠ i.
Proof.
  unfold free_index. intros (Hr & Hfree & _)%first_free_seqZ. unfold is_index.
  split; [lia|]. split; [lia|]. intros k n Hk Heq. apply Hfree.
  apply elem_of_list_to_set, list_elem_of_fmap. exists (k, n). split; [done|]. by apply elem_of_range.
Qed.

Lemma createNetwork_nets now name driver labels : keeps nets_ok (createNetwork now name driver labels).
Proof.
  unfold createNetwork. case_bool_decide; [auto|]. apply keeps_bind.
  2: { intros [n|]; auto. }
  intros e He. unfold registerNetwork. destruct (existsb _ _) eqn:Hex; [done|].
  destruct (free_index e) as [i|] eqn:Hi; [|done]. apply free_index_Some in Hi as (Hidx & _ & Hfree).
  assert (∀ k n, networks e !! k = Some n → nName n ≠ name) as Hname.
  { intros k n Hk Hn. apply not_true_iff_false in Hex. apply Hex. apply existsb_exists. exists (k, n).
    rewrite bool_decide_eq_true, <-list_elem_of_In, elem_of_range. done. }
  destruct He as [Hall Hinj]. unfold nets_ok. simpl. split.
  - apply map_Forall_insert_2; [|done]. split; [done|]. split; [done|]. by split.
  - intros k1 k2 n1 n2. rewrite !lookup_insert_Some.
    intros [[<- <-]|[Hk1 H1]] [[<- <-]|[Hk2 H2]] [Hi|Hn]; simpl in *; try done.
    + by destruct (Hfree _ _ H2).
    + by destruct (Hname _ _ H2).
    + by destruct (Hfree _ _ H1).
    + by destruct (Hname _ _ H1).
    + eauto.
    + eauto.
Qed.

Lemma removeNetwork_nets now ref : keeps nets_ok (removeNetwork now ref).
Proof.
  apply keeps_bind; [auto|]. intros e. destruct (findNetwork ref e) as [[k n]|]; [|auto].
  case_bool_decide; [auto|]. destruct (negb _); [auto|]. apply keeps_bind; [|auto].
  apply keeps_modify. intros e'. apply networks_ok_delete.
Qed.

(** The containers the engine holds have an ID. *)
Definition ids_ok (e : Engine) : Prop := map_Forall (λ _ c, ID c ≠ EmptyString) (heap e).

(** A program that begins by reading the object [p] and the engine. *)
Lemma reads_object {A} (P : Engine → Prop) p (f : Container → Engine → prog Engine A) e : P e →
  (∀ c, heap e !! p = Some c → P (f c e e).1) → P ((c ← deref p; e ← get; f c e) e).1.
Proof.
  intros He Hf. unfold mbind at 1, prog_bind at 1. rewrite deref_spec.
  destruct (heap e !! p) as [c|]; [|done]. by apply Hf.
Qed.

Lemma configure_nets p mode aliases e : ids_ok e → nets_ok e →
  nets_ok (configureContainerNetworks p mode aliases e).1.
Proof.
  intros Hids He. apply (reads_object nets_ok); [done|]. intros c Hc.
  case_bool_decide.
  - eapply keeps_bind; [|auto|done]. apply keeps_modify. intros e'. apply detach_all_ok.
  - destruct (plan_networks _ _ _) as [[names plans]|] eqn:Hpl; [|done].
    unfold mbind at 1, prog_bind at 1. simpl. eapply keeps_bind; [by apply keeps_on|auto|].
    apply (derived_attach_all (ID c) (networks e)); [by eapply Hids|done|by apply derived_detach|].
    by eapply plan_networks_planned.
Qed.

(** An allocation for a new endpoint is a plan for the container. *)
Lemma plan_empty n id : Containers n !! EmptyString = None → Containers n !! id = None →
  planNetworkIPLocked n EmptyString = planNetworkIPLocked n id.
Proof.
  intros He Hid. rewrite !plan_fresh by done. replace (usedHosts n EmptyString) with (usedHosts n id); [done|].
  unfold usedHosts. f_equal. apply list_omap_ext. apply Forall_Forall2_diag, Forall_forall.
  intros [k ep] Hin%elem_of_range. rewrite !bool_decide_false by congruence. done.
Qed.

Lemma raise_next_attach next n id ep :
  (raise_next next n) <| Containers := <[id := ep]> (Containers (raise_next next n)) |> =
  raise_next next (n <| Containers := <[id := ep]> (Containers n) |>).
Proof. unfold raise_next. simpl. by case_bool_decide. Qed.

Lemma connect_nets p ref aliases e : ids_ok e → nets_ok e →
  nets_ok (connectContainerNetwork p ref aliases e).1.
Proof.
  intros Hids He. apply (reads_object nets_ok); [done|]. intros c Hc.
  destruct (network_for _ ref e) as [[k n]|] eqn:Hk; [|done]. apply network_for_Some in Hk as [Hk _].
  destruct (connect_network _ _ _ _) as [nets|] eqn:Hconn; [|done].
  unfold mbind at 1, prog_bind at 1. simpl. eapply keeps_bind; [by apply keeps_on|auto|].
  unfold nets_ok. simpl. unfold connect_network in Hconn.
  destruct (Containers n !! ID c) eqn:Hfresh; [done|].
  assert (network_ok n) as Hn by by eapply He.
  unfold allocateNetworkIPLocked in Hconn. rewrite (plan_empty n (ID c)) in Hconn by (done || apply Hn).
  destruct (planNetworkIPLocked n _) as [[ip next]|] eqn:Hp; [|done].
  set (ep := make_endpoint (raise_next next n) c ip (uniqueStrings (aliases ++ [Name c; service_label c]))).
  assert (nets = <[k := raise_next next (n <| Containers := <[ID c := ep]> (Containers n) |>)]> (networks e))
    as -> by (rewrite <-raise_next_attach; by injection Hconn as <-).
  apply (networks_ok_insert k n); [done..|by unfold raise_next; case_bool_decide|].
  apply (attach_ok n n _ ip); [by eapply Hids|done..|auto|]. unfold ep, make_endpoint. by simplify_map_eq.
Qed.

Lemma disconnect_nets p ref e : nets_ok e → nets_ok (disconnectContainerNetwork p ref e).1.
Proof.
  intros He. apply (reads_object nets_ok); [done|]. intros c Hc.
  destruct (network_for _ ref e) as [[k n]|] eqn:Hk; [|done]. apply network_for_Some in Hk as [Hk _].
  unfold mbind at 1, prog_bind at 1. simpl. eapply keeps_bind; [by apply keeps_on|auto|].
  apply (networks_ok_insert k n); [done..|]. apply network_ok_detach. by eapply He.
Qed.

Lemma createVolume_nets now name driver labels options :
  keeps nets_ok (createVolume now name driver labels options).
Proof.
  apply keeps_bind; [case_bool_decide; [apply keeps_bind; [by intros e|auto]|auto]|].
  intros nm. apply keeps_bind; [auto|]. intros e. destruct (volumes e !! nm); [auto|].
  apply keeps_bind; [by apply keeps_modify|]. intros _. apply keeps_bind; auto.
Qed.
End operations.

(** * Allocation *)

(** Some container of the network has the address of host [h]. *)
Definition taken (n : Network) (h : Z) : Prop :=
  ∃ id ep, Containers n !! id = Some ep ∧ endpointIPv4 ep = host_ip (Index n) h.

Section allocation_exact.
Context {RO : RangeOrder}.

Lemma taken_used n id h : network_ok n → is_host h → Containers n !! id = None →
  taken n h ↔ h ∈ usedHosts n id.
Proof.
  intros Hn Hh Hid. rewrite elem_of_usedHosts by done. pose proof Hn as (Hi & _ & Hall & _ & _).
  split; [intros (id' & ep & Hin & Hip)|intros (id' & ep & Hne & Hin & Hep)].
  - exists id', ep. split; [congruence|]. split; [done|].
    destruct (Hall id' ep) as (h' & Hh' & Hep'); [done|].
    rewrite (endpointIPv4_host (Index n) h') in Hip by done.
    by apply host_ip_inj in Hip as [_ ->].
  - exists id', ep. split; [done|]. by apply endpointIPv4_host.
Qed.

Lemma omap_total {A B} (f : A → option B) (g : A → B) (l : list A) :
  (∀ x, x ∈ l → f x = Some (g x)) → omap f l = g <$> l.
Proof.
  induction l as [|x l IH]; intros Hf; [done|]. simpl. rewrite (Hf x) by left. f_equal. apply IH.
  intros y ?. apply Hf. by right.
Qed.

(** Distinct containers account for distinct hosts. *)
Lemma size_usedHosts n id : network_ok n → Containers n !! id = None →
  size (usedHosts n id) = size (Containers n).
Proof.
  intros (Hi & _ & Hall & Hinj & _) Hid. unfold usedHosts.
  set (l := range _ _). set (g := λ kep : string * endpoint, default 0%Z (host_number kep.2)).
  assert (∀ kep, kep ∈ l → ∃ h, is_host h ∧ has_host (Index n) h kep.2) as Hl.
  { intros [k ep] Hin%elem_of_range. by eapply Hall. }
  assert (omap (λ '(k, ep), if bool_decide (k = id) then None else host_number ep) l = g <$> l) as ->.
  { apply omap_total. intros [k ep] Hin. destruct (Hl _ Hin) as (h & Hh & Hep). apply elem_of_range in Hin.
    rewrite bool_decide_false by congruence. unfold g. simpl. by rewrite (host_number_host (Index n) h). }
  rewrite size_list_to_set; [rewrite length_fmap; apply length_range|].
  apply NoDup_fmap_2_strong; [|eapply NoDup_fmap_1, range_NoDup].
  intros [k1 ep1] [k2 ep2] H1 H2. unfold g. simpl.
  destruct (Hl _ H1) as (h1 & Hh1 & He1), (Hl _ H2) as (h2 & Hh2 & He2). simpl in *.
  rewrite (host_number_host (Index n) h1), (host_number_host (Index n) h2) by done. intros [= ->].
  apply elem_of_range in H1, H2. assert (k1 = k2) as ->; [|congruence].
  apply (Hinj _ _ _ _ H1 H2). by rewrite !(endpointIPv4_host (Index n) h2).
Qed.

Lemma all_used n id : network_ok n → Containers n !! id = None →
  (∀ h, (2 ≤ h < 2 + 253)%Z → h ∈ usedHosts n id) ↔ size (Containers n) = 253.
Proof.
  intros Hn Hid. rewrite <-(size_usedHosts n id) by done.
  assert (usedHosts n id ⊆ (list_to_set (seqZ 2 253) : gset Z)) as Hsub.
  { intros h Hh%usedHosts_are_hosts; [|done]. apply elem_of_list_to_set, elem_of_seqZ.
    unfold is_host in *. lia. }
  assert (size (list_to_set (seqZ 2 253) : gset Z) = 253) as Hsize.
  { rewrite size_list_to_set by apply NoDup_seqZ. by rewrite length_seqZ. }
  split.
  - intros Hall. rewrite <-Hsize. f_equal. apply set_eq. intros h. split; [apply Hsub|].
    rewrite elem_of_list_to_set, elem_of_seqZ. apply Hall.
  - intros Heq h Hh. apply set_subseteq_size_eq in Hsub; [|lia].
    rewrite Hsub. apply elem_of_list_to_set, elem_of_seqZ. lia.
Qed.

(** C24: [planNetworkIPLocked] gives a container that is not attached yet the address
    of the least host number between 2 and 254 that no attached container has, and
    raises the next host number just past it; and it fails exactly when 253
    containers are attached, that is when the whole range is used up. *)
Theorem plan_is_least_free_host n id : network_ok n → Containers n !! id = None →
  (∀ ip next, planNetworkIPLocked n id = Ok (ip, next) ↔
    ∃ h, is_host h ∧ ip = host_ip (Index n) h ∧ next = Z.max (NextHost n) (h + 1) ∧
      ¬ taken n h ∧ ∀ h', is_host h' → (h' < h)%Z → taken n h') ∧
  (is_err (planNetworkIPLocked n id) = true ↔ size (Containers n) = 253).
Proof.
  intros Hn Hid. rewrite plan_fresh, <-(all_used n id), <-first_free_seqZ_None by done. split.
  - intros ip next. split.
    + destruct (first_free _ _) as [h|] eqn:Hf; [|done]. intros [= <- <-].
      apply first_free_seqZ in Hf as (Hr & Hh & Hless). exists h.
      assert (is_host h) by (unfold is_host; lia). split_and!; [done..| |].
      * by rewrite (taken_used n id).
      * intros h' Hh' Hlt. apply (taken_used n id); [done..|]. apply Hless. unfold is_host in *. lia.
    + intros (h & Hh & -> & -> & Hfree & Hless).
      replace (first_free _ _) with (Some h); [done|]. symmetry. apply first_free_seqZ.
      split; [unfold is_host in *; lia|]. rewrite <-taken_used by done. split; [done|].
      intros h' Hlt. assert (is_host h') by (unfold is_host in *; lia). rewrite <-taken_used by done.
      apply Hless; [done|lia].
  - by destruct (first_free _ _).
Qed.
End allocation_exact.

(** * Look-ups *)

(** [id] has the endpoint [ep] in the network [n] that [e] keeps under [k]. *)
Definition attached (e : Engine) (k : string) (n : Network) (id : string) (ep : endpoint) : Prop :=
  networks e !! k = Some n ∧ Containers n !! id = Some ep.

Section lex.
Context {A : Type} (f : A → string) (R : relation A).

Lemma lex_le_trans : Transitive R → Transitive (lex_le f R).
Proof.
  intros HR a b c. unfold lex_le. intros H1 H2.
  destruct (decide (f a = f b)) as [Hab|Hab], (decide (f b = f c)) as [Hbc|Hbc].
  - rewrite decide_True by congruence. by etrans.
  - rewrite decide_False by congruence. congruence.
  - rewrite decide_False by congruence. congruence.
  - case_decide as Hac; [|by etrans]. destruct Hab. apply (anti_symm String.le); [done|congruence].
Qed.

Lemma lex_le_total : Total R → Total (lex_le f R).
Proof.
  intros HR a b. unfold lex_le. destruct (decide (f a = f b)) as [Heq|Hne].
  - rewrite decide_True by done. apply HR.
  - rewrite decide_False by done. apply String.le_total.
Qed.

Lemma lex_le_anti a b : lex_le f R a b → lex_le f R b a → f a = f b ∧ R a b ∧ R b a.
Proof.
  unfold lex_le. destruct (decide (f a = f b)) as [Heq|Hne].
  - by rewrite decide_True.
  - rewrite decide_False by done. intros ??. destruct Hne. by apply (anti_symm String.le).
Qed.
End lex.

#[export] Instance dns_le_trans : Transitive dns_le.
Proof. apply lex_le_trans, lex_le_trans. intros a b c. apply transitivity. Qed.
#[export] Instance dns_le_total : Total dns_le.
Proof. apply lex_le_total, lex_le_total. intros a b. apply String.le_total. Qed.

Lemma dns_le_anti a b : dName a = dName b → dns_le a b → dns_le b a → a = b.
Proof.
  intros Hname H1 H2. destruct (lex_le_anti _ _ _ _ H1 H2) as (? & H3 & H4).
  destruct (lex_le_anti _ _ _ _ H3 H4) as (? & H5 & H6). pose proof (anti_symm String.le _ _ H5 H6).
  destruct a, b; simpl in *; congruence.
Qed.

Section lookups.
Context {RO : RangeOrder} {UN : Unicode}.

Lemma address_unique e k1 n1 id1 ep1 k2 n2 id2 ep2 : networks_ok (networks e) →
  attached e k1 n1 id1 ep1 → attached e k2 n2 id2 ep2 →
  endpointIPv4 ep1 = endpointIPv4 ep2 → k1 = k2 ∧ id1 = id2.
Proof.
  intros [Hall Hinj] [Hn1 H1] [Hn2 H2] Heq.
  pose proof (Hall _ _ Hn1) as (Hi1 & _ & Heps & Hids & _). pose proof (Hall _ _ Hn2) as (Hi2 & _ & Heps2 & _ & _).
  destruct (Heps _ _ H1) as (h1 & Hh1 & He1), (Heps2 _ _ H2) as (h2 & Hh2 & He2).
  pose proof Heq as Heq'. rewrite (endpointIPv4_host (Index n1) h1), (endpointIPv4_host (Index n2) h2) in Heq' by done.
  apply host_ip_inj in Heq' as [Hidx _]; [|done..].
  assert (k1 = k2) as <- by (eapply Hinj; eauto). simplify_eq. split; [done|]. by eapply Hids.
Qed.

(** What a look-up of the folded name [q] finds. *)
Definition dns_answer (e : Engine) (requester : Container) (q : string) (r : DNSResult) : Prop :=
  ∃ k n id ep p c, attached e k n id ep ∧ is_Some (Containers n !! ID requester) ∧
    containers e !! id = Some p ∧ heap e !! p = Some c ∧ endpointMatchesDNSName c ep q = true ∧
    endpointIPv4 ep ≠ EmptyString ∧ r = mkDNS q (nName n) (Name c) (endpointIPv4 ep).

Lemma elem_of_dns e requester q r :
  r ∈ range "engine_network.go:262" (networks e) ≫= dns_network e requester q ↔ dns_answer e requester q r.
Proof.
  rewrite list_elem_of_bind. unfold dns_answer, attached, dns_network. split.
  - intros ([k n] & Hr & Hk%elem_of_range). simpl in Hr.
    destruct (Containers n !! ID requester) eqn:Hj; [|by apply elem_of_nil in Hr].
    apply list_elem_of_omap in Hr as ([id ep] & Hid%elem_of_range & Hr).
    apply bind_Some in Hr as (p & Hp & (c & Hc & Hr)%bind_Some).
    destruct (endpointMatchesDNSName c ep q) eqn:Hm; [|done]. simpl in Hr. case_bool_decide; [done|].
    simplify_eq. eauto 20.
  - intros (k & n & id & ep & p & c & [Hk Hid] & [x Hj] & Hp & Hc & Hm & Hip & ->). exists (k, n).
    rewrite elem_of_range. split; [|done]. simpl. rewrite Hj. apply list_elem_of_omap. exists (id, ep).
    rewrite elem_of_range. split; [done|]. rewrite Hp. simpl. rewrite Hc. simpl. rewrite Hm. simpl.
    by rewrite bool_decide_false.
Qed.
End lookups.

Lemma bind_perm_ext {A B} (f g : A → list B) l : (∀ x, f x ≡ₚ g x) → l ≫= f ≡ₚ l ≫= g.
Proof. intros Hfg. induction l as [|x l IH]; [done|]. csimpl. by rewrite (Hfg x), IH. Qed.

Lemma dns_bind_perm (RO1 RO2 : RangeOrder) {UN : Unicode} e requester q :
  range (RangeOrder := RO1) "engine_network.go:262" (networks e) ≫= dns_network (RO := RO1) e requester q ≡ₚ
  range (RangeOrder := RO2) "engine_network.go:262" (networks e) ≫= dns_network (RO := RO2) e requester q.
Proof.
  rewrite (range_any RO1 RO2 _ "engine_network.go:262"). apply bind_perm_ext. intros [k n]. unfold dns_network.
  simpl. destruct (Containers n !! ID requester); [|done]. apply omap_Permutation, range_any.
Qed.

(** C37: [resolveDNS] answers a look-up with exactly the endpoints, in the networks the
    requester has joined, of the containers one of whose names is the folded query;
    the answers are sorted, and they do not depend on the orders in which the maps
    of networks and endpoints are traversed. *)
Theorem resolveDNS_exact (RO : RangeOrder) (UN : Unicode) requester name e :
  let q := ToLower (TrimSpace (TrimSuffix name ".")) in
  (∀ r, r ∈ resolveDNS requester name e ↔ q ≠ EmptyString ∧ dns_answer e requester q r) ∧
  Sorted dns_le (resolveDNS requester name e) ∧
  ∀ RO' : RangeOrder, resolveDNS (RO := RO') requester name e = resolveDNS requester name e.
Proof.
  intros q. unfold resolveDNS. fold q. case_bool_decide as Hq.
  { split_and!; [|constructor|done]. intros r. rewrite elem_of_nil. tauto. }
  split_and!.
  - intros r. rewrite merge_sort_Permutation, elem_of_dns. tauto.
  - apply Sorted_merge_sort, _.
  - intros RO'. apply Sorted_unique_strong with dns_le; [apply _| |apply Sorted_merge_sort, _..|].
    + intros a b Ha Hb. rewrite merge_sort_Permutation, elem_of_dns in Ha, Hb.
      apply dns_le_anti. unfold dns_answer in *. naive_solver.
    + rewrite !merge_sort_Permutation. apply dns_bind_perm.
Qed.

(** * Attaching a container to its networks *)

Section configure.
Context {FS : FileSystem} {RO : RangeOrder} {UN : Unicode}.

(** The network a wanted reference stands for. *)
Definition resolves (e : Engine) (ref : string) : option (string * Network) :=
  network_for "engine_network.go:49" ref e.

Lemma resolve_refs_spec e refs :
  match resolve_refs e refs with
  | Ok l => l.*1 = refs ∧ Forall (λ x, resolves e x.1 = Some x.2) l
  | Err _ => Exists (λ ref, resolves e ref = None) refs
  end.
Proof.
  induction refs as [|ref refs IH]; [by split|]. simpl. fold (resolves e ref).
  destruct (resolves e ref) as [kn|] eqn:Href; [|by left].
  destruct (resolve_refs e refs) as [l|]; simpl.
  - destruct IH as [<- ?]. split; [done|]. by constructor.
  - by right.
Qed.

(** A network has no address left for the container. *)
Definition full_for (id : string) (n : Network) : Prop := is_err (planNetworkIPLocked n id) = true.

Lemma plan_one_spec c aliases k n :
  match plan_one c aliases (k, n) with
  | Ok pl => plNetwork pl = k
  | Err _ => full_for (ID c) n
  end.
Proof. unfold plan_one, full_for. simpl. by destruct (planNetworkIPLocked n (ID c)) as [[ip next]|]. Qed.

Lemma plan_refs_spec c wanted resolved refs :
  match plan_refs c wanted resolved refs with
  | Ok plans => plNetwork <$> plans = omap (λ ref, fst <$> resolved !! ref) refs
  | Err _ => ∃ ref k n, resolved !! ref = Some (k, n) ∧ full_for (ID c) n
  end.
Proof.
  induction refs as [|ref refs IH]; csimpl; [done|].
  destruct (resolved !! ref) as [[k n]|] eqn:Href; csimpl; [|done].
  pose proof (plan_one_spec c (default [] (wanted !! ref)) k n) as Hone.
  destruct (plan_one _ _ _) as [pl|]; [|by exists ref, k, n]. simpl.
  destruct (plan_refs _ _ _ refs) as [rest|]; csimpl; [|done]. by rewrite Hone, IH.
Qed.

(** The plans are for the networks the wanted references stand for. *)
Lemma plan_networks_spec e c wanted :
  match plan_networks e c wanted with
  | Ok (_, plans) =>
    (∀ ref, is_Some (wanted !! ref) → is_Some (resolves e ref)) ∧
    ∀ k, k ∈ plNetwork <$> plans ↔ ∃ ref n, is_Some (wanted !! ref) ∧ resolves e ref = Some (k, n)
  | Err _ => ∃ ref, is_Some (wanted !! ref) ∧
      (resolves e ref = None ∨ ∃ k n, resolves e ref = Some (k, n) ∧ full_for (ID c) n)
  end.
Proof.
  unfold plan_networks. pose proof (resolve_refs_spec e (range "engine_network.go:47" wanted).*1) as Hres.
  assert (∀ ref, ref ∈ (range "engine_network.go:47" wanted).*1 ↔ is_Some (wanted !! ref)) as Hrefs.
  { intros ref. rewrite list_elem_of_fmap. split.
    - intros ([? v] & -> & Hv%elem_of_range). by exists v.
    - intros [v Hv]. exists (ref, v). by rewrite elem_of_range. }
  destruct (resolve_refs _ _) as [l|]; simpl.
  2: { apply Exists_exists in Hres as (ref & Href%Hrefs & ?). eauto. }
  destruct Hres as [Hfst Hall]. set (resolved := list_to_map l).
  assert (∀ ref kn, resolved !! ref = Some kn ↔ is_Some (wanted !! ref) ∧ resolves e ref = Some kn) as Hlk.
  { intros ref kn. unfold resolved. rewrite <-elem_of_list_to_map by (rewrite Hfst; apply range_NoDup).
    rewrite Forall_forall in Hall. split.
    - intros Hin. split; [|by apply (Hall _ Hin)]. apply Hrefs. rewrite <-Hfst.
      apply list_elem_of_fmap. by exists (ref, kn).
    - intros [Hw Hkn]. apply Hrefs in Hw. rewrite <-Hfst in Hw. apply list_elem_of_fmap in Hw as ([r kn'] & -> & Hin).
      pose proof (Hall _ Hin) as Heq. simpl in *. congruence. }
  pose proof (plan_refs_spec c wanted resolved (sort_strings (range "engine_network.go:62" resolved).*1)) as Hpl.
  destruct (plan_refs _ _ _ _) as [plans|].
  2: { destruct Hpl as (ref & k & n & [Hw Hr]%Hlk & Hfull). exists ref. split; [done|]. right. by exists k, n. }
  split.
  - intros ref Hw. apply Hrefs in Hw. rewrite <-Hfst in Hw. apply list_elem_of_fmap in Hw as ([r kn] & -> & Hin).
    rewrite Forall_forall in Hall. pose proof (Hall _ Hin) as Heq. by exists kn.
  - intros k. rewrite Hpl, list_elem_of_omap. setoid_rewrite fmap_Some. split.
    + intros (ref & _ & [k' n] & [Hw Hr]%Hlk & ->). by exists ref, n.
    + intros (ref & n & Hw & Hr). exists ref. split.
      2: { exists (k, n). by rewrite Hlk. }
      unfold sort_strings. rewrite merge_sort_Permutation, list_elem_of_fmap.
      exists (ref, (k, n)). split; [done|]. by apply elem_of_range, Hlk.
Qed.

Lemma attached_after id plans nets k :
  (∀ pl, pl ∈ plans → is_Some (nets !! plNetwork pl)) →
  (∃ n, foldl (λ nets pl, attach id pl nets) nets plans !! k = Some n ∧ is_Some (Containers n !! id)) ↔
  k ∈ plNetwork <$> plans ∨ ∃ n, nets !! k = Some n ∧ is_Some (Containers n !! id).
Proof.
  revert nets. induction plans as [|pl plans IH]; intros nets Hnets; simpl.
  { split; [by right|]. intros [[]%elem_of_nil|]; done. }
  destruct (Hnets pl) as [m Hm]; [by left|].
  assert (attach id pl nets = <[plNetwork pl := raise_next (plNextHost pl)
    (m <| Containers := <[id := plEndpoint pl]> (Containers m) |>)]> nets) as Heq
    by (unfold attach; by rewrite (alter_Some_insert _ _ _ m)).
  rewrite IH, Heq, elem_of_cons.
  2: { intros pl' Hin. rewrite Heq, lookup_insert_is_Some'. right. apply Hnets. by right. }
  destruct (decide (k = plNetwork pl)) as [->|Hne].
  - split; [by left; left|]. intros _. right. eexists. rewrite lookup_insert_eq. split; [done|].
    destruct (raise_next_shape (plNextHost pl) (m <| Containers := <[id := plEndpoint pl]> (Containers m) |>)) as [_ ->].
    simpl. rewrite lookup_insert_eq. by eexists.
  - rewrite lookup_insert_ne by done. naive_solver.
Qed.

(** The networks a container is attached to. *)
Definition attached_to (e : Engine) (id k : string) : Prop := ∃ n ep, attached e k n id ep.

Lemma on_modify p f e c : heap e !! p = Some c →
  on p (modify_this f) e = (e <| heap := <[p := f c]> (heap e) |> <| pids := pids e |>, Done ()).
Proof. intros Hp. unfold on. by rewrite Hp. Qed.

Lemma attached_eq e1 e2 k n id ep : networks e1 = networks e2 → attached e1 k n id ep → attached e2 k n id ep.
Proof. intros Heq. unfold attached. by rewrite Heq. Qed.

(** What the reattachment [nets] of [id] means for everybody. *)
Definition reattached (e e' : Engine) (id : string) (to : string → Prop) : Prop :=
  (∀ k, attached_to e' id k ↔ to k) ∧
  ∀ id' k ep, id' ≠ id → (∃ n, attached e' k n id' ep) ↔ (∃ n, attached e k n id' ep).

Lemma reattached_networks e e' e1 id to : networks e' = networks e1 →
  reattached e e1 id to → reattached e e' id to.
Proof. unfold reattached, attached_to, attached. by intros ->. Qed.

Lemma detach_reattached e e' id : networks e' = detach_all id (networks e) →
  reattached e e' id (λ _, False).
Proof.
  unfold reattached, attached_to, attached. intros ->. split.
  - intros k. split; [|done]. intros (n & ep & Hk & Hid). unfold detach_all in Hk.
    rewrite lookup_fmap_Some in Hk. destruct Hk as (n0 & <- & _). simpl in Hid. by rewrite lookup_delete_eq in Hid.
  - intros id' k ep Hne. unfold detach_all. split.
    + intros (n & Hk & Hid). rewrite lookup_fmap_Some in Hk. destruct Hk as (n0 & <- & Hk). simpl in Hid.
      rewrite lookup_delete_ne in Hid by done. eauto.
    + intros (n & Hk & Hid). eexists. rewrite lookup_fmap, Hk. split; [done|]. simpl. by rewrite lookup_delete_ne.
Qed.

Lemma attach_all_keys id plans nets k :
  is_Some (foldl (λ nets pl, attach id pl nets) nets plans !! k) ↔ is_Some (nets !! k).
Proof.
  revert nets. induction plans as [|pl plans IH]; intros nets; simpl; [done|].
  rewrite IH. unfold attach. apply lookup_alter_is_Some.
Qed.

Lemma plans_reattached e e' id plans : id ≠ EmptyString → nets_ok e →
  Forall (planned id (networks e)) plans →
  networks e' = foldl (λ nets pl, attach id pl nets) (detach_all id (networks e)) plans →
  reattached e e' id (λ k, k ∈ plNetwork <$> plans).
Proof.
  intros Hid Hok Hplans Heq. split.
  - intros k. unfold attached_to, attached. rewrite Heq. etrans; [|etrans; [apply (attached_after id plans)|]].
    + split; [intros (n & ep & Hk & Hep); exists n; split; [done|by exists ep]|].
      intros (n & Hk & [ep Hep]). by exists n, ep.
    + intros pl Hin. rewrite Forall_forall in Hplans. destruct (Hplans pl Hin) as (n0 & Hn0 & _).
      unfold detach_all. rewrite lookup_fmap, Hn0. by eexists.
    + split; [|by left]. intros [?|(n & Hk & [ep Hep])]; [done|]. unfold detach_all in Hk.
      rewrite lookup_fmap_Some in Hk. destruct Hk as (n0 & <- & _). simpl in Hep. by rewrite lookup_delete_eq in Hep.
  - intros id' k ep Hne. unfold attached. rewrite Heq.
    destruct (derived_attach_all id (networks e) (detach_all id (networks e)) plans) as [_ Hder];
      [done..|by apply derived_detach|done|]. split.
    + intros (n & Hk & Hep). destruct (Hder _ _ Hk) as (n0 & Hn0 & _ & Hsame). rewrite Hsame in Hep by done. eauto.
    + intros (n & Hk & Hep). assert (is_Some (foldl (λ nets pl, attach id pl nets) (detach_all id (networks e)) plans !! k))
        as [n' Hn'].
      { apply attach_all_keys. unfold detach_all. rewrite lookup_fmap, Hk. by eexists. }
      exists n'. split; [done|]. destruct (Hder _ _ Hn') as (n0 & Hn0 & _ & Hsame). simplify_eq. by rewrite Hsame.
Qed.

(** C15: [configureContainerNetworks] attaches the container to exactly the networks
    that the wanted references stand for (to none in the modes [host] and [none])
    and leaves the endpoints of all other containers as they were; when it fails,
    because a reference stands for no network or a network is full, it changes
    nothing at all. *)
Theorem configureContainerNetworks_atomic p networkMode aliases e c :
  ids_ok e → nets_ok e → heap e !! p = Some c →
  let mode := TrimSpace networkMode in
  let wanted := wanted_networks mode aliases in
  let detached := mode = "host" ∨ mode = "none" in
  match configureContainerNetworks p networkMode aliases e with
  | (e', Done (Ok _)) =>
    reattached e e' (ID c) (λ k, ¬ detached ∧
      ∃ ref n, is_Some (wanted !! ref) ∧ resolves e ref = Some (k, n))
  | (e', Done (Err _)) =>
    e' = e ∧ ¬ detached ∧ ∃ ref, is_Some (wanted !! ref) ∧
      (resolves e ref = None ∨ ∃ k n, resolves e ref = Some (k, n) ∧ full_for (ID c) n)
  | (_, _) => False
  end.
Proof.
  intros Hids Hok Hp mode wanted detached. unfold configureContainerNetworks.
  unfold mbind at 1, prog_bind at 1. rewrite deref_spec, Hp. unfold mbind at 1, prog_bind at 1.
  unfold get at 1. fold mode. case_bool_decide as Hm.
  - unfold mbind, prog_bind. simpl. rewrite (on_modify p _ _ c) by done. simpl.
    destruct (detach_reattached e (e <| networks := detach_all (ID c) (networks e) |>) (ID c)) as [Hto Hrest]; [done|].
    split; [|done]. intros k. etrans; [apply Hto|]. split; [done|]. by intros [[] _].
  - pose proof (plan_networks_spec e c wanted) as Hspec. fold wanted.
    destruct (plan_networks e c wanted) as [[names plans]|] eqn:Hpl; [|done].
    unfold mbind, prog_bind. simpl. rewrite (on_modify p _ _ c) by done. simpl.
    destruct Hspec as [_ Hkeys].
    set (e1 := e <| networks := foldl (λ nets pl, attach (ID c) pl nets) (detach_all (ID c) (networks e)) plans |>).
    apply (reattached_networks e _ e1); [reflexivity|].
    destruct (plans_reattached e e1 (ID c) plans) as [Hto Hrest];
      [by eapply Hids|done|by eapply plan_networks_planned|done|].
    split; [|done]. intros k. rewrite Hto, Hkeys. unfold detached. tauto.
Qed.
End configure.

(** * Examples *)

Lemma newEngine_nets now created cbs sd ov l : nets_ok (newEngine now created cbs sd ov l).
Proof.
  unfold nets_ok. simpl. split.
  - apply map_Forall_singleton. split; [done|]. by split.
  - intros k1 k2 n1 n2 [<- _]%lookup_singleton_Some [<- _]%lookup_singleton_Some. done.
Qed.

(** [web] is attached to the bridge first; [db] then gets the next address. *)
Definition sample_attached : Engine :=
  (configureContainerNetworks (RO := range_forward) (UN := unicode_none) 0 EmptyString ∅ sample_pair).1.

Lemma sample_ids : ids_ok sample_pair.
Proof. do 2 (apply map_Forall_insert_2; [done|]). apply map_Forall_empty. Qed.

Lemma sample_attached_nets : nets_ok sample_attached.
Proof. apply configure_nets; [apply sample_ids|]. apply newEngine_nets. Qed.

Definition sample_bridge : Network := default (bridge_network 0%Z) (networks sample_attached !! "bridge").

Lemma plan_is_least_free_host_witness :
  size (EngineTypes.Containers sample_bridge) = 1 ∧
  is_err (planNetworkIPLocked (RO := range_forward) sample_bridge "bb22") ≠ true.
Proof.
  split; [by vm_compute|]. intros Herr.
  apply (plan_is_least_free_host (RO := range_forward) sample_bridge "bb22") in Herr.
  - by vm_compute in Herr.
  - unfold sample_bridge. destruct (networks sample_attached !! "bridge") as [n|] eqn:Hn.
    + by eapply sample_attached_nets.
    + by vm_compute in Hn.
  - by vm_compute.
Defined.

Lemma configureContainerNetworks_atomic_witness :
  match configureContainerNetworks (RO := range_forward) (UN := unicode_none) 0 "lan" ∅ sample_pair with
  | (e', Done (Err _)) => e' = sample_pair
  | _ => False
  end.
Proof.
  pose proof (configureContainerNetworks_atomic (RO := range_forward) (UN := unicode_none) 0 "lan" ∅
    sample_pair sample_web sample_ids (newEngine_nets _ _ _ _ _ _) eq_refl) as Hspec.
  cbn zeta in Hspec. destruct (configureContainerNetworks _ _ _ _) as [e' [[]| |]] eqn:Heq; [|by apply Hspec|done..].
  vm_compute in Heq. congruence.
Defined.
