(* ===== verification/Redis.v ===== *)
(** The built-in Redis commands and master-replica replication: [service_redis.go]
    ([handleBuiltInRedis]) and [redis_replication.go].

    What a command writes to the buffered writer is returned as a text, with
    whether the connection quits.  A section under a container's lock is one [on]
    step; the steps of a command can interleave with those of others, which
    [RedisTheorems.v] uses. *)
From Stdlib Require Import Ascii.
From S2P Require Import Prelude GoStrings GoTime Cookbook Sha256 CookbookValidation Resp Container EngineTypes Net Ledger Engine EngineNetwork.

Definition line (s : string) : string := s +:+ crlf.

(** * The key space of one container *)

Definition kv_set (key value : string) (c : Container) : Container := c <| KV := <[key := value]> (KV c) |>.

(** The loop of [DEL]: how many keys there were, and what is left. *)
Fixpoint del_loop (keys : list string) (kv : gmap string string) : Z * gmap string string :=
  match keys with
  | [] => (0%Z, kv)
  | key :: keys =>
    match kv !! key with
    | Some _ => let '(n, kv) := del_loop keys (delete key kv) in ((n + 1)%Z, kv)
    | None => del_loop keys kv
    end
  end.

Definition count_existing (keys : list string) (kv : gmap string string) : Z :=
  Z.of_nat (length (filter (λ key, is_Some (kv !! key)) keys)).

(** [value, _ := strconv.Atoi(kv[key]); value++] *)
Definition incremented (key : string) (kv : gmap string string) : Z :=
  wrap64 ((Atoi (default EmptyString (kv !! key))).1 + 1).

Definition no_index {A} : prog CState A := panic "index out of range [0] with length 0".

Section redis.
Context {FS : FileSystem} {RO : RangeOrder} {UN : Unicode}.

(** * Replies that are the same in both handlers *)

Definition wrong_arguments (name : string) : string :=
  line ("-ERR wrong number of arguments for '" +:+ name +:+ "' command").
Definition ping_reply (args : list string) : string :=
  match args with arg :: _ => writeRESPBulk arg | [] => line "+PONG" end.
Definition echo_reply (args : list string) : string :=
  match args with [arg] => writeRESPBulk arg | _ => wrong_arguments "echo" end.
Definition get_reply (args : list string) (kv : gmap string string) : string :=
  match args with
  | [key] => match kv !! key with Some value => writeRESPBulk value | None => line "$-1" end
  | _ => wrong_arguments "get"
  end.
Definition integer_reply (n : Z) : string := line (":" +:+ Itoa n).
Definition client_reply (args : list string) : string :=
  match args with arg :: _ => if EqualFold arg "GETNAME" then line "$-1" else line "+OK" | [] => line "+OK" end.
Definition unknown_reply (name : string) : string := line ("-ERR unknown command '" +:+ ToLower name +:+ "'").

(** The commands that touch neither keys nor replication. *)
Definition plain_reply (name : string) (args : list string) : option string :=
  if bool_decide (name = "PING") then Some (ping_reply args)
  else if bool_decide (name = "ECHO") then Some (echo_reply args)
  else if bool_decide (name = "AUTH" ∨ name = "SELECT" ∨ name = "READONLY" ∨ name = "READWRITE")
  then Some (line "+OK")
  else if bool_decide (name = "CLIENT") then Some (client_reply args)
  else if bool_decide (name = "CONFIG" ∨ name = "COMMAND") then Some (line "*0")
  else None.

(** * The handler without replication *)

Definition info_body (c : Container) : string :=
  line "# Server" +:+ line "redis_version:7.4.0-docker-zero" +:+ line "process_id:1" +:+ line "# Replication"
  +:+ line "role:master" +:+ line "# DockerZero" +:+ line ("seed:" +:+ Itoa (Seed c))
  +:+ line ("health:" +:+ hlStatus (Health c)).

Definition handleBuiltInRedis (command : list string) : prog CState (string * bool) :=
  match command with
  | [] => no_index
  | command0 :: args =>
    let name := ToUpper command0 in
    s ← get;
    let kv := KV (this s) in
    match plain_reply name args with
    | Some reply => mret (reply, false)
    | None =>
      if bool_decide (name = "SET") then
        match args with
        | key :: value :: _ => modify_this (kv_set key value);; mret (line "+OK", false)
        | _ => mret (wrong_arguments "set", false)
        end
      else if bool_decide (name = "GET") then mret (get_reply args kv, false)
      else if bool_decide (name = "DEL") then
        let '(deleted, kv) := del_loop args kv in
        modify_this (λ c, c <| KV := kv |>);; mret (integer_reply deleted, false)
      else if bool_decide (name = "EXISTS") then mret (integer_reply (count_existing args kv), false)
      else if bool_decide (name = "INCR") then
        match args with
        | [key] =>
          let value := incremented key kv in
          modify_this (kv_set key (Itoa value));; mret (integer_reply value, false)
        | _ => mret (wrong_arguments "incr", false)
        end
      else if bool_decide (name = "INFO") then mret (writeRESPBulk (info_body (this s)), false)
      else if bool_decide (name = "QUIT") then mret (line "+OK", true)
      else mret (unknown_reply name, false)
    end
  end.

(** * Roles and links *)

Definition isRedisWriteCommand (name : string) : bool :=
  let name := ToUpper name in bool_decide (name = "SET" ∨ name = "DEL" ∨ name = "INCR").

Definition containerRedisRole (c : Container) : string :=
  if bool_decide (Role (Redis c) = EmptyString) then "master" else Role (Redis c).

Definition setRedisMaster (c : Container) : Container :=
  c <| Redis := mkRedisState "master" EmptyString 0 EmptyString "up" |>.

(** The section of [setRedisReplica]. *)
Definition set_replica (host : string) (port : Z) (c : Container) : Container :=
  c <| Redis := mkRedisState "slave" host port EmptyString "down" |>.

(** [--replicaof host port] among the words of the command. *)
Fixpoint target_loop (tokens : list string) : option (string * Z) :=
  match tokens with
  | token :: rest =>
    match rest with
    | host :: port_text :: _ =>
      let next := target_loop rest in
      if EqualFold token "--replicaof" || EqualFold token "--slaveof" then
        match Atoi_ok port_text with
        | Some port => if bool_decide (0 < port ≤ 65535)%Z then Some (host, port) else next
        | None => next
        end
      else next
    | _ => None
    end
  | [] => None
  end.
Definition redisReplicaTargetFromCommand (command : list string) : option (string * Z) :=
  target_loop (command ≫= Fields).

Definition netParseIPText (host : string) : string :=
  let host := TrimSpace host in
  match Split host "." with
  | [a; b; c; d] => if forallb (λ part, bool_decide (is_Some (Atoi_ok part))) [a; b; c; d] then host else EmptyString
  | _ => EmptyString
  end.

(** The section that copies the target into the container. *)
Definition adopt_target (c : Container) : Container :=
  match redisReplicaTargetFromCommand (Command c) with
  | Some (host, port) =>
    c <| Redis := mkRedisState "slave" host port (MasterID (Redis c))
           (if bool_decide (MasterLinkStatus (Redis c) = EmptyString) then "down" else MasterLinkStatus (Redis c)) |>
  | None => c
  end.

Definition link_down (c : Container) : Container :=
  c <| Redis := (Redis c) <| MasterID := EmptyString |> <| MasterLinkStatus := "down" |> |>.
Definition link_up (master_id : string) (kv : gmap string string) (c : Container) : Container :=
  c <| Redis := (Redis c) <| MasterID := master_id |> <| MasterLinkStatus := "up" |> |> <| KV := kv |>.

(** The loop over the answers of the look-up. *)
Fixpoint master_loop (c : Container) (results : list DNSResult) : prog Engine (option ptr) :=
  match results with
  | [] => mret None
  | result :: results =>
    e ← get;
    match findContainer (dContainer result) e with
    | Err _ => master_loop c results
    | Ok None => panic "invalid memory address or nil pointer dereference"
    | Ok (Some q) =>
      candidate ← deref q;
      if bool_decide (Kind candidate = "redis" ∧ ID candidate ≠ ID c) then mret (Some q)
      else master_loop c results
    end
  end.

Definition find_master (c : Container) (host : string) : prog Engine (option ptr) :=
  e ← get;
  let ip := netParseIPText host in
  if bool_decide (ip ≠ EmptyString) then mret (findContainerByEndpointIP ip e)
  else master_loop c (resolveDNS c host e).

(** The master when it is there and running. *)
Definition live_master (c : Container) (host : string) : prog Engine (option ptr) :=
  master ← find_master c host;
  match master with
  | None => mret None
  | Some q => m ← deref q; mret (if isRunning m then Some q else None)
  end.

Definition redis_entry (c : Container) (event : string) (request : any) (master : Container) : LedgerEntry :=
  (container_entry c "service.redis.replication" event) <| eRequest := request |>
    <| eResponse := AnyMap [("master", AnyString (Name master))] |>.

Definition refreshRedisReplication (now : Time) (p : ptr) : prog Engine () :=
  c ← deref p;
  if bool_decide (Kind c ≠ "redis") then mret ()
  else
    on p (modify_this adopt_target);;
    c ← deref p;
    let host := MasterHost (Redis c) in
    let port := MasterPort (Redis c) in
    if bool_decide (Role (Redis c) ≠ "slave" ∨ host = EmptyString ∨ port = 0%Z) then mret ()
    else
      master ← live_master c host;
      match master with
      | None => on p (modify_this link_down)
      | Some q =>
        m ← deref q;
        on p (modify_this (link_up (ID m) (KV m)));;
        log_entry now (redis_entry c "link.up"
          (AnyMap [("master_host", AnyString host); ("master_port", AnyInt port)]) m)
      end.

Definition setRedisReplica (now : Time) (p : ptr) (host : string) (port : Z) : prog Engine () :=
  on p (modify_this (set_replica host port));; refreshRedisReplication now p.

(** [for _, c := range items { f(c) }] *)
Fixpoint for_each (f : ptr → prog Engine ()) (items : list ptr) : prog Engine () :=
  match items with
  | [] => mret ()
  | p :: items => f p;; for_each f items
  end.

(** The other Redis containers, in the order of the loop at [site]. *)
Definition other_redis (site id : string) (e : Engine) : list ptr :=
  (filter (λ pc, Kind pc.2 = "redis" ∧ ID pc.2 ≠ id) (objects site e)).*1.

Definition refreshRedisDependents (now : Time) (p : ptr) : prog Engine () :=
  master ← deref p;
  if bool_decide (Kind master ≠ "redis") then mret ()
  else e ← get; for_each (refreshRedisReplication now) (other_redis "redis_replication.go:273" (ID master) e).

Definition mark_down (master_id : string) (c : Container) : Container :=
  if bool_decide (MasterID (Redis c) = master_id)
  then c <| Redis := (Redis c) <| MasterLinkStatus := "down" |> |> else c.

Definition markRedisMasterDown (p : ptr) : prog Engine () :=
  master ← deref p;
  if bool_decide (Kind master ≠ "redis") then mret ()
  else
    e ← get;
    for_each (λ q, on q (modify_this (mark_down (ID master))))
      (other_redis "redis_replication.go:290" (ID master) e).

(** * Replication of writes *)

Definition applyRedisMutation (command : list string) (c : Container) : Container :=
  match command with
  | [] => c
  | command0 :: args =>
    let name := ToUpper command0 in
    if bool_decide (name = "SET") then
      match args with key :: value :: _ => kv_set key value c | _ => c end
    else if bool_decide (name = "DEL") then c <| KV := foldl (λ kv key, delete key kv) (KV c) args |>
    else if bool_decide (name = "INCR") then
      match args with [key] => kv_set key (Itoa (incremented key (KV c))) c | _ => c end
    else c
  end.

(** A replica that follows the container named [master_id]. *)
Definition linked (master_id : string) (c : Container) : bool :=
  bool_decide (Role (Redis c) = "slave" ∧ MasterID (Redis c) = master_id ∧ MasterLinkStatus (Redis c) = "up").

Definition replicas_of (site master_id : string) (e : Engine) : list ptr :=
  (filter (λ pc, Kind pc.2 = "redis" ∧ ID pc.2 ≠ master_id ∧ linked master_id pc.2 = true
             ∧ isRunning pc.2 = true) (objects site e)).*1.

Definition replicate_to (now : Time) (master : Container) (command : list string) (q : ptr) : prog Engine () :=
  on q (modify_this (applyRedisMutation command));;
  replica ← deref q;
  log_entry now (redis_entry replica "apply" (AnyStrings command) master).

Definition replicateRedisMutation (now : Time) (p : ptr) (command : list string) : prog Engine () :=
  master ← deref p;
  if bool_decide (Kind master ≠ "redis" ∨ containerRedisRole master ≠ "master") then mret ()
  else
    e ← get;
    for_each (replicate_to now master command) (replicas_of "redis_replication.go:311" (ID master) e).

Definition connected_slaves (c : Container) (e : Engine) : Z :=
  Z.of_nat (length (filter (λ pc, Kind pc.2 = "redis" ∧ ID pc.2 ≠ ID c ∧ linked (ID c) pc.2 = true)
                      (objects "redis_replication.go:371" e))).

Definition redisInfo (c : Container) (e : Engine) : string :=
  let head := line "# Server" +:+ line "redis_version:7.4.0-docker-zero" +:+ line "process_id:1"
              +:+ line "# Replication" in
  let tail := line "# DockerZero" +:+ line ("seed:" +:+ Itoa (Seed c)) +:+ line ("health:" +:+ hlStatus (Health c)) in
  if bool_decide (Role (Redis c) = "slave")
  then head +:+ line "role:slave" +:+ line ("master_host:" +:+ MasterHost (Redis c))
       +:+ line ("master_port:" +:+ Itoa (MasterPort (Redis c)))
       +:+ line ("master_link_status:" +:+ MasterLinkStatus (Redis c)) +:+ tail
  else head +:+ line "role:master" +:+ line ("connected_slaves:" +:+ Itoa (connected_slaves c e)) +:+ tail.

Definition role_reply (r : RedisReplicationState) : string :=
  if bool_decide (Role r = "slave") then
    let state := if bool_decide (MasterLinkStatus r ≠ "up") then "connect" else "connected" in
    line "*5" +:+ line "$5" +:+ line "slave" +:+ writeRESPBulk (MasterHost r)
    +:+ integer_reply (MasterPort r) +:+ writeRESPBulk state +:+ line ":0"
  else line "*3" +:+ line "$6" +:+ line "master" +:+ line ":0" +:+ line "*0".

(** * The handler with replication *)

(** A section on the key space that returns a value. *)
Definition kv_step {A} (p : ptr) (f : gmap string string → A * gmap string string) : prog Engine A :=
  on p (s ← get;
        let '(a, kv) := f (KV (this s)) in
        modify_this (λ c, c <| KV := kv |>);; mret a).

Definition replicaof (now : Time) (p : ptr) (args : list string) : prog Engine string :=
  match args with
  | [host; port_text] =>
    if EqualFold host "NO" && EqualFold port_text "ONE" then
      on p (modify_this setRedisMaster);; mret (line "+OK")
    else match Atoi_ok port_text with
    | Some port =>
      if bool_decide (1 ≤ port ≤ 65535)%Z
      then setRedisReplica now p host port;; mret (line "+OK")
      else mret (line "-ERR Invalid master port")
    | None => mret (line "-ERR Invalid master port")
    end
  | _ => mret (wrong_arguments "replicaof")
  end.

Definition handleBuiltInRedisForEngine (now : Time) (p : ptr) (command : list string) : prog Engine (string * bool) :=
  match command with
  | [] => panic "index out of range [0] with length 0"
  | command0 :: args =>
    let name := ToUpper command0 in
    c ← deref p;
    if isRedisWriteCommand name && bool_decide (containerRedisRole c = "slave")
    then mret (line "-READONLY You can't write against a read only replica.", false)
    else match plain_reply name args with
    | Some reply => mret (reply, false)
    | None =>
      if bool_decide (name = "SET") then
        match args with
        | key :: value :: _ =>
          kv_step p (λ kv, ((), <[key := value]> kv));;
          replicateRedisMutation now p command;;
          mret (line "+OK", false)
        | _ => mret (wrong_arguments "set", false)
        end
      else if bool_decide (name = "GET") then c ← deref p; mret (get_reply args (KV c), false)
      else if bool_decide (name = "DEL") then
        deleted ← kv_step p (del_loop args);
        replicateRedisMutation now p command;;
        mret (integer_reply deleted, false)
      else if bool_decide (name = "EXISTS") then
        c ← deref p; mret (integer_reply (count_existing args (KV c)), false)
      else if bool_decide (name = "INCR") then
        match args with
        | [key] =>
          value ← kv_step p (λ kv, (incremented key kv, <[key := Itoa (incremented key kv)]> kv));
          replicateRedisMutation now p ["SET"; key; Itoa value];;
          mret (integer_reply value, false)
        | _ => mret (wrong_arguments "incr", false)
        end
      else if bool_decide (name = "INFO") then
        c ← deref p; e ← get; mret (writeRESPBulk (redisInfo c e), false)
      else if bool_decide (name = "ROLE") then c ← deref p; mret (role_reply (Redis c), false)
      else if bool_decide (name = "REPLICAOF" ∨ name = "SLAVEOF") then
        reply ← replicaof now p args; mret (reply, false)
      else if bool_decide (name = "QUIT") then mret (line "+OK", true)
      else mret (unknown_reply name, false)
    end
  end.
End redis.
