(* ===== verification/RedisTheorems.v ===== *)
(** Correctness of the Redis commands: on a master the replicated handler behaves
    as the plain one and keeps its replicas equal to it, a replica refuses writes,
    and a refresh leaves a link that is up only to a live master with its keys.

    The last part shows where the code gives no such guarantee: two writes whose
    sections interleave, and a replica of a replica. *)
From Stdlib Require Import Ascii.
From S2P Require Import Prelude GoStrings GoTime Cookbook Sha256 CookbookValidation Resp Container EngineTypes Net Ledger Engine EngineFacts EngineNetwork NetworkTheorems Redis.

(** * The key space *)

(** What a mutation does to the keys. *)
Definition mutate (command : list string) (kv : gmap string string) {UN : Unicode} : gmap string string :=
  match command with
  | [] => kv
  | command0 :: args =>
    if bool_decide (ToUpper command0 = "SET") then
      match args with key :: value :: _ => <[key := value]> kv | _ => kv end
    else if bool_decide (ToUpper command0 = "DEL") then foldl (λ kv key, delete key kv) kv args
    else if bool_decide (ToUpper command0 = "INCR") then
      match args with [key] => <[key := Itoa (incremented key kv)]> kv | _ => kv end
    else kv
  end.

Lemma del_loop_spec keys kv :
  del_loop keys kv = (Z.of_nat (size kv - size (foldl (λ kv key, delete key kv) kv keys)),
                      foldl (λ kv key, delete key kv) kv keys).
Proof.
  revert kv. induction keys as [|key keys IH]; intros kv; simpl; [f_equal; lia|].
  assert (∀ kv : gmap string string, size (foldl (λ kv key, delete key kv) kv keys) ≤ size kv) as Hle.
  { clear. induction keys as [|key keys IH]; intros kv; simpl; [done|].
    etrans; [apply IH|]. apply map_subseteq_size, delete_subseteq. }
  destruct (kv !! key) as [v|] eqn:Hkey.
  - rewrite IH. f_equal. specialize (Hle (delete key kv)).
    rewrite map_size_delete_Some in * by (by eexists).
    assert (size kv ≠ 0) by (rewrite map_size_non_empty_iff; intros ->; by simplify_map_eq). lia.
  - rewrite IH, delete_id by done. done.
Qed.

(** Deleting again, or setting again, changes nothing. *)
Lemma mutate_idempotent {UN : Unicode} command kv :
  ToUpper (default EmptyString (head command)) ≠ "INCR" →
  mutate command (mutate command kv) = mutate command kv.
Proof.
  destruct command as [|command0 args]; [done|]. simpl. intros Hincr.
  repeat case_bool_decide; try done.
  - destruct args as [|key [|value args]]; [done..|]. by rewrite insert_insert_eq.
  - assert (∀ keys k (m : gmap string string), foldl (λ kv key, delete key kv) m keys !! k =
      if decide (k ∈ keys) then None else m !! k) as Hlk.
    { clear. induction keys as [|key keys IH]; intros k m; simpl; [done|]. rewrite IH.
      destruct (decide (k = key)) as [->|Hne].
      - rewrite (decide_True (P := key ∈ key :: keys)) by left. case_decide; [done|]. by rewrite lookup_delete_eq.
      - rewrite lookup_delete_ne by done. repeat case_decide; set_solver. }
    apply map_eq. intros k. rewrite !Hlk. by case_decide.
Qed.

Lemma applyRedisMutation_mutate {UN : Unicode} command c :
  applyRedisMutation command c = c <| KV := mutate command (KV c) |>.
Proof.
  unfold applyRedisMutation, mutate, kv_set. destruct command as [|command0 args]; [by destruct c|].
  repeat case_bool_decide; [destruct args as [|? [|? ?]]|done|destruct args as [|? [|? ?]]|];
    done || by destruct c.
Qed.

(** * Steps of the engine *)

Section steps.
Context {FS : FileSystem} {RO : RangeOrder} {UN : Unicode}.

(** [e] with other objects and another ledger. *)
Definition with_heap (e : Engine) (h : gmap ptr Container) (l : Ledger) : Engine :=
  e <| heap := h |> <| ledger := l |>.

Lemma on_modify_spec p f e c : heap e !! p = Some c →
  on p (modify_this f) e = (with_heap e (<[p := f c]> (heap e)) (ledger e), Done ()).
Proof. intros Hp. unfold on. rewrite Hp. done. Qed.

Lemma kv_step_spec {A} p (f : gmap string string → A * gmap string string) e c : heap e !! p = Some c →
  kv_step p f e = (with_heap e (<[p := c <| KV := (f (KV c)).2 |>]> (heap e)) (ledger e), Done (f (KV c)).1).
Proof.
  intros Hp. unfold kv_step, on. rewrite Hp. unfold mbind, prog_bind. simpl. by destruct (f (KV c)).
Qed.

Lemma elem_of_objects site e q r :
  (q, r) ∈ objects site e ↔ (∃ id, containers e !! id = Some q) ∧ heap e !! q = Some r.
Proof.
  unfold objects. rewrite list_elem_of_omap. split.
  - intros (q' & Hq & Hr). apply bind_Some in Hr as (r' & Hr & [= <- <-]). split; [|done].
    apply list_elem_of_fmap in Hq as ([id q''] & -> & Hin%elem_of_range). by exists id.
  - intros [[id Hid] Hr]. exists q. rewrite Hr. split; [|done]. apply list_elem_of_fmap.
    exists (id, q). by rewrite elem_of_range.
Qed.

(** The replica [r] at [q] of the container [c]: registered, linked and running. *)
Definition follows (e : Engine) (c : Container) (q : ptr) (r : Container) : Prop :=
  (∃ id, containers e !! id = Some q) ∧ heap e !! q = Some r ∧ Kind r = "redis" ∧ ID r ≠ ID c ∧
  linked (ID c) r = true ∧ isRunning r = true.

Lemma elem_of_replicas site e c q :
  q ∈ replicas_of site (ID c) e ↔ ∃ r, follows e c q r.
Proof.
  unfold replicas_of, follows. rewrite list_elem_of_fmap. split.
  - intros ([q' r] & -> & ((? & ? & ? & ?) & [? ?]%elem_of_objects)%list_elem_of_filter). by exists r.
  - intros (r & ? & ? & ?). exists (q, r). rewrite list_elem_of_filter, elem_of_objects. done.
Qed.

Definition mutated (command : list string) (r : Container) : Container :=
  r <| KV := mutate command (KV r) |>.

Lemma replicate_to_spec now master command q e r : heap e !! q = Some r →
  replicate_to now master command q e =
  (with_heap e (<[q := mutated command r]> (heap e))
     (Log now (redis_entry (mutated command r) "apply" (AnyStrings command) master) (ledger e)), Done ()).
Proof.
  intros Hr. unfold replicate_to. rewrite (bind_Done _ _ _ _ _ (on_modify_spec _ _ _ r Hr)).
  rewrite applyRedisMutation_mutate, (bind_deref _ _ _ (mutated command r)); [done|]. apply lookup_insert_eq.
Qed.

(** Replicating to a list of objects mutates each of them, once in effect. *)
Lemma for_each_replicate now master command items e :
  ToUpper (default EmptyString (head command)) ≠ "INCR" →
  Forall (λ q, is_Some (heap e !! q)) items →
  ∃ h l, for_each (replicate_to now master command) items e = (with_heap e h l, Done ()) ∧
    ∀ q, h !! q = if decide (q ∈ items) then mutated command <$> heap e !! q else heap e !! q.
Proof.
  intros Hincr Hall. revert e Hall. induction items as [|q items IH]; intros e Hall.
  { exists (heap e), (ledger e). split; [by destruct e|]. intros q. rewrite decide_False by set_solver. done. }
  inv Hall. destruct H1 as [r Hr]. simpl. rewrite (bind_Done _ _ _ _ _ (replicate_to_spec _ _ _ _ _ r Hr)).
  set (e1 := with_heap e _ _). destruct (IH e1) as (h & l & Heq & Hh).
  { eapply Forall_impl; [done|]. intros q' [r' Hr']. simpl. apply lookup_insert_is_Some'. right. by exists r'. }
  exists h, l. split; [by rewrite Heq|]. intros q'. rewrite Hh. simpl.
  destruct (decide (q' = q)) as [->|Hne].
  - rewrite lookup_insert_eq, (decide_True (P := q ∈ q :: items)), Hr by left. simpl.
    case_decide; [|done]. f_equal. unfold mutated. simpl. by rewrite mutate_idempotent.
  - rewrite lookup_insert_ne by done. repeat case_decide; set_solver.
Qed.

(** A registered running replica of [p] has the keys of [p]. *)
Definition in_sync (e : Engine) (p : ptr) : Prop :=
  ∀ c q r, heap e !! p = Some c → follows e c q r → KV r = KV c.

(** What a replicated write does: [p] has its new keys, and then the replicas. *)
Lemma replicate_spec now p command e c kv :
  ToUpper (default EmptyString (head command)) ≠ "INCR" →
  heap e !! p = Some c → Kind c = "redis" → containerRedisRole c = "master" → in_sync e p →
  kv = mutate command (KV c) →
  let e1 := with_heap e (<[p := c <| KV := kv |>]> (heap e)) (ledger e) in
  ∃ e2, replicateRedisMutation now p command e1 = (e2, Done ()) ∧
    heap e2 !! p = Some (c <| KV := kv |>) ∧ in_sync e2 p ∧
    ∀ q, q ≠ p → heap e2 !! q = heap e !! q ∨
      ∃ r, follows e c q r ∧ heap e2 !! q = Some (r <| KV := kv |>).
Proof.
  intros Hincr Hp Hkind Hrole Hsync Hkv e1. unfold replicateRedisMutation.
  set (c1 := c <| KV := kv |>).
  assert (heap e1 !! p = Some c1) as Hp1 by apply lookup_insert_eq.
  rewrite (bind_deref _ _ _ c1) by done.
  rewrite bool_decide_false by (intros [?|?]; done). unfold mbind at 1, prog_bind at 1. unfold get at 1.
  set (items := replicas_of _ _ _).
  assert (∀ q, q ∈ items ↔ ∃ r, follows e c q r) as Hitems.
  { intros q. unfold items. rewrite (elem_of_replicas _ e1 c1 q). unfold follows. simpl. split.
    - intros (r & Hreg & Hq & Hr). destruct (decide (q = p)) as [->|Hne].
      + rewrite lookup_insert_eq in Hq. simplify_eq. by destruct Hr as (_ & [] & _).
      + rewrite lookup_insert_ne in Hq by done. by exists r.
    - intros (r & Hreg & Hq & Hr). exists r. split; [done|]. destruct (decide (q = p)) as [->|Hne].
      + simplify_eq. by destruct Hr as (_ & [] & _).
      + by rewrite lookup_insert_ne. }
  assert (p ∉ items) as Hnotp.
  { intros (r & _ & Hr & _ & Hid & _)%Hitems. simplify_eq. }
  destruct (for_each_replicate now c1 command items e1) as (h & l & Heq & Hh); [done| |].
  { apply Forall_forall. intros q (r & _ & Hr & _)%Hitems. simpl. apply lookup_insert_is_Some'. right. by exists r. }
  rewrite Heq. exists (with_heap e1 h l). split; [done|].
  assert (h !! p = Some c1) as Hhp by (rewrite Hh, decide_False by done; done).
  assert (∀ q, q ≠ p → h !! q = heap e !! q ∨ ∃ r, follows e c q r ∧ h !! q = Some (r <| KV := kv |>)) as Hrest.
  { intros q Hne. rewrite Hh. case_decide as Hin.
    - apply Hitems in Hin as [r Hr]. right. exists r. split; [done|]. simpl. rewrite lookup_insert_ne by done.
      pose proof Hr as (_ & Hq & _). rewrite Hq. simpl. unfold mutated. by rewrite (Hsync c q r Hp Hr), <-Hkv.
    - left. simpl. by rewrite lookup_insert_ne. }
  split; [done|]. split; [|done].
  intros c' q r Hc' Hfol. simpl in Hc'. rewrite Hhp in Hc'. injection Hc' as <-.
  destruct (decide (q = p)) as [->|Hne].
  { destruct Hfol as (_ & Hq & _). simpl in Hq. congruence. }
  destruct Hfol as (Hreg & Hq & Hr). simpl in Hq. destruct (Hrest q Hne) as [Hsame|(r0 & _ & Hnew)].
  - assert (q ∈ items) as Hin by (apply Hitems; exists r; split; [done|]; split; [congruence|done]).
    rewrite Hh, decide_True in Hq by done. simpl in Hq. rewrite lookup_insert_ne in Hq by done.
    apply fmap_Some in Hq as (r0 & Hr0 & ->). simpl. rewrite Hkv. f_equal. apply (Hsync c q r0 Hp).
    split; [done|]. split; [done|]. done.
  - rewrite Hnew in Hq. by injection Hq as <-.
Qed.
End steps.

(** * The replicated handler *)

Section handler.
Context {FS : FileSystem} {RO : RangeOrder} {UN : Unicode}.

(** The commands the two handlers have in common. *)
Definition shared_command (command : list string) : Prop :=
  ToUpper (default EmptyString (head command)) ∉ ["INFO"; "ROLE"; "REPLICAOF"; "SLAVEOF"].

(** [e'] is [e] after the container at [p] has changed from [c] to [c'], when its
    followers have the same keys and nothing else changed. *)
Definition replicated (e e' : Engine) (p : ptr) (c c' : Container) : Prop :=
  heap e' !! p = Some c' ∧ in_sync e' p ∧
  ∀ q, q ≠ p → heap e' !! q = heap e !! q ∨ ∃ r, follows e c q r ∧ heap e' !! q = Some (r <| KV := KV c' |>).

Lemma replicated_same e p c : heap e !! p = Some c → in_sync e p → replicated e e p c c.
Proof. intros Hp Hsync. split; [done|]. split; [done|]. by left. Qed.

(** A write: a section on the keys, the replication of [command], the reply. *)
Lemma write_step {A} now p (f : gmap string string → A * gmap string string) (command : A → list string) (g : A → string) e c :
  heap e !! p = Some c → Kind c = "redis" → containerRedisRole c = "master" → in_sync e p →
  (∀ a, ToUpper (default EmptyString (head (command a))) ≠ "INCR") →
  (f (KV c)).2 = mutate (command (f (KV c)).1) (KV c) →
  ∃ e', (a ← kv_step p f; replicateRedisMutation now p (command a);; mret (g a, false)) e
        = (e', Done (g (f (KV c)).1, false)) ∧
    replicated e e' p c (c <| KV := (f (KV c)).2 |>).
Proof.
  intros Hp Hkind Hrole Hsync Hincr Hf. rewrite (bind_Done _ _ _ _ _ (kv_step_spec _ _ _ _ Hp)).
  destruct (replicate_spec now p (command (f (KV c)).1) e c (f (KV c)).2) as (e2 & Heq & Hp2 & Hsync2 & Hrest);
    [done..|].
  rewrite (bind_Done _ _ _ _ _ Heq). by exists e2.
Qed.

(** C7: on a master whose registered running replicas have its keys, every command
    that is not about replication gives the reply and the keys of the handler
    without replication, and afterwards the replicas have the master's keys again;
    no other container changes.  So replication refines a single key space. *)
Theorem replication_refines now p command e c : heap e !! p = Some c → Kind c = "redis" →
  containerRedisRole c = "master" → in_sync e p → shared_command command →
  let '(s, o) := handleBuiltInRedis command (mkCState c (pids e)) in
  ∃ e', handleBuiltInRedisForEngine now p command e = (e', o) ∧ replicated e e' p c (this s).
Proof.
  intros Hp Hkind Hrole Hsync Hshared. destruct command as [|command0 args].
  { exists e. split; [done|]. by apply replicated_same. }
  unfold shared_command in Hshared. simpl in Hshared.
  set (name := ToUpper command0) in *. unfold handleBuiltInRedis, handleBuiltInRedisForEngine. fold name.
  rewrite (bind_deref _ _ _ c) by done. rewrite Hrole, (bool_decide_false ("master" = "slave")), andb_false_r by done.
  unfold mbind at 1, prog_bind at 1. unfold get at 1. cbn [this].
  assert (∀ reply quit, ∃ e', (e, Done (A := string * bool) (reply, quit)) = (e', Done (reply, quit))
    ∧ replicated e e' p c c) as Hpure by (intros; exists e; split; [done|by apply replicated_same]).
  destruct (plain_reply name args) as [reply|]; [apply Hpure|].
  case_bool_decide as HSET.
  { destruct args as [|key [|value args]]; [apply Hpure..|].
    destruct (write_step now p (λ kv, ((), <[key := value]> kv)) (λ _, command0 :: key :: value :: args)
      (λ _, line "+OK") e c) as (e' & Heq & Hrep); try done.
    - intros _. simpl. fold name. by rewrite HSET.
    - simpl. fold name. by rewrite HSET.
    - by exists e'. }
  case_bool_decide as HGET; [rewrite (bind_deref _ _ _ c) by done; apply Hpure|].
  case_bool_decide as HDEL.
  { destruct (write_step now p (del_loop args) (λ _, command0 :: args) integer_reply e c) as (e' & Heq & Hrep); try done.
    - intros _. simpl. fold name. by rewrite HDEL.
    - simpl. fold name. by rewrite HDEL, del_loop_spec.
    - revert Heq Hrep. destruct (del_loop args (KV c)) as [deleted kv]. intros -> Hrep. by exists e'. }
  case_bool_decide as HEXISTS; [rewrite (bind_deref _ _ _ c) by done; apply Hpure|].
  case_bool_decide as HINCR.
  { destruct args as [|key [|? ?]]; [apply Hpure| |apply Hpure].
    destruct (write_step now p (λ kv, (incremented key kv, <[key := Itoa (incremented key kv)]> kv))
      (λ value, ["SET"; key; Itoa value]) integer_reply e c) as (e' & Heq & Hrep); try done.
    by exists e'. }
  rewrite (bool_decide_false (name = "INFO")), (bool_decide_false (name = "ROLE")),
    (bool_decide_false (name = "REPLICAOF" ∨ name = "SLAVEOF")) by set_solver.
  case_bool_decide; apply Hpure.
Qed.

(** on a replica every write command is refused and changes nothing. *)
Theorem replica_is_read_only now p command0 args e c : heap e !! p = Some c →
  Role (Redis c) = "slave" → ToUpper command0 ∈ ["SET"; "DEL"; "INCR"] →
  handleBuiltInRedisForEngine now p (command0 :: args) e =
  (e, Done (line "-READONLY You can't write against a read only replica.", false)).
Proof.
  intros Hp Hrole Hname. unfold handleBuiltInRedisForEngine. rewrite (bind_deref _ _ _ c) by done.
  assert (isRedisWriteCommand (ToUpper command0) = true) as ->.
  { apply list_elem_of_In in Hname. by destruct Hname as [<-|[<-|[<-|[]]]]. }
  unfold containerRedisRole. by rewrite Hrole.
Qed.
End handler.

(** * Links *)

Section links.
Context {FS : FileSystem} {RO : RangeOrder} {UN : Unicode}.

(** A program that only reads, and what it returns. *)
Definition returns {A} (m : prog Engine A) (e : Engine) (Q : A → Prop) : Prop :=
  ∃ a, m e = (e, Done a) ∧ Q a.

Definition live (e : Engine) (o : option ptr) : Prop :=
  match o with Some q => ∃ m, heap e !! q = Some m | None => True end.

Lemma master_loop_returns c results e : registry_ok e → returns (master_loop c results) e (live e).
Proof.
  intros He. induction results as [|r results IH]; [by exists None|]. simpl.
  unfold returns, mbind at 1, prog_bind at 1. unfold get at 1.
  destruct (findContainer _ e) as [o|] eqn:Hf; [|exact IH].
  destruct (findContainer_registered _ _ _ He Hf) as (q & m & -> & [_ Hq]).
  rewrite (bind_deref _ _ _ m) by done. case_bool_decide; [|exact IH]. exists (Some q). split; [done|]. by exists m.
Qed.

Lemma findContainerByEndpointIP_live ip e : registry_ok e → live e (findContainerByEndpointIP ip e).
Proof.
  intros He. unfold findContainerByEndpointIP. destruct (head _) as [[id ep]|]; simpl; [|done].
  destruct (containers e !! id) as [q|] eqn:Hid; simpl; [|done].
  destruct (by_id e He _ _ Hid) as (m & Hm & _). by exists m.
Qed.

Lemma live_master_returns c host e : registry_ok e →
  returns (live_master c host) e
    (λ o, match o with Some q => ∃ m, heap e !! q = Some m ∧ isRunning m = true | None => True end).
Proof.
  intros He. unfold live_master.
  assert (returns (find_master c host) e (live e)) as (o & Ho & Hlive).
  { unfold find_master, returns, mbind at 1, prog_bind at 1. unfold get at 1.
    case_bool_decide; [|by apply master_loop_returns].
    eexists. split; [done|]. by apply findContainerByEndpointIP_live. }
  unfold returns. rewrite (bind_Done _ _ _ _ _ Ho). destruct o as [q|]; [|by exists None].
  destruct Hlive as [m Hm]. rewrite (bind_deref _ _ _ m) by done.
  destruct (isRunning m) eqn:Hr; [exists (Some q); split; [done|by exists m]|by exists None].
Qed.

(** What a refresh of the replica [c] leaves, when it follows somebody. *)
Definition linked_to (e' : Engine) (c c' : Container) : Prop :=
  (MasterLinkStatus (Redis c') = "up" ∧ ∃ q m, heap e' !! q = Some m ∧ isRunning m = true ∧
     MasterID (Redis c') = ID m ∧ KV c' = KV m) ∨
  (MasterLinkStatus (Redis c') = "down" ∧ MasterID (Redis c') = EmptyString ∧ KV c' = KV c).

(** A refresh always ends, changes no other container, and adopts the target of
    the command line; a container that then follows a master has either its link up,
    with the identifier and exactly the keys of a running container, or its link
    down, without a master's identifier and with its own keys. *)
Theorem refresh_links now p e c : registry_ok e → heap e !! p = Some c → Kind c = "redis" →
  ∃ e' c', refreshRedisReplication now p e = (e', Done ()) ∧ heap e' !! p = Some c' ∧
    (∀ q, q ≠ p → heap e' !! q = heap e !! q) ∧
    let r := Redis (adopt_target c) in
    Role (Redis c') = Role r ∧ MasterHost (Redis c') = MasterHost r ∧ MasterPort (Redis c') = MasterPort r ∧
    if bool_decide (Role r = "slave" ∧ MasterHost r ≠ EmptyString ∧ MasterPort r ≠ 0%Z)
    then linked_to e' c c' else c' = adopt_target c.
Proof.
  intros He Hp Hkind. unfold refreshRedisReplication. rewrite (bind_deref _ _ _ c) by done.
  rewrite bool_decide_false by naive_solver.
  rewrite (bind_Done _ _ _ _ _ (on_modify_spec p adopt_target e c Hp)).
  set (c1 := adopt_target c). set (e1 := with_heap e _ _).
  assert (heap e1 !! p = Some c1) as Hp1 by apply lookup_insert_eq.
  assert (∀ q, q ≠ p → heap e1 !! q = heap e !! q) as Hother by (intros; by apply lookup_insert_ne).
  assert (KV c1 = KV c) as Hkv by (unfold c1, adopt_target; by repeat case_match).
  assert (registry_ok e1) as He1.
  { eapply frames_registry, He. replace e1 with (on p (modify_this adopt_target) e).1 by by rewrite (on_modify_spec p _ e c).
    apply (framing_set e); [|apply frames_refl]. intros c'. unfold adopt_target. by repeat case_match. }
  rewrite (bind_deref _ _ _ c1) by done. cbv zeta.
  destruct (decide (Role (Redis c1) = "slave" ∧ MasterHost (Redis c1) ≠ EmptyString ∧ MasterPort (Redis c1) ≠ 0%Z))
    as [Hslave|Hnot].
  2: { rewrite bool_decide_true.
       - exists e1, c1. by rewrite bool_decide_false.
       - destruct (decide (Role (Redis c1) = "slave")), (decide (MasterHost (Redis c1) = EmptyString)),
           (decide (MasterPort (Redis c1) = 0%Z)); tauto. }
  rewrite bool_decide_false by tauto. rewrite bool_decide_true by done.
  destruct (live_master_returns c1 (MasterHost (Redis c1)) e1 He1) as ([q|] & Hlive & Hq).
  - rewrite (bind_Done _ _ _ _ _ Hlive). destruct Hq as (m & Hm & Hrun).
    rewrite (bind_deref _ _ _ m) by done.
    rewrite (bind_Done _ _ _ _ _ (on_modify_spec p (link_up (ID m) (KV m)) e1 c1 Hp1)).
    eexists _, (link_up (ID m) (KV m) c1). split; [reflexivity|]. simpl heap.
    split; [apply lookup_insert_eq|]. split; [intros; rewrite lookup_insert_ne; auto|].
    split_and!; [done..|]. left. split; [done|].
    destruct (decide (q = p)) as [->|Hne].
    + simplify_eq. exists p. eexists. simpl. rewrite lookup_insert_eq. by split_and!.
    + exists q, m. simpl. by rewrite lookup_insert_ne.
  - rewrite (bind_Done _ _ _ _ _ Hlive). rewrite (on_modify_spec p link_down e1 c1 Hp1).
    eexists _, (link_down c1). split; [reflexivity|]. simpl heap.
    split; [apply lookup_insert_eq|]. split; [intros; rewrite lookup_insert_ne; auto|].
    split_and!; [done..|]. by right.
Qed.
End links.

(** * Examples *)

(** A running Redis container with a role. *)
Definition sample_redis (id name : string) (r : RedisReplicationState) : Container :=
  (sample_container id name "redis") <| Status := "running" |> <| Running := true |> <| Redis := r |>.
Definition sample_master : Container := sample_redis "aa11" "cache" (mkRedisState "master" EmptyString 0 EmptyString "up").
Definition sample_replica : Container := sample_redis "bb22" "copy" (mkRedisState "slave" "cache" 6379 "aa11" "up").
Definition sample_chained : Container := sample_redis "cc33" "copy2" (mkRedisState "slave" "copy" 6379 "bb22" "up").
Definition sample_cluster : Engine := sample_engine [sample_master; sample_replica; sample_chained].

Section examples.
#[local] Existing Instances fs_good range_forward unicode_none.

(** The value of a key in the container at [p]. *)
Definition key_at (e : Engine) (p : ptr) (key : string) : option string := c ← heap e !! p; KV c !! key.

Lemma sample_cluster_sync : in_sync sample_cluster 0.
Proof.
  assert (∀ q r, heap sample_cluster !! q = Some r → KV r = ∅) as Hall.
  { apply map_Forall_insert_2; [done|]. do 2 (apply map_Forall_insert_2; [done|]). apply map_Forall_empty. }
  intros c q r Hc (_ & Hr & _). by rewrite (Hall _ _ Hc), (Hall _ _ Hr).
Qed.

Lemma replication_refines_witness :
  let '(e', _) := handleBuiltInRedisForEngine 1%Z 0 ["set"; "k"; "v"] sample_cluster in
  key_at e' 0 "k" = Some "v" ∧ in_sync e' 0.
Proof.
  pose proof (replication_refines 1%Z 0 ["set"; "k"; "v"] sample_cluster sample_master eq_refl eq_refl eq_refl
    sample_cluster_sync) as Href.
  destruct (handleBuiltInRedis ["set"; "k"; "v"] _) as [s o] eqn:Hplain.
  destruct Href as (e' & Heq & Hp & Hsync & _).
  { unfold shared_command. apply (bool_decide_unpack _). by vm_compute. }
  rewrite Heq. split; [|exact Hsync]. unfold key_at. rewrite Hp. simpl.
  apply (f_equal (λ x, KV (this x.1) !! "k")) in Hplain. simpl in Hplain. rewrite <-Hplain. by vm_compute.
Defined.

Lemma replica_is_read_only_witness :
  (handleBuiltInRedisForEngine 1%Z 1 ["del"; "k"] sample_cluster).1 = sample_cluster.
Proof.
  by rewrite (replica_is_read_only 1%Z 1 "del" ["k"] sample_cluster sample_replica) by
    (done || (apply (bool_decide_unpack _); by vm_compute)).
Defined.

(** The link of [copy2] names no address and its host is on no common network. *)
Lemma refresh_links_witness : ∃ e', refreshRedisReplication 1%Z 0 (sample_engine [sample_master]) = (e', Done ()).
Proof.
  destruct (refresh_links 1%Z 0 (sample_engine [sample_master]) sample_master) as (e' & c' & Heq & _); [|done..|].
  - split.
    + intros n id. change (names _) with (<["cache" := "aa11"]> (∅ : gmap string string)).
      intros [[<- <-]|[_ []%lookup_empty_Some]]%lookup_insert_Some. by exists 0, sample_master.
    + intros id p. change (containers _) with (<["aa11" := 0]> (∅ : gmap string ptr)).
      intros [[<- <-]|[_ []%lookup_empty_Some]]%lookup_insert_Some. by exists sample_master.
    + intros n id. change (names _) with (<["cache" := "aa11"]> (∅ : gmap string string)).
      intros [[<- <-]|[_ []%lookup_empty_Some]]%lookup_insert_Some. split; [done|]. split; [simpl; lia|done].
  - by exists e'.
Defined.

(** Two clients set the same key.  The key space and the replicas are written in
    separate sections, so the second write may be replicated before the first: the
    master keeps the second value and the replica the first. *)
Definition set_section (p : ptr) (value : string) : prog Engine () := kv_step p (λ kv, ((), <["k" := value]> kv)).
Definition replicate_section (p : ptr) (value : string) : prog Engine () :=
  replicateRedisMutation 1%Z p ["SET"; "k"; value].

Lemma concurrent_sets_diverge :
  let e' := (set_section 0 "one";; set_section 0 "two";; replicate_section 0 "two";; replicate_section 0 "one")
              sample_cluster in
  key_at e'.1 0 "k" = Some "two" ∧ key_at e'.1 1 "k" = Some "one".
Proof. by vm_compute. Qed.

(** A replica does not pass on what it receives: the replica of a replica keeps its
    old keys although its link is up. *)
Lemma chained_replica_is_stale :
  let e' := (handleBuiltInRedisForEngine 1%Z 0 ["SET"; "k"; "v"] sample_cluster).1 in
  key_at e' 1 "k" = Some "v" ∧ key_at e' 2 "k" = None ∧ Redis <$> heap e' !! 2 = Some (Redis sample_chained).
Proof. by vm_compute. Qed.

(** The reply to an unknown command quotes its name as it came: a name with a line
    break in it, which a bulk string can carry, makes two replies of one. *)
Lemma unknown_reply_splits :
  let name := "X'" +:+ crlf +:+ "+OK" in
  readRESPCommand (encode_command [name]) = Ok ([name], EmptyString) ∧
  match (handleBuiltInRedisForEngine 1%Z 0 [name] sample_cluster).2 with
  | Done (reply, _) => parseRESPFrame 65 reply = Ok (line "+ok'")
  | _ => False
  end.
Proof. by vm_compute. Qed.
End examples.
