(* ===== verification/Runtime.v ===== *)
(** Service runtimes: [service_runtime.go], the per-command part of
    [service_redis.go], and [removeContainer] of [engine_core.go].

    What the operating system does is a [Sockets]: whether the n-th [net.Listen]
    succeeds and with which address, and whether the goroutines of a stopped runtime
    end before the deadline.  A runtime's own lifecycle lock makes [Start] and [Stop]
    exclusive; a goroutine that is started ([go e.syncRuntimeForState]) is a flag in
    the result, for the caller of the model to run or not. *)
From Stdlib Require Import Ascii.
From S2P Require Import Prelude GoStrings GoTime Cookbook Sha256 CookbookValidation Resp Container EngineTypes Net Ledger Engine EngineNetwork Redis.

Class Sockets := {
  listen : nat → string → result string;
  drained : string → nat → bool
}.

Record runtimeListenSpec := mkSpec { address : string; portKey : string; bindingIndex : Z; direct : bool }.

Section runtime.
Context {FS : FileSystem} {RO : RangeOrder} {UN : Unicode} {SK : Sockets}.

(** * What to listen on *)

Definition normalizePublishedListenIP (host : string) : string :=
  let host := TrimSpace host in
  if bool_decide (host = EmptyString ∨ host = "0.0.0.0" ∨ host = "::" ∨ host = "[::]") then "127.0.0.1" else host.

(** The specification of one published port; [None] for other protocols. *)
Definition binding_spec (key : string) (index : nat) (binding : PortBinding) : option runtimeListenSpec :=
  if bool_decide (Protocol binding ≠ EmptyString ∧ Protocol binding ≠ "tcp") then None
  else
    let port := if bool_decide (bHostPort binding = 0)%Z then RequestedHostPort binding else bHostPort binding in
    Some (mkSpec (JoinHostPort (normalizePublishedListenIP (bHostIP binding)) (Itoa port)) key (Z.of_nat index) false).

Definition runtimeListenSpecs (c : Container) (e : Engine) : list runtimeListenSpec :=
  let endpoints :=
    if bool_decide (endpointMode e = "off") then []
    else (λ item, mkSpec item EmptyString (-1) true) <$> containerEndpointAddresses c e in
  let bindings := clonePortBindings c in
  endpoints ++
  (sort_strings (range "service_runtime.go:367" bindings).*1 ≫= λ key,
     omap id (imap (binding_spec key) (default [] (bindings !! key)))).

(** * Listening *)

Definition net_Listen (addr : string) : prog Engine (result (nat * string)) := λ e,
  let n := listens e in
  let e := e <| listens := S n |> in
  match listen n addr with
  | Ok actual => (e <| sockets := {[n]} ∪ sockets e |>, Done (Ok (n, actual)))
  | Err err => (e, Done (Err err))
  end.

Definition close_all (opened : list nat) : prog Engine () :=
  modify (λ e, e <| sockets := sockets e ∖ list_to_set opened |>).

(** The failure of a start: everything is closed again. *)
Definition fail_start {A} (p : ptr) (opened : list nat) (err : string) : prog Engine (result A) :=
  close_all opened;; on p (modify_this resetEphemeralAssignedPorts);; mret (Err err).

(** The port that was assigned is stored with its binding. *)
Definition record_port (p : ptr) (spec : runtimeListenSpec) (actual : string) : prog Engine () :=
  if bool_decide (0 ≤ bindingIndex spec)%Z then
    match SplitHostPort actual with
    | Some (_, portText) =>
      match Atoi_ok portText with
      | Some port => on p (modify_this (updateAssignedPort (portKey spec) (bindingIndex spec) port))
      | None => mret ()
      end
    | None => mret ()
    end
  else mret ().

Definition allocated_message (c : Container) (addr : string) : string :=
  "driver failed programming external connectivity on endpoint " +:+ Name c +:+ ": Bind for " +:+ addr
  +:+ " failed: port is already allocated".

(** The loop over the specifications: [opened] so far, and the addresses seen. *)
Fixpoint open_loop (now : Time) (p : ptr) (c : Container) (specs : list runtimeListenSpec)
    (opened : list nat) (seen : gmap string runtimeListenSpec) : prog Engine (result (list nat)) :=
  match specs with
  | [] => mret (Ok opened)
  | spec :: specs =>
    let fresh_address :=
      let seen := <[address spec := spec]> seen in
      listened ← net_Listen (address spec);
      match listened with
      | Ok (n, actual) => record_port p spec actual;; open_loop now p c specs (opened ++ [n]) seen
      | Err err =>
        e ← get;
        if direct spec && bool_decide (endpointMode e = "auto") then
          log_entry now ((container_entry c "docker-zero.network" "direct_endpoint.skipped")
            <| eRequest := AnyMap [("address", AnyString (address spec))] |>
            <| eResponse := AnyMap [("error", AnyString err)] |>);;
          open_loop now p c specs opened seen
        else if direct spec
        then fail_start p opened ("cannot bind virtual container endpoint " +:+ address spec +:+ ": " +:+ err)
        else fail_start p opened (allocated_message c (address spec) +:+ ": " +:+ err)
      end in
    match seen !! address spec with
    | Some previous =>
      if HasSuffix (address spec) ":0" then fresh_address
      else if bool_decide (direct previous = direct spec ∧ portKey previous = portKey spec)
      then open_loop now p c specs opened seen
      else fail_start p opened (allocated_message c (address spec))
    | None => fresh_address
    end
  end.

Definition newContainerRuntime (p : ptr) : ContainerRuntime := mkRuntime p false [] ∅.

Definition set_runtime (id : string) (r : ContainerRuntime) : prog Engine () :=
  modify (λ e, e <| runtimes := <[id := r]> (runtimes e) |>).

(** [Start] of the runtime [id]; the error, if any. *)
Definition Start (now : Time) (id : string) : prog Engine (option string) :=
  e ← get;
  match runtimes e !! id with
  | None => panic "invalid memory address or nil pointer dereference"
  | Some r =>
    if active r then mret None
    else
      let p := rt_container r in
      c ← deref p;
      let specs := runtimeListenSpecs c e in
      opened ← open_loop now p c specs [] ∅;
      match opened with
      | Err err => mret (Some err)
      | Ok opened =>
        if bool_decide (Kind c ≠ "nginx" ∧ Kind c ≠ "redis") then
          failed ← fail_start (A := ()) p opened ("unsupported service runtime kind " +:+ Quote (Kind c));
          mret (match failed with Err err => Some err | Ok _ => None end)
        else
          set_runtime id (r <| listeners := opened |> <| active := true |>);;
          mret None
      end
  end.

(** [Stop]; the connections are closed and leave the set when their handlers end. *)
Definition Stop (id : string) : prog Engine (option string) :=
  e ← get;
  match runtimes e !! id with
  | None => panic "invalid memory address or nil pointer dereference"
  | Some r =>
    if negb (active r) && bool_decide (listeners r = []) && bool_decide (connections r = ∅) then mret None
    else
      set_runtime id (r <| listeners := [] |> <| active := false |>);;
      close_all (listeners r);;
      mret (if drained id (listens e) then None else Some "context deadline exceeded")
  end.

Definition Active (r : ContainerRuntime) : bool := active r.

(** The runtime after a connection asks to be registered, and whether it was. *)
Definition registerRedisConnection (connection : nat) (r : ContainerRuntime) : ContainerRuntime * bool :=
  if negb (active r) then (r, false) else (r <| connections := {[connection]} ∪ connections r |>, true).

Definition finishRedisConnection (connection : nat) (r : ContainerRuntime) : ContainerRuntime :=
  r <| connections := connections r ∖ {[connection]} |>.

(** * Runtimes of the engine *)

Definition errEngineRuntimeClosing : string := "docker-zero engine runtime is shutting down".

Definition startContainerRuntime (now : Time) (p : ptr) : prog Engine (option string) :=
  e ← get;
  if runtimeClosing e then mret (Some errEngineRuntimeClosing)
  else
    c ← deref p;
    (match runtimes e !! ID c with
     | Some _ => mret ()
     | None => set_runtime (ID c) (newContainerRuntime p)
     end);;
    err ← Start now (ID c);
    match err with
    | Some err => mret (Some err)
    | None =>
      (if bool_decide (Kind c = "redis")
       then refreshRedisReplication now p;; refreshRedisDependents now p else mret ());;
      mret None
    end.

Definition stopContainerRuntime (p : ptr) : prog Engine (option string) :=
  e ← get;
  c ← deref p;
  match runtimes e !! ID c with
  | None => mret None
  | Some _ =>
    err ← Stop (ID c);
    (if bool_decide (Kind c = "redis") then markRedisMasterDown p else mret ());;
    mret err
  end.

(** The state in which a container's service runs. *)
Definition serving (s : ContainerStateSnapshot) : bool :=
  snRunning s && negb (snRestarting s) && negb (snDead s)
  && bool_decide (snStatus s = "running" ∨ snStatus s = "paused").

Definition bind_failed_patch (err : string) : StatePatch :=
  mkStatePatch (Some "exited") (Some false) (Some false) None (Some "unhealthy") (Some 128%Z) (Some err) None 0.

Definition syncRuntimeForState (now : Time) (p : ptr) : prog Engine () :=
  c ← deref p;
  if serving (stateSnapshotLocked c) then
    err ← startContainerRuntime now p;
    match err with
    | None => mret ()
    | Some err =>
      if bool_decide (err = errEngineRuntimeClosing) then mret ()
      else
        '(before, after) ← on p (applyPatch now (bind_failed_patch err));
        log_entry now ((container_entry c "docker-zero.runtime" "bind.failed")
          <| eResponse := AnyMap [("error", AnyString err)] |> <| eBefore := Some before |> <| eAfter := Some after |>)
    end
  else stopContainerRuntime p;; mret ().

Fixpoint stop_each (ids : list string) (first : option string) : prog Engine (option string) :=
  match ids with
  | [] => mret first
  | id :: ids =>
    err ← Stop id;
    stop_each ids (match first with Some _ => first | None => err end)
  end.

Definition closeRuntimes : prog Engine (option string) :=
  modify (λ e, e <| runtimeClosing := true |>);;
  e ← get;
  stop_each (range "service_runtime.go:471" (runtimes e)).*1 None.

(** * Removal *)

(** The section of [removeContainer] under [e.mu]. *)
Definition unregister (c : Container) (e : Engine) : Engine :=
  e <| containers := delete (ID c) (containers e) |> <| runtimes := delete (ID c) (runtimes e) |>
    <| names := delete (Name c) (names e) |> <| networks := detach_all (ID c) (networks e) |>.

Definition removeContainer (now : Time) (ref : string) (force : bool) : prog Engine (option string) :=
  e ← get;
  match findContainer ref e with
  | Err err => mret (Some err)
  | Ok None => panic "invalid memory address or nil pointer dereference"
  | Ok (Some p) =>
    c ← deref p;
    if isRunning c && negb force
    then mret (Some ("cannot remove running container " +:+ ID c +:+ ": stop it first or force remove"))
    else
      stopContainerRuntime p;;
      modify (unregister c);;
      c ← deref p;
      let before := stateSnapshotLocked c in
      (if snRunning before then on p (stop now 137);; mret () else mret ());;
      on p markRemoved;;
      log_entry now ((container_entry c "docker" "container.remove") <| eBefore := Some before |>);;
      mret None
  end.

(** * Requests *)

(** A configured reply applies its patch; the advance then ends in the new state. *)
Definition apply_reply_patch (now : Time) (p : ptr) (patch : StatePatch) : prog Engine () :=
  if bool_decide (patch = zero_patch) then mret () else on p (applyPatch now patch);; mret ().

(** Whether a service stops talking after a request. *)
Definition hangs_up (close : bool) (s : ContainerStateSnapshot) : bool :=
  close || negb (snRunning s) || snPaused s || snRestarting s || snDead s.

Inductive HTTPReply :=
| HTTPClosed  (* the connection is closed, and the runtime synchronised *)
| HTTPWritten (status : Z) (headers : gmap string string) (body : string).

Definition not_found_response : HTTPResponse :=
  mkHTTPResponse 1 EmptyString EmptyString 404 {["Content-Type" := "text/plain"]} ("404 Not Found" +:+ nl) 0 false zero_patch.

(** The response of the cookbook, a plain 404 without one, and 200 for no status. *)
Definition chosen_response (c : Container) (route : string) (count : Z) : HTTPResponse :=
  let response := default not_found_response (routeResponse route count c) in
  if bool_decide (hStatus response = 0)%Z then response <| hStatus := 200%Z |> else response.

(** [w.Header().Set] in the order of the code, for the given canonical keys. *)
Definition reply_headers (c : Container) (response : HTTPResponse) (count : Z) : gmap string string :=
  <["X-Docker-Zero-Request" := Itoa count]> (<["X-Docker-Zero-Seed" := Itoa (Seed c)]>
    (<["X-Docker-Zero-Container" := Name c]>
      (hHeaders response ∪ {["Server" := "nginx/1.27.5 (docker-zero)"]}))).

(** [path] is [req.URL.Path], [uri] [req.URL.RequestURI()]. *)
Definition ServeHTTP (now : Time) (p : ptr) (method path uri remote : string) : prog Engine HTTPReply :=
  let get_method := if bool_decide (method = "HEAD") then "GET" else method in
  let route := get_method +:+ " " +:+ path in
  let event := "http." +:+ route in
  adv ← on p (advance now event);
  let count := aCount adv in
  c ← deref p;
  let response := chosen_response c (TrimPrefix event "http.") count in
  apply_reply_patch now p (hStatePatch response);;
  c ← deref p;
  let state := stateSnapshotLocked c in
  log_entry now ((container_entry c "service.http" event) <| eCount := count |>
    <| eRequest := AnyMap [("method", AnyString method); ("path", AnyString uri); ("remote", AnyString remote)] |>
    <| eResponse := AnyMap [("bytes", AnyInt (Z.of_nat (String.length (hBody response))));
         ("close", AnyBool (hClose response)); ("status", AnyInt (hStatus response))] |>
    <| eTransition := aTransition adv |> <| eBefore := Some (aBefore adv) |> <| eAfter := Some state |>);;
  on p (modify_this (appendLog ("nginx-zero[" +:+ Name c +:+ "]: " +:+ method +:+ " " +:+ path +:+ " -> "
    +:+ Itoa (hStatus response) +:+ " (request #" +:+ Itoa count +:+ ")" +:+ nl)));;
  if hangs_up (hClose response) state then mret HTTPClosed
  else mret (HTTPWritten (hStatus response) (reply_headers c response count)
               (if bool_decide (method = "HEAD") then EmptyString else hBody response)).

(** ** One command of a Redis connection *)

Inductive RedisStep :=
| RedisHangUp (sync : bool)        (* closed, and whether the runtime is synchronised *)
| RedisReply (reply : string)      (* the connection goes on *)
| RedisNotice (reply : string)     (* it goes on, also when the reply is lost *)
| RedisQuit (reply : string).

Definition reply_description (response : option RedisResponse) : string :=
  match response with
  | None => "built-in"
  | Some response => take_string 100 (TrimSpace (rReply response))
  end.

(** The part that both servers share: advance, patch, log; the configured response,
    the state, and the count.  [label] is how the server signs its log lines. *)
Definition redis_request (now : Time) (p : ptr) (label : Container → string) (command : list string) (name : string) :
    prog Engine (option RedisResponse * ContainerStateSnapshot) :=
  let event := "redis." +:+ name in
  adv ← on p (advance now event);
  let count := aCount adv in
  c ← deref p;
  let response := redisResponse name count c in
  apply_reply_patch now p (match response with Some r => rStatePatch r | None => zero_patch end);;
  c ← deref p;
  let state := stateSnapshotLocked c in
  let description := reply_description response in
  log_entry now ((container_entry c "service.redis" event) <| eCount := count |>
    <| eRequest := AnyStrings command |>
    <| eResponse := AnyMap [("close", AnyBool (match response with Some r => rClose r | None => false end));
         ("reply", AnyString description)] |>
    <| eTransition := aTransition adv |> <| eBefore := Some (aBefore adv) |> <| eAfter := Some state |>);;
  on p (modify_this (appendLog (label c +:+ ": " +:+ Join command " " +:+ " -> " +:+ description
    +:+ " (request #" +:+ Itoa count +:+ ")" +:+ nl)));;
  mret (response, state).

Definition closes (response : option RedisResponse) : bool :=
  match response with Some r => rClose r | None => false end.

(** The configured reply, when it is not empty. *)
Definition override (response : option RedisResponse) : option string :=
  match response with
  | Some r => if bool_decide (rReply r ≠ EmptyString) then Some (rReply r) else None
  | None => None
  end.

Definition finish_redis (builtin : prog Engine (string * bool)) (response : option RedisResponse) : prog Engine RedisStep :=
  match override response with
  | Some reply => mret (RedisReply reply)
  | None => '(reply, quit) ← builtin; mret (if quit : bool then RedisQuit reply else RedisReply reply)
  end.

(** [handleRedisContainerConnection] on a command that is not empty. *)
Definition container_redis_command (now : Time) (p : ptr) (command : list string) : prog Engine RedisStep :=
  '(response, state) ← redis_request now p (λ c, "redis-zero[" +:+ Name c +:+ "]") command
                         (ToUpper (default EmptyString (head command)));
  if hangs_up (closes response) state then mret (RedisHangUp true)
  else finish_redis (handleBuiltInRedisForEngine now p command) response.

(** [RedisMock.handleConnection] on a command that is not empty. *)
Definition mock_redis_command (now : Time) (command : list string) : prog Engine RedisStep :=
  e ← get;
  match findContainerByKind "redis" e with
  | Err _ => mret (RedisNotice (line "-LOADING docker-zero redis container does not exist"))
  | Ok p =>
    '(response, state) ← redis_request now p (λ _, "redis-zero") command
                           (ToUpper (default EmptyString (head command)));
    if closes response || negb (snRunning state) || snRestarting state || snDead state
    then mret (RedisHangUp false)
    else finish_redis (on p (handleBuiltInRedis command)) response
  end.
End runtime.
