(* ===== verification/Documents.v ===== *)
(** The documents the API answers with: [docker_api_documents.go], the state
    document of [engine_resources.go] and the JSON forms of the program's structs.

    A document is the Go value given to [encoding/json]; its maps are printed by
    sorted keys, so no loop order shows.  [append([]string(nil), l...)] of an empty
    list is nil, which is [null] in JSON. *)
From Stdlib Require Import Ascii.
From S2P Require Import Prelude GoStrings GoTime Json Cookbook Sha256 CookbookValidation Container ContainerConfig EngineTypes ApiUtil Net Ledger Engine EngineNetwork.

(** * Values *)

Definition any_map (m : gmap string any) : any := AnyMap (map_to_list m).
Definition empty_object : any := AnyMap [].
(** A copied string slice: nil when it is empty. *)
Definition copied (l : list string) : any := match l with [] => AnyNil | _ => AnyStrings l end.
Definition omit_if (b : bool) (key : string) (v : any) : list (string * any) := if b then [] else [(key, v)].
Definition omit_zero (key : string) (z : Z) : list (string * any) := omit_if (bool_decide (z = 0%Z)) key (AnyInt z).
Definition omit_text (key s : string) : list (string * any) := omit_if (bool_decide (s = EmptyString)) key (AnyString s).
Definition omit_false (key : string) (b : bool) : list (string * any) := omit_if (negb b) key (AnyBool b).
Definition omit_none {A} (key : string) (f : A → any) (o : option A) : list (string * any) :=
  match o with Some a => [(key, f a)] | None => [] end.
Definition omit_map {A} (key : string) (f : A → any) (m : gmap string A) : list (string * any) :=
  omit_if (bool_decide (m = ∅)) key (any_map (f <$> m)).

(** * Structs *)

Definition network_any (n : Network) : any :=
  AnyStruct [("Name", AnyString (nName n)); ("Id", AnyString (nID n)); ("Created", AnyString (nCreated n));
    ("Scope", AnyString (nScope n)); ("Driver", AnyString (nDriver n)); ("EnableIPv6", AnyBool (EnableIPv6 n));
    ("Internal", AnyBool (Internal n)); ("Attachable", AnyBool (Attachable n)); ("Ingress", AnyBool (Ingress n));
    ("IPAM", any_map (IPAM n)); ("Containers", any_map (any_map <$> Containers n));
    ("Options", strings_any (nOptions n)); ("Labels", strings_any (nLabels n))].

(** A copy: its maps are not shared with the engine. *)
Definition cloneAnyMap (input : gmap string any) : gmap string any := input.
Definition cloneNetwork (n : Network) : Network :=
  n <| nOptions := cloneStringMap (nOptions n) |> <| nLabels := cloneStringMap (nLabels n) |>
    <| IPAM := cloneAnyMap (IPAM n) |> <| Containers := cloneAnyMap <$> Containers n |>.

Definition volume_any (v : Volume) : any :=
  AnyStruct [("CreatedAt", AnyString (CreatedAt v)); ("Driver", AnyString (vDriver v)); ("Labels", strings_any (vLabels v));
    ("Mountpoint", AnyString (Mountpoint v)); ("Name", AnyString (vName v)); ("Options", strings_any (vOptions v));
    ("Scope", AnyString (vScope v))].

Definition patch_any (p : StatePatch) : any :=
  AnyStruct (omit_none "status" AnyString (pStatus p) ++ omit_none "running" AnyBool (pRunning p)
    ++ omit_none "restarting" AnyBool (pRestarting p) ++ omit_none "dead" AnyBool (pDead p)
    ++ omit_none "health" AnyString (pHealth p) ++ omit_none "exit_code" AnyInt (pExitCode p)
    ++ omit_none "error" AnyString (pError p) ++ omit_none "restart_count" AnyInt (pRestartCount p)
    ++ omit_zero "restart_count_delta" (pRestartCountDelta p)).

Definition transition_any (t : Transition) : any :=
  AnyStruct ([("event", AnyString (tEvent t))] ++ omit_zero "count" (tCount t)
    ++ omit_text "when_status" (tWhenStatus t) ++ omit_text "when_health" (tWhenHealth t)
    ++ omit_false "once" (tOnce t) ++ [("set", patch_any (tSet t))]).

Definition http_response_any (r : HTTPResponse) : any :=
  AnyStruct ([("from", AnyInt (hFrom r))] ++ omit_text "when_status" (hWhenStatus r)
    ++ omit_text "when_health" (hWhenHealth r) ++ [("status", AnyInt (hStatus r))]
    ++ omit_map "headers" AnyString (hHeaders r) ++ omit_text "body" (hBody r)
    ++ omit_zero "delay_ms" (hDelayMS r) ++ omit_false "close" (hClose r)
    ++ [("set", patch_any (hStatePatch r))]).

Definition redis_response_any (r : RedisResponse) : any :=
  AnyStruct ([("from", AnyInt (rFrom r))] ++ omit_text "when_status" (rWhenStatus r)
    ++ omit_text "when_health" (rWhenHealth r) ++ omit_text "reply" (rReply r)
    ++ omit_zero "delay_ms" (rDelayMS r) ++ omit_false "close" (rClose r)
    ++ [("set", patch_any (rStatePatch r))]).

Definition scenario_any (s : Scenario) : any :=
  AnyStruct ([("description", AnyString (Description s)); ("initial", patch_any (Initial s))]
    ++ omit_if (bool_decide (length (Transitions s) = 0)) "transitions" (AnyList (transition_any <$> Transitions s))
    ++ omit_map "http" (λ l, AnyList (http_response_any <$> l)) (HTTP s)
    ++ omit_map "redis" (λ l, AnyList (redis_response_any <$> l)) (RedisReplies s)).

Definition defaults_any (d : ServiceDefaults) : any :=
  AnyStruct [("name", AnyString (sName d)); ("image", AnyString (sImage d)); ("service_type", AnyString (ServiceType d));
    ("ip_address", AnyString (IPAddress d)); ("container_port", AnyInt (ContainerPort d));
    ("host_ip", AnyString (HostIP d)); ("host_port", AnyInt (HostPort d))].

Definition cookbook_any (cb : Cookbook) : any :=
  AnyStruct [("kind", AnyString (cbKind cb)); ("image_names", AnyStrings (ImageNames cb));
    ("defaults", defaults_any (Defaults cb)); ("seeds", any_map (scenario_any <$> Seeds cb))].

Definition snapshot_any (s : ContainerStateSnapshot) : any :=
  AnyStruct ([("status", AnyString (snStatus s)); ("running", AnyBool (snRunning s));
    ("restarting", AnyBool (snRestarting s)); ("paused", AnyBool (snPaused s)); ("dead", AnyBool (snDead s));
    ("health", AnyString (snHealth s)); ("exit_code", AnyInt (snExitCode s));
    ("restart_count", AnyInt (snRestartCount s))] ++ omit_text "error" (snError s)).

Definition container_snapshot_any (s : ContainerSnapshot) : any :=
  AnyStruct ([("id", AnyString (csID s)); ("name", AnyString (csName s)); ("image", AnyString (csImage s));
    ("kind", AnyString (csKind s)); ("seed", AnyInt (csSeed s)); ("created", AnyString (csCreated s))]
    ++ omit_text "started" (csStarted s) ++ omit_text "finished" (csFinished s)
    ++ [("state", snapshot_any (csState s)); ("counters", any_map (AnyInt <$> csCounters s));
        ("ip_address", AnyString (csIPAddress s)); ("container_port", AnyInt (csContainerPort s));
        ("host_port", AnyInt (csHostPort s)); ("network_mode", AnyString (csNetworkMode s))]).

Definition health_log_any (l : HealthLog) : any :=
  AnyStruct [("Start", AnyString (lStart l)); ("End", AnyString (lEnd l)); ("ExitCode", AnyInt (lExitCode l));
    ("Output", AnyString (lOutput l))].

Definition dns_any (r : DNSResult) : any :=
  AnyStruct [("name", AnyString (dName r)); ("network", AnyString (dNetwork r)); ("container", AnyString (dContainer r));
    ("ip", AnyString (dIP r))].

(** Its error, when there is one, is a struct of its own. *)
Definition wait_result_any (r : containerWaitResult) : any :=
  AnyStruct [("StatusCode", AnyInt (StatusCode r));
    ("Error", match WaitError r with Some msg => AnyStruct [("Message", AnyString msg)] | None => AnyNil end)].

(** * Containers *)

Section documents.
Context {FS : FileSystem} {RO : RangeOrder} {UN : Unicode}.

Definition dockerReportedHostIP (host : string) : string :=
  let host := TrimSpace host in
  if bool_decide (host = EmptyString) then "0.0.0.0" else host.

(** One published or unpublished port of a list document. *)
Definition port_item (privatePort : Z) (protocol : string) (binding : PortBinding) : any :=
  any_map ((if bool_decide (0 < bHostPort binding)%Z
            then list_to_map [("IP", AnyString (dockerReportedHostIP (bHostIP binding)));
                              ("PublicPort", AnyInt (bHostPort binding))] else ∅)
    ∪ list_to_map [("PrivatePort", AnyInt privatePort); ("Type", AnyString protocol)]).

(** The ports of one key; the number is what [strconv.Atoi] makes of it. *)
Definition port_items (bindings : gmap string (list PortBinding)) (key : string) : list any :=
  let parts := SplitN key "/" 2 in
  let privatePort := (Atoi (default EmptyString (head parts))).1 in
  let protocol := match parts with [_; p] => p | _ => "tcp" end in
  port_item privatePort protocol <$> default [] (bindings !! key).

Definition dockerPortSummary (c : Container) : list any :=
  let bindings := clonePortBindings c in
  sort_strings (range "docker_api_documents.go:33" bindings).*1 ≫= port_items bindings.

(** One binding in the two places of an inspect document. *)
Definition host_item (binding : PortBinding) : any :=
  AnyMap [("HostIp", AnyString (dockerReportedHostIP (bHostIP binding)));
    ("HostPort", AnyString (if bool_decide (0 < bHostPort binding)%Z then Itoa (bHostPort binding) else EmptyString))].
Definition network_items (items : list PortBinding) : any :=
  match filter (λ b, 0 < bHostPort b)%Z items with [] => AnyNil | published => AnyList (host_item <$> published) end.

(** The exposed ports that no binding names. *)
Definition unpublished (exposed networkPorts : gmap string any) : gmap string any :=
  networkPorts ∪ ((λ _, AnyNil) <$> exposed).

(** Host configuration, network ports and exposed ports. *)
Definition dockerPortBindingDocuments (c : Container) : gmap string any * gmap string any * gmap string any :=
  let bindings := clonePortBindings c in
  let exposed := <[Itoa (ContainerPort (Spec c)) +:+ "/tcp" := empty_object]> ((λ _, empty_object) <$> bindings) in
  ((λ items, AnyList (host_item <$> items)) <$> bindings,
   unpublished exposed (network_items <$> bindings),
   exposed).

(** [time.Duration] of whole seconds, as [%s] prints it. *)
Definition seconds_text (s : Z) : string :=
  let positive (s : Z) : string :=
    (if bool_decide (3600 ≤ s)%Z then Itoa (s / 3600) +:+ "h" else EmptyString)
    +:+ (if bool_decide (60 ≤ s)%Z then Itoa ((s / 60) `mod` 60) +:+ "m" else EmptyString)
    +:+ Itoa (s `mod` 60) +:+ "s" in
  if bool_decide (s < 0)%Z then "-" +:+ positive (- s)%Z else positive s.

Example seconds_examples :
  seconds_text <$> [0; 59; 60; 3661; -90; 86400]%Z = ["0s"; "59s"; "1m0s"; "1h1m1s"; "-1m30s"; "24h0m0s"].
Proof. by vm_compute. Qed.

(** [d.Round(time.Second)], in seconds: halves away from zero. *)
Definition round_seconds (d : Z) : Z :=
  if bool_decide (0 ≤ d)%Z then ((d + ns_per_second / 2) / ns_per_second)%Z
  else (- ((- d + ns_per_second / 2) / ns_per_second))%Z.

Definition humanContainerStatus (now : Time) (c : Container) : string :=
  if bool_decide (Status c = "running") then
    let age := if IsZero (Started c) then 0%Z else round_seconds (now - Started c)%Z in
    if bool_decide (hlStatus (Health c) ≠ EmptyString) && negb (healthDisabled c)
    then "Up " +:+ seconds_text age +:+ " (" +:+ hlStatus (Health c) +:+ ")"
    else "Up " +:+ seconds_text age
  else if bool_decide (Status c = "restarting") then "Restarting (" +:+ Itoa (ExitCode c) +:+ ") 1 second ago"
  else if bool_decide (Status c = "exited") then "Exited (" +:+ Itoa (ExitCode c) +:+ ") 1 second ago"
  else if bool_decide (Status c = EmptyString) then "Unknown"
  else ToUpper (take_string 1 (Status c)) +:+ drop_string 1 (Status c).

Definition containerListDocument (now : Time) (c : Container) (networks : gmap string any) : any :=
  let snapshot := snapshotLocked c in
  AnyMap [("Id", AnyString (csID snapshot)); ("Names", AnyStrings ["/" +:+ csName snapshot]);
    ("Image", AnyString (csImage snapshot)); ("ImageID", AnyString (ImageID c));
    ("Command", AnyString (Join (Command c) " ")); ("Created", AnyInt (Unix (Created c)));
    ("Ports", AnyList (dockerPortSummary c)); ("Labels", strings_any (cloneStringMap (Labels c)));
    ("State", AnyString (snStatus (csState snapshot))); ("Status", AnyString (humanContainerStatus now c));
    ("HostConfig", AnyMap [("NetworkMode", AnyString (csNetworkMode snapshot)); ("Annotations", AnyNil)]);
    ("NetworkSettings", AnyMap [("Networks", any_map networks)]); ("Mounts", AnyList [])].

(** ** Networks of a container *)

Definition networkGateway (network : Network) : string :=
  let configured :=
    match IPAM network !! "Config" with
    | Some (AnyList (AnyMap item :: _)) =>
      match (list_to_map item : gmap string any) !! "Gateway" with Some (AnyString gateway) => Some gateway | _ => None end
    | _ => None
    end in
  match configured with
  | Some gateway => gateway
  | None =>
    if bool_decide (Index network = 0)%Z then "127.19.0.1" else "127.20." +:+ Itoa (Index network) +:+ ".1"
  end.

Definition networkEndpointFor (c : Container) (network : Network) (ep : endpoint) : any :=
  let aliases := uniqueStrings (aliases_of ep) in
  AnyMap [("IPAMConfig", AnyNil); ("Links", AnyNil); ("Aliases", AnyStrings aliases);
    ("MacAddress", AnyString (macForContainer (ID c))); ("DriverOpts", AnyNil); ("GwPriority", AnyInt 0);
    ("NetworkID", AnyString (nID network)); ("EndpointID", AnyString (hashID ("endpoint:" +:+ nID network +:+ ID c)));
    ("Gateway", AnyString (networkGateway network)); ("IPAddress", AnyString (endpointIPv4 ep));
    ("IPPrefixLen", AnyInt 24); ("IPv6Gateway", AnyString EmptyString); ("GlobalIPv6Address", AnyString EmptyString);
    ("GlobalIPv6PrefixLen", AnyInt 0);
    ("DNSNames", AnyStrings (uniqueStrings (aliases ++ [Name c; take_string 12 (ID c)])))].

Definition containerNetworkEndpoints (c : Container) (e : Engine) : gmap string any :=
  foldl (λ out kn,
    match EngineTypes.Containers kn.2 !! ID c with
    | Some ep => <[nName kn.2 := networkEndpointFor c kn.2 ep]> out
    | None => out
    end) ∅ (range "engine_network.go:244" (networks e)).
End documents.

(** ** The inspect document *)

Section inspect.
Context {FS : FileSystem} {RO : RangeOrder} {UN : Unicode}.

(** [config[field] = value] for the raw fields that are not among [kept]. *)
Definition overlay_raw (kept : list string) (requested : gmap string string) (config : gmap string any) : gmap string any :=
  (AnyRaw <$> filter (λ kv, kv.1 ∉ kept) requested) ∪ config.

Definition state_document (c : Container) : any :=
  any_map ((if bool_decide (hlStatus (Health c) ≠ EmptyString) && negb (healthDisabled c)
            then {["Health" := AnyMap [("Status", AnyString (hlStatus (Health c)));
                     ("FailingStreak", AnyInt (FailingStreak (Health c)));
                     ("Log", match hlLog (Health c) with [] => AnyNil | l => AnyList (health_log_any <$> l) end)]]}
            else ∅)
    ∪ list_to_map [("Status", AnyString (Status c)); ("Running", AnyBool (Running c)); ("Paused", AnyBool (Paused c));
        ("Restarting", AnyBool (Restarting c)); ("OOMKilled", AnyBool (OOMKilled c)); ("Dead", AnyBool (Dead c));
        ("Pid", AnyInt (Pid c)); ("ExitCode", AnyInt (ExitCode c)); ("Error", AnyString (cError c));
        ("StartedAt", AnyString (formatDockerTime (Started c))); ("FinishedAt", AnyString (formatDockerTime (Finished c)))]).

Definition host_config_document (c : Container) (portBindings : gmap string any) : gmap string any :=
  overlay_raw ["NetworkMode"; "PortBindings"; "RestartPolicy"] (cloneRawJSONMap (requestedHostConfig c))
    (list_to_map [("Binds", AnyNil); ("ContainerIDFile", AnyString EmptyString);
      ("LogConfig", AnyMap [("Type", AnyString "json-file"); ("Config", empty_object)]);
      ("NetworkMode", AnyString (NetworkMode c)); ("PortBindings", any_map portBindings);
      ("RestartPolicy", AnyStruct [("Name", AnyString (PolicyName (cRestartPolicy c)));
         ("MaximumRetryCount", AnyInt (MaximumRetryCount (cRestartPolicy c)))]);
      ("AutoRemove", AnyBool false); ("VolumeDriver", AnyString EmptyString); ("VolumesFrom", AnyNil);
      ("ConsoleSize", AnyList [AnyInt 0; AnyInt 0]); ("CapAdd", AnyNil); ("CapDrop", AnyNil);
      ("CgroupnsMode", AnyString "private"); ("Dns", AnyStrings ["127.0.0.11"]); ("DnsOptions", AnyNil);
      ("DnsSearch", AnyNil); ("ExtraHosts", AnyNil); ("GroupAdd", AnyNil); ("IpcMode", AnyString "private");
      ("Cgroup", AnyString EmptyString); ("Links", AnyNil); ("OomScoreAdj", AnyInt 0); ("PidMode", AnyString EmptyString);
      ("Privileged", AnyBool false); ("PublishAllPorts", AnyBool false); ("ReadonlyRootfs", AnyBool false);
      ("SecurityOpt", AnyNil); ("UTSMode", AnyString EmptyString); ("UsernsMode", AnyString EmptyString);
      ("ShmSize", AnyInt 67108864); ("Runtime", AnyString "runc"); ("Isolation", AnyString EmptyString);
      ("CpuShares", AnyInt 0); ("Memory", AnyInt 0); ("NanoCpus", AnyInt 0)]).

(** [id12] is [id[:12]]. *)
Definition config_document (c : Container) (id12 : string) (exposed : gmap string any) : gmap string any :=
  overlay_raw ["ExposedPorts"] (cloneRawJSONMap (requestedConfig c))
    (list_to_map [("Hostname", AnyString id12); ("Domainname", AnyString EmptyString); ("User", AnyString EmptyString);
      ("AttachStdin", AnyBool false); ("AttachStdout", AnyBool true); ("AttachStderr", AnyBool true);
      ("ExposedPorts", any_map exposed); ("Tty", AnyBool false); ("OpenStdin", AnyBool false); ("StdinOnce", AnyBool false);
      ("Env", copied (Env c)); ("Cmd", copied (Command c));
      ("Healthcheck", AnyMap [("Test", AnyStrings ["CMD-SHELL"; "docker-zero-health"]); ("Interval", AnyInt 5000000000);
         ("Timeout", AnyInt 2000000000); ("Retries", AnyInt 3)]);
      ("Image", AnyString (Image c)); ("Volumes", AnyNil); ("WorkingDir", AnyString EmptyString); ("Entrypoint", AnyNil);
      ("OnBuild", AnyNil); ("Labels", strings_any (cloneStringMap (Labels c)))]).

Definition network_settings_document (c : Container) (id12 : string) (networkPorts networks : gmap string any) : any :=
  AnyMap [("Bridge", AnyString EmptyString); ("SandboxID", AnyString (hashID ("sandbox:" +:+ ID c)));
    ("SandboxKey", AnyString ("/var/run/docker/netns/" +:+ id12)); ("Ports", any_map networkPorts);
    ("HairpinMode", AnyBool false); ("LinkLocalIPv6Address", AnyString EmptyString); ("LinkLocalIPv6PrefixLen", AnyInt 0);
    ("SecondaryIPAddresses", AnyNil); ("SecondaryIPv6Addresses", AnyNil);
    ("EndpointID", AnyString (hashID ("endpoint:" +:+ ID c))); ("Gateway", AnyString "127.0.0.1");
    ("GlobalIPv6Address", AnyString EmptyString); ("GlobalIPv6PrefixLen", AnyInt 0);
    ("IPAddress", AnyString (PrimaryIP c)); ("IPPrefixLen", AnyInt 24); ("IPv6Gateway", AnyString EmptyString);
    ("MacAddress", AnyString (macForContainer (ID c))); ("Networks", any_map networks)].

(** The strings of a raw JSON array, and the keys of a raw JSON object: both were
    checked when the request was decoded. *)
Definition raw_strings (raw : option string) : list string :=
  default [] (text ← raw; v ← parse text; as_string_list v).
Definition raw_object_keys (raw : option string) : gmap string any :=
  (λ _, empty_object) <$> default ∅ (text ← raw; v ← parse text; as_object v).

Definition docker_zero_document (c : Container) : any :=
  AnyMap [("ContainerPort", AnyInt (ContainerPort (Spec c)));
    ("MetadataOnlyFields", AnyStrings (metadataOnlyFields c));
    ("HealthSource", AnyString (if healthDisabled c then "disabled"
       else "cookbook (healthcheck commands are not executed)"))].

(** An identifier of fewer than twelve bytes would panic. *)
Definition containerInspectDocument (c : Container) (networks : gmap string any) : outcome any :=
  if bool_decide (String.length (ID c) < 12)
  then Panic ("slice bounds out of range [:12] with length " +:+ Itoa (Z.of_nat (String.length (ID c))))
  else
    let id := ID c in
    let id12 := take_string 12 id in
    let processCommand := raw_strings (requestedConfig c !! "Entrypoint") ++ Command c in
    let '(hostPortBindings, networkPorts, exposed) := dockerPortBindingDocuments c in
    let requestedPorts := raw_object_keys (requestedConfig c !! "ExposedPorts") in
    let exposed := requestedPorts ∪ exposed in
    let networkPorts := unpublished requestedPorts networkPorts in
    let directory := "/var/lib/docker-zero/containers/" +:+ id in
    Done (AnyMap [("Id", AnyString id); ("Created", AnyString (formatDockerTime (Created c)));
      ("Path", AnyString (firstOrEmpty processCommand)); ("Args", AnyStrings (restOrEmpty processCommand));
      ("State", state_document c); ("Image", AnyString (ImageID c));
      ("ResolvConfPath", AnyString (directory +:+ "/resolv.conf")); ("HostnamePath", AnyString (directory +:+ "/hostname"));
      ("HostsPath", AnyString (directory +:+ "/hosts")); ("LogPath", AnyString (directory +:+ "/" +:+ id +:+ "-json.log"));
      ("Name", AnyString ("/" +:+ Name c)); ("RestartCount", AnyInt (RestartCount c)); ("Driver", AnyString "docker-zero");
      ("Platform", AnyString "linux"); ("MountLabel", AnyString EmptyString); ("ProcessLabel", AnyString EmptyString);
      ("AppArmorProfile", AnyString EmptyString); ("ExecIDs", AnyNil);
      ("HostConfig", any_map (host_config_document c hostPortBindings));
      ("GraphDriver", AnyMap [("Data", empty_object); ("Name", AnyString "docker-zero")]); ("Mounts", AnyList []);
      ("Config", any_map (config_document c id12 exposed));
      ("NetworkSettings", network_settings_document c id12 networkPorts networks);
      ("DockerZero", docker_zero_document c)]).

(** ** The whole state *)

Definition stateDocument (e : Engine) : any :=
  AnyMap [("name", AnyString "docker-zero"); ("seed", AnyInt (seed e)); ("overrides", any_map (AnyInt <$> overrides e));
    ("started_at", AnyString (formatDockerTime (startedAt e))); ("run_dir", AnyString (RunDir (ledger e)));
    ("containers", AnyList (container_snapshot_any <$> Engine.snapshots e));
    ("networks", AnyInt (Z.of_nat (size (networks e)))); ("volumes", AnyInt (Z.of_nat (size (volumes e))))].
End inspect.
