(* ===== verification/Http.v ===== *)
(** Requests and responses of the Docker API: the response recorder of
    [docker_api_server.go], the writers of [docker_api_util.go], and what happens to
    a panic ([runtime_error.go], [reportRuntimeError] of [main.go]).

    An [Exchange] is the engine together with one response under way.  [xSent] is
    the status and the headers that went out with the first [WriteHeader]; [xBody] is
    what [net/http] accepted after it (of a HEAD request it sends the headers only).

    [time.Now()] at a place of the source is [Now place]; the places differ, so
    nothing is assumed of how the clock moves. *)
From Stdlib Require Import Ascii.
From S2P Require Import Prelude GoStrings GoTime Json EngineTypes Ledger Engine.

Class Clock := { Now : string → Time }.

(** The build and the machine; [debug_stack] is the stack trace of a panic. *)
Class Platform := { GOARCH : string; GoVersion : string; debug_stack : string }.

Record Request := mkHTTPRequest {
  reqMethod : string;
  reqPath : string;      (* URL.Path, decoded *)
  reqRawQuery : string;
  reqRemote : string;
  reqBody : string
}.

Record Exchange := mkExchange {
  xEngine : Engine;
  xStatus : Z;           (* of the recorder, 0 before a status is written *)
  xBytes : Z;
  xHeader : gmap string string;
  xSent : option (Z * gmap string string);
  xBody : string
}.
#[export] Instance Exchange_eta : Eta Exchange := λ x,
  mkExchange (xEngine x) (xStatus x) (xBytes x) (xHeader x) (xSent x) (xBody x).

Definition opened_exchange (e : Engine) : Exchange := mkExchange e 0 0 ∅ None EmptyString.

(** What the engine does in the middle of a response. *)
Definition engine_op {A} (m : prog Engine A) : prog Exchange A := λ x,
  let '(e, o) := m (xEngine x) in (x <| xEngine := e |>, o).

(** * The recorder *)

Definition set_header (key value : string) : prog Exchange () :=
  modify (λ x, x <| xHeader := <[key := value]> (xHeader x) |>).

Definition WriteHeader (status : Z) : prog Exchange () :=
  modify (λ x,
    if bool_decide (xStatus x ≠ 0)%Z then x
    else x <| xStatus := status |> <| xSent := Some (status, xHeader x) |>).

(** [bodyAllowedForStatus] of [net/http]. *)
Definition body_allowed (status : Z) : bool :=
  negb (bool_decide (100 ≤ status ≤ 199 ∨ status = 204 ∨ status = 304)%Z).

Definition Write (payload : string) : prog Exchange () :=
  x ← get;
  (if bool_decide (xStatus x = 0)%Z then WriteHeader 200 else mret ());;
  modify (λ x,
    if body_allowed (xStatus x)
    then x <| xBytes := (xBytes x + Z.of_nat (String.length payload))%Z |> <| xBody := xBody x +:+ payload |>
    else x).

Definition Flush : prog Exchange () :=
  x ← get; if bool_decide (xStatus x = 0)%Z then WriteHeader 200 else mret ().

(** [json.NewEncoder(w).Encode(value)] *)
Definition any_text (value : any) : string := print (any_json value) +:+ nl.
Definition Encode (value : any) : prog Exchange () := Write (any_text value).

Definition writeJSON (status : Z) (value : any) : prog Exchange () :=
  set_header "Content-Type" "application/json";; WriteHeader status;; Encode value.

Definition writeDockerError (status : Z) (message : string) : prog Exchange () :=
  writeJSON status (AnyMap [("message", AnyString message)]).

Definition writeUnsupportedDockerError (status : Z) (message : string) : prog Exchange () :=
  set_header "X-Docker-Zero-Unsupported" "true";; writeDockerError status message.

(** * Panics *)

(** A send to the channel of capacity [capacity] that gives up when it is full. *)
Definition reportRuntimeError (capacity : nat) (err : string) (target : list string) : list string :=
  if bool_decide (length target < capacity) then target ++ [err] else target.

Section panics.
Context {FS : FileSystem} {UN : Unicode} {CK : Clock} {PL : Platform}.

(** [fmt.Sprint] of a run-time error. *)
Definition recovered_text (msg : string) : string := "runtime error: " +:+ msg.

(** [Error] of an [InternalPanicError]. *)
Definition InternalPanicError (component recovered stack : string) : string :=
  component +:+ " panicked: " +:+ recovered +:+ nl +:+ TrimSpace stack.

Definition reportInternalPanic (component recovered : string) : prog Engine () :=
  log_entry (Now "runtime_error.go:41")
    (engine_entry "docker-zero.internal" "panic" (AnyMap [("component", AnyString component)])
       (AnyMap [("panic", AnyString recovered); ("stack", AnyString debug_stack)]));;
  modify (λ e, e <| internalErrors :=
    reportRuntimeError 4 (InternalPanicError component recovered debug_stack) (internalErrors e) |>).

(** A deferred [recover]: the body, and what is done when it panics. *)
Definition recovering {S} (body : prog S ()) (handle : string → prog S ()) : prog S () := λ s,
  match body s with
  | (s, Panic msg) => handle (recovered_text msg) s
  | r => r
  end.

Definition recoverHTTPHandler (component : string) (body : prog Exchange ()) : prog Exchange () :=
  recovering body (λ recovered,
    engine_op (reportInternalPanic component recovered);;
    set_header "Connection" "close";;
    set_header "Content-Type" "text/plain; charset=utf-8";;
    WriteHeader 500;;
    Write ("docker-zero internal error; inspect engine.log" +:+ nl)).

Definition recoverDockerHTTPHandler (body : prog Exchange ()) : prog Exchange () :=
  recovering body (λ recovered,
    engine_op (reportInternalPanic "Docker API" recovered);;
    set_header "Connection" "close";;
    writeDockerError 500 "docker-zero internal error; inspect engine.log").

Definition recoverTCPHandler (component : string) (body : prog Engine ()) : prog Engine () :=
  recovering body (reportInternalPanic component).
End panics.
