(* ===== verification/ApiContainers.v ===== *)
(** The container endpoints of the Docker API: [docker_api_container_action.go],
    [docker_api_container_create.go] and [handleContainerWait].

    A handler composes calls of the engine, each of which is atomic.  A wait is the
    one handler during which others must run: [meanwhile] is what they do to the
    engine, and [client_gone] says that the request was cancelled. *)
From Stdlib Require Import Ascii.
From S2P Require Import Prelude GoStrings GoTime Json Cookbook Sha256 CookbookValidation Container ContainerConfig ContainerLife EngineTypes DockerFilters ApiUtil Net Ledger Url Decode Engine EngineNetwork Redis Runtime Documents Http.

Class Waiting := { meanwhile : Engine → Engine; client_gone : bool }.

Section handlers.
Context {FS : FileSystem} {RO : RangeOrder} {UN : Unicode} {SK : Sockets} {CK : Clock} {JM : JsonMessages} {WT : Waiting}.

(** A nil container is a pointer to no object. *)
Definition pointer (e : Engine) (found : option ptr) : ptr := default (fresh (dom (heap e))) found.

Definition state_of (p : ptr) : prog Exchange ContainerStateSnapshot :=
  engine_op (c ← deref p; mret (stateSnapshotLocked c)).

(** [engine.ledger.Log] about a container. *)
Definition log_for (now : Time) (p : ptr) (event : string) (f : LedgerEntry → LedgerEntry) : prog Exchange () :=
  engine_op (c ← deref p; log_entry now (f (container_entry c "docker" event))).

Definition log_event (now : Time) (p : ptr) (event : string) (adv : eventAdvance) (request response : any) : prog Exchange () :=
  engine_op (logContainerEvent now p event adv request response).

Definition get_query (r : Request) (key : string) : string := Query_Get (reqRawQuery r) key.

(** [stopContainerRuntime] with its error ignored. *)
Definition stop_runtime (p : ptr) : prog Exchange () := engine_op (stopContainerRuntime p);; mret ().

(** A runtime that could not be started: the container is patched, logged and the
    error reported. *)
Definition start_failed (p : ptr) (site event : string) (before : ContainerStateSnapshot) (err : string) : prog Exchange () :=
  '(_, after) ← engine_op (on p (applyPatch (Now site) (bind_failed_patch err)));
  log_for (Now site) p event (λ entry, entry <| eResponse := AnyMap [("error", AnyString err)] |>
    <| eBefore := Some before |> <| eAfter := Some after |>);;
  writeDockerError 500 err.

(** * Waiting *)

Definition subscribe (condition : string) : prog CState nat :=
  s ← get;
  let '(w, c) := subscribeWait condition (this s) in
  put (s <| this := c |>);; mret w.

Definition condition_object (condition : string) : any := AnyMap [("condition", AnyString condition)].

Definition handleContainerWait (r : Request) (p : ptr) : prog Exchange () :=
  let requested := get_query r "condition" in
  let condition := if bool_decide (requested = EmptyString) then "not-running" else requested in
  if negb (bool_decide (condition ∈ ["not-running"; "next-exit"; "removed"]))
  then writeDockerError 400 ("invalid wait condition: " +:+ condition)
  else
    before ← state_of p;
    w ← engine_op (on p (subscribe condition));
    set_header "Content-Type" "application/json";;
    WriteHeader 200;;
    Flush;;
    engine_op (modify meanwhile);;
    (if client_gone then
       after ← state_of p;
       log_event (Now "container_wait.go:92") p "container.wait.cancelled" (mkAdvance 0 before after EmptyString)
         (condition_object condition) AnyNil
     else
       result ← engine_op (on p (receiveWait w));
       after ← state_of p;
       log_event (Now "container_wait.go:88") p "container.wait" (mkAdvance 0 before after EmptyString)
         (condition_object condition) (wait_result_any result);;
       writeJSON 200 (wait_result_any result));;
    engine_op (on p (modify_this (cancelWait w))).

(** * Actions *)

Definition inspect_action (p : ptr) : prog Exchange () :=
  adv ← engine_op (on p (advance (Now "docker_api_container_action.go:29") "docker.inspect"));
  engine_op (syncRuntimeForState (Now "docker_api_container_action.go:30") p);;
  c ← engine_op (deref p);
  x ← get;
  match containerInspectDocument c (containerNetworkEndpoints c (xEngine x)) with
  | Done doc =>
    log_event (Now "docker_api_container_action.go:32") p "container.inspect" adv AnyNil
      (AnyMap [("status", AnyString (Status c))]);;
    writeJSON 200 doc
  | Panic msg => panic msg
  | Blocked => λ x, (x, Blocked)
  end.

Definition finish_action (p : ptr) (site event advance_event : string) (before : ContainerStateSnapshot) (statusCode : Z) :
    prog Exchange () :=
  adv ← engine_op (on p (advance (Now site) advance_event));
  log_event (Now site) p event (adv <| aBefore := before |>) AnyNil (AnyMap [("status", AnyInt statusCode)]);;
  WriteHeader statusCode.

Definition start_action (p : ptr) : prog Exchange () :=
  before ← state_of p;
  if snRunning before && negb (snRestarting before)
  then finish_action p "docker_api_container_action.go:48" "container.start" "docker.start" before 304
  else
    engine_op (on p (start (Now "docker_api_container_action.go:40")));;
    runtimeErr ← engine_op (startContainerRuntime (Now "docker_api_container_action.go:41") p);
    match runtimeErr with
    | Some err => start_failed p "docker_api_container_action.go:42" "container.start.failed" before err
    | None => finish_action p "docker_api_container_action.go:48" "container.start" "docker.start" before 204
    end.

Definition stop_action (p : ptr) : prog Exchange () :=
  before ← state_of p;
  if negb (snRunning before) && negb (snRestarting before)
  then finish_action p "docker_api_container_action.go:61" "container.stop" "docker.stop" before 304
  else
    stop_runtime p;;
    engine_op (on p (stop (Now "docker_api_container_action.go:59") 0));;
    finish_action p "docker_api_container_action.go:61" "container.stop" "docker.stop" before 204.

(** A method that can refuse: its error with the given status, or a log entry. *)
Definition attempt_action (p : ptr) (now : Time) (event : string) (refused : Z) (m : prog CState attempt) (done_after : prog Exchange ()) :
    prog Exchange () :=
  '(before, after, err) ← engine_op (on p m);
  match err with
  | Some err => writeDockerError refused err
  | None =>
    done_after;;
    log_for now p event (λ entry, entry <| eBefore := Some before |> <| eAfter := Some after |>);;
    WriteHeader 204
  end.

Definition restart_action (p : ptr) : prog Exchange () :=
  before ← state_of p;
  stop_runtime p;;
  engine_op (on p (restart (Now "docker_api_container_action.go:84")));;
  adv ← engine_op (on p (advance (Now "docker_api_container_action.go:85") "docker.restart"));
  state ← state_of p;
  (if snRestarting state || bool_decide (snStatus state = "restarting")
   then engine_op (on p (start (Now "docker_api_container_action.go:88")));; mret () else mret ());;
  runtimeErr ← engine_op (startContainerRuntime (Now "docker_api_container_action.go:90") p);
  match runtimeErr with
  | Some err => start_failed p "docker_api_container_action.go:91" "container.restart.failed" before err
  | None =>
    after ← state_of p;
    log_event (Now "docker_api_container_action.go:98") p "container.restart"
      (adv <| aBefore := before |> <| aAfter := after |>) AnyNil AnyNil;;
    WriteHeader 204
  end.

Definition kill_action (r : Request) (p : ptr) : prog Exchange () :=
  let signal := get_query r "signal" in
  if negb (bool_decide (signal ∈ [EmptyString; "9"; "KILL"; "SIGKILL"]))
  then writeUnsupportedDockerError 501 "only SIGKILL (the default kill signal) is simulated"
  else attempt_action p (Now "docker_api_container_action.go:112") "container.kill" 409
         (kill (Now "docker_api_container_action.go:106")) (stop_runtime p).

Definition logs_action (p : ptr) : prog Exchange () :=
  adv ← engine_op (on p (advance (Now "docker_api_container_action.go:117") "docker.logs"));
  c ← engine_op (deref p);
  let logs := allLogs c in
  log_event (Now "docker_api_container_action.go:119") p "container.logs" adv AnyNil
    (AnyMap [("bytes", AnyInt (Z.of_nat (String.length logs)))]);;
  set_header "Content-Type" "application/vnd.docker.raw-stream";;
  WriteHeader 200;;
  (if bool_decide (logs = EmptyString) then mret () else Write (writeDockerStreamFrame "001" logs)).

Definition top_action (p : ptr) : prog Exchange () :=
  adv ← engine_op (on p (advance (Now "docker_api_container_action.go:124") "docker.top"));
  log_event (Now "docker_api_container_action.go:125") p "container.top" adv AnyNil AnyNil;;
  writeJSON 200 (AnyMap [("Titles", AnyStrings ["UID"; "PID"; "PPID"; "C"; "STIME"; "TTY"; "TIME"; "CMD"]); ("Processes", AnyList [])]).

Definition exec_action (r : Request) (p : ptr) : prog Exchange () :=
  state ← state_of p;
  if snPaused state then writeDockerError 409 "container is paused, unpause the container before exec"
  else if negb (snRunning state) || snRestarting state || snDead state
  then writeDockerError 409 "container is not running"
  else match decodeJSON decode_exec (reqBody r) with
  | Err err => writeDockerError 400 err
  | Ok cmd =>
    if bool_decide (default EmptyString (head cmd) = EmptyString)
    then writeDockerError 400 "no command specified"
    else writeUnsupportedDockerError 501 "exec is not simulated: no container processes are executed"
  end.

Definition remove_action (r : Request) (ref : string) : prog Exchange () :=
  let force := parseBoolQuery (get_query r "force") in
  err ← engine_op (removeContainer (Now "docker_api_container_action.go:157") ref force);
  match err with
  | Some err => writeDockerError 409 err
  | None => WriteHeader 204
  end.

(** The [switch] on the action and the method. *)
Definition container_switch (r : Request) (parts : list string) (ref action : string) (p : ptr) : prog Exchange () :=
  let acts (a m : string) := bool_decide (action = a ∧ reqMethod r = m) in
  if acts "json" "GET" then inspect_action p
  else if acts "start" "POST" then start_action p
  else if acts "stop" "POST" then stop_action p
  else if acts "pause" "POST" then attempt_action p (Now "docker_api_container_action.go:71") "container.pause" 500 pause (mret ())
  else if acts "unpause" "POST" then attempt_action p (Now "docker_api_container_action.go:79") "container.unpause" 500 unpause (mret ())
  else if acts "restart" "POST" then restart_action p
  else if acts "kill" "POST" then kill_action r p
  else if acts "wait" "POST" then handleContainerWait r p
  else if acts "logs" "GET" then logs_action p
  else if acts "top" "GET" then top_action p
  else if acts "exec" "POST" then exec_action r p
  else if bool_decide (action = "archive" ∧ reqMethod r ∈ ["PUT"; "HEAD"; "GET"])
  then writeUnsupportedDockerError 501 "archive operations are not simulated: no container filesystem exists"
  else if acts "json" "DELETE" || bool_decide (length parts = 1 ∧ reqMethod r = "DELETE") then remove_action r ref
  else writeUnsupportedDockerError 404 ("unsupported container operation: " +:+ reqMethod r +:+ " " +:+ action).

Definition handleContainerAction (r : Request) (rest : string) : prog Exchange () :=
  let parts := Split rest "/" in
  let first := default EmptyString (head parts) in
  if bool_decide (first = EmptyString) then writeDockerError 404 "container reference is required"
  else
    let ref := PathUnescape first in
    let action := default "json" (head (tail parts)) in
    x ← get;
    match findContainer ref (xEngine x) with
    | Err err => writeDockerError 404 err
    | Ok found => container_switch r parts ref action (pointer (xEngine x) found)
    end.

(** * Creating *)

(** The requested configuration is stored and its ports configured; the warnings,
    and the error of the ports, for which the container is removed again. *)
Definition configure_created (request : createContainerRequest) (p : ptr) : prog Exchange (list string * option string) :=
  warnings ← engine_op (on p (s ← get;
    let '(c, warnings) := storeRequestedConfig request (this s) in put (s <| this := c |>);; mret warnings));
  bindingErr ← engine_op (on p (s ← get;
    match configureContainerPortBindings (rPortBindings request) (this s) with
    | Ok c => put (s <| this := c |>);; mret None
    | Err err => mret (Some err)
    end));
  match bindingErr with
  | Some err =>
    c ← engine_op (deref p);
    engine_op (removeContainer (Now "docker_api_container_create.go:92") (ID c) true);;
    mret (warnings, Some err)
  | None => mret (warnings, None)
  end.

Definition connect_created (request : createContainerRequest) (p : ptr) : prog Exchange (option string) :=
  configured ← engine_op (configureContainerNetworks p (rNetworkMode request) (rEndpoints request));
  match configured with
  | Err err =>
    c ← engine_op (deref p);
    engine_op (removeContainer (Now "docker_api_container_create.go:102") (ID c) true);;
    mret (Some err)
  | Ok _ => mret None
  end.

Definition refuse_create (err : string) : prog Exchange () :=
  writeDockerError (if Contains (ToLower err) "conflict" then 409 else 400)%Z err.

Definition handleContainerCreate (r : Request) : prog Exchange () :=
  match decodeJSON UnmarshalJSON (reqBody r) with
  | Err err => writeDockerError 400 ("invalid container config: " +:+ err)
  | Ok request =>
    match validateMetadata request with
    | (_, Some err) => writeDockerError 400 err
    | (request, None) =>
      created ← engine_op (createContainer (Now "docker_api_container_create.go:87") (get_query r "name") (rImage request)
        (rLabels request) (rEnv request) (rCmd request));
      match created with
      | Err err => refuse_create err
      | Ok p =>
        '(warnings, bindingErr) ← configure_created request p;
        match bindingErr with
        | Some err => refuse_create err
        | None =>
          networkErr ← connect_created request p;
          match networkErr with
          | Some err => refuse_create err
          | None =>
            c ← engine_op (deref p);
            writeJSON 201 (AnyMap [("Id", AnyString (ID c)); ("Warnings", AnyStrings warnings)])
          end
        end
      end
    end
  end.

(** * Listing *)

Fixpoint list_loop (all : bool) (filters : dockerFilters) (ps : list ptr) : prog Exchange (list any) :=
  match ps with
  | [] => mret []
  | p :: ps =>
    adv ← engine_op (on p (advance (Now "docker_api_container_create.go:127") "docker.list"));
    engine_op (syncRuntimeForState (Now "docker_api_container_create.go:128") p);;
    log_event (Now "docker_api_container_create.go:129") p "container.list" adv AnyNil AnyNil;;
    c ← engine_op (deref p);
    x ← get;
    let shown := (all || isDockerPSVisible c) && containerMatchesFilters c filters in
    let doc := containerListDocument (Now "docker_api_documents.go:230") c (containerNetworkEndpoints c (xEngine x)) in
    docs ← list_loop all filters ps;
    mret (if shown then doc :: docs else docs)
  end.

Definition handleContainerList (r : Request) : prog Exchange () :=
  let all := parseBoolQuery (get_query r "all") in
  match parseDockerFilters (get_query r "filters") with
  | Err err => writeDockerError 400 ("invalid filters: " +:+ err)
  | Ok filters =>
    x ← get;
    docs ← list_loop all filters (fst <$> listContainers true (xEngine x));
    writeJSON 200 (AnyList docs)
  end.
End handlers.
