(* ===== verification/ApiResources.v ===== *)
(** Images, networks, volumes and exec: [docker_api_images_networks.go] and
    [docker_api_volumes_exec.go]. *)
From Stdlib Require Import Ascii.
From S2P Require Import Prelude GoStrings GoTime Json Cookbook Sha256 CookbookValidation Container ImageMatch EngineTypes DockerFilters ApiUtil Net Ledger Url Decode Engine EngineNetwork Redis Runtime Documents Http ApiContainers.

Section handlers.
Context {FS : FileSystem} {RO : RangeOrder} {UN : Unicode} {SK : Sockets} {CK : Clock} {PL : Platform} {JM : JsonMessages}.

(** * Images *)

Definition engineVersion : string := "26.1.5-docker-zero".

Definition image_document (startedAt : Time) (cb : Cookbook) : any :=
  AnyMap [("Containers", AnyInt (-1)); ("Created", AnyInt (Unix startedAt));
    ("Id", AnyString (imageID (sImage (Defaults cb)))); ("Labels", AnyMap [("docker-zero.kind", AnyString (cbKind cb))]);
    ("ParentId", AnyString EmptyString); ("RepoDigests", AnyStrings []); ("RepoTags", AnyStrings [sImage (Defaults cb)]);
    ("SharedSize", AnyInt (-1)); ("Size", AnyInt 0); ("VirtualSize", AnyInt 0)].

Definition handleImageList : prog Exchange () :=
  x ← get;
  let e := xEngine x in
  writeJSON 200 (AnyList (omap (λ kind, image_document (startedAt e) <$> cookbooks e !! kind)
    (sortedCookbookKinds (cookbooks e)))).

Definition handleImageCreate (r : Request) : prog Exchange () :=
  let image := get_query r "fromImage" in
  let tag := get_query r "tag" in
  let image := if bool_decide (tag ≠ EmptyString) && negb (Contains image ":") then image +:+ ":" +:+ tag else image in
  set_header "Content-Type" "application/json";;
  WriteHeader 200;;
  Encode (AnyMap [("status", AnyString "Pulling from docker-zero"); ("id", AnyString image)]);;
  Encode (AnyMap [("status", AnyString ("Digest: " +:+ imageID image))]);;
  Encode (AnyMap [("status", AnyString "Status: Image is simulated"); ("id", AnyString image)]);;
  engine_op (log_entry (Now "docker_api_images_networks.go:44")
    (engine_entry "docker" "image.pull" (AnyMap [("image", AnyString image)]) AnyNil)).

Definition image_inspect_document (e : Engine) (cb : Cookbook) : any :=
  AnyMap [("Id", AnyString (imageID (sImage (Defaults cb)))); ("RepoTags", AnyStrings [sImage (Defaults cb)]);
    ("RepoDigests", AnyStrings []); ("Parent", AnyString EmptyString); ("Comment", AnyString "docker-zero simulated image");
    ("Created", AnyString (formatDockerTime (startedAt e))); ("ContainerConfig", empty_object);
    ("DockerVersion", AnyString engineVersion); ("Author", AnyString "docker-zero");
    ("Config", AnyMap [("Hostname", AnyString EmptyString); ("Domainname", AnyString EmptyString); ("User", AnyString EmptyString);
       ("AttachStdin", AnyBool false); ("AttachStdout", AnyBool false); ("AttachStderr", AnyBool false); ("Tty", AnyBool false);
       ("OpenStdin", AnyBool false); ("StdinOnce", AnyBool false); ("Env", AnyStrings []); ("Cmd", AnyStrings []);
       ("Image", AnyString EmptyString); ("Volumes", AnyNil); ("WorkingDir", AnyString EmptyString); ("Entrypoint", AnyNil);
       ("OnBuild", AnyNil); ("Labels", AnyMap [("docker-zero.kind", AnyString (cbKind cb))])]);
    ("Architecture", AnyString GOARCH); ("Os", AnyString "linux"); ("Size", AnyInt 0); ("VirtualSize", AnyInt 0);
    ("GraphDriver", AnyMap [("Data", empty_object); ("Name", AnyString "docker-zero")]);
    ("RootFS", AnyMap [("Type", AnyString "layers"); ("Layers", AnyStrings [])]);
    ("Metadata", AnyMap [("LastTagTime", AnyString (formatDockerTime (startedAt e)))])].

Definition handleImageInspect (name : string) : prog Exchange () :=
  x ← get;
  match cookbookFor (cookbooks (xEngine x)) EmptyString name with
  | Err _ => writeDockerError 404 ("No such simulated image: " +:+ name)
  | Ok cb => writeJSON 200 (image_inspect_document (xEngine x) cb)
  end.

(** * Networks *)

Definition handleNetworkList (r : Request) : prog Exchange () :=
  match parseDockerFilters (get_query r "filters") with
  | Err err => writeDockerError 400 ("invalid filters: " +:+ err)
  | Ok filters =>
    x ← get;
    writeJSON 200 (AnyList ((λ kn, network_any (cloneNetwork kn.2)) <$>
      filter (λ kn, networkMatchesFilters kn.2 filters = true)
        (range "docker_api_images_networks.go:84" (networks (xEngine x)))))
  end.

Definition handleNetworkCreate (r : Request) : prog Exchange () :=
  match decodeJSON decode_network_create (reqBody r) with
  | Err err => writeDockerError 400 err
  | Ok request =>
    created ← engine_op (createNetwork (Now "docker_api_images_networks.go:103") (ncName request) (ncDriver request) (ncLabels request));
    match created with
    | Err err => writeDockerError 409 err
    | Ok network => writeJSON 201 (AnyMap [("Id", AnyString (nID network)); ("Warning", AnyString EmptyString)])
    end
  end.

Definition remove_network_action (ref : string) : prog Exchange () :=
  removed ← engine_op (removeNetwork (Now "docker_api_images_networks.go:130") ref);
  match removed with
  | Some (kind, err) => writeDockerError (match kind with PredefinedNetwork => 403 | _ => 500 end)%Z err
  | None => WriteHeader 204
  end.

(** A running container is stopped around the change, and started again. *)
Definition change_connection (connect : bool) (network : Network) (aliases : list string) (p : ptr) : prog Exchange () :=
  c ← engine_op (deref p);
  let wasRunning := isRunning c in
  (if wasRunning then stop_runtime p else mret ());;
  changed ← engine_op (if connect then connectContainerNetwork p (nID network) aliases
                       else disconnectContainerNetwork p (nID network));
  match changed with
  | Err err =>
    (if wasRunning then engine_op (startContainerRuntime (Now "docker_api_images_networks.go:171") p);; mret () else mret ());;
    writeDockerError 400 err
  | Ok _ =>
    runtimeErr ← (if wasRunning then engine_op (startContainerRuntime (Now "docker_api_images_networks.go:177") p) else mret None);
    match runtimeErr with
    | Some err => writeDockerError 500 err
    | None =>
      engine_op (log_entry (Now "docker_api_images_networks.go:182")
        ((container_entry c "docker" ("network." +:+ if connect then "connect" else "disconnect"))
          <| eRequest := AnyMap [("network", AnyString (nName network)); ("aliases", copied aliases)] |>));;
      WriteHeader 200
    end
  end.

Definition connection_action (r : Request) (connect : bool) (network : Network) : prog Exchange () :=
  match decodeJSON decode_connect (reqBody r) with
  | Err err => writeDockerError 400 err
  | Ok request =>
    x ← get;
    match findContainer (conContainer request) (xEngine x) with
    | Err err => writeDockerError 404 err
    | Ok found =>
      let p := pointer (xEngine x) found in
      c ← engine_op (deref p);
      x ← get;
      let '(connected, connectedNetwork) := containerConnectedToNetwork c (nID network) (xEngine x) in
      match connect && connected, connectedNetwork with
      | true, Some n =>
        writeDockerError 400 ("endpoint with name " +:+ Name c +:+ " already exists in network " +:+ nName n)
      | _, _ => change_connection connect network (conAliases request) p
      end
    end
  end.

Definition handleNetworkAction (r : Request) (rest : string) : prog Exchange () :=
  let parts := Split rest "/" in
  let ref := PathUnescape (default EmptyString (head parts)) in
  let action := default EmptyString (head (tail parts)) in
  x ← get;
  match findNetwork ref (xEngine x) with
  | Err err => writeDockerError 404 err
  | Ok (_, network) =>
    if bool_decide (action = EmptyString ∧ reqMethod r = "GET") then writeJSON 200 (network_any (cloneNetwork network))
    else if bool_decide (action = EmptyString ∧ reqMethod r = "DELETE") then remove_network_action ref
    else if bool_decide ((action = "connect" ∨ action = "disconnect") ∧ reqMethod r = "POST")
    then connection_action r (bool_decide (action = "connect")) network
    else writeUnsupportedDockerError 404 ("unsupported network operation: " +:+ reqMethod r)
  end.

(** * Volumes and exec *)

Definition handleVolumeList (r : Request) : prog Exchange () :=
  match parseDockerFilters (get_query r "filters") with
  | Err err => writeDockerError 400 ("invalid filters: " +:+ err)
  | Ok filters =>
    x ← get;
    let items := filter (λ kv, volumeMatchesFilters kv.2 filters = true)
                   (range "docker_api_volumes_exec.go:17" (volumes (xEngine x))) in
    writeJSON 200 (AnyMap [("Volumes", AnyList ((λ kv, volume_any kv.2) <$> items)); ("Warnings", AnyStrings [])])
  end.

Definition handleVolumeCreate (r : Request) : prog Exchange () :=
  match decodeJSON decode_volume_create (reqBody r) with
  | Err err => writeDockerError 400 err
  | Ok request =>
    volume ← engine_op (createVolume (Now "docker_api_volumes_exec.go:37") (vcName request) (vcDriver request)
      (vcLabels request) (vcDriverOpts request));
    writeJSON 201 (volume_any volume)
  end.

Definition handleVolumeAction (r : Request) (ref : string) : prog Exchange () :=
  let ref := PathUnescape ref in
  x ← get;
  match volumes (xEngine x) !! ref with
  | None => writeDockerError 404 ("No such volume: " +:+ ref)
  | Some volume =>
    if bool_decide (reqMethod r = "GET") then writeJSON 200 (volume_any volume)
    else if bool_decide (reqMethod r = "DELETE") then
      engine_op (modify (λ e, e <| volumes := delete ref (volumes e) |>));;
      engine_op (log_entry (Now "docker_api_volumes_exec.go:56")
        (engine_entry "docker" "volume.remove" (AnyMap [("name", AnyString ref)]) AnyNil));;
      WriteHeader 204
    else writeUnsupportedDockerError 404 ("unsupported volume operation: " +:+ reqMethod r)
  end.

Definition handleExecAction (r : Request) (rest : string) : prog Exchange () :=
  writeUnsupportedDockerError 501 "exec is not simulated: no container processes are executed".
End handlers.
