(* ===== verification/DockerAPI.v ===== *)
(** The Docker API server: routing, the fixed documents and the admin endpoints of
    [docker_api_server.go].

    The responses go through the recorder of [Http.v]; after the handler, also after
    one that panicked, an entry about the request is written to the ledger. *)
From Stdlib Require Import Ascii.
From S2P Require Import Prelude GoStrings GoTime Json Cookbook Sha256 CookbookValidation Container ImageMatch EngineTypes DockerFilters ApiUtil Net Ledger Url Decode Engine EngineNetwork Redis Runtime Documents Http ApiContainers ApiResources.

(** [var version], which a build may override. *)
Definition version : string := "dev".

Section server.
Context {FS : FileSystem} {RO : RangeOrder} {UN : Unicode} {SK : Sockets} {CK : Clock} {PL : Platform} {JM : JsonMessages} {WT : Waiting}.

Definition handlePing (r : Request) : prog Exchange () :=
  set_header "Content-Type" "text/plain; charset=utf-8";;
  set_header "Builder-Version" "2";;
  WriteHeader 200;;
  (if bool_decide (reqMethod r ≠ "HEAD") then Write "OK" else mret ()).

Definition version_document (e : Engine) : any :=
  AnyMap [("Platform", AnyMap [("Name", AnyString "Docker Zero")]);
    ("Components", AnyList [AnyMap [("Name", AnyString "Engine"); ("Version", AnyString engineVersion);
       ("Details", AnyMap [("ApiVersion", AnyString apiVersion); ("MinAPIVersion", AnyString minAPIVersion);
          ("Os", AnyString "linux"); ("Arch", AnyString GOARCH); ("KernelVersion", AnyString "mock")])]]);
    ("Version", AnyString engineVersion); ("ApiVersion", AnyString apiVersion); ("MinAPIVersion", AnyString minAPIVersion);
    ("GitCommit", AnyString "docker-zero"); ("GoVersion", AnyString GoVersion); ("Os", AnyString "linux");
    ("Arch", AnyString GOARCH); ("KernelVersion", AnyString "mock");
    ("BuildTime", AnyString (formatDockerTime (startedAt e)))].

Definition dockerMachineArchitecture : string :=
  if bool_decide (GOARCH = "amd64") then "x86_64"
  else if bool_decide (GOARCH = "arm64") then "aarch64" else GOARCH.

(** One container in the counts of running, paused and stopped ones. *)
Definition count_container (counts : Z * Z * Z) (pc : ptr * Container) : Z * Z * Z :=
  let '(running, paused, stopped) := counts in
  let paused := if snPaused (stateSnapshotLocked pc.2) then (paused + 1)%Z else paused in
  if isRunning pc.2 then ((running + 1)%Z, paused, stopped) else (running, paused, (stopped + 1)%Z).

Definition info_document (e : Engine) : any :=
  let containers := listContainers true e in
  let '(running, paused, stopped) := foldl count_container (0, 0, 0)%Z containers in
  AnyMap [("ID", AnyString "DOCKERZERO000000000000000000000000000000000000000000000000000");
    ("Containers", AnyInt (Z.of_nat (length containers))); ("ContainersRunning", AnyInt running);
    ("ContainersPaused", AnyInt paused); ("ContainersStopped", AnyInt stopped);
    ("Images", AnyInt (Z.of_nat (size (cookbooks e)))); ("Driver", AnyString "docker-zero");
    ("MemoryLimit", AnyBool false); ("SwapLimit", AnyBool false); ("CpuCfsPeriod", AnyBool false);
    ("CpuCfsQuota", AnyBool false); ("CPUShares", AnyBool false); ("CPUSet", AnyBool false); ("PidsLimit", AnyBool false);
    ("IPv4Forwarding", AnyBool false); ("BridgeNfIptables", AnyBool false); ("BridgeNfIP6tables", AnyBool false);
    ("Debug", AnyBool false); ("NFd", AnyInt 0); ("NGoroutines", AnyInt 1); ("LoggingDriver", AnyString "json-file");
    ("CgroupDriver", AnyString "none"); ("NEventsListener", AnyInt 0); ("KernelVersion", AnyString "mock");
    ("OperatingSystem", AnyString "Docker Zero"); ("OSType", AnyString "linux");
    ("Architecture", AnyString dockerMachineArchitecture); ("NCPU", AnyInt 1); ("MemTotal", AnyInt (1024 * 1024 * 1024));
    ("DockerRootDir", AnyString "/var/lib/docker-zero"); ("Name", AnyString "docker-zero");
    ("ServerVersion", AnyString engineVersion); ("ClusterStore", AnyString EmptyString);
    ("ClusterAdvertise", AnyString EmptyString); ("DefaultRuntime", AnyString "runc"); ("LiveRestoreEnabled", AnyBool false);
    ("InitBinary", AnyString "docker-init"); ("SecurityOptions", AnyStrings []);
    ("Warnings", AnyStrings ["docker-zero is a simulator; no containers are executed"])].

Definition handleInfo : prog Exchange () := x ← get; writeJSON 200 (info_document (xEngine x)).

(** The answers to a name that is empty are a nil list. *)
Definition answers_any (name : string) (answers : list DNSResult) : any :=
  if bool_decide (ToLower (TrimSpace (TrimSuffix name ".")) = EmptyString) then AnyNil else AnyList (dns_any <$> answers).

Definition handle_dns (r : Request) : prog Exchange () :=
  let from := get_query r "from" in
  let name := get_query r "name" in
  x ← get;
  match findContainer from (xEngine x) with
  | Err err => writeDockerError 404 err
  | Ok found =>
    c ← engine_op (deref (pointer (xEngine x) found));
    writeJSON 200 (AnyMap [("from", AnyString (Name c)); ("name", AnyString name);
      ("answers", answers_any name (resolveDNS c name (xEngine x)))])
  end.

Definition handleAdmin (r : Request) (path : string) : prog Exchange () :=
  x ← get;
  if bool_decide ((path = "/__docker_zero" ∨ path = "/__docker_zero/state") ∧ reqMethod r = "GET")
  then writeJSON 200 (stateDocument (xEngine x))
  else if bool_decide (path = "/__docker_zero/cookbooks" ∧ reqMethod r = "GET")
  then writeJSON 200 (any_map (cookbook_any <$> cookbooks (xEngine x)))
  else if bool_decide (path = "/__docker_zero/dns" ∧ reqMethod r = "GET") then handle_dns r
  else writeDockerError 404 "unknown docker-zero admin endpoint".

(** * Routing *)

Definition unsupported_request (r : Request) (status : Z) (path : string) : prog Exchange () :=
  writeUnsupportedDockerError status ("unsupported Docker API request: " +:+ reqMethod r +:+ " " +:+ path).

Definition route_request (r : Request) (path : string) : prog Exchange () :=
  let on_path (p m : string) := bool_decide (path = p ∧ reqMethod r = m) in
  x ← get;
  if bool_decide (path = "/_ping") then handlePing r
  else if on_path "/version" "GET" then writeJSON 200 (version_document (xEngine x))
  else if on_path "/info" "GET" then handleInfo
  else if HasPrefix path "/__docker_zero/" || bool_decide (path = "/__docker_zero") then handleAdmin r path
  else if on_path "/containers/json" "GET" then handleContainerList r
  else if on_path "/containers/create" "POST" then handleContainerCreate r
  else if HasPrefix path "/containers/" then handleContainerAction r (TrimPrefix path "/containers/")
  else if on_path "/images/json" "GET" then handleImageList
  else if on_path "/images/create" "POST" then handleImageCreate r
  else if HasPrefix path "/images/" && HasSuffix path "/json" && bool_decide (reqMethod r = "GET")
  then handleImageInspect (PathUnescape (TrimSuffix (TrimPrefix path "/images/") "/json"))
  else if on_path "/networks" "GET" then handleNetworkList r
  else if on_path "/networks/create" "POST" then handleNetworkCreate r
  else if HasPrefix path "/networks/" then handleNetworkAction r (TrimPrefix path "/networks/")
  else if on_path "/volumes" "GET" then handleVolumeList r
  else if on_path "/volumes/create" "POST" then handleVolumeCreate r
  else if HasPrefix path "/volumes/" then handleVolumeAction r (TrimPrefix path "/volumes/")
  else if HasPrefix path "/exec/" then handleExecAction r (TrimPrefix path "/exec/")
  else if bool_decide ((path = "/events" ∨ path = "/system/df") ∧ reqMethod r = "GET")
  then unsupported_request r 501 path
  else unsupported_request r 404 path.

Definition server_headers : gmap string string := list_to_map
  [("Server", "Docker/" +:+ engineVersion); ("Api-Version", apiVersion); ("Docker-Experimental", "false");
   ("Ostype", "linux"); ("X-Docker-Zero-Version", version)].

(** The body of [ServeHTTP] after its deferred functions are in place. *)
Definition serve_request (r : Request) : prog Exchange () :=
  modify (λ x, x <| xHeader := server_headers ∪ xHeader x |>);;
  match validateAPIVersionPath (reqPath r) with
  | Some err => writeDockerError 400 err
  | None => route_request r (stripAPIVersion (reqPath r))
  end.

(** What the deferred function writes about the request. *)
Definition request_entry (r : Request) (duration_us : Z) (x : Exchange) : LedgerEntry :=
  let path := stripAPIVersion (reqPath r) in
  engine_entry "docker.http" (reqMethod r +:+ " " +:+ path)
    (AnyMap [("method", AnyString (reqMethod r)); ("path", AnyString (reqPath r)); ("normalized_path", AnyString path);
       ("query", AnyString (reqRawQuery r)); ("remote", AnyString (reqRemote r))])
    (AnyMap [("status", AnyInt (if bool_decide (xStatus x = 0)%Z then 200 else xStatus x)); ("bytes", AnyInt (xBytes x));
       ("duration_us", AnyInt duration_us);
       ("unsupported", AnyBool (bool_decide (xHeader x !! "X-Docker-Zero-Unsupported" = Some "true")))]).

(** A handler that still waits has not come to its deferred functions. *)
Definition DockerAPI_ServeHTTP (r : Request) (duration_us : Z) : prog Exchange () := λ x,
  match recoverDockerHTTPHandler (serve_request r) x with
  | (x, Blocked) => (x, Blocked)
  | (x, o) =>
    let '(x, logged) := engine_op (log_entry (Now "docker_api_server.go:66") (request_entry r duration_us x)) x in
    (x, match o with Panic msg => Panic msg | _ => logged end)
  end.

(** The engine and the exchange after one request. *)
Definition serve (r : Request) (duration_us : Z) (e : Engine) : Exchange * outcome () :=
  DockerAPI_ServeHTTP r duration_us (opened_exchange e).
End server.
