(* ===== verification/RuntimeTheorems.v ===== *)
(** Correctness of the service runtimes: listeners are never leaked and never
    shared, a start that fails leaves nothing open, and a removal takes a container
    out of every map.

    [runtimes_ok] is the invariant; the operations that frame the registry keep it
    because it only mentions the registry and the identities of objects. *)
From Stdlib Require Import Ascii.
From S2P Require Import Prelude GoStrings GoTime Cookbook Sha256 CookbookValidation Resp Container ContainerIdentity EngineTypes Net Ledger Engine EngineFacts EngineNetwork NetworkTheorems Redis Runtime.

(** * Operations that leave the registry alone *)

(** [e'] differs from [e] in parts of objects, in the counters and in the ledger. *)
Definition steady (e e' : Engine) : Prop := frames e e' ∧ networks e' = networks e.

Lemma steady_refl e : steady e e.
Proof. split; [apply frames_refl|done]. Qed.

(** A property that such differences do not touch. *)
Class Steady (P : Engine → Prop) : Prop := steady_closed : ∀ e e', steady e e' → P e → P e'.

#[export] Instance steady_steady e : Steady (steady e).
Proof. intros e1 e2 [Hf Hn] [Hf0 Hn0]. split; [by eapply frames_trans|congruence]. Qed.

Lemma on_steady {A} p (m : prog CState A) e : (∀ c, keeps (is_same c) m) → steady e (on p m e).1.
Proof.
  intros Hm. split; [by apply (framing_on e), frames_refl|].
  unfold on. destruct (heap e !! p) as [c|]; [|done]. by destruct (m _).
Qed.

Section steady.
Context {FS : FileSystem} {RO : RangeOrder} {UN : Unicode}.
Context {P : Engine → Prop} `{!Steady P}.

Lemma steady_step {A} (m : prog Engine A) : (∀ e, steady e (m e).1) → keeps P m.
Proof. intros Hm e. by apply steady_closed. Qed.

Lemma steady_on {A} p (m : prog CState A) : (∀ c, keeps (is_same c) m) → keeps P (on p m).
Proof. intros Hm. apply steady_step. intros e. by apply on_steady. Qed.

Lemma steady_set p f : (∀ c, identity (f c) = identity c) → keeps P (on p (modify_this f)).
Proof. intros Hf. apply steady_on. intros c. by apply same_modify_this. Qed.

Lemma steady_deref p : keeps P (deref p).
Proof. apply steady_on. intros c. apply keeps_bind; [apply keeps_get|intros; apply keeps_ret]. Qed.

Lemma steady_log now entry : keeps P (log_entry now entry).
Proof. by apply steady_step. Qed.

Lemma steady_event now p event advance request response : keeps P (logContainerEvent now p event advance request response).
Proof. unfold logContainerEvent. apply keeps_bind; [apply steady_deref|]. intros c. apply steady_log. Qed.

End steady.

Ltac steps := repeat match goal with
  | |- keeps _ (mret _) => apply keeps_ret
  | |- keeps _ get => apply keeps_get
  | |- keeps _ (deref _) => apply steady_deref
  | |- keeps _ (log_entry _ _) => apply steady_log
  | |- keeps _ (_ ≫= _) => apply keeps_bind; [|intros ?]
  | |- keeps _ (on _ (modify_this _)) => apply steady_set; intros ?; by repeat case_match
  end.

Section operations.
Context {FS : FileSystem} {RO : RangeOrder} {UN : Unicode}.
Context {P : Engine → Prop} `{!Steady P}.

Lemma steady_if {A} (b : bool) (m1 m2 : prog Engine A) : keeps P m1 → keeps P m2 → keeps P (if b then m1 else m2).
Proof. by destruct b. Qed.

Lemma steady_panic {A} msg : keeps P (panic (A := A) msg).
Proof. by intros e. Qed.

Lemma steady_master_loop c results : keeps P (master_loop c results).
Proof.
  induction results as [|r results IH]; simpl; [apply keeps_ret|]. steps.
  destruct (findContainer _ _) as [[q|]|]; [steps|apply steady_panic|done]. by case_bool_decide; [apply keeps_ret|].
Qed.

Lemma steady_live_master c host : keeps P (live_master c host).
Proof.
  unfold live_master, find_master. steps.
  - case_bool_decide; [apply keeps_ret|apply steady_master_loop].
  - destruct a as [q|]; steps.
Qed.

Lemma steady_refresh now p : keeps P (refreshRedisReplication now p).
Proof.
  unfold refreshRedisReplication. steps. case_bool_decide; [apply keeps_ret|]. steps.
  { apply steady_set. intros c. unfold adopt_target. by repeat case_match. }
  case_bool_decide; [apply keeps_ret|]. steps; [apply steady_live_master|].
  destruct a2 as [q|]; steps.
Qed.

Lemma steady_for_each f items : (∀ q, keeps P (f q)) → keeps P (for_each f items).
Proof. intros Hf. induction items as [|q items IH]; simpl; steps; auto. Qed.

Lemma steady_dependents now p : keeps P (refreshRedisDependents now p).
Proof.
  unfold refreshRedisDependents. steps. case_bool_decide; steps. apply steady_for_each. intros q. apply steady_refresh.
Qed.

Lemma steady_mark_down p : keeps P (markRedisMasterDown p).
Proof.
  unfold markRedisMasterDown. steps. case_bool_decide; steps. apply steady_for_each. intros q.
  apply steady_set. intros c. unfold mark_down. by case_bool_decide.
Qed.

Lemma steady_replicate now p command : keeps P (replicateRedisMutation now p command).
Proof.
  unfold replicateRedisMutation. steps. case_bool_decide; steps. apply steady_for_each. intros q.
  unfold replicate_to. steps. apply steady_set. intros c. unfold applyRedisMutation. by repeat case_match.
Qed.

Lemma steady_kv_step {A} p (f : gmap string string → A * gmap string string) : keeps P (kv_step p f).
Proof.
  apply steady_on. intros c s Hs. unfold mbind, prog_bind. simpl. by destruct (f (KV (this s))).
Qed.

Lemma steady_replicaof now p args : keeps P (replicaof now p args).
Proof.
  unfold replicaof, setRedisReplica. destruct args as [|host [|port [|? ?]]]; [apply keeps_ret..| |apply keeps_ret].
  apply steady_if; [by steps|]. destruct (Atoi_ok port); [|apply keeps_ret]. case_bool_decide; [|apply keeps_ret].
  steps. apply steady_refresh.
Qed.

Lemma steady_builtin now p command : keeps P (handleBuiltInRedisForEngine now p command).
Proof.
  unfold handleBuiltInRedisForEngine. destruct command as [|command0 args]; [apply steady_panic|].
  steps. apply steady_if; [apply keeps_ret|]. destruct (plain_reply _ _); [apply keeps_ret|].
  repeat apply steady_if; steps; try apply steady_kv_step; try apply steady_replicate; try apply steady_replicaof.
  - destruct args as [|key [|value ?]]; steps; [apply steady_kv_step|apply steady_replicate].
  - destruct args as [|key [|? ?]]; steps; [apply steady_kv_step|apply steady_replicate].
Qed.

End operations.

(** The network operations change the networks, but not the registry. *)
Section framing.
Context {FS : FileSystem} {RO : RangeOrder} {UN : Unicode} (e0 : Engine).
Notation framing := (keeps (frames e0)).

#[local] Instance frames_closed : Steady (frames e0).
Proof. intros e e' [Hf _] ?. by eapply frames_trans. Qed.

Lemma framing_configure p mode aliases : framing (configureContainerNetworks p mode aliases).
Proof.
  unfold configureContainerNetworks. steps. case_bool_decide; steps; [by apply framing_modify|].
  destruct (plan_networks _ _ _) as [[names plans]|]; steps. by apply framing_modify.
Qed.

Lemma framing_connect p ref aliases : framing (connectContainerNetwork p ref aliases).
Proof.
  unfold connectContainerNetwork. steps. destruct (network_for _ _ _); steps.
  destruct (connect_network _ _ _ _); steps. by apply framing_modify.
Qed.

Lemma framing_disconnect p ref : framing (disconnectContainerNetwork p ref).
Proof.
  unfold disconnectContainerNetwork. steps. destruct (network_for _ _ _) as [[k n]|]; steps. by apply framing_modify.
Qed.

Lemma framing_createNetwork now name driver labels : framing (createNetwork now name driver labels).
Proof.
  unfold createNetwork. apply steady_if; [apply keeps_ret|]. apply framing_bind.
  - apply framing_step. intros e. unfold registerNetwork. destruct (existsb _ _); [apply frames_refl|].
    by destruct (free_index e).
  - intros [n|]; steps.
Qed.

Lemma framing_removeNetwork now ref : framing (removeNetwork now ref).
Proof.
  unfold removeNetwork. steps. destruct (findNetwork _ _) as [[k n]|]; steps. apply steady_if; [apply keeps_ret|].
  apply steady_if; steps. by apply framing_modify.
Qed.

Lemma framing_createVolume now name driver labels options : framing (createVolume now name driver labels options).
Proof.
  unfold createVolume. steps.
  - apply steady_if; steps. apply framing_counter.
  - destruct (volumes _ !! _); steps. by apply framing_modify.
Qed.
End framing.

(** * The invariant of the listeners *)

(** A runtime belongs to a container with its identifier; the open sockets are
    exactly the listeners of the runtimes, each of one runtime; an inactive runtime
    has none. *)
Record runtimes_ok (e : Engine) : Prop := {
  rt_object : ∀ id r, runtimes e !! id = Some r → ∃ c, heap e !! rt_container r = Some c ∧ ID c = id;
  rt_open : ∀ n, n ∈ sockets e ↔ ∃ id r, runtimes e !! id = Some r ∧ n ∈ listeners r;
  rt_owner : ∀ id1 id2 r1 r2 n, runtimes e !! id1 = Some r1 → runtimes e !! id2 = Some r2 →
    n ∈ listeners r1 → n ∈ listeners r2 → id1 = id2;
  rt_inactive : ∀ id r, runtimes e !! id = Some r → active r = false → listeners r = [];
  rt_used : ∀ n, n ∈ sockets e → n < listens e
}.

Lemma frames_runtimes_ok e e' : frames e e' → runtimes_ok e → runtimes_ok e'.
Proof.
  intros Hf [H1 H2 H3 H4 H5]. pose proof (frames_runtimes _ _ Hf) as (Hr & Hs & Hl).
  split; rewrite ?Hr, ?Hs, ?Hl; try done.
  intros id r Hid. destruct (H1 id r Hid) as (c & Hc & <-). destruct Hf as [_ Hsame].
  destruct (same_object _ _ _ _ Hsame Hc) as (c' & Hc' & [? _]%identity_eq). eauto.
Qed.

(** While a start is under way: its own listeners are open besides those of [e]. *)
Record opening (e : Engine) (opened : list nat) (e' : Engine) : Prop := {
  op_heap : same_objects (heap e) (heap e');
  op_same : (containers e', names e', runtimes e', networks e') = (containers e, names e, runtimes e, networks e);
  op_sockets : sockets e' = sockets e ∪ list_to_set opened;
  op_new : ∀ n, n ∈ opened → listens e ≤ n < listens e';
  op_grows : listens e ≤ listens e'
}.

Section listeners.
Context {FS : FileSystem} {RO : RangeOrder} {UN : Unicode} {SK : Sockets}.

Lemma opening_steady e opened e1 e2 : opening e opened e1 → steady e1 e2 → opening e opened e2.
Proof.
  intros [Hh Hs Ho Hn Hg] [[[= Hc2 Hn2 Hr2 Hs2 Hl2] Hsame] Hnets].
  split; rewrite ?Hnets, ?Hc2, ?Hn2, ?Hr2, ?Hs2, ?Hl2; try done. intros q. by rewrite Hsame.
Qed.

Lemma opening_refl e : opening e [] e.
Proof. split; [done|done|set_solver|by intros n ?%elem_of_nil|done]. Qed.

Lemma total_on e opened p f : is_Some (heap e !! p) → (∀ c, identity (f c) = identity c) →
  total (opening e opened) (on p (modify_this f)) (λ _, opening e opened).
Proof.
  intros [c Hc] Hf e1 He1. destruct (same_object _ _ _ _ (op_heap _ _ _ He1) Hc) as (c1 & Hc1 & _).
  rewrite (on_modify p f e1 c1) by done. eexists _, (). split; [done|].
  eapply opening_steady; [done|]. pose proof (on_steady p (modify_this f) e1 (λ c, same_modify_this c f Hf)) as Hst.
  by rewrite (on_modify p f e1 c1) in Hst.
Qed.

Lemma total_log e opened now entry : total (opening e opened) (log_entry now entry) (λ _, opening e opened).
Proof. intros e1 He1. eexists _, (). split; [done|]. by eapply opening_steady. Qed.

Lemma total_get_opening e opened : total (opening e opened) get (λ _, opening e opened).
Proof. intros e1 He1. by exists e1, e1. Qed.

Lemma total_listen e opened addr :
  total (opening e opened) (net_Listen addr)
    (λ r, match r with Ok (n, _) => opening e (opened ++ [n]) | Err _ => opening e opened end).
Proof.
  intros e1 [Hh Hs Ho Hn Hg]. unfold net_Listen. destruct (listen _ addr) as [actual|err]; (eexists _, _; split; [done|]).
  - split; [done|done| |intros n|simpl; lia]; simpl.
    + rewrite Ho, list_to_set_app_L. set_solver.
    + rewrite elem_of_app, list_elem_of_singleton. intros [Hin| ->]; [apply Hn in Hin|]; lia.
  - split; [done|done|done|intros n Hin; apply Hn in Hin; simpl; lia|simpl; lia].
Qed.

Lemma total_record e opened p spec actual : is_Some (heap e !! p) →
  total (opening e opened) (record_port p spec actual) (λ _, opening e opened).
Proof.
  intros Hp. unfold record_port. case_bool_decide; [|by apply total_ret].
  destruct (SplitHostPort actual) as [[host port]|]; [|by apply total_ret].
  destruct (Atoi_ok port); [|by apply total_ret]. apply total_on; [done|]. apply updateAssignedPort_identity.
Qed.

Lemma total_fail {A} e opened p err : is_Some (heap e !! p) →
  (∀ n, n ∈ sockets e → n < listens e) →
  total (opening e opened) (fail_start (A := A) p opened err) (λ r e', is_err r = true ∧ opening e [] e').
Proof.
  intros Hp Hused. unfold fail_start. eapply (total_bind _ _ _ (λ _, opening e [])).
  - apply total_modify. intros e1 [Hh Hs Ho Hn Hg]. split; [done|done| |by intros n ?%elem_of_nil|done]. simpl.
    rewrite Ho. apply set_eq. intros n. rewrite elem_of_difference, !elem_of_union, !elem_of_list_to_set, elem_of_empty.
    split; [tauto|]. intros [Hin|[]]. split; [by left|]. intros Hin'%Hn. apply Hused in Hin. lia.
  - intros []. eapply (total_bind _ _ _ (λ _, opening e [])); [by apply total_on|]. intros []. by apply total_ret.
Qed.

(** The loop opens listeners, or it fails and has closed what it opened. *)
Lemma total_open_loop now e p c specs opened seen : is_Some (heap e !! p) →
  (∀ n, n ∈ sockets e → n < listens e) →
  total (opening e opened) (open_loop now p c specs opened seen)
    (λ r e', match r with Ok opened' => opening e opened' e' | Err _ => opening e [] e' end).
Proof.
  intros Hp Hused.
  assert (∀ opened err, total (opening e opened) (fail_start (A := list nat) p opened err)
    (λ r e', match r with Ok opened' => opening e opened' e' | Err _ => opening e [] e' end)) as Hfail.
  { intros o err. eapply total_conseq; [by apply total_fail|done|]. by intros [] s' [? ?]. }
  revert opened seen. induction specs as [|spec specs IH]; intros opened seen; simpl; [by apply total_ret|].
  set (fresh_address := net_Listen _ ≫= _).
  assert (total (opening e opened) fresh_address
    (λ r e', match r with Ok opened' => opening e opened' e' | Err _ => opening e [] e' end)) as Hfresh.
  { eapply total_bind; [apply total_listen|]. intros [[n actual]|err].
    - eapply (total_bind _ _ _ (λ _, opening e (opened ++ [n]))); [by apply total_record|]. intros []. apply IH.
    - eapply (total_bind _ _ _ (λ _, opening e opened)); [apply total_get_opening|]. intros e1.
      destruct (direct spec && _).
      + eapply (total_bind _ _ _ (λ _, opening e opened)); [apply total_log|]. intros []. apply IH.
      + destruct (direct spec); apply Hfail. }
  destruct (seen !! address spec) as [previous|]; [|done]. destruct (HasSuffix _ _); [done|].
  case_bool_decide; [apply IH|apply Hfail].
Qed.
End listeners.

(** * Starting and stopping *)

Section lifecycle.
Context {FS : FileSystem} {RO : RangeOrder} {UN : Unicode} {SK : Sockets}.

(** Nothing but parts of objects has changed when a start has failed. *)
Lemma opening_none e e' : runtimes_ok e → opening e [] e' → runtimes_ok e' ∧ same_registry e e' ∧
  runtimes e' = runtimes e ∧ sockets e' = sockets e ∧ networks e' = networks e.
Proof.
  intros [H1 H2 H3 H4 H5] [Hh [= Hc Hn Hr Hnets] Ho Hnew Hg].
  assert (sockets e' = sockets e) as Hs by (rewrite Ho; simpl; set_solver).
  split; [|split_and!; [split; [congruence|done]|done..]].
  split; rewrite ?Hr, ?Hs; try done.
  - intros id r Hid. destruct (H1 id r Hid) as (c & Hc' & <-).
    destruct (same_object _ _ _ _ Hh Hc') as (c' & Hc'' & [? _]%identity_eq). eauto.
  - intros n Hin%H5. lia.
Qed.

(** The runtime [id] gets the listeners that were opened. *)
Lemma opening_commit e e' id r opened : runtimes_ok e → opening e opened e' →
  runtimes e !! id = Some r → active r = false →
  runtimes_ok (e' <| runtimes := <[id := r <| listeners := opened |> <| active := true |>]> (runtimes e') |>).
Proof.
  intros [H1 H2 H3 H4 H5] [Hh [= Hc Hn Hr Hnets] Ho Hnew Hg] Hid Hinact.
  pose proof (H4 _ _ Hid Hinact) as Hnone.
  assert (∀ id' r' n, runtimes e !! id' = Some r' → n ∈ listeners r' → n < listens e) as Hold.
  { intros id' r' n Hid' Hin. apply H5, H2. eauto. }
  split; simpl; rewrite ?Hr.
  - intros id' r' [[<- <-]|[_ Hid']]%lookup_insert_Some.
    + destruct (H1 _ _ Hid) as (c & Hc' & <-). simpl.
      destruct (same_object _ _ _ _ Hh Hc') as (c' & Hc'' & [? _]%identity_eq). eauto.
    + destruct (H1 _ _ Hid') as (c & Hc' & <-).
      destruct (same_object _ _ _ _ Hh Hc') as (c' & Hc'' & [? _]%identity_eq). eauto.
  - intros n. rewrite Ho, elem_of_union, elem_of_list_to_set, H2. split.
    + intros [(id' & r' & Hid' & Hin)|Hin].
      * exists id', r'. rewrite lookup_insert_ne; [done|]. intros <-. simplify_eq. rewrite Hnone in Hin. by apply elem_of_nil in Hin.
      * eexists id, _. by rewrite lookup_insert_eq.
    + intros (id' & r' & [[<- <-]|[_ Hid']]%lookup_insert_Some & Hin); [by right|left; eauto].
  - intros id1 id2 r1 r2 n [[<- <-]|[_ Hid1]]%lookup_insert_Some [[<- <-]|[_ Hid2]]%lookup_insert_Some Hin1 Hin2;
      simpl in *; [done|..].
    + apply Hnew in Hin1. apply (Hold _ _ _ Hid2) in Hin2. lia.
    + apply Hnew in Hin2. apply (Hold _ _ _ Hid1) in Hin1. lia.
    + eauto.
  - intros id' r' [[<- <-]|[_ Hid']]%lookup_insert_Some; [done|eauto].
  - intros n. rewrite Ho, elem_of_union, elem_of_list_to_set. intros [Hin|Hin]; [apply H5 in Hin|apply Hnew in Hin]; lia.
Qed.

Definition start_post (e : Engine) (id : string) (r : ContainerRuntime) (err : option string) (e' : Engine) : Prop :=
  runtimes_ok e' ∧ same_registry e e' ∧ networks e' = networks e ∧
  match err with
  | Some _ => active r = false ∧ runtimes e' = runtimes e ∧ sockets e' = sockets e
  | None => ∃ r', runtimes e' = <[id := r']> (runtimes e) ∧ active r' = true ∧ connections r' = connections r
  end.

Lemma Start_spec now e id r : runtimes_ok e → runtimes e !! id = Some r →
  ∃ e' err, Start now id e = (e', Done err) ∧ start_post e id r err e'.
Proof.
  intros He Hid. unfold Start. unfold mbind at 1, prog_bind at 1, get at 1. rewrite Hid.
  destruct (active r) eqn:Hact.
  { exists e, None. do 4 (split; [done|]). exists r. by rewrite insert_id. }
  destruct (rt_object e He _ _ Hid) as (c & Hc & Hcid). rewrite (bind_deref _ _ _ c) by done.
  destruct (total_open_loop now e (rt_container r) c (runtimeListenSpecs c e) [] ∅ (ex_intro _ c Hc) (rt_used e He)
    e (opening_refl e)) as (e1 & res & Hrun & Hres).
  rewrite (bind_Done _ _ _ _ _ Hrun). destruct res as [opened|err].
  - case_bool_decide as Hkind.
    + destruct (total_fail (A := ()) e opened (rt_container r) ("unsupported service runtime kind " +:+ Quote (Kind c))
        (ex_intro _ c Hc) (rt_used e He) e1 Hres) as (e2 & res & Hrun2 & Herr & Hres2).
      rewrite (bind_Done _ _ _ _ _ Hrun2). destruct res as [|err]; [done|].
      exists e2, (Some err). split; [done|]. destruct (opening_none _ _ He Hres2) as (? & ? & ? & ? & ?). by split_and!.
    + eexists _, None. split; [done|]. split; [by eapply opening_commit|].
      destruct Hres as [Hh [= Hcs Hn Hr Hnets] _ _ _]. split; [split; [simpl; congruence|done]|].
      split; [done|]. simpl. rewrite Hr. by eexists.
  - exists e1, (Some err). split; [done|]. destruct (opening_none _ _ He Hres) as (? & ? & ? & ? & ?). by split_and!.
Qed.

Lemma runtimes_ok_stop e id r r' : runtimes_ok e → runtimes e !! id = Some r →
  rt_container r' = rt_container r → listeners r' = [] →
  runtimes_ok (e <| runtimes := <[id := r']> (runtimes e) |> <| sockets := sockets e ∖ list_to_set (listeners r) |>).
Proof.
  intros [H1 H2 H3 H4 H5] Hid Hobj Hnone. split; simpl.
  - intros id' r0 [[<- <-]|[_ Hid']]%lookup_insert_Some; [|eauto].
    destruct (H1 _ _ Hid) as (c & Hc & <-). exists c. by rewrite Hobj.
  - intros n. rewrite elem_of_difference, elem_of_list_to_set, H2. split.
    + intros [(id' & r0 & Hid' & Hin) Hnot]. exists id', r0. rewrite lookup_insert_ne; [done|]. intros <-. by simplify_eq.
    + intros (id' & r0 & [[<- <-]|[Hne Hid']]%lookup_insert_Some & Hin); [rewrite Hnone in Hin; by apply elem_of_nil in Hin|].
      split; [eauto|]. intros Hin'. by apply Hne, (H3 _ _ _ _ n Hid Hid').
  - intros id1 id2 r1 r2 n [[<- <-]|[_ Hid1]]%lookup_insert_Some [[<- <-]|[_ Hid2]]%lookup_insert_Some Hin1 Hin2;
      rewrite ?Hnone in *; try (by apply elem_of_nil in Hin1); try (by apply elem_of_nil in Hin2); eauto.
  - intros id' r0 [[<- <-]|[_ Hid']]%lookup_insert_Some; eauto.
  - intros n [Hin _]%elem_of_difference. by apply H5.
Qed.

(** [e'] is [e] up to its runtimes, sockets and counters. *)
Definition same_but_runtimes (e e' : Engine) : Prop :=
  (heap e', containers e', names e', networks e') = (heap e, containers e, names e, networks e).

Lemma Stop_spec e id r : runtimes_ok e → runtimes e !! id = Some r →
  ∃ e' err r', Stop id e = (e', Done err) ∧ runtimes_ok e' ∧ same_but_runtimes e e' ∧
    runtimes e' = <[id := r']> (runtimes e) ∧ listeners r' = [] ∧ active r' = false ∧
    sockets e' = sockets e ∖ list_to_set (listeners r).
Proof.
  intros He Hid. unfold Stop. unfold mbind at 1, prog_bind at 1, get at 1. rewrite Hid.
  destruct (negb (active r) && bool_decide (listeners r = []) && bool_decide (connections r = ∅)) eqn:Hidle.
  - apply andb_true_iff in Hidle as [[Hact Hnone]%andb_true_iff _]. apply bool_decide_eq_true in Hnone.
    apply negb_true_iff in Hact. exists e, None, r. split; [done|]. split; [done|]. split; [done|].
    rewrite insert_id by done. rewrite Hnone. split_and!; try done. simpl. set_solver.
  - eexists _, _, _. split; [reflexivity|]. split; [by apply (runtimes_ok_stop e id r)|]. by split_and!.
Qed.

(** A runtime without listeners can be dropped, and a new one can be added. *)
Lemma runtimes_ok_delete e id r : runtimes_ok e → runtimes e !! id = Some r → listeners r = [] →
  runtimes_ok (e <| runtimes := delete id (runtimes e) |>).
Proof.
  intros [H1 H2 H3 H4 H5] Hid Hnone. split; simpl; try done.
  - intros id' r0 [_ Hid']%lookup_delete_Some. eauto.
  - intros n. rewrite H2. split; intros (id' & r0 & Hid' & Hin).
    + exists id', r0. rewrite lookup_delete_ne; [done|]. intros <-. simplify_eq. rewrite Hnone in Hin. by apply elem_of_nil in Hin.
    + apply lookup_delete_Some in Hid' as [_ ?]. eauto.
  - intros id1 id2 r1 r2 n [_ ?]%lookup_delete_Some [_ ?]%lookup_delete_Some. eauto.
  - intros id' r0 [_ ?]%lookup_delete_Some. eauto.
Qed.

Lemma runtimes_ok_new e p c : runtimes_ok e → heap e !! p = Some c → runtimes e !! ID c = None →
  runtimes_ok (e <| runtimes := <[ID c := newContainerRuntime p]> (runtimes e) |>).
Proof.
  intros [H1 H2 H3 H4 H5] Hc Hnew. split; simpl; try done.
  - intros id' r0 [[<- <-]|[_ Hid']]%lookup_insert_Some; eauto.
  - intros n. rewrite H2. split; intros (id' & r0 & Hid' & Hin).
    + exists id', r0. rewrite lookup_insert_ne; [done|]. congruence.
    + apply lookup_insert_Some in Hid' as [[<- <-]|[_ ?]]; [by apply elem_of_nil in Hin|eauto].
  - intros id1 id2 r1 r2 n [[<- <-]|[_ Hid1]]%lookup_insert_Some [[<- <-]|[_ Hid2]]%lookup_insert_Some Hin1 Hin2;
      try (by apply elem_of_nil in Hin1); try (by apply elem_of_nil in Hin2); eauto.
  - intros id' r0 [[<- <-]|[_ ?]]%lookup_insert_Some; eauto.
Qed.
End lifecycle.

(** * The invariant of the engine *)

Record engine_ok (e : Engine) : Prop := {
  ok_registry : registry_ok e;
  ok_runtimes : runtimes_ok e;
  ok_ids : ids_ok e;
  ok_nets : nets_ok e
}.

Lemma ids_ok_same e e' : same_objects (heap e) (heap e') → ids_ok e → ids_ok e'.
Proof.
  intros Hs Hids q c' Hc'. apply same_objects_sym in Hs.
  destruct (same_object _ _ _ _ Hs Hc') as (c & Hc & [Heq _]%identity_eq). rewrite <-Heq. by eapply Hids.
Qed.

Lemma engine_ok_same e e' : engine_ok e → same_registry e e' → networks e' = networks e → runtimes_ok e' → engine_ok e'.
Proof.
  intros [Hr Ht Hi Hn] Hsame Hnets Ht'. split; [by eapply same_registry_ok|done|by eapply ids_ok_same, Hi; apply Hsame|].
  unfold nets_ok. by rewrite Hnets.
Qed.

#[export] Instance engine_ok_steady : Steady engine_ok.
Proof.
  intros e e' [Hf Hnets] He. eapply engine_ok_same; [done|by apply frames_same_registry|done|].
  eapply frames_runtimes_ok; [done|]. apply He.
Qed.

Lemma same_objects_refl h : same_objects h h.
Proof. by intros q. Qed.

Lemma engine_ok_runtimes e e' : engine_ok e → same_but_runtimes e e' → runtimes_ok e' → engine_ok e'.
Proof.
  intros He [= Hh Hc Hn Hnets] Ht. eapply engine_ok_same; [done| |done|done].
  split; [congruence|]. rewrite Hh. apply same_objects_refl.
Qed.

Section keeping.
Context {FS : FileSystem} {RO : RangeOrder} {UN : Unicode} {SK : Sockets}.
Notation kept := (keeps engine_ok).

Lemma kept_Start now id : kept (Start now id).
Proof.
  intros e He. destruct (runtimes e !! id) as [r|] eqn:Hid.
  - destruct (Start_spec now e id r (ok_runtimes e He) Hid) as (e' & err & -> & Ht & Hsame & Hnets & _).
    by eapply engine_ok_same.
  - unfold Start, mbind at 1, prog_bind at 1, get at 1. by rewrite Hid.
Qed.

Lemma kept_Stop id : kept (Stop id).
Proof.
  intros e He. destruct (runtimes e !! id) as [r|] eqn:Hid.
  - destruct (Stop_spec e id r (ok_runtimes e He) Hid) as (e' & err & r' & -> & Ht & Hsame & _).
    by eapply engine_ok_runtimes.
  - unfold Stop, mbind at 1, prog_bind at 1, get at 1. by rewrite Hid.
Qed.

Lemma kept_start_runtime now p : kept (startContainerRuntime now p).
Proof.
  apply keeps_reads. intros e He. destruct (runtimeClosing e); [done|].
  unfold mbind at 1, prog_bind at 1. rewrite deref_spec. destruct (heap e !! p) as [c|] eqn:Hc; [|done].
  unfold mbind at 1, prog_bind at 1.
  assert (kept (err ← Start now (ID c);
    match err with Some err => mret (Some err) | None =>
      (if bool_decide (Kind c = "redis") then refreshRedisReplication now p;; refreshRedisDependents now p else mret ());;
      mret None end)) as Htail.
  { apply keeps_bind; [apply kept_Start|]. intros [err|]; [apply keeps_ret|]. apply keeps_bind; [|intros; apply keeps_ret].
    apply steady_if; [|apply keeps_ret]. apply keeps_bind; [apply steady_refresh|]. intros []. apply steady_dependents. }
  destruct (runtimes e !! ID c) as [r|] eqn:Hid; [by apply Htail|]. apply Htail.
  eapply engine_ok_runtimes; [done|done|]. apply runtimes_ok_new; [apply He|done|done].
Qed.

Lemma kept_stop_runtime p : kept (stopContainerRuntime p).
Proof.
  apply keeps_bind; [apply keeps_get|]. intros e. apply keeps_bind; [apply steady_deref|]. intros c.
  destruct (runtimes e !! ID c); [|apply keeps_ret]. apply keeps_bind; [apply kept_Stop|]. intros err.
  apply keeps_bind; [|intros; apply keeps_ret]. apply steady_if; [apply steady_mark_down|apply keeps_ret].
Qed.

Lemma kept_sync now p : kept (syncRuntimeForState now p).
Proof.
  apply keeps_bind; [apply steady_deref|]. intros c. apply steady_if.
  - apply keeps_bind; [apply kept_start_runtime|]. intros [err|]; [|apply keeps_ret].
    apply steady_if; [apply keeps_ret|]. apply keeps_bind; [apply steady_on; intros; apply same_applyPatch|].
    intros [before after]. apply steady_log.
  - apply keeps_bind; [apply kept_stop_runtime|]. intros; apply keeps_ret.
Qed.

Lemma kept_close : kept closeRuntimes.
Proof.
  apply keeps_bind; [apply keeps_modify; intros e He; by apply (steady_closed (P := engine_ok) e); [split; [split|]|]|]. intros [].
  apply keeps_bind; [apply keeps_get|]. intros e. generalize (range "service_runtime.go:471" (runtimes e)).*1.
  generalize (None : option string). intros first ids. revert first.
  induction ids as [|id ids IH]; intros first; simpl; [apply keeps_ret|].
  apply keeps_bind; [apply kept_Stop|]. intros err. apply IH.
Qed.
End keeping.
