(* ===== verification/EngineTheorems.v ===== *)
(** The engine as a whole: every engine that the operations can reach keeps its
    registry, its networks and its listeners consistent, and a removal leaves no
    trace of the container.

    One [engine_step] is one operation run to its end.  Every loop over a map may
    choose its order anew at every step. *)
From Stdlib Require Import Ascii.
From S2P Require Import Prelude GoStrings GoTime Cookbook Sha256 CookbookValidation Resp Container ContainerIdentity ContainerLife ImageMatch EngineTypes Net Ledger Engine EngineFacts EngineNetwork NetworkTheorems Redis Runtime RuntimeTheorems.

(** * Steps *)

(** A connection of a runtime is registered or finished. *)
Definition connection_step (id : string) (f : ContainerRuntime → ContainerRuntime) (e : Engine) : Engine :=
  e <| runtimes := alter f id (runtimes e) |>.

Section engine.
Context {FS : FileSystem} {UN : Unicode} {SK : Sockets}.

Inductive engine_step (e : Engine) : Engine → Prop :=
| step_create (RO : RangeOrder) now name image labels env command :
    containers e !! next_container_id name e = None →
    engine_step e (createContainer now name image labels env command e).1
| step_remove (RO : RangeOrder) now ref force : engine_step e (removeContainer now ref force e).1
| step_container (RO : RangeOrder) now p o : engine_step e (on p (run_op now o) e).1
| step_event now p event advance request response :
    engine_step e (logContainerEvent now p event advance request response e).1
| step_log now entry : engine_step e (log_entry now entry e).1
| step_panic errors : engine_step e (e <| internalErrors := errors |>)
| step_mode mode : engine_step e (e <| endpointMode := mode |>)
| step_configure (RO : RangeOrder) p mode aliases : engine_step e (configureContainerNetworks p mode aliases e).1
| step_connect (RO : RangeOrder) p ref aliases : engine_step e (connectContainerNetwork p ref aliases e).1
| step_disconnect (RO : RangeOrder) p ref : engine_step e (disconnectContainerNetwork p ref e).1
| step_network (RO : RangeOrder) now name driver labels : engine_step e (createNetwork now name driver labels e).1
| step_remove_network (RO : RangeOrder) now ref : engine_step e (removeNetwork now ref e).1
| step_volume now name driver labels options : engine_step e (createVolume now name driver labels options e).1
| step_drop_volume name : engine_step e (e <| volumes := delete name (volumes e) |>)
| step_start (RO : RangeOrder) now p : engine_step e (startContainerRuntime now p e).1
| step_stop (RO : RangeOrder) p : engine_step e (stopContainerRuntime p e).1
| step_sync (RO : RangeOrder) now p : engine_step e (syncRuntimeForState now p e).1
| step_close (RO : RangeOrder) : engine_step e (closeRuntimes e).1
| step_http (RO : RangeOrder) now p method path uri remote : engine_step e (ServeHTTP now p method path uri remote e).1
| step_redis (RO : RangeOrder) now p command : engine_step e (container_redis_command now p command e).1
| step_mock (RO : RangeOrder) now command : engine_step e (mock_redis_command now command e).1
| step_register id connection :
    engine_step e (connection_step id (λ r, (registerRedisConnection connection r).1) e)
| step_finish id connection : engine_step e (connection_step id (finishRedisConnection connection) e).

(** * Every step keeps the invariant *)

(** ** Registration *)

Lemma kept_create (RO : RangeOrder) now name image labels env command e : engine_ok e →
  containers e !! next_container_id name e = None →
  engine_ok (createContainer now name image labels env command e).1.
Proof.
  intros He Hid.
  pose proof (createContainer_spec now name image labels env command e (ok_registry e He) Hid) as Hspec.
  destruct (chosen_name name e) as [nm e1] eqn:Hname.
  destruct (createContainer _ _ _ _ _ _ e) as [e' [[p|err]| |]]; [|destruct Hspec as [-> _]|done..].
  - cbn [fst]. destruct Hspec as (cb & sd & _ & _ & Hreg & Hwith). set (c := created _ _ _ _ _ _ _ _ _) in *.
    destruct Hwith as (Hp & Hfree & Hh & Hc & Hn & Hnets & [= Hrt Hs Hl]).
    destruct He as [Hr0 Ht0 Hi0 Hn0]. split; [done| | |by unfold nets_ok; simpl; rewrite Hnets].
    + destruct Ht0 as [H1 H2 H3 H4 H5]. split; rewrite ?Hrt, ?Hs, ?Hl; try done.
      intros id r Hlk. destruct (H1 _ _ Hlk) as (c0 & Hc0 & <-). exists c0. rewrite Hh, lookup_insert_ne; [done|congruence].
    + unfold ids_ok. rewrite Hh. apply map_Forall_insert_2; [|done]. intros Heq.
      change (next_container_id name e = EmptyString) in Heq. pose proof (length_next_id name e) as Hlen.
      by rewrite Heq in Hlen.
  - pose proof (chosen_name_spec name e) as Hch. rewrite Hname in Hch. destruct Hch as (_ & -> & _).
    simpl. by apply (steady_closed (P := engine_ok) e); [split; [split|]|].
Qed.

(** ** Removal *)

Lemma stop_runtime_spec (RO : RangeOrder) p e c : engine_ok e → heap e !! p = Some c →
  ∃ e' o, stopContainerRuntime p e = (e', o) ∧ engine_ok e' ∧ same_registry e e' ∧ networks e' = networks e ∧
    ∀ r, runtimes e' !! ID c = Some r → listeners r = [].
Proof.
  intros He Hp. unfold stopContainerRuntime. unfold mbind at 1, prog_bind at 1, get at 1.
  rewrite (bind_deref _ _ _ c) by done.
  destruct (runtimes e !! ID c) as [r|] eqn:Hr.
  2: { exists e, (Done None). split_and!; [done..|]. intros r. by rewrite Hr. }
  destruct (Stop_spec e (ID c) r (ok_runtimes e He) Hr) as (e1 & err & r' & Hstop & Ht & Hsame & Hrt & Hnone & _).
  rewrite (bind_Done _ _ _ _ _ Hstop).
  assert (keeps (steady e1) ((if bool_decide (Kind c = "redis") then markRedisMasterDown p else mret ());; mret err)) as Hk.
  { apply keeps_bind; [|intros; apply keeps_ret]. apply steady_if; [apply steady_mark_down|apply keeps_ret]. }
  specialize (Hk e1 (steady_refl e1)). eexists _, _. split; [apply surjective_pairing|].
  pose proof (engine_ok_runtimes _ _ He Hsame Ht) as He1. injection Hsame as Hh Hc Hn Hnets.
  split; [by eapply (steady_closed (P := engine_ok))|].
  destruct Hk as [Hf Hnets2]. pose proof (frames_fields _ _ Hf) as (Hc2 & Hn2 & Hs2).
  split; [split; [congruence|by rewrite <-Hh]|]. split; [congruence|].
  intros r2. destruct (frames_runtimes _ _ Hf) as (-> & _). rewrite Hrt, lookup_insert_eq. by intros [= <-].
Qed.

Lemma unregister_ok e p c : engine_ok e → registered e p c →
  (∀ r, runtimes e !! ID c = Some r → listeners r = []) → engine_ok (unregister c e).
Proof.
  intros [Hr Ht Hi Hn] Hreg Hnone. split.
  - split; simpl.
    + intros n id [Hne Hlk]%lookup_delete_Some. destruct (by_name e Hr _ _ Hlk) as (q & c' & [Hq Hq'] & <- & <-).
      exists q, c'. split; [|done]. split; [|done]. simpl. rewrite lookup_delete_ne; [done|]. intros Heq.
      apply Hne. destruct Hreg as [Hid Hp]. congruence.
    + intros id q [Hne Hlk]%lookup_delete_Some. destruct (by_id e Hr _ _ Hlk) as (c' & Hq & <- & Hname).
      exists c'. split; [done|]. split; [done|]. rewrite lookup_delete_ne; [done|]. intros Heq.
      pose proof (registered_name e Hr _ _ Hreg) as Hname'. congruence.
    + intros n id [_ Hlk]%lookup_delete_Some. by eapply named.
  - destruct (runtimes e !! ID c) as [r|] eqn:Hlk.
    + apply (runtimes_ok_delete e (ID c) r) in Ht; [|done|by apply Hnone]. by destruct Ht; split.
    + unfold unregister. simpl. rewrite (delete_id (runtimes e)) by done. by destruct Ht; split.
  - done.
  - by apply detach_all_ok.
Qed.

(** Nothing of the container [c] is left. *)
Record forgotten (e' : Engine) (c : Container) : Prop := {
  no_name : names e' !! Name c = None;
  no_id : containers e' !! ID c = None;
  no_runtime : runtimes e' !! ID c = None;
  no_endpoint : ∀ k n, networks e' !! k = Some n → EngineTypes.Containers n !! ID c = None
}.

Lemma forgotten_steady e e' c : steady e e' → forgotten e c → forgotten e' c.
Proof.
  intros [Hf Hnets] [H1 H2 H3 H4]. pose proof (frames_fields _ _ Hf) as (Hc & Hn & _).
  destruct (frames_runtimes _ _ Hf) as (Hr & _). by split; rewrite ?Hnets, ?Hc, ?Hn, ?Hr.
Qed.

Lemma unregister_forgotten e c : forgotten (unregister c e) c.
Proof.
  split; simpl; [apply lookup_delete_eq..|]. intros k n Hk. unfold detach_all in Hk.
  apply lookup_fmap_Some in Hk as (n0 & <- & _). apply lookup_delete_eq.
Qed.

(** What a removal has done when the container itself is notified. *)
Lemma removeContainer_spec (RO : RangeOrder) now ref force e : engine_ok e →
  let '(e', o) := removeContainer now ref force e in
  engine_ok e' ∧
  ((∃ msg, e' = e ∧ o = Done (Some msg) ∧
      (is_err (findContainer ref e) = true ∨
       ∃ p c, registered e p c ∧ refers e (TrimPrefix (TrimSpace ref) "/") p ∧ isRunning c = true ∧ force = false)) ∨
   ∃ p c, registered e p c ∧ refers e (TrimPrefix (TrimSpace ref) "/") p ∧
     (isRunning c = true → force = true) ∧ (o = Done None → forgotten e' c)).
Proof.
  intros He. unfold removeContainer. unfold mbind at 1, prog_bind at 1, get at 1.
  destruct (findContainer_spec ref e (ok_registry e He)) as [Hspec _].
  destruct (findContainer ref e) as [o|msg] eqn:Hfind; [|split; [done|]; left; exists msg; eauto].
  destruct (findContainer_registered _ _ _ (ok_registry e He) Hfind) as (p & c & -> & Hreg).
  assert (refers e (TrimPrefix (TrimSpace ref) "/") p) as Href by by apply Hspec.
  rewrite (bind_deref _ _ _ c) by apply Hreg.
  destruct (isRunning c && negb force) eqn:Hrun.
  { apply andb_true_iff in Hrun as [Hrun Hforce%negb_true_iff]. split; [done|]. left. eexists. eauto 10. }
  assert (isRunning c = true → force = true) as Hallowed by (intros Hr; rewrite Hr in Hrun; by destruct force).
  destruct (stop_runtime_spec RO p e c He (proj2 Hreg)) as (e1 & o & Hstop & He1 & Hsame & _ & Hnone).
  destruct (same_registered _ _ _ _ Hsame Hreg) as (c1 & Hreg1 & Hid).
  assert (unregister c e1 = unregister c1 e1) as Hun by (unfold unregister; by destruct (identity_eq _ _ Hid) as (-> & -> & _)).
  assert (engine_ok (unregister c e1)) as He2.
  { rewrite Hun. apply (unregister_ok e1 p); [done..|]. by destruct (identity_eq _ _ Hid) as (-> & _). }
  unfold mbind at 1, prog_bind at 1. rewrite Hstop.
  destruct o as [err|msg|]; [|by split; [done|right; exists p, c]..].
  unfold mbind at 1, prog_bind at 1. unfold modify at 1.
  match goal with |- let '(_, _) := ?m ?e2 in _ => assert (keeps (steady e2) m) as Hk end.
  { apply keeps_bind; [apply steady_deref|]. intros c2. cbv zeta. apply keeps_bind.
    { apply steady_if; [|apply keeps_ret]. apply keeps_bind; [apply steady_on; intros; apply same_stop|]. intros; apply keeps_ret. }
    intros []. apply keeps_bind; [apply steady_on; intros; apply same_markRemoved|]. intros [].
    apply keeps_bind; [apply steady_log|]. intros; apply keeps_ret. }
  specialize (Hk _ (steady_refl _)). revert Hk.
  match goal with |- context [let '(_, _) := ?x in _] => destruct x as [e3 o]; intros Hk end. cbn [fst] in Hk.
  split; [by eapply (steady_closed (P := engine_ok))|]. right. exists p, c. split_and!; [done..|].
  intros _. eapply forgotten_steady; [done|]. apply unregister_forgotten.
Qed.

(** ** The networks *)

Lemma kept_network {A} (m : prog Engine A) e : engine_ok e → keeps (frames e) m →
  (ids_ok e → nets_ok e → nets_ok (m e).1) → engine_ok (m e).1.
Proof.
  intros [Hr Ht Hi Hn] Hf Hnets. specialize (Hf e (frames_refl e)). split.
  - by eapply frames_registry.
  - by eapply frames_runtimes_ok.
  - eapply ids_ok_same; [apply frames_fields in Hf; apply Hf|done].
  - by apply Hnets.
Qed.

(** ** Requests *)

Section requests.
Context {RO : RangeOrder} {P : Engine → Prop} `{!Steady P}.

Lemma steady_reply_patch now p patch : keeps P (apply_reply_patch now p patch).
Proof.
  apply steady_if; [apply keeps_ret|]. apply keeps_bind; [apply steady_on; intros; apply same_applyPatch|].
  intros; apply keeps_ret.
Qed.

Lemma steady_advance now p event : keeps P (on p (advance now event)).
Proof. apply steady_on. intros. apply same_advance. Qed.

Lemma steady_ServeHTTP now p method path uri remote : keeps P (ServeHTTP now p method path uri remote).
Proof.
  unfold ServeHTTP. cbv zeta. steps; [apply steady_advance|apply steady_reply_patch|].
  apply steady_if; apply keeps_ret.
Qed.

Lemma steady_redis_request now p label command name : keeps P (redis_request now p label command name).
Proof. unfold redis_request. cbv zeta. steps; [apply steady_advance|apply steady_reply_patch]. Qed.

Lemma steady_finish builtin response : keeps P builtin → keeps P (finish_redis builtin response).
Proof.
  intros Hb. unfold finish_redis. destruct (override response); [apply keeps_ret|].
  apply keeps_bind; [done|]. intros [reply quit]. apply keeps_ret.
Qed.

Lemma steady_container_redis now p command : keeps P (container_redis_command now p command).
Proof.
  apply keeps_bind; [apply steady_redis_request|]. intros [response state].
  apply steady_if; [apply keeps_ret|]. apply steady_finish, steady_builtin.
Qed.

Lemma same_handleBuiltInRedis c command : keeps (is_same c) (handleBuiltInRedis command).
Proof.
  unfold handleBuiltInRedis. destruct command as [|command0 args]; [by intros s|].
  apply keeps_bind; [apply keeps_get|]. intros s. destruct (plain_reply _ args); [apply keeps_ret|].
  assert (∀ f (r : string * bool), (∀ c, identity (f c) = identity c) → keeps (is_same c) (modify_this f;; mret r)) as Hm.
  { intros f r Hf. apply keeps_bind; [by apply same_modify_this|]. intros []. apply keeps_ret. }
  repeat case_bool_decide; try apply keeps_ret.
  - destruct args as [|key [|value args]]; [apply keeps_ret..|by apply Hm].
  - destruct (del_loop args _). by apply Hm.
  - destruct args as [|key [|? ?]]; [apply keeps_ret|by apply Hm|apply keeps_ret].
Qed.

Lemma steady_mock now command : keeps P (mock_redis_command now command).
Proof.
  apply keeps_bind; [apply keeps_get|]. intros e. destruct (findContainerByKind _ e) as [p|]; [|apply keeps_ret].
  apply keeps_bind; [apply steady_redis_request|]. intros [response state].
  apply steady_if; [apply keeps_ret|]. apply steady_finish, steady_on. intros. apply same_handleBuiltInRedis.
Qed.
End requests.

(** ** Connections *)

Lemma kept_connection id f e : (∀ r, listeners (f r) = listeners r ∧ active (f r) = active r ∧ rt_container (f r) = rt_container r) →
  engine_ok e → engine_ok (connection_step id f e).
Proof.
  intros Hf He. apply (engine_ok_runtimes e); [done|done|]. destruct (ok_runtimes e He) as [H1 H2 H3 H4 H5].
  assert (∀ id' r', alter f id (runtimes e) !! id' = Some r' → ∃ r, runtimes e !! id' = Some r ∧
    listeners r' = listeners r ∧ active r' = active r ∧ rt_container r' = rt_container r) as Hold.
  { intros id' r'. rewrite lookup_alter_Some. intros [(-> & r & Hr & ->)|[_ Hr]]; eauto. }
  assert (∀ id' r, runtimes e !! id' = Some r → ∃ r', alter f id (runtimes e) !! id' = Some r' ∧ listeners r' = listeners r) as Hnew.
  { intros id' r Hr. destruct (decide (id = id')) as [<-|Hne].
    - rewrite lookup_alter_eq, Hr. eexists. split; [done|]. apply Hf.
    - rewrite lookup_alter_ne by done. eauto. }
  split; simpl; [| | | |done].
  - intros id' r' (r & Hr & _ & _ & ->)%Hold. eauto.
  - intros n. rewrite H2. split; intros (id' & r & Hr & Hin).
    + destruct (Hnew _ _ Hr) as (r' & Hr' & Heq). exists id', r'. by rewrite Heq.
    + destruct (Hold _ _ Hr) as (r0 & Hr0 & Heq & _). exists id', r0. by rewrite <-Heq.
  - intros id1 id2 r1 r2 n (r1' & H1' & -> & _)%Hold (r2' & H2' & -> & _)%Hold. eauto.
  - intros id' r' (r & Hr & -> & -> & _)%Hold. eauto.
Qed.

(** ** All steps *)

Lemma engine_step_ok e e' : engine_ok e → engine_step e e' → engine_ok e'.
Proof.
  intros He Hstep. destruct Hstep.
  - by apply kept_create.
  - pose proof (removeContainer_spec RO now ref force e He) as Hspec. destruct (removeContainer _ _ _ _) as [e1 o]. apply Hspec.
  - apply steady_on; [|done]. intros c. apply same_run_op.
  - by apply steady_event.
  - by apply steady_log.
  - by apply (steady_closed (P := engine_ok) e); [split; [split|]|].
  - by apply (steady_closed (P := engine_ok) e); [split; [split|]|].
  - apply kept_network; [done|apply framing_configure|apply configure_nets].
  - apply kept_network; [done|apply framing_connect|apply connect_nets].
  - apply kept_network; [done|apply framing_disconnect|intros _; apply disconnect_nets].
  - apply kept_network; [done|apply framing_createNetwork|intros _; apply createNetwork_nets].
  - apply kept_network; [done|apply framing_removeNetwork|intros _; apply removeNetwork_nets].
  - apply kept_network; [done|apply framing_createVolume|intros _; apply createVolume_nets].
  - by apply (steady_closed (P := engine_ok) e); [split; [split|]|].
  - by apply kept_start_runtime.
  - by apply kept_stop_runtime.
  - by apply kept_sync.
  - by apply kept_close.
  - by apply steady_ServeHTTP.
  - by apply steady_container_redis.
  - by apply steady_mock.
  - apply kept_connection; [|done]. intros r. unfold registerRedisConnection. by destruct (negb (active r)).
  - by apply kept_connection.
Qed.

Lemma newEngine_ok now created cbs sd ov l : engine_ok (newEngine now created cbs sd ov l).
Proof.
  split; [split| |apply map_Forall_empty|apply newEngine_nets].
  - by intros n id.
  - by intros id p.
  - by intros n id.
  - assert (∀ n, n ∉ sockets (newEngine now created cbs sd ov l)) as Hno by (intros n; simpl; set_solver).
    split; [by intros id r| |by intros id1 id2 r1 r2 n|by intros id r|by intros n ?%Hno].
    intros n. split; [by intros ?%Hno|]. by intros (id & r & ? & _).
Qed.

Lemma reachable_ok now created cbs sd ov l e : rtc engine_step (newEngine now created cbs sd ov l) e → engine_ok e.
Proof.
  intros Hsteps. assert (∀ e0, rtc engine_step e0 e → engine_ok e0 → engine_ok e) as Hinv.
  { clear. intros e0. induction 1 as [|e1 e2 e3 Hstep _ IH]; [done|]. intros He. by apply IH, (engine_step_ok e1). }
  eapply Hinv; [done|]. apply newEngine_ok.
Qed.
End engine.

(** * Theorems *)

Section theorems.
Context {FS : FileSystem} {UN : Unicode} {SK : Sockets}.



(** C9: a start of a service always ends.  When it fails - an address is taken, or the
    service is of an unknown kind - every listener it had opened is closed again and
    no runtime has changed; when it succeeds the runtime is active.  In both cases
    the open listeners are exactly those of the runtimes. *)
Theorem Start_all_or_nothing {RO : RangeOrder} now id e r : runtimes_ok e → runtimes e !! id = Some r →
  ∃ e' err, Start now id e = (e', Done err) ∧ runtimes_ok e' ∧
    match err with
    | Some _ => sockets e' = sockets e ∧ runtimes e' = runtimes e
    | None => ∃ r', runtimes e' = <[id := r']> (runtimes e) ∧ active r' = true
    end.
Proof.
  intros He Hid. destruct (Start_spec now e id r He Hid) as (e' & err & Hrun & Ht & _ & _ & Herr).
  exists e', err. split; [done|]. split; [done|]. destruct err as [msg|]; [by destruct Herr as (_ & -> & ->)|].
  destruct Herr as (r' & ? & ? & _). by exists r'.
Qed.
End theorems.

(** * Examples *)

(** A host on which the first address is free and all others are taken. *)
Definition sockets_one : Sockets := {|
  listen := λ n addr, match n with 0 => Ok "127.0.0.1:8080" | _ => Err "address already in use" end;
  drained := λ _ _, true |}.

Section examples.
#[local] Existing Instances fs_good range_forward unicode_none sockets_one.


Lemma sample_ok : engine_ok sample_pair.
Proof.
  split; [apply sample_registry| |apply sample_ids|apply newEngine_nets].
  destruct (ok_runtimes _ (newEngine_ok 0%Z 0%Z ∅ 0%Z ∅ (newLedger "run" 0))) as [H1 H2 H3 H4 H5].
  split; [by intros id r|exact H2|exact H3|exact H4|exact H5].
Qed.


(** A running web server that publishes two ports. *)
Definition sample_server : Engine :=
  let binding port := mkPortBinding EmptyString port port "tcp" 80 in
  let c := sample_web <| PortBindings := {["80/tcp" := [binding 8080%Z; binding 8081%Z]]} |> in
  (sample_engine [c]) <| runtimes := {["aa11" := newContainerRuntime 0]} |>.

Lemma sample_server_ok : runtimes_ok sample_server.
Proof.
  assert (∀ id r, runtimes sample_server !! id = Some r → id = "aa11" ∧ r = newContainerRuntime 0) as Honly.
  { intros id r Hid. change (({["aa11" := newContainerRuntime 0]} : gmap string ContainerRuntime) !! id = Some r) in Hid.
    by apply lookup_singleton_Some in Hid as [<- <-]. }
  split.
  - intros id r [-> ->]%Honly. by eexists.
  - intros n. change (sockets sample_server) with (∅ : gset nat). split; [set_solver|].
    intros (id & r & [-> ->]%Honly & Hn). by apply elem_of_nil in Hn.
  - intros id1 id2 r1 r2 n [-> ->]%Honly [-> ->]%Honly _ _. done.
  - by intros id r [-> ->]%Honly _.
  - intros n. change (sockets sample_server) with (∅ : gset nat). set_solver.
Qed.

(** The second port is taken: nothing stays open. *)
Lemma Start_all_or_nothing_witness :
  ∃ e', (Start 1%Z "aa11" sample_server).1 = e' ∧ sockets e' = ∅ ∧ listens e' = 2.
Proof.
  destruct (Start_all_or_nothing 1%Z "aa11" sample_server (newContainerRuntime 0)) as (e' & err & Hrun & _ & Hres).
  - apply sample_server_ok.
  - done.
  - exists e'. split; [by rewrite Hrun|].
    assert (err ≠ None) as Herr by (apply (f_equal snd) in Hrun; vm_compute in Hrun; by injection Hrun as <-).
    assert (listens e' = 2) as Hlistens.
    { transitivity (listens (Start 1%Z "aa11" sample_server).1); [by rewrite Hrun|]. clear. by vm_compute. }
    clear Hrun. destruct err as [msg|]; [|by destruct Herr]. by destruct Hres as [-> _].
Defined.
End examples.
