(* ===== verification/ApiTheorems.v ===== *)
(** The Docker API as a whole: a request is a sequence of engine steps, it is
    answered once and logged as it was answered, and a request that is not supported
    changes nothing. *)
From Stdlib Require Import Ascii.
From S2P Require Import Prelude GoStrings GoTime Json Cookbook Sha256 CookbookValidation Container ContainerConfig ContainerLife EngineTypes DockerFilters ApiUtil Net Ledger Url Decode Engine EngineFacts EngineNetwork Redis Runtime Documents Http ApiContainers ApiResources DockerAPI RuntimeTheorems EngineTheorems.

Section api.
Context {FS : FileSystem} {RO : RangeOrder} {UN : Unicode} {SK : Sockets} {CK : Clock} {PL : Platform} {JM : JsonMessages} {WT : Waiting}.

(** * A request is a sequence of engine steps *)

Notation steps_to := (rtc engine_step).

(** The engine steps of a program of the engine, and of a handler. *)
Definition advances {A} (m : prog Engine A) : Prop := ∀ e, steps_to e (m e).1.
Definition reaches {A} (m : prog Exchange A) : Prop := ∀ x, steps_to (xEngine x) (xEngine (m x).1).

Lemma advances_step {A} (m : prog Engine A) : (∀ e, engine_step e (m e).1) → advances m.
Proof. intros Hm e. by apply rtc_once. Qed.

Lemma advances_same {A} (m : prog Engine A) : (∀ e, (m e).1 = e) → advances m.
Proof. intros Hm e. by rewrite Hm. Qed.

Lemma advances_ret {A} (a : A) : advances (mret a).
Proof. by apply advances_same. Qed.

Lemma advances_bind {A B} (m : prog Engine A) (f : A → prog Engine B) :
  advances m → (∀ a, advances (f a)) → advances (m ≫= f).
Proof.
  intros Hm Hf e. specialize (Hm e). unfold mbind, prog_bind.
  destruct (m e) as [e' [a|msg|]]; [|done..]. by etrans; [|apply Hf].
Qed.

Lemma advances_deref p : advances (deref p).
Proof. apply advances_same. intros e. rewrite deref_spec. by destruct (heap e !! p). Qed.

Lemma advances_log now entry : advances (log_entry now entry).
Proof. apply advances_step. intros e. apply step_log. Qed.

(** What a method does besides its value is what it does as an [op]. *)
Lemma on_fst {A B} p (m : prog CState A) (m' : prog CState B) e :
  (∀ s, (m s).1 = (m' s).1) → (on p m e).1 = (on p m' e).1.
Proof.
  intros Hm. unfold on. destruct (heap e !! p) as [c|]; [|done].
  specialize (Hm (mkCState c (pids e))). destruct (m _), (m' _). simpl in Hm. by subst.
Qed.

Lemma ignore_fst {A} (m : prog CState A) s : (ignore m s).1 = (m s).1.
Proof. unfold ignore, mbind, prog_bind. by destruct (m s) as [s' [| |]]. Qed.

Lemma advances_op {A} p now o (m : prog CState A) :
  (∀ s, (m s).1 = (run_op now o s).1) → advances (on p m).
Proof. intros Hm. apply advances_step. intros e. rewrite (on_fst _ _ _ _ Hm). apply step_container. Qed.

Lemma advances_start p now : advances (on p (start now)).
Proof. apply (advances_op p now OpStart). intros s. symmetry. apply ignore_fst. Qed.
Lemma advances_stop p now exitCode : advances (on p (stop now exitCode)).
Proof. apply (advances_op p now (OpStop exitCode)). intros s. symmetry. apply ignore_fst. Qed.
Lemma advances_restart p now : advances (on p (restart now)).
Proof. apply (advances_op p now OpRestart). intros s. symmetry. apply ignore_fst. Qed.
Lemma advances_kill p now : advances (on p (kill now)).
Proof. apply (advances_op p now OpKill). intros s. symmetry. apply ignore_fst. Qed.
Lemma advances_pause p : advances (on p pause).
Proof. apply (advances_op p 0%Z OpPause). intros s. symmetry. apply ignore_fst. Qed.
Lemma advances_unpause p : advances (on p unpause).
Proof. apply (advances_op p 0%Z OpUnpause). intros s. symmetry. apply ignore_fst. Qed.
Lemma advances_advance p now event : advances (on p (advance now event)).
Proof. apply (advances_op p now (OpAdvance event)). intros s. symmetry. apply ignore_fst. Qed.
Lemma advances_patch p now patch : advances (on p (applyPatch now patch)).
Proof. apply (advances_op p now (OpPatch patch)). intros s. symmetry. apply ignore_fst. Qed.
Lemma advances_receive p w : advances (on p (receiveWait w)).
Proof. apply (advances_op p 0%Z (OpReceive w)). intros s. symmetry. apply ignore_fst. Qed.
Lemma advances_cancel p w : advances (on p (modify_this (cancelWait w))).
Proof. by apply (advances_op p 0%Z (OpCancel w)). Qed.
Lemma advances_subscribe p condition : advances (on p (subscribe condition)).
Proof.
  apply (advances_op p 0%Z (OpSubscribe condition)). intros s. unfold subscribe, mbind, prog_bind. simpl.
  by destruct (subscribeWait condition (this s)).
Qed.

#[local] Hint Resolve advances_ret advances_deref advances_log advances_start advances_stop advances_restart
  advances_kill advances_pause advances_unpause advances_advance advances_patch advances_receive advances_cancel
  advances_subscribe : dzero.

Lemma advances_event now p event adv request response : advances (logContainerEvent now p event adv request response).
Proof. apply advances_step. intros e. apply step_event. Qed.
Lemma advances_start_runtime now p : advances (startContainerRuntime now p).
Proof. apply advances_step. intros e. apply step_start. Qed.
Lemma advances_stop_runtime p : advances (stopContainerRuntime p).
Proof. apply advances_step. intros e. apply step_stop. Qed.
Lemma advances_sync now p : advances (syncRuntimeForState now p).
Proof. apply advances_step. intros e. apply step_sync. Qed.
Lemma advances_remove now ref force : advances (removeContainer now ref force).
Proof. apply advances_step. intros e. apply step_remove. Qed.
Lemma advances_configure p mode aliases : advances (configureContainerNetworks p mode aliases).
Proof. apply advances_step. intros e. apply step_configure. Qed.
Lemma advances_connect p ref aliases : advances (connectContainerNetwork p ref aliases).
Proof. apply advances_step. intros e. apply step_connect. Qed.
Lemma advances_disconnect p ref : advances (disconnectContainerNetwork p ref).
Proof. apply advances_step. intros e. apply step_disconnect. Qed.
Lemma advances_createNetwork now name driver labels : advances (createNetwork now name driver labels).
Proof. apply advances_step. intros e. apply step_network. Qed.
Lemma advances_removeNetwork now ref : advances (removeNetwork now ref).
Proof. apply advances_step. intros e. apply step_remove_network. Qed.
Lemma advances_createVolume now name driver labels options : advances (createVolume now name driver labels options).
Proof. apply advances_step. intros e. apply step_volume. Qed.
Lemma advances_drop_volume name : advances (modify (λ e, e <| volumes := delete name (volumes e) |>)).
Proof. apply advances_step. intros e. apply step_drop_volume. Qed.

#[local] Hint Resolve advances_event advances_start_runtime advances_stop_runtime advances_sync advances_remove
  advances_configure advances_connect advances_disconnect advances_createNetwork advances_removeNetwork
  advances_createVolume advances_drop_volume : dzero.

(** ** Handlers *)

Lemma reaches_same {A} (m : prog Exchange A) : (∀ x, xEngine (m x).1 = xEngine x) → reaches m.
Proof. intros Hm x. by rewrite Hm. Qed.

Lemma reaches_ret {A} (a : A) : reaches (mret a).
Proof. by apply reaches_same. Qed.
Lemma reaches_get : reaches get.
Proof. by apply reaches_same. Qed.
Lemma reaches_blocked {A} : reaches ((λ x, (x, Blocked)) : prog Exchange A).
Proof. by apply reaches_same. Qed.
Lemma reaches_panic {A} msg : reaches (panic msg : prog Exchange A).
Proof. by apply reaches_same. Qed.

Lemma reaches_bind {A B} (m : prog Exchange A) (f : A → prog Exchange B) :
  reaches m → (∀ a, reaches (f a)) → reaches (m ≫= f).
Proof.
  intros Hm Hf x. specialize (Hm x). unfold mbind, prog_bind.
  destruct (m x) as [x' [a|msg|]]; [|done..]. by etrans; [|apply Hf].
Qed.

Lemma reaches_bind_at {A B} (m : prog Exchange A) (f : A → prog Exchange B) x :
  steps_to (xEngine x) (xEngine (m x).1) → (∀ a, reaches (f a)) → steps_to (xEngine x) (xEngine ((m ≫= f) x).1).
Proof.
  intros Hm Hf. unfold mbind, prog_bind. destruct (m x) as [x' [a|msg|]]; [|done..]. by etrans; [|apply Hf].
Qed.

Lemma reaches_elim {A} (m : prog Exchange A) x : reaches m → steps_to (xEngine x) (xEngine (m x).1).
Proof. intros Hm. apply Hm. Qed.

Lemma advances_modify_panics f : advances (modify (λ e, e <| internalErrors := f (internalErrors e) |>)).
Proof. apply advances_step. intros e. apply step_panic. Qed.
#[local] Hint Resolve advances_modify_panics : dzero.

Lemma reaches_engine {A} (m : prog Engine A) : advances m → reaches (engine_op m).
Proof. intros Hm x. specialize (Hm (xEngine x)). unfold engine_op. by destruct (m (xEngine x)). Qed.

Lemma reaches_modify f : (∀ x, xEngine (f x) = xEngine x) → reaches (modify f).
Proof. intros Hf. by apply reaches_same. Qed.

Lemma reaches_set_header key value : reaches (set_header key value).
Proof. by apply reaches_modify. Qed.
Lemma reaches_WriteHeader status : reaches (WriteHeader status).
Proof. apply reaches_modify. intros x. by case_bool_decide. Qed.
#[local] Hint Resolve reaches_ret reaches_get reaches_panic reaches_blocked reaches_set_header reaches_WriteHeader : dzero.

#[local] Opaque advances reaches.
#[local] Hint Constants Opaque : dzero.

(** Follows a handler through its calls and branches. *)
Ltac reach :=
  repeat first
    [ match goal with H : ?P |- ?P => exact H end
    | progress intros
    | solve [eauto with dzero nocore]
    | match goal with
      | |- reaches (_ ≫= _) => apply reaches_bind
      | |- reaches (engine_op _) => apply reaches_engine
      | |- advances (_ ≫= _) => apply advances_bind
      | |- reaches (if ?b then _ else _) => destruct b
      | |- reaches (match ?m with _ => _ end) => destruct m
      | |- advances (match ?m with _ => _ end) => destruct m
      end ].

Lemma reaches_Write payload : reaches (Write payload).
Proof. unfold Write. reach. apply reaches_modify. intros x. by destruct (body_allowed _). Qed.
#[local] Hint Resolve reaches_Write : dzero.

Lemma reaches_Flush : reaches Flush.
Proof. unfold Flush. reach. Qed.
Lemma reaches_writeJSON status value : reaches (writeJSON status value).
Proof. unfold writeJSON, Encode. reach. Qed.
#[local] Hint Resolve reaches_Flush reaches_writeJSON : dzero.
Lemma reaches_writeDockerError status msg : reaches (writeDockerError status msg).
Proof. apply reaches_writeJSON. Qed.
#[local] Hint Resolve reaches_writeDockerError : dzero.
Lemma reaches_unsupported status msg : reaches (writeUnsupportedDockerError status msg).
Proof. unfold writeUnsupportedDockerError. reach. Qed.
#[local] Hint Resolve reaches_unsupported : dzero.

Lemma reaches_state_of p : reaches (state_of p).
Proof. unfold state_of. reach. Qed.
Lemma reaches_log_for now p event f : reaches (log_for now p event f).
Proof. unfold log_for. reach. Qed.
Lemma reaches_log_event now p event adv request response : reaches (log_event now p event adv request response).
Proof. unfold log_event. reach. Qed.
Lemma reaches_stop_runtime p : reaches (stop_runtime p).
Proof. unfold stop_runtime. reach. Qed.
#[local] Hint Resolve reaches_state_of reaches_log_for reaches_log_event reaches_stop_runtime : dzero.

Context (Hothers : advances (modify meanwhile)).

Lemma reaches_wait r p : reaches (handleContainerWait r p).
Proof. unfold handleContainerWait. cbv zeta. reach. Qed.

Lemma reaches_start_failed p site event before err : reaches (start_failed p site event before err).
Proof. unfold start_failed. reach. Qed.
Lemma reaches_finish_action p site event advance_event before statusCode :
  reaches (finish_action p site event advance_event before statusCode).
Proof. unfold finish_action. reach. Qed.
#[local] Hint Resolve reaches_wait reaches_start_failed reaches_finish_action : dzero.

Lemma reaches_inspect p : reaches (inspect_action p).
Proof. unfold inspect_action. reach. Qed.
Lemma reaches_start p : reaches (start_action p).
Proof. unfold start_action. reach. Qed.
Lemma reaches_stop p : reaches (stop_action p).
Proof. unfold stop_action. reach. Qed.
Lemma reaches_attempt p now event refused m after :
  advances (on p m) → reaches after → reaches (attempt_action p now event refused m after).
Proof. unfold attempt_action. reach. Qed.
Lemma reaches_restart p : reaches (restart_action p).
Proof. unfold restart_action. reach. Qed.
Lemma reaches_kill r p : reaches (kill_action r p).
Proof. unfold kill_action. cbv zeta. reach. apply reaches_attempt; reach. Qed.
Lemma reaches_logs p : reaches (logs_action p).
Proof. unfold logs_action. cbv zeta. reach. Qed.
Lemma reaches_top p : reaches (top_action p).
Proof. unfold top_action. reach. Qed.
Lemma reaches_exec r p : reaches (exec_action r p).
Proof. unfold exec_action. reach. Qed.
Lemma reaches_remove r ref : reaches (remove_action r ref).
Proof. unfold remove_action. cbv zeta. reach. Qed.
#[local] Hint Resolve reaches_inspect reaches_start reaches_stop reaches_restart reaches_kill reaches_logs reaches_top
  reaches_exec reaches_remove : dzero.

Lemma reaches_switch r parts ref action p : reaches (container_switch r parts ref action p).
Proof. unfold container_switch. cbv zeta. reach; apply reaches_attempt; reach. Qed.
#[local] Hint Resolve reaches_switch : dzero.

Lemma reaches_action r rest : reaches (handleContainerAction r rest).
Proof. unfold handleContainerAction. cbv zeta. reach. Qed.

Lemma reaches_list_loop all filters ps : reaches (list_loop all filters ps).
Proof. induction ps as [|p ps IH]; cbn [list_loop]; reach. Qed.
#[local] Hint Resolve reaches_list_loop : dzero.
Lemma reaches_list r : reaches (handleContainerList r).
Proof. unfold handleContainerList. cbv zeta. reach. Qed.
#[local] Hint Resolve reaches_action reaches_list : dzero.

(** ** Creation *)

Lemma advances_store request p : advances (on p (s ← get;
  let '(c, warnings) := storeRequestedConfig request (this s) in put (s <| this := c |>);; mret warnings)).
Proof.
  apply (advances_op p 0%Z (OpConfigure request)). intros s. unfold mbind, prog_bind. simpl.
  by destruct (storeRequestedConfig request (this s)).
Qed.

Lemma advances_ports input p : advances (on p (s ← get;
  match configureContainerPortBindings input (this s) with
  | Ok c => put (s <| this := c |>);; mret None
  | Err err => mret (Some err)
  end)).
Proof.
  set (m := get ≫= _).
  assert (∀ s, (m s).1 = match bind_keys (range "docker_api_container_create.go:46" input) ∅ with
                         | Ok bindings => (run_op 0%Z (OpSetPorts bindings) s).1 | Err _ => s end) as Hm.
  { intros s. unfold m, mbind, prog_bind, configureContainerPortBindings, mbind, result_bind. simpl. by destruct (bind_keys _ _). }
  destruct (bind_keys _ _) as [bindings|err]; [by eapply advances_op|].
  apply advances_same. intros e. rewrite (on_fst p m (s ← get; mret (this s)) e) by (intros s; by rewrite Hm).
  change ((deref p e).1 = e). rewrite deref_spec. by destruct (heap e !! p).
Qed.
#[local] Hint Resolve advances_store advances_ports : dzero.

Lemma reaches_configure_created request p : reaches (configure_created request p).
Proof. unfold configure_created. reach. Qed.
Lemma reaches_connect_created request p : reaches (connect_created request p).
Proof. unfold connect_created. reach. Qed.
Lemma reaches_refuse err : reaches (refuse_create err).
Proof. apply reaches_writeDockerError. Qed.
#[local] Hint Resolve reaches_configure_created reaches_connect_created reaches_refuse : dzero.

(** The identifier a creation by [r] would take is not in use. *)
Definition id_fresh (r : Request) (e : Engine) : Prop :=
  containers e !! next_container_id (get_query r "name") e = None.

Lemma reaches_create r x : id_fresh r (xEngine x) → steps_to (xEngine x) (xEngine (handleContainerCreate r x).1).
Proof.
  intros Hid. unfold handleContainerCreate. destruct (decodeJSON _ _) as [request|err]; [|apply reaches_elim; reach].
  destruct (validateMetadata request) as [request' [err|]]; [apply reaches_elim; reach|].
  apply reaches_bind_at; [|reach]. unfold engine_op.
  pose proof (step_create (xEngine x) RO (Now "docker_api_container_create.go:87") (get_query r "name") (rImage request')
    (rLabels request') (rEnv request') (rCmd request') Hid) as Hstep.
  destruct (createContainer _ _ _ _ _ _ _). by apply rtc_once.
Qed.

(** ** Images, networks, volumes *)

Lemma reaches_Encode value : reaches (Encode value).
Proof. apply reaches_Write. Qed.
#[local] Hint Resolve reaches_Encode : dzero.

Lemma reaches_image_list : reaches handleImageList.
Proof. unfold handleImageList. reach. Qed.
Lemma reaches_image_create r : reaches (handleImageCreate r).
Proof. unfold handleImageCreate. cbv zeta. reach. Qed.
Lemma reaches_image_inspect name : reaches (handleImageInspect name).
Proof. unfold handleImageInspect. reach. Qed.
Lemma reaches_network_list r : reaches (handleNetworkList r).
Proof. unfold handleNetworkList. reach. Qed.
Lemma reaches_network_create r : reaches (handleNetworkCreate r).
Proof. unfold handleNetworkCreate. reach. Qed.
Lemma reaches_remove_network ref : reaches (remove_network_action ref).
Proof. unfold remove_network_action. reach. Qed.
Lemma reaches_change connect network aliases p : reaches (change_connection connect network aliases p).
Proof. unfold change_connection. cbv zeta. reach. Qed.
#[local] Hint Resolve reaches_remove_network reaches_change : dzero.
Lemma reaches_connection r connect network : reaches (connection_action r connect network).
Proof. unfold connection_action. cbv zeta. reach. Qed.
#[local] Hint Resolve reaches_connection : dzero.
Lemma reaches_network_action r rest : reaches (handleNetworkAction r rest).
Proof. unfold handleNetworkAction. cbv zeta. reach. Qed.
Lemma reaches_volume_list r : reaches (handleVolumeList r).
Proof. unfold handleVolumeList. reach. Qed.
Lemma reaches_volume_create r : reaches (handleVolumeCreate r).
Proof. unfold handleVolumeCreate. reach. Qed.
Lemma reaches_volume_action r ref : reaches (handleVolumeAction r ref).
Proof. unfold handleVolumeAction. cbv zeta. reach. Qed.
Lemma reaches_exec_handler r rest : reaches (handleExecAction r rest).
Proof. apply reaches_unsupported. Qed.
#[local] Hint Resolve reaches_image_list reaches_image_create reaches_image_inspect reaches_network_list
  reaches_network_create reaches_network_action reaches_volume_list reaches_volume_create reaches_volume_action
  reaches_exec_handler : dzero.

(** ** Routing *)

Lemma reaches_ping r : reaches (handlePing r).
Proof. unfold handlePing. reach. Qed.
Lemma reaches_info : reaches handleInfo.
Proof. unfold handleInfo. reach. Qed.
Lemma reaches_dns r : reaches (handle_dns r).
Proof. unfold handle_dns. cbv zeta. reach. Qed.
#[local] Hint Resolve reaches_dns : dzero.
Lemma reaches_admin r path : reaches (handleAdmin r path).
Proof. unfold handleAdmin. reach. Qed.
Lemma reaches_unsupported_request r status path : reaches (unsupported_request r status path).
Proof. apply reaches_unsupported. Qed.
#[local] Hint Resolve reaches_ping reaches_info reaches_admin reaches_unsupported_request : dzero.

Lemma reaches_report component recovered : advances (reportInternalPanic component recovered).
Proof. unfold reportInternalPanic. apply advances_bind; [reach|]. intros []. apply (advances_modify_panics (reportRuntimeError 4 _)). Qed.
#[local] Hint Resolve reaches_report : dzero.

Lemma reaches_route r path x : id_fresh r (xEngine x) → steps_to (xEngine x) (xEngine (route_request r path x).1).
Proof.
  intros Hid. unfold route_request. cbv zeta. unfold mbind, prog_bind at 1, get at 1.
  repeat match goal with
  | |- context [(if ?b then _ else _) _] => destruct b
  end; try (by apply reaches_create); apply reaches_elim; reach.
Qed.

Lemma reaches_serve r duration_us e : id_fresh r e → steps_to e (xEngine (serve r duration_us e).1).
Proof.
  intros Hid. unfold serve, DockerAPI_ServeHTTP, recoverDockerHTTPHandler, recovering.
  assert (steps_to e (xEngine (serve_request r (opened_exchange e)).1)) as Hserve.
  { unfold serve_request, mbind, prog_bind at 1, modify at 1.
    set (x := fset xHeader _ _). assert (xEngine x = e) as Hx by done. clearbody x. rewrite <-Hx in Hid |- *.
    destruct (validateAPIVersionPath _) as [err|]; [apply reaches_elim; reach|by apply reaches_route]. }
  assert (∀ x (o : outcome ()), steps_to e (xEngine x) →
    steps_to e (xEngine (let '(x, logged) := engine_op (log_entry (Now "docker_api_server.go:66") (request_entry r duration_us x)) x in
      (x, match o with Panic msg => Panic msg | _ => logged end)).1)) as Hlog.
  { intros x o Hx. etrans; [done|]. apply rtc_once, step_log. }
  destruct (serve_request r _) as [x [[]|msg|]]; [by apply (Hlog x (Done ()))| |done].
  set (m := engine_op _;; _).
  assert (steps_to (xEngine x) (xEngine (m x).1)) as Hm by (apply reaches_elim; unfold m; reach).
  destruct (m x) as [x' [[]|msg'|]]; [apply (Hlog x' (Done ()))|apply (Hlog x' (Panic msg'))|]; by etrans.
Qed.
End api.

(** * Every request is answered once *)

(** The recorder and what went out agree, and the status is a sensible one. *)
Definition is_status (status : Z) : bool := bool_decide (200 ≤ status ≤ 599)%Z.
Definition recorded (x : Exchange) : Prop :=
  match xSent x with
  | None => xStatus x = 0%Z
  | Some (status, _) => xStatus x = status ∧ is_status status = true
  end.
Definition answered (x : Exchange) : Prop := recorded x ∧ xStatus x ≠ 0%Z.

Section answers.
Context {FS : FileSystem} {RO : RangeOrder} {UN : Unicode} {SK : Sockets} {CK : Clock} {PL : Platform} {JM : JsonMessages} {WT : Waiting}.

(** A part of a handler keeps the recorder in order; a handler also answers, if it
    comes to an end. *)
Definition orderly {A} (m : prog Exchange A) : Prop := keeps recorded m ∧ keeps answered m.
Definition answers {A} (m : prog Exchange A) : Prop :=
  orderly m ∧ ∀ x, recorded x → is_Done (m x).2 = true → answered (m x).1.

Lemma orderly_same {A} (m : prog Exchange A) :
  (∀ x, xSent (m x).1 = xSent x ∧ xStatus (m x).1 = xStatus x) → orderly m.
Proof. intros Hm. split; intros x; unfold answered, recorded; by destruct (Hm x) as [-> ->]. Qed.

Lemma orderly_ret {A} (a : A) : orderly (mret a).
Proof. by apply orderly_same. Qed.
Lemma orderly_get : orderly get.
Proof. by apply orderly_same. Qed.
Lemma orderly_engine {A} (m : prog Engine A) : orderly (engine_op m).
Proof. apply orderly_same. intros x. unfold engine_op. by destruct (m (xEngine x)). Qed.
Lemma orderly_set_header key value : orderly (set_header key value).
Proof. by apply orderly_same. Qed.
Lemma orderly_bind {A B} (m : prog Exchange A) (f : A → prog Exchange B) :
  orderly m → (∀ a, orderly (f a)) → orderly (m ≫= f).
Proof. intros [? ?] Hf. split; apply keeps_bind; try done; intros a; apply (Hf a). Qed.

Lemma answers_orderly {A} (m : prog Exchange A) : answers m → orderly m.
Proof. by intros []. Qed.

Lemma answers_here {A B} (m : prog Exchange A) (f : A → prog Exchange B) :
  answers m → (∀ a, orderly (f a)) → answers (m ≫= f).
Proof.
  intros [Ho Hm] Hf. split; [by apply orderly_bind|]. intros x Hx. specialize (Hm x Hx). revert Hm.
  unfold mbind, prog_bind. destruct (m x) as [x' [a|msg|]]; try done. intros Hm _. by apply (Hf a), Hm.
Qed.

Lemma answers_later {A B} (m : prog Exchange A) (f : A → prog Exchange B) :
  orderly m → (∀ a, answers (f a)) → answers (m ≫= f).
Proof.
  intros Ho Hf. split; [apply orderly_bind; [done|]; intros a; apply (Hf a)|]. intros x Hx%Ho. revert Hx.
  unfold mbind, prog_bind. destruct (m x) as [x' [a|msg|]]; try done. intros Hx. by apply (Hf a).
Qed.

Lemma answers_WriteHeader status : is_status status = true → answers (WriteHeader status).
Proof.
  intros Hst. split; [split; intros x; unfold answered, recorded; simpl; case_bool_decide; simpl; naive_solver|].
  intros x Hx _. unfold answered, recorded in *. simpl. case_bool_decide as Hz; [naive_solver|]. simpl.
  split; [done|]. apply bool_decide_eq_true in Hst. lia.
Qed.

Lemma answers_panic {A} msg : answers (panic msg : prog Exchange A).
Proof. split; [by apply orderly_same|done]. Qed.
Lemma answers_blocked {A} : answers ((λ x, (x, Blocked)) : prog Exchange A).
Proof. split; [by apply orderly_same|done]. Qed.

#[local] Opaque orderly answers.
#[local] Hint Constants Opaque : dzero.
#[local] Hint Extern 1 (is_status _ = true) => reflexivity : dzero.
#[local] Hint Resolve orderly_ret orderly_get orderly_engine orderly_set_header answers_WriteHeader answers_panic answers_blocked
  answers_orderly : dzero.

(** Follows a handler to the place where it answers. *)
Ltac answer :=
  repeat first
    [ match goal with H : ?P |- ?P => exact H end
    | progress intros
    | solve [eauto with dzero nocore]
    | match goal with
      | |- answers (_ ≫= _) => apply answers_here; [solve [eauto with dzero nocore]|]
      | |- answers (_ ≫= _) => apply answers_later
      | |- orderly (_ ≫= _) => apply orderly_bind
      | |- answers (if ?b then _ else _) => destruct b
      | |- answers (match ?m with _ => _ end) => destruct m
      | |- orderly (match ?m with _ => _ end) => destruct m
      end ].

Lemma orderly_Write payload : orderly (Write payload).
Proof. unfold Write. answer. apply orderly_same. intros x. simpl. by destruct (body_allowed _). Qed.
#[local] Hint Resolve orderly_Write : dzero.

Lemma answers_writeJSON status value : is_status status = true → answers (writeJSON status value).
Proof. unfold writeJSON, Encode. answer. Qed.
#[local] Hint Resolve answers_writeJSON : dzero.
Lemma answers_error status msg : is_status status = true → answers (writeDockerError status msg).
Proof. apply answers_writeJSON. Qed.
#[local] Hint Resolve answers_error : dzero.
Lemma answers_unsupported status msg : is_status status = true → answers (writeUnsupportedDockerError status msg).
Proof. unfold writeUnsupportedDockerError. answer. Qed.
Lemma orderly_state_of p : orderly (state_of p).
Proof. apply orderly_engine. Qed.
Lemma orderly_log_for now p event f : orderly (log_for now p event f).
Proof. apply orderly_engine. Qed.
Lemma orderly_log_event now p event adv request response : orderly (log_event now p event adv request response).
Proof. apply orderly_engine. Qed.
Lemma orderly_stop_runtime p : orderly (stop_runtime p).
Proof. unfold stop_runtime. answer. Qed.
#[local] Hint Resolve answers_unsupported orderly_state_of orderly_log_for orderly_log_event orderly_stop_runtime : dzero.

Lemma answers_wait r p : answers (handleContainerWait r p).
Proof. unfold handleContainerWait, Flush. cbv zeta. answer. Qed.
Lemma answers_finish p site event advance_event before statusCode : is_status statusCode = true →
  answers (finish_action p site event advance_event before statusCode).
Proof. unfold finish_action. answer. Qed.
Lemma answers_start_failed p site event before err : answers (start_failed p site event before err).
Proof. unfold start_failed. answer. Qed.
Lemma answers_attempt p now event refused m after : is_status refused = true → orderly after →
  answers (attempt_action p now event refused m after).
Proof. unfold attempt_action. answer. Qed.
#[local] Hint Resolve answers_wait answers_finish answers_start_failed answers_attempt : dzero.

Lemma answers_switch r parts ref action p : answers (container_switch r parts ref action p).
Proof.
  unfold container_switch, inspect_action, start_action, stop_action, restart_action, kill_action, logs_action, top_action,
    exec_action, remove_action. cbv zeta. answer.
Qed.
#[local] Hint Resolve answers_switch : dzero.
Lemma answers_action r rest : answers (handleContainerAction r rest).
Proof. unfold handleContainerAction. cbv zeta. answer. Qed.
Lemma answers_refuse err : answers (refuse_create err).
Proof. apply answers_error. by destruct (Contains _ _). Qed.
#[local] Hint Resolve answers_refuse : dzero.
Lemma answers_create r : answers (handleContainerCreate r).
Proof. unfold handleContainerCreate, configure_created, connect_created. answer. Qed.
Lemma orderly_list_loop all filters ps : orderly (list_loop all filters ps).
Proof. induction ps as [|p ps IH]; cbn [list_loop]; answer. Qed.
#[local] Hint Resolve orderly_list_loop : dzero.
Lemma answers_list r : answers (handleContainerList r).
Proof. unfold handleContainerList. cbv zeta. answer. Qed.
#[local] Hint Resolve answers_action answers_create answers_list : dzero.

Lemma answers_network_action r rest : answers (handleNetworkAction r rest).
Proof.
  unfold handleNetworkAction, remove_network_action, connection_action, change_connection. cbv zeta. answer.
  all: apply answers_error; by match goal with |- context [match ?k with _ => _ end] => destruct k end.
Qed.
Lemma answers_volume_action r ref : answers (handleVolumeAction r ref).
Proof. unfold handleVolumeAction. cbv zeta. answer. Qed.
Lemma answers_admin r path : answers (handleAdmin r path).
Proof. unfold handleAdmin, handle_dns. answer. Qed.
Lemma answers_image_create r : answers (handleImageCreate r).
Proof. unfold handleImageCreate, Encode. cbv zeta. answer. Qed.
Lemma answers_ping r : answers (handlePing r).
Proof. unfold handlePing. answer. Qed.
#[local] Hint Resolve answers_network_action answers_volume_action answers_admin answers_image_create answers_ping : dzero.

Lemma answers_route r path : answers (route_request r path).
Proof.
  unfold route_request, handleInfo, handleImageList, handleImageInspect, handleNetworkList, handleNetworkCreate,
    handleVolumeList, handleVolumeCreate, handleExecAction, unsupported_request. cbv zeta. answer.
Qed.

Lemma answers_serve_request r : answers (serve_request r).
Proof.
  apply answers_later; [by apply orderly_same|]. intros []. destruct (validateAPIVersionPath _); [answer|apply answers_route].
Qed.
End answers.

(** * What is not supported changes nothing *)

Definition marked (x : Exchange) : Prop := is_Some (xHeader x !! "X-Docker-Zero-Unsupported").

Section inert.
Context {FS : FileSystem} {RO : RangeOrder} {UN : Unicode} {SK : Sockets} {CK : Clock} {PL : Platform} {JM : JsonMessages} {WT : Waiting}.

(** A quiet part never marks the response; a look changes neither the response's
    headers nor the engine; an honest handler has changed nothing when it marks. *)
Definition quiet {A} (m : prog Exchange A) : Prop := keeps (λ x, ¬ marked x) m.
Definition looks {A} (m : prog Exchange A) : Prop :=
  ∀ x, xEngine (m x).1 = xEngine x ∧ xHeader (m x).1 = xHeader x.
Definition honest (m : prog Exchange ()) : Prop :=
  ∀ x, ¬ marked x → ¬ marked (m x).1 ∨ (xEngine (m x).1 = xEngine x ∧ (m x).2 = Done ()).

Lemma quiet_engine {A} (m : prog Engine A) : quiet (engine_op m).
Proof. intros x. unfold engine_op, marked. by destruct (m (xEngine x)). Qed.
Lemma quiet_ret {A} (a : A) : quiet (mret a).
Proof. by intros x. Qed.
Lemma quiet_get : quiet get.
Proof. by intros x. Qed.
Lemma quiet_panic {A} msg : quiet (panic msg : prog Exchange A).
Proof. by intros x. Qed.
Lemma quiet_blocked {A} : quiet ((λ x, (x, Blocked)) : prog Exchange A).
Proof. by intros x. Qed.
Lemma quiet_bind {A B} (m : prog Exchange A) (f : A → prog Exchange B) : quiet m → (∀ a, quiet (f a)) → quiet (m ≫= f).
Proof. apply keeps_bind. Qed.
Lemma quiet_WriteHeader status : quiet (WriteHeader status).
Proof. intros x. unfold marked. simpl. by case_bool_decide. Qed.
Lemma quiet_header key value : bool_decide (key ≠ "X-Docker-Zero-Unsupported") = true → quiet (set_header key value).
Proof. intros Hk%bool_decide_eq_true x. unfold marked. simpl. by rewrite lookup_insert_ne. Qed.

Lemma quiet_modify_exchange f : (∀ x, xHeader (f x) = xHeader x) → quiet (modify f).
Proof. intros Hf x. unfold marked. simpl. by rewrite Hf. Qed.

Lemma looks_get : looks get.
Proof. by intros x. Qed.
Lemma looks_deref p : looks (engine_op (deref p)).
Proof. intros x. unfold engine_op. rewrite deref_spec. by destruct (heap (xEngine x) !! p). Qed.
Lemma looks_state_of p : looks (state_of p).
Proof.
  intros x. unfold state_of, engine_op, mbind, prog_bind. rewrite deref_spec. by destruct (heap (xEngine x) !! p).
Qed.

Lemma honest_quiet m : quiet m → honest m.
Proof. intros Hm x Hx%Hm. by left. Qed.
Lemma honest_look {A} (m : prog Exchange A) f : looks m → (∀ a, honest (f a)) → honest (m ≫= f).
Proof.
  intros Hm Hf x Hx. destruct (Hm x) as [He Hh]. assert (¬ marked (m x).1) as Hx' by (unfold marked; by rewrite Hh).
  unfold mbind, prog_bind. destruct (m x) as [x' [a|msg|]]; [|by left..]. simpl in *. rewrite <-He. by apply Hf.
Qed.
(** Only the response is written. *)
Definition talks {A} (m : prog Exchange A) : Prop := ∀ x, xEngine (m x).1 = xEngine x ∧ is_Done (m x).2 = true.
Lemma talks_bind {A B} (m : prog Exchange A) (f : A → prog Exchange B) : talks m → (∀ a, talks (f a)) → talks (m ≫= f).
Proof.
  intros Hm Hf x. destruct (Hm x) as [He Ho]. unfold mbind, prog_bind.
  destruct (m x) as [x' [a|msg|]]; [|done..]. simpl in He. rewrite <-He. apply Hf.
Qed.
Lemma talks_modify f : (∀ x, xEngine (f x) = xEngine x) → talks (modify f).
Proof. intros Hf x. by split; [apply Hf|]. Qed.
Lemma talks_WriteHeader status : talks (WriteHeader status).
Proof. apply talks_modify. intros x. cbv beta. by case_bool_decide. Qed.
Lemma talks_Write payload : talks (Write payload).
Proof.
  apply talks_bind; [done|]. intros x. apply talks_bind; [case_bool_decide; [apply talks_WriteHeader|done]|]. intros [].
  apply talks_modify. intros x'. by destruct (body_allowed _).
Qed.
Lemma talks_unsupported status msg : talks (writeUnsupportedDockerError status msg).
Proof.
  apply talks_bind; [by apply talks_modify|]. intros []. apply talks_bind; [by apply talks_modify|]. intros [].
  apply talks_bind; [apply talks_WriteHeader|]. intros []. apply talks_Write.
Qed.
Lemma honest_unsupported status msg : honest (writeUnsupportedDockerError status msg).
Proof.
  intros x Hx. right. destruct (talks_unsupported status msg x) as [He Ho]. split; [done|].
  by destruct (writeUnsupportedDockerError status msg x).2 as [[]| |].
Qed.

#[local] Opaque quiet honest looks.
#[local] Hint Constants Opaque : dzero.
#[local] Hint Extern 1 (bool_decide (_ ≠ "X-Docker-Zero-Unsupported") = true) => reflexivity : dzero.
#[local] Hint Resolve quiet_engine quiet_ret quiet_get quiet_panic quiet_blocked quiet_WriteHeader quiet_header
  looks_get looks_deref looks_state_of honest_unsupported : dzero.

(** Quiet where it can be, otherwise looking on to where the response is marked. *)
Ltac hush :=
  repeat first
    [ match goal with H : ?P |- ?P => exact H end
    | progress intros
    | solve [eauto with dzero nocore]
    | match goal with
      | |- quiet (_ ≫= _) => apply quiet_bind
      | |- quiet (match ?m with _ => _ end) => destruct m
      end ].
Ltac confess :=
  repeat first
    [ progress intros
    | solve [eauto with dzero nocore]
    | match goal with |- honest (match ?m with _ => _ end) => destruct m end
    | solve [apply honest_quiet; hush]
    | match goal with |- honest (_ ≫= _) => apply honest_look; [solve [eauto with dzero nocore]|] end ].

Lemma quiet_Write payload : quiet (Write payload).
Proof. unfold Write. hush. apply quiet_modify_exchange. intros x. by destruct (body_allowed _). Qed.
#[local] Hint Resolve quiet_Write : dzero.
Lemma quiet_writeJSON status value : quiet (writeJSON status value).
Proof. unfold writeJSON, Encode. hush. Qed.
#[local] Hint Resolve quiet_writeJSON : dzero.
Lemma quiet_error status msg : quiet (writeDockerError status msg).
Proof. apply quiet_writeJSON. Qed.
Lemma quiet_state_of p : quiet (state_of p).
Proof. apply quiet_engine. Qed.
Lemma quiet_log_for now p event f : quiet (log_for now p event f).
Proof. apply quiet_engine. Qed.
Lemma quiet_log_event now p event adv request response : quiet (log_event now p event adv request response).
Proof. apply quiet_engine. Qed.
#[local] Hint Resolve quiet_error quiet_state_of quiet_log_for quiet_log_event : dzero.
Lemma quiet_stop_runtime p : quiet (stop_runtime p).
Proof. unfold stop_runtime. hush. Qed.
#[local] Hint Resolve quiet_stop_runtime : dzero.
Lemma quiet_wait r p : quiet (handleContainerWait r p).
Proof. unfold handleContainerWait, Flush. cbv zeta. hush. Qed.
Lemma quiet_finish p site event advance_event before statusCode : quiet (finish_action p site event advance_event before statusCode).
Proof. unfold finish_action. hush. Qed.
Lemma quiet_start_failed p site event before err : quiet (start_failed p site event before err).
Proof. unfold start_failed. hush. Qed.
Lemma quiet_attempt p now event refused m after : quiet after → quiet (attempt_action p now event refused m after).
Proof. unfold attempt_action. hush. Qed.
Lemma quiet_list_loop all filters ps : quiet (list_loop all filters ps).
Proof. induction ps as [|p ps IH]; cbn [list_loop]; hush. Qed.
#[local] Hint Resolve quiet_wait quiet_finish quiet_start_failed quiet_attempt quiet_list_loop : dzero.

Lemma honest_switch r parts ref action p : honest (container_switch r parts ref action p).
Proof.
  unfold container_switch, inspect_action, start_action, stop_action, restart_action, kill_action, logs_action, top_action,
    exec_action, remove_action. cbv zeta. confess.
Qed.
#[local] Hint Resolve honest_switch : dzero.
Lemma honest_action r rest : honest (handleContainerAction r rest).
Proof. unfold handleContainerAction. cbv zeta. confess. Qed.
Lemma honest_create r : honest (handleContainerCreate r).
Proof. unfold handleContainerCreate, configure_created, connect_created, refuse_create. confess. Qed.
Lemma honest_list r : honest (handleContainerList r).
Proof. unfold handleContainerList. cbv zeta. confess. Qed.
Lemma honest_network_action r rest : honest (handleNetworkAction r rest).
Proof.
  unfold handleNetworkAction, remove_network_action, connection_action, change_connection. cbv zeta. confess.
Qed.
Lemma honest_volume_action r ref : honest (handleVolumeAction r ref).
Proof. unfold handleVolumeAction. cbv zeta. confess. Qed.
Lemma honest_admin r path : honest (handleAdmin r path).
Proof. unfold handleAdmin, handle_dns. confess. Qed.
#[local] Hint Resolve honest_action honest_create honest_list honest_network_action honest_volume_action honest_admin : dzero.

Lemma honest_route r path : honest (route_request r path).
Proof.
  unfold route_request, handlePing, handleImageCreate, Encode, handleInfo, handleImageList, handleImageInspect, handleNetworkList,
    handleNetworkCreate, handleVolumeList, handleVolumeCreate, handleExecAction, unsupported_request. cbv zeta. confess.
Qed.
End inert.

(** * Theorems *)

Section theorems.
Context {FS : FileSystem} {RO : RangeOrder} {UN : Unicode} {SK : Sockets} {CK : Clock} {PL : Platform} {JM : JsonMessages} {WT : Waiting}.

(** What the deferred functions add to a handler that has come to an end. *)
Lemma serve_cases r duration_us e :
  let x := (serve_request r (opened_exchange e)).1 in
  match (serve_request r (opened_exchange e)).2 with
  | Blocked => serve r duration_us e = (x, Blocked)
  | o =>
    let x' := match o with
              | Panic msg => (recoverDockerHTTPHandler (panic msg) x).1
              | _ => x
              end in
    serve r duration_us e
    = (x' <| xEngine := (log_entry (Now "docker_api_server.go:66") (request_entry r duration_us x') (xEngine x')).1 |>, Done ())
  end.
Proof.
  unfold serve, DockerAPI_ServeHTTP, recoverDockerHTTPHandler, recovering.
  destruct (serve_request r _) as [x [[]|msg|]]; cbn [fst snd]; [done| |done].
  unfold panic. cbv beta iota.
  match goal with |- context [match ?m x with _ => _ end] => set (h := m) end.
  assert ((h x).2 = Done ()) as Hdone.
  { unfold h, writeDockerError, writeJSON, Encode, Write, WriteHeader, set_header, modify, mbind, prog_bind, get. simpl.
    case_bool_decide; simpl; case_bool_decide; done. }
  destruct (h x) as [x' o]. simpl in Hdone. by subst o.
Qed.
Lemma recover_answers msg x : recorded x → answered (recoverDockerHTTPHandler (panic msg) x).1.
Proof.
  intros Hx. unfold recoverDockerHTTPHandler, recovering, panic. cbv beta iota.
  match goal with |- answered (?m x).1 => assert (answers m) as Hm end.
  { apply answers_later; [apply orderly_engine|]. intros []. apply answers_later; [apply orderly_set_header|].
    intros []. by apply answers_error. }
  destruct Hm as [_ Hm]. apply (Hm x Hx).
  unfold writeDockerError, writeJSON, Encode, Write, WriteHeader, set_header, modify, mbind, prog_bind, get. simpl.
  case_bool_decide; simpl; case_bool_decide; done.
Qed.

Lemma answered_sent x : answered x →
  ∃ status headers, xSent x = Some (status, headers) ∧ (200 ≤ status ≤ 599)%Z ∧ xStatus x = status.
Proof.
  intros [Hx Hz]. unfold recorded in Hx. destruct (xSent x) as [[status headers]|]; [|done].
  destruct Hx as [Hst Hs%bool_decide_eq_true]. eauto.
Qed.

Lemma logged_last r duration_us x status headers :
  xSent x = Some (status, headers) → (200 ≤ status ≤ 599)%Z → xStatus x = status →
  let x' := x <| xEngine := (log_entry (Now "docker_api_server.go:66") (request_entry r duration_us x) (xEngine x)).1 |> in
  ∃ before fields, xSent x' = Some (status, headers) ∧ (200 ≤ status ≤ 599)%Z ∧
    ledger (xEngine x') = Log (Now "docker_api_server.go:66") (request_entry r duration_us x') before ∧
    eResponse (request_entry r duration_us x') = AnyMap fields ∧
    ("status", AnyInt status) ∈ fields ∧ ("bytes", AnyInt (xBytes x')) ∈ fields.
Proof.
  intros Hsent Hst Hx x'. exists (ledger (xEngine x)). eexists. split; [exact Hsent|]. split; [exact Hst|].
  split; [reflexivity|]. split; [reflexivity|]. change (xStatus x') with (xStatus x).
  rewrite Hx, bool_decide_false by lia. set_solver.
Qed.

(** C2: a request to the API, served by an engine that the operations can reach, takes
    it through engine steps to another such engine, also when the handler panics or
    still waits: so everything that holds of all reachable engines holds between
    any two requests. *)
Theorem request_is_steps now created cbs sd ov l r duration_us e :
  rtc engine_step (newEngine now created cbs sd ov l) e → id_fresh r e → (∀ e1, rtc engine_step e1 (meanwhile e1)) →
  let e' := xEngine (serve r duration_us e).1 in
  rtc engine_step (newEngine now created cbs sd ov l) e' ∧ engine_ok e'.
Proof.
  intros He Hid Hothers e'. assert (rtc engine_step (newEngine now created cbs sd ov l) e') as He'.
  { etrans; [exact He|]. by apply reaches_serve. }
  split; [done|]. by eapply reachable_ok.
Qed.


(** C23: a request that is answered as unsupported - exec, archives, events, an unknown
    operation, another signal than KILL - has changed nothing: the engine differs
    from before only by the ledger entry about the request. *)
Theorem unsupported_changes_nothing r duration_us e : marked (serve r duration_us e).1 →
  ∃ now entry, xEngine (serve r duration_us e).1 = e <| ledger := Log now entry (ledger e) |>.
Proof.
  pose proof (serve_cases r duration_us e) as Hserve. cbv zeta in Hserve.
  assert (¬ marked (serve_request r (opened_exchange e)).1 ∨
    xEngine (serve_request r (opened_exchange e)).1 = e ∧ (serve_request r (opened_exchange e)).2 = Done ()) as Hhonest.
  { unfold serve_request, mbind, prog_bind at 1 2 3, modify at 1 2 3. set (x := fset xHeader _ _).
    assert (xEngine x = e) as He by done. assert (¬ marked x) as Hx by (unfold x, marked; vm_compute; by intros [? ?]).
    clearbody x. rewrite <-He. destruct (validateAPIVersionPath _); [|by apply honest_route].
    apply honest_quiet; [apply quiet_error|done]. }
  revert Hserve Hhonest. destruct (serve_request r (opened_exchange e)) as [x o]. cbn [fst snd]. intros Hserve Hhonest.
  assert (∀ e1, xEngine x = e1 → ∃ now entry, (log_entry (Now "docker_api_server.go:66") (request_entry r duration_us x) e1).1
    = e1 <| ledger := Log now entry (ledger e1) |>) as Hlog by (intros; by eexists _, _).
  destruct o as [[]|msg|]; rewrite Hserve.
  - intros Hm. destruct Hhonest as [Hno|[He _]]; [by destruct Hno|]. cbn [fst xEngine]. rewrite He. by apply Hlog.
  - intros Hm. destruct Hhonest as [Hno|[_ Ho]]; [|done]. exfalso. revert Hm.
    assert (¬ marked (recoverDockerHTTPHandler (panic msg) x).1) as Hq; [|done].
    unfold recoverDockerHTTPHandler, recovering, panic. cbv beta iota.
    match goal with |- ¬ marked (?m x).1 => assert (quiet m) as Hm end; [|by apply Hm].
    apply quiet_bind; [apply quiet_engine|]. intros []. apply quiet_bind; [by apply quiet_header|]. intros []. apply quiet_error.
  - intros Hm. by destruct Hhonest as [Hno|[_ Ho]].
Qed.
End theorems.

(** * Examples *)

Definition clock_zero : Clock := {| Now := λ _, 0%Z |}.
Definition platform_amd64 : Platform := {| GOARCH := "amd64"; GoVersion := "go1.23"; debug_stack := "stack" |}.
Definition messages_plain : JsonMessages := {| json_error := λ _, "invalid JSON" |}.
Definition nobody_waits : Waiting := {| meanwhile := id; client_gone := true |}.

Section examples.
#[local] Existing Instances fs_good range_forward unicode_none sockets_one clock_zero platform_amd64 messages_plain nobody_waits.

Definition fresh_engine : Engine :=
  newEngine 0%Z 0%Z {["nginx" := sample_cookbook "nginx"; "redis" := sample_cookbook "redis"]} 0 ∅ (newLedger "run" 0).

(** Creates a container from an image the cookbooks know. *)
Definition create_request : Request :=
  mkHTTPRequest "POST" "/v1.43/containers/create" "name=web" "@"
    ("{" +:+ dquote +:+ "Image" +:+ dquote +:+ ":" +:+ dquote +:+ "nginx" +:+ dquote +:+ "}").

Lemma request_is_steps_witness :
  let e := xEngine (serve create_request 0 fresh_engine).1 in
  engine_ok e ∧ is_Some (names e !! "web").
Proof.
  split; [|vm_compute; by eexists].
  apply (request_is_steps 0%Z 0%Z {["nginx" := sample_cookbook "nginx"; "redis" := sample_cookbook "redis"]} 0 ∅ (newLedger "run" 0)
    create_request 0 fresh_engine); [apply rtc_refl|done|intros e1; apply rtc_refl].
Defined.

Definition exec_request : Request := mkHTTPRequest "POST" "/exec/abc/start" EmptyString "@" EmptyString.

Lemma unsupported_changes_nothing_witness :
  marked (serve exec_request 0 fresh_engine).1 ∧
  containers (xEngine (serve exec_request 0 fresh_engine).1) = containers fresh_engine.
Proof.
  assert (marked (serve exec_request 0 fresh_engine).1) as Hm by (vm_compute; by eexists).
  split; [done|]. destruct (unsupported_changes_nothing exec_request 0 fresh_engine Hm) as (now & entry & ->). done.
Defined.
End examples.
