(* ===== verification/ApiOperations.v ===== *)
(** Single endpoints of the API: a creation is all or nothing, and what the model
    shows of references and of the bridge network. *)
From Stdlib Require Import Ascii.
From S2P Require Import Prelude GoStrings GoTime Json Cookbook Sha256 CookbookValidation Container ContainerIdentity ContainerConfig ContainerLife EngineTypes DockerFilters ApiUtil Net Ledger Url Decode Engine EngineFacts EngineNetwork NetworkTheorems Redis Runtime Documents Http ApiContainers ApiResources DockerAPI RuntimeTheorems EngineTheorems ApiTheorems.

(** * Identifiers *)

Lemma nibble_alnum x i : is_alnum (nibble x i) = true.
Proof.
  unfold nibble. assert (N.land (N.shiftr x (4 * i)) 15 < 16)%N as Hlt.
  { change 15%N with (N.ones 4). rewrite N.land_ones. by apply N.mod_lt. }
  revert Hlt. generalize (N.land (N.shiftr x (4 * i)) 15). intros n Hn.
  assert (n ∈ N.of_nat <$> List.seq 0 16) as Hin.
  { apply list_elem_of_fmap. exists (N.to_nat n). split; [lia|]. apply elem_of_seq. lia. }
  clear Hn. revert n Hin. apply Forall_forall. repeat constructor.
Qed.

Lemma containerID_alnum name n : string_forallb is_alnum (containerID name n) = true.
Proof.
  unfold containerID, EncodeToString, hex_word. rewrite !string_forallb_app. cbn [string_forallb].
  by rewrite !nibble_alnum.
Qed.

(** A reference that is an identifier is looked up as it is. *)
Lemma id_reference `{Unicode} s : string_forallb is_alnum s = true → TrimPrefix (TrimSpace s) "/" = s.
Proof.
  intros Hs. rewrite TrimSpace_clean.
  - destruct s as [|c s]; [done|]. cbn in Hs. apply andb_true_iff in Hs as [Hc _]. unfold TrimPrefix.
    change "/" with (String "/" EmptyString). rewrite HasPrefix_cons. rewrite bool_decide_false; [done|]. by intros ->.
  - eapply string_forallb_impl, Hs. by intros [[] [] [] [] [] [] [] []].
Qed.

(** * Creation *)

(** Where the engine keeps its containers. *)
Definition place (e : Engine) := (names e, containers e, runtimes e, networks e).

(** Nothing has the identifier yet. *)
Definition unused (e : Engine) (id : string) : Prop :=
  names e !! id = None ∧ containers e !! id = None ∧ runtimes e !! id = None ∧
  ∀ k n, networks e !! k = Some n → EngineTypes.Containers n !! id = None.

(** [e'] is [e] with the container [c] at [p], which nobody has started or waits for. *)
Definition newborn (e e' : Engine) (p : ptr) (c : Container) : Prop :=
  heap e' !! p = Some c ∧ names e !! Name c = None ∧ Running c = false ∧ waiters c = ∅ ∧
  names e' = <[Name c := ID c]> (names e) ∧ containers e' = <[ID c := p]> (containers e) ∧
  runtimes e' = runtimes e ∧ networks e' = networks e.

Section create.
Context {FS : FileSystem} {RO : RangeOrder} {UN : Unicode} {SK : Sockets} {CK : Clock} {PL : Platform} {JM : JsonMessages} {WT : Waiting}.

Lemma engine_op_Done {A} (m : prog Engine A) x e' a :
  m (xEngine x) = (e', Done a) → engine_op m x = (x <| xEngine := e' |>, Done a).
Proof. unfold engine_op. by intros ->. Qed.

(** A change of the new object that keeps what identifies it. *)
Lemma newborn_change e e' e1 p c c1 : newborn e e' p c →
  heap e1 = <[p := c1]> (heap e') → place e1 = place e' →
  (ID c1, Name c1, Running c1, waiters c1) = (ID c, Name c, Running c, waiters c) → newborn e e1 p c1.
Proof.
  intros (Hp & Hn & Hrun & Hw & Hnames & Hc & Hr & Hnets) Hheap [= Hpn Hpc Hpr Hpnets] [= HID HName HRunning Hwaiters].
  unfold newborn. rewrite Hheap, lookup_insert_eq, Hpn, Hpc, Hpr, Hpnets, HID, HName, HRunning, Hwaiters. done.
Qed.

Lemma markRemoved_idle s : waiters (this s) = ∅ →
  markRemoved s = (s <| this := (this s) <| removed := true |> |>, Done ()).
Proof.
  intros Hw. change (notifyWaitersLocked true (s <| this := (this s) <| removed := true |> |>)
    = (s <| this := (this s) <| removed := true |> |>, Done ())).
  set (s' := s <| this := _ |>). assert (waiters (this s') = ∅) as Hw' by exact Hw. clearbody s'.
  unfold notifyWaitersLocked. by rewrite Hw', (proj2 (range_nil _ _) eq_refl).
Qed.

(** The clean-up of a failed creation: everything is in its place again. *)
Lemma remove_newborn now e e' p c : newborn e e' p c → unused e (ID c) → string_forallb is_alnum (ID c) = true →
  ∃ e'', removeContainer now (ID c) true e' = (e'', Done None) ∧ place e'' = place e.
Proof.
  intros (Hp & Hfree & Hrun & Hw & Hnames & Hc & Hr & Hnets) (Hn0 & Hc0 & Hr0 & Hnet0) Hid.
  unfold removeContainer. unfold mbind at 1, prog_bind at 1, get at 1.
  assert (findContainer (ID c) e' = Ok (Some p)) as ->.
  { unfold findContainer. rewrite id_reference, Hnames, Hc by done. destruct (decide (Name c = ID c)) as [->|Hne].
    - by rewrite !lookup_insert_eq.
    - by rewrite (lookup_insert_ne _ _ _ _ Hne), Hn0, lookup_insert_eq. }
  rewrite (bind_deref p _ e' c) by done. rewrite andb_false_r.
  assert (stopContainerRuntime p e' = (e', Done None)) as Hstop.
  { unfold stopContainerRuntime. unfold mbind at 1, prog_bind at 1, get at 1.
    rewrite (bind_deref p _ e' c) by done. by rewrite Hr, Hr0. }
  rewrite (bind_Done _ _ _ _ _ Hstop). unfold mbind at 1, prog_bind at 1, modify at 1.
  rewrite (bind_deref p _ _ c) by done. cbv zeta.
  change (snRunning (stateSnapshotLocked c)) with (Running c). rewrite Hrun.
  unfold mbind at 1, prog_bind at 1. simpl.
  unfold mbind at 1, prog_bind at 1. unfold on at 1. change (heap (unregister c e')) with (heap e'). rewrite Hp.
  rewrite markRemoved_idle by done. eexists. split; [reflexivity|].
  unfold place, unregister. simpl. rewrite Hnames, Hc, Hr, Hnets, !delete_insert_id by done.
  rewrite (delete_id (runtimes e)) by done. f_equal. apply map_eq. intros k. unfold detach_all. rewrite lookup_fmap.
  destruct (networks e !! k) as [n|] eqn:Hk; [|done]. simpl. f_equal. specialize (Hnet0 k n Hk).
  destruct n. simpl in *. by rewrite (delete_id _ _ Hnet0).
Qed.

Lemma configure_ports_outcome p mode aliases e c : heap e !! p = Some c →
  match configureContainerNetworks p mode aliases e with
  | (_, Done (Ok _)) => True
  | (e', Done (Err _)) => e' = e
  | _ => False
  end.
Proof.
  intros Hp. unfold configureContainerNetworks. rewrite (bind_deref p _ e c) by done.
  unfold mbind at 1, prog_bind at 1, get at 1. case_bool_decide.
  - unfold mbind, prog_bind. simpl. by rewrite (on_modify p _ _ c).
  - destruct (plan_networks _ _ _) as [[names plans]|]; [|done].
    unfold mbind, prog_bind. simpl. by rewrite (on_modify p _ _ c).
Qed.

(** One call of the engine whose result is known. *)
Ltac run_engine H := erewrite bind_Done; [|apply engine_op_Done; exact H]; cbv beta iota.

(** A creation that has registered its container: it succeeds, or it is undone. *)
Lemma configure_created_spec request x e p c : newborn e (xEngine x) p c → unused e (ID c) →
  string_forallb is_alnum (ID c) = true →
  ∃ x' warnings err, configure_created request p x = (x', Done (warnings, err)) ∧ xStatus x' = xStatus x ∧
    match err with
    | Some _ => place (xEngine x') = place e
    | None => ∃ c', newborn e (xEngine x') p c' ∧ ID c' = ID c ∧ Name c' = Name c
    end.
Proof.
  intros Hnew Hun Hid. unfold configure_created.
  pose proof (proj1 Hnew) as Hp. set (c1 := (storeRequestedConfig request c).1).
  set (e1 := (xEngine x) <| heap := <[p := c1]> (heap (xEngine x)) |> <| pids := pids (xEngine x) |>).
  assert (newborn e e1 p c1) as Hnew1 by (eapply newborn_change; [exact Hnew|reflexivity..]).
  match goal with |- context [engine_op ?m ≫= _] =>
    assert (m (xEngine x) = (e1, Done (storeRequestedConfig request c).2)) as Hstore end.
  { unfold on. rewrite Hp. unfold e1, c1, mbind, prog_bind, get. cbn [this]. by destruct (storeRequestedConfig request c). }
  run_engine Hstore. clear Hstore.
  pose proof (proj1 Hnew1) as Hp1. unfold configureContainerPortBindings.
  destruct (bind_keys _ _) as [bindings|err] eqn:Hbind.
  - set (c2 := setPortBindings bindings c1). set (e2 := e1 <| heap := <[p := c2]> (heap e1) |> <| pids := pids e1 |>).
    assert (newborn e e2 p c2) as Hnew2 by (eapply newborn_change; [exact Hnew1|reflexivity..]).
    match goal with |- context [engine_op ?m ≫= _] => assert (m e1 = (e2, Done None)) as Hports end.
    { unfold on. by rewrite Hp1. }
    run_engine Hports.
    eexists _, _, _. split; [reflexivity|]. split; [done|]. by exists c2.
  - set (e2 := e1 <| heap := <[p := c1]> (heap e1) |> <| pids := pids e1 |>).
    assert (newborn e e2 p c1) as Hnew2 by (eapply newborn_change; [exact Hnew1|reflexivity..]).
    match goal with |- context [engine_op ?m ≫= _] => assert (m e1 = (e2, Done (Some err))) as Hports end.
    { unfold on. by rewrite Hp1. }
    run_engine Hports.
    assert (deref p e2 = (e2, Done c1)) as Hderef by (rewrite deref_spec; by rewrite (proj1 Hnew2)).
    run_engine Hderef.
    destruct (remove_newborn (Now "docker_api_container_create.go:92") e e2 p c1 Hnew2 Hun Hid) as (e3 & Hrem & Hplace).
    run_engine Hrem.
    eexists _, _, _. by split; [reflexivity|].
Qed.

(** The new container of [e] is in its place in [e']. *)
Definition installed (e e' : Engine) (p : ptr) (c : Container) : Prop :=
  heap e' !! p = Some c ∧ names e !! Name c = None ∧ names e' = <[Name c := ID c]> (names e) ∧
  containers e' = <[ID c := p]> (containers e) ∧ runtimes e' = runtimes e.

Lemma connect_created_spec request x e p c : newborn e (xEngine x) p c → unused e (ID c) →
  string_forallb is_alnum (ID c) = true →
  ∃ x' err, connect_created request p x = (x', Done err) ∧ xStatus x' = xStatus x ∧
    match err with
    | Some _ => place (xEngine x') = place e
    | None => ∃ c', installed e (xEngine x') p c'
    end.
Proof.
  intros Hnew Hun Hid. unfold connect_created. pose proof (proj1 Hnew) as Hp.
  pose proof (configure_ports_outcome p (rNetworkMode request) (rEndpoints request) (xEngine x) c Hp) as Hout.
  pose proof (framing_configure (xEngine x) p (rNetworkMode request) (rEndpoints request) _ (frames_refl _)) as Hframe.
  destruct (configureContainerNetworks _ _ _ _) as [e1 [[[]|err]|msg|]] eqn:Hconf; [| |done..].
  - run_engine Hconf. eexists _, _. split; [reflexivity|]. split; [done|]. cbn [fst] in Hframe.
    destruct (frames_fields _ _ Hframe) as (Hc & Hn & Hsame). destruct (frames_runtimes _ _ Hframe) as (Hr & _).
    destruct (same_object _ _ _ _ Hsame Hp) as (c' & Hp' & [HID [HName _]]%identity_eq).
    destruct Hnew as (_ & Hfree & _ & _ & Hnames & Hcs & Hrt & _).
    exists c'. unfold installed. change (xEngine (x <| xEngine := e1 |>)) with e1. rewrite HID, HName, Hc, Hn, Hr. done.
  - subst e1. run_engine Hconf.
    assert (deref p (xEngine x) = (xEngine x, Done c)) as Hderef by (by rewrite deref_spec, Hp).
    run_engine Hderef.
    destruct (remove_newborn (Now "docker_api_container_create.go:102") e (xEngine x) p c Hnew Hun Hid) as (e3 & Hrem & Hplace).
    run_engine Hrem. eexists _, _. by split; [reflexivity|].
Qed.

Lemma writeJSON_spec status value x : xStatus x = 0%Z →
  ∃ x', writeJSON status value x = (x', Done ()) ∧ xEngine x' = xEngine x ∧ (status ≠ 0%Z → xStatus x' = status).
Proof.
  destruct x as [e st bytes header sent body]. simpl. intros ->.
  unfold writeJSON, Encode, Write, WriteHeader, set_header, modify, mbind, prog_bind, get. simpl.
  case_bool_decide; simpl; (eexists; split; [reflexivity|]); destruct (body_allowed _); naive_solver.
Qed.

Lemma refuse_create_spec err x : xStatus x = 0%Z →
  ∃ x', refuse_create err x = (x', Done ()) ∧ xEngine x' = xEngine x ∧ (xStatus x' = 400 ∨ xStatus x' = 409)%Z.
Proof.
  intros Hx. unfold refuse_create, writeDockerError.
  destruct (writeJSON_spec (if Contains (ToLower err) "conflict" then 409 else 400)%Z
    (AnyMap [("message", AnyString err)]) x Hx) as (x' & Hrun & He & Hst).
  exists x'. split; [done|]. split; [done|]. destruct (Contains _ _); [right|left]; by apply Hst.
Qed.

(** The names and identifiers of [e] do not collide with the next identifier. *)
Lemma create_spec r e : registry_ok e → unused e (next_container_id (get_query r "name") e) →
  let '(x, o) := handleContainerCreate r (opened_exchange e) in
  o = Done () ∧
  (xStatus x = 201%Z ∧ (∃ p c, installed e (xEngine x) p c) ∨
   (xStatus x = 400 ∨ xStatus x = 409)%Z ∧ place (xEngine x) = place e).
Proof.
  intros He Hfresh. unfold handleContainerCreate. set (x0 := opened_exchange e).
  assert (∀ status msg x, xStatus x = 0%Z → place (xEngine x) = place e → (status = 400 ∨ status = 409)%Z →
    let '(x', o) := writeDockerError status msg x in
    o = Done () ∧ (xStatus x' = 201%Z ∧ (∃ p c, installed e (xEngine x') p c) ∨
      (xStatus x' = 400 ∨ xStatus x' = 409)%Z ∧ place (xEngine x') = place e)) as Hrefuse.
  { intros status msg x Hx Hplace Hst. destruct (writeJSON_spec status (AnyMap [("message", AnyString msg)]) x Hx) as (x' & Hrun & He' & Hst').
    unfold writeDockerError. rewrite Hrun. split; [done|]. right. rewrite Hst' by lia. by rewrite He'. }
  assert (∀ err x, xStatus x = 0%Z → place (xEngine x) = place e →
    let '(x', o) := refuse_create err x in
    o = Done () ∧ (xStatus x' = 201%Z ∧ (∃ p c, installed e (xEngine x') p c) ∨
      (xStatus x' = 400 ∨ xStatus x' = 409)%Z ∧ place (xEngine x') = place e)) as Hundo.
  { intros err x Hx Hplace. apply Hrefuse; [done..|]. destruct (Contains _ _); auto. }
  destruct (decodeJSON _ _) as [request|err]; [|by apply Hrefuse; [..|left]].
  destruct (validateMetadata request) as [request' [err|]]; [by apply Hrefuse; [..|left]|].
  pose proof (createContainer_spec (Now "docker_api_container_create.go:87") (get_query r "name") (rImage request')
    (rLabels request') (rEnv request') (rCmd request') e He (proj1 (proj2 Hfresh))) as Hcreate.
  pose proof (chosen_name_spec (get_query r "name") e) as Hname. pose proof Hfresh as Hun.
  assert (string_forallb is_alnum (next_container_id (get_query r "name") e) = true) as Hid.
  { unfold next_container_id. destruct (chosen_name _ _). apply containerID_alnum. }
  destruct (chosen_name _ e) as [nm e1].
  destruct (createContainer _ _ _ _ _ _ e) as [e2 [[p|err]|msg|]] eqn:Hrun; [| |done..]; run_engine Hrun.
  2: { apply Hundo; [done|]. destruct Hcreate as [-> _]. destruct Hname as (_ & -> & _). done. }
  destruct Hcreate as (cb & sd & _ & Hfree & _ & Hwith). set (c := created _ _ _ _ _ _ _ _ _) in *.
  destruct Hwith as (_ & _ & Hh & Hc & Hn & Hnets & [= Hr _ _]).
  assert (newborn e e2 p c) as Hnew.
  { split; [by rewrite Hh, lookup_insert_eq|]. do 3 (split; [done|]). by rewrite Hn, Hc, Hr, Hnets. }
  set (x1 := x0 <| xEngine := e2 |>). change e2 with (xEngine x1) in Hnew.
  destruct (configure_created_spec request' x1 e p c Hnew Hun Hid) as (x2 & warnings & err & Hconf & Hst1 & Herr).
  rewrite (bind_Done _ _ _ _ _ Hconf). destruct err as [err|]; [by apply Hundo|].
  destruct Herr as (c1 & Hnew1 & HID1 & _).
  destruct (connect_created_spec request' x2 e p c1 Hnew1) as (x3 & err & Hconn & Hst2 & Herr); [by rewrite HID1..|].
  rewrite (bind_Done _ _ _ _ _ Hconn). destruct err as [err|]; [apply Hundo; [by rewrite Hst2, Hst1|done]|].
  destruct Herr as (c2 & Hin). assert (deref p (xEngine x3) = (xEngine x3, Done c2)) as Hderef by (rewrite deref_spec; by rewrite (proj1 Hin)).
  run_engine Hderef.
  destruct (writeJSON_spec 201 (AnyMap [("Id", AnyString (ID c2)); ("Warnings", AnyStrings warnings)])
    (x3 <| xEngine := xEngine x3 |>)) as (x4 & Hrun4 & He4 & Hst4); [transitivity (xStatus x3); [done|by rewrite Hst2, Hst1]|].
  rewrite Hrun4. split; [done|]. left. split; [by apply Hst4|]. exists p, c2. by rewrite He4.
Qed.

End create.

(** * Examples *)

Section examples.
#[local] Existing Instances fs_good unicode_none sockets_one clock_zero platform_amd64 messages_plain nobody_waits.

Definition post (path query body : string) : Request := mkHTTPRequest "POST" path query "@" body.
(** An object with one string member. *)
Definition object1 (key value : string) : string := "{" +:+ print_string key +:+ ":" +:+ print_string value +:+ "}".
(** A create request for a port that does not exist. *)
Definition bad_ports : string :=
  "{" +:+ print_string "Image" +:+ ":" +:+ print_string "nginx" +:+ "," +:+ print_string "HostConfig" +:+ ":{"
  +:+ print_string "PortBindings" +:+ ":{" +:+ print_string "70000/tcp" +:+ ":[]}}}".

Section forward.
#[local] Existing Instance range_forward.
Definition after (e : Engine) (r : Request) : Engine := xEngine (serve r 0 e).1.
Definition status_of (e : Engine) (r : Request) : Z := xStatus (serve r 0 e).1.

Lemma fresh_unused name : unused fresh_engine (next_container_id name fresh_engine).
Proof.
  split; [done|]. split; [done|]. split; [done|]. intros k n. unfold fresh_engine, newEngine. simpl.
  by intros [_ <-]%lookup_singleton_Some.
Qed.


(** Cleaning up a failed creation goes by the identifier of the new container, and a
    name is looked up before an identifier: a container that carries the new
    identifier as its name is removed in place of the new one. *)
Definition new_id : string := containerID "web" 2.
Definition engine_with_namesake : Engine :=
  after fresh_engine (post "/containers/create" ("name=" +:+ new_id) (object1 "Image" "nginx")).

Lemma undo_removes_another_container :
  let r := post "/containers/create" "name=web" bad_ports in
  status_of engine_with_namesake r = 400%Z ∧
  (map_to_list (names engine_with_namesake)).*1 = [new_id] ∧
  (map_to_list (names (after engine_with_namesake r))).*1 = ["web"].
Proof. split; [|split]; by vm_compute. Qed.

(** The predefined bridge network is listed and can be inspected, but connecting a
    container to it goes through the identifier, under which it is not registered. *)
Lemma bridge_refuses_connections :
  let web := after fresh_engine (post "/containers/create" "name=web" (object1 "Image" "nginx")) in
  status_of web (mkHTTPRequest "GET" "/networks/bridge" EmptyString "@" EmptyString) = 200%Z ∧
  status_of web (post "/networks/bridge/connect" EmptyString (object1 "Container" "web")) = 400%Z.
Proof. split; by vm_compute. Qed.

(** A malformed escape in a network reference becomes the empty reference, which
    stands for every network. *)
Lemma malformed_reference_deletes :
  let e := after fresh_engine (post "/networks/create" EmptyString (object1 "Name" "internal")) in
  let r := mkHTTPRequest "DELETE" "/networks/%" EmptyString "@" EmptyString in
  is_err (findNetwork (PathUnescape "%") e) = false ∧
  status_of e r = 204%Z ∧ size (networks e) = 2 ∧ size (networks (after e r)) = 1.
Proof. repeat split; by vm_compute. Qed.
End forward.
End examples.
