(* ===== verification/RedisServer.v ===== *)
(** Redis connections: the loops of [handleRedisContainerConnection] and
    [serveRedisListener] ([service_runtime.go]) and the server [RedisMock]
    ([service_redis.go]).

    A connection is served by one goroutine.  Its input is everything the client
    sends before it closes its side; [flushes n] says whether the reply to the
    [n]-th command still reaches the client; [others n] is what the rest of the
    program does before that command, and [clock n] the time it is served at.  What
    one command does is in [Runtime]. *)
From Stdlib Require Import Ascii.
From S2P Require Import Prelude GoStrings GoTime Cookbook CookbookValidation Resp Container EngineTypes Net Ledger Engine EngineFacts EngineNetwork Redis Runtime Http RuntimeTheorems EngineTheorems ApiTheorems.

(** * One connection *)

(** What the client has received, and whether the runtime is synchronised after. *)
Record Served := mkServed { output : string; sync : bool }.

Section connection.
Context {UN : Unicode}.
Context (serve : nat → list string → prog Engine (option RedisStep)) (flushes : nat → bool).

(** The output after a flush. *)
Definition sent (n : nat) (out reply : string) : string := if flushes n then out +:+ reply else out.

Definition error_reply (err : string) : string := line ("-ERR " +:+ sanitizeRedisError err).

(** The loop: [n] commands have been served, [None] of [serve] is a recovered panic. *)
Fixpoint connection_loop (fuel n : nat) (input out : string) : prog Engine Served :=
  match fuel with
  | 0 => mret (mkServed out false)
  | S fuel =>
    match readRESPCommand input with
    | Err err => mret (mkServed (if bool_decide (err = EOF) then out else sent n out (error_reply err)) false)
    | Ok ([], rest) => connection_loop fuel n rest out
    | Ok (command, rest) =>
      step ← serve n command;
      match step with
      | None => mret (mkServed out false)
      | Some (RedisHangUp sync) => mret (mkServed out sync)
      | Some (RedisQuit reply) => mret (mkServed (sent n out reply) false)
      | Some (RedisNotice reply) => connection_loop fuel (S n) rest (sent n out reply)
      | Some (RedisReply reply) =>
        if flushes n then connection_loop fuel (S n) rest (out +:+ reply) else mret (mkServed out false)
      end
    end
  end.

(** A command takes at least one byte. *)
Definition connection (input : string) : prog Engine Served := connection_loop (S (String.length input)) 0 input EmptyString.

(** ** Specification: the commands one after the other *)

Fixpoint run_commands (n : nat) (commands : list (list string)) (final : option string) (out : string) : prog Engine Served :=
  match commands with
  | [] => mret (mkServed (match final with Some reply => sent n out reply | None => out end) false)
  | command :: commands =>
    step ← serve n command;
    match step with
    | None => mret (mkServed out false)
    | Some (RedisHangUp sync) => mret (mkServed out sync)
    | Some (RedisQuit reply) => mret (mkServed (sent n out reply) false)
    | Some (RedisNotice reply) => run_commands (S n) commands final (sent n out reply)
    | Some (RedisReply reply) =>
      if flushes n then run_commands (S n) commands final (out +:+ reply) else mret (mkServed out false)
    end
  end.
End connection.

(** The commands in an input, and the reply to what cannot be read after them. *)
Inductive requests `{Unicode} : string → list (list string) → option string → Prop :=
| requests_end input : readRESPCommand input = Err EOF → requests input [] None
| requests_error input err : readRESPCommand input = Err err → err ≠ EOF → requests input [] (Some (error_reply err))
| requests_blank input rest commands final :
    readRESPCommand input = Ok ([], rest) → requests rest commands final → requests input commands final
| requests_command input word words rest commands final :
    readRESPCommand input = Ok (word :: words, rest) → requests rest commands final →
    requests input ((word :: words) :: commands) final.

Section reading.
Context {UN : Unicode}.

Lemma ReadString_shorter s l rest : ReadString s = Some (l, rest) → String.length rest ≤ String.length s.
Proof.
  unfold ReadString. destruct (Cut s nl) as [[a b]|] eqn:Hcut; [|done]. intros [= _ <-].
  apply Cut_byte_Some in Hcut as [-> _]. rewrite length_app_string. simpl. lia.
Qed.

Lemma drop_string_shorter n s : String.length (drop_string n s) ≤ String.length s.
Proof. revert n. induction s as [|c s IH]; intros [|n]; simpl; try lia. specialize (IH n). lia. Qed.

Lemma read_bulks_shorter count s args rest : read_bulks count s = Ok (args, rest) → String.length rest ≤ String.length s.
Proof.
  revert s args. induction count as [|count IH]; intros s args; [by intros [= <- <-]|]. cbn [read_bulks].
  destruct s as [|c s]; [done|]. destruct (negb _); [done|].
  destruct (ReadString s) as [[l s1]|] eqn:Hl; [|done]. destruct (Atoi_ok _) as [len|]; [|done].
  case_bool_decide; [done|]. case_bool_decide; [done|]. destruct (negb _); [done|].
  destruct (read_bulks count _) as [[args' rest']|] eqn:Hb; [|done]. intros [= <- <-].
  apply IH in Hb. apply ReadString_shorter in Hl. simpl.
  pose proof (drop_string_shorter 2 (drop_string (Z.to_nat len) s1)). pose proof (drop_string_shorter (Z.to_nat len) s1). lia.
Qed.

Lemma readRESPCommand_shorter s command rest : readRESPCommand s = Ok (command, rest) → String.length rest < String.length s.
Proof.
  unfold readRESPCommand. destruct s as [|c s]; [done|]. destruct (negb _).
  - destruct (ReadString s) as [[l r]|] eqn:Hl; [|done]. intros [= _ <-]. apply ReadString_shorter in Hl. simpl. lia.
  - destruct (ReadString s) as [[l r]|] eqn:Hl; [|done]. destruct (Atoi_ok _); [|done]. case_bool_decide; [done|].
    intros Hb%read_bulks_shorter. apply ReadString_shorter in Hl. simpl. lia.
Qed.

(** Every input is a list of commands and what ends it. *)
Lemma requests_total input : ∃ commands final, requests input commands final.
Proof.
  induction input as [input IH] using (induction_ltof1 _ String.length).
  destruct (readRESPCommand input) as [[command rest]|err] eqn:Hread.
  - destruct (IH rest (readRESPCommand_shorter _ _ _ Hread)) as (commands & final & Hr).
    destruct command as [|word words]; [exists commands, final; by eapply requests_blank|].
    exists ((word :: words) :: commands), final. by eapply requests_command.
  - destruct (decide (err = EOF)) as [->|Hne]; [exists [], None; by constructor|].
    exists [], (Some (error_reply err)). by constructor.
Qed.

(** A command that a client can send in the protocol's own encoding. *)
Definition sendable (command : list string) : Prop :=
  command ≠ [] ∧ (Z.of_nat (length command) ≤ max_array)%Z ∧
  Forall (λ a, (Z.of_nat (String.length a) ≤ max_bulk)%Z) command.

Lemma connection_loop_requests serve flushes fuel n input out commands final :
  requests input commands final → String.length input < fuel →
  ∀ e, connection_loop serve flushes fuel n input out e = run_commands serve flushes n commands final out e.
Proof.
  intros Hr. revert fuel n out. induction Hr as [input Hread|input err Hread Hne|input rest commands final Hread _ IH|input word words rest commands final Hread _ IH];
    intros fuel n out Hfuel e; (destruct fuel as [|fuel]; [lia|]); cbn [connection_loop]; rewrite Hread.
  - done.
  - by rewrite bool_decide_false.
  - apply readRESPCommand_shorter in Hread. apply IH. lia.
  - apply readRESPCommand_shorter in Hread. cbn [run_commands]. unfold mbind, prog_bind.
    destruct (serve n (word :: words) e) as [e1 [[[hangs|reply|reply|reply]|]|msg|]]; try done.
    + destruct (flushes n); [|done]. apply IH. lia.
    + apply IH. lia.
Qed.
End reading.

(** * The two servers *)

Section servers.
Context {FS : FileSystem} {RO : RangeOrder} {UN : Unicode} {SK : Sockets} {CK : Clock} {PL : Platform}.
Context (others : nat → Engine → Engine) (clock : nat → Time).

(** A command whose panic is recovered and reported. *)
Definition guarded (component : string) (m : prog Engine RedisStep) : prog Engine (option RedisStep) := λ e,
  match m e with
  | (e', Done step) => (e', Done (Some step))
  | (e', Panic msg) => (reportInternalPanic component (recovered_text msg);; mret None) e'
  | (e', Blocked) => (e', Blocked)
  end.

Definition serve_container (p : ptr) (n : nat) (command : list string) : prog Engine (option RedisStep) :=
  guarded "redis container connection" (modify (others n);; container_redis_command (clock n) p command).
Definition handleRedisContainerConnection (p : ptr) (flushes : nat → bool) (input : string) : prog Engine Served :=
  connection (serve_container p) flushes input.

Definition serve_mock (n : nat) (command : list string) : prog Engine (option RedisStep) :=
  guarded "redis service" (modify (others n);; mock_redis_command (clock n) command).
Definition handleConnection (flushes : nat → bool) (input : string) : prog Engine Served :=
  connection serve_mock flushes input.

(** One round of [serveRedisListener]: the connection or the error that [Accept]
    returned, and whether the loop goes on; the connection is handled when it could
    be registered. *)
Definition net_ErrClosed : string := "use of closed network connection".
Definition accept_connection (p : ptr) (addr : string) (accepted : result nat) : prog Engine bool :=
  c ← deref p;
  match accepted with
  | Ok connection =>
    modify (connection_step (ID c) (λ r, (registerRedisConnection connection r).1));;
    mret true
  | Err err =>
    if bool_decide (err = net_ErrClosed) then mret false
    else
      modify (λ e, e <| internalErrors := reportRuntimeError 4
        ("container " +:+ Name c +:+ " Redis accept " +:+ addr +:+ ": " +:+ err) (internalErrors e) |>);;
      mret false
  end.

(** * Theorems *)

Lemma requests_encoded commands : Forall sendable commands →
  requests (Join (encode_command <$> commands) EmptyString) commands None.
Proof.
  induction 1 as [|command commands (Hne & Hlen & Hargs) Hall IH]; [by constructor|].
  rewrite fmap_cons, Join_empty_cons. destruct command as [|word words]; [done|].
  eapply requests_command; [|exact IH]. by apply readRESPCommand_encode.
Qed.


Lemma advances_guarded component (m : prog Engine RedisStep) : advances m → advances (guarded component m).
Proof.
  intros Hm e. specialize (Hm e). unfold guarded. destruct (m e) as [e1 [step|msg|]]; [done| |done].
  cbn [fst] in Hm. etrans; [exact Hm|]. apply advances_bind; [apply reaches_report|]. intros []. apply advances_ret.
Qed.

Lemma advances_run serve flushes n commands final out : (∀ n command, advances (serve n command)) →
  advances (run_commands serve flushes n commands final out).
Proof.
  intros Hs. revert n out. induction commands as [|command commands IH]; intros n out; cbn [run_commands]; [apply advances_ret|].
  apply advances_bind; [apply Hs|]. intros [[hangs|reply|reply|reply]|]; try apply advances_ret; [|apply IH].
  destruct (flushes n); [apply IH|apply advances_ret].
Qed.

End servers.

(** * The life of [RedisMock] *)

(** [closing], the channel [closed] and the map [connections] as in the code;
    [listening] is the open listener, [accepting] the goroutine of [acceptLoop],
    [handlers] those of [handleConnection], [errors] and [errors_closed] the channel
    of capacity one; [hung] are the connections the server has closed.  [doomed] are
    the connections that calls of [Close] have copied and close next. *)
Record RedisMock := mkMock {
  listening : bool;
  accepting : bool;
  closing : bool;
  mock_closed : bool;
  mock_connections : gset nat;
  handlers : gset nat;
  hung : gset nat;
  doomed : gset nat;
  mock_errors : list string;
  mock_errors_closed : bool
}.
#[export] Instance RedisMock_eta : Eta RedisMock := λ m,
  mkMock (listening m) (accepting m) (closing m) (mock_closed m) (mock_connections m) (handlers m) (hung m)
    (doomed m) (mock_errors m) (mock_errors_closed m).

Definition newRedisMock : RedisMock := mkMock false false false false ∅ ∅ ∅ ∅ [] false.

Section mock.
Context {SK : Sockets}.

(** [Start]; [n] numbers the call of [net.Listen]. *)
Definition mock_Start (n : nat) (addr : string) (m : RedisMock) : RedisMock * option string :=
  match listen n addr with
  | Err err => (m, Some err)
  | Ok _ => (m <| listening := true |> <| accepting := true |>, None)
  end.

(** [acceptLoop] ends: its deferred calls. *)
Definition stop_accepting (m : RedisMock) : RedisMock := m <| accepting := false |> <| mock_errors_closed := true |>.

(** A round of [acceptLoop], with what [Accept] returned. *)
Definition accept_round (accepted : result nat) (m : RedisMock) : RedisMock :=
  match accepted with
  | Err err =>
    stop_accepting (if mock_closed m then m else m <| mock_errors := reportRuntimeError 1 err (mock_errors m) |>)
  | Ok connection =>
    if closing m then stop_accepting (m <| hung := {[connection]} ∪ hung m |>)
    else m <| mock_connections := {[connection]} ∪ mock_connections m |> <| handlers := {[connection]} ∪ handlers m |>
  end.

(** [handleConnection] ends: its deferred calls. *)
Definition handler_done (connection : nat) (m : RedisMock) : RedisMock :=
  m <| mock_connections := mock_connections m ∖ {[connection]} |> <| hung := {[connection]} ∪ hung m |>
    <| handlers := handlers m ∖ {[connection]} |>.

(** [Close], the part under the lock and the part after it. *)
Definition close_begin (m : RedisMock) : RedisMock :=
  m <| closing := true |> <| mock_closed := true |> <| doomed := doomed m ∪ mock_connections m |>.
Definition close_rest (copied : gset nat) (m : RedisMock) : RedisMock :=
  m <| listening := false |> <| hung := copied ∪ hung m |>.

(** [r.wg] is down to zero. *)
Definition drained_mock (m : RedisMock) : bool := negb (accepting m) && bool_decide (handlers m = ∅).

Inductive mock_step (m : RedisMock) : RedisMock → Prop :=
| mock_starts n addr : listening m = false → accepting m = false → mock_step m (mock_Start n addr m).1
| mock_accepts connection : accepting m = true → connection ∉ handlers m → connection ∉ hung m → connection ∉ doomed m →
    mock_step m (accept_round (Ok connection) m)
| mock_accept_fails err : accepting m = true → mock_step m (accept_round (Err err) m)
| mock_handler_ends connection : connection ∈ handlers m → mock_step m (handler_done connection m)
| mock_close_begins : mock_step m (close_begin m)
| mock_closes copied : closing m = true → copied ⊆ doomed m → mock_step m (close_rest copied m).

(** What holds all the time. *)
Record mock_ok (m : RedisMock) : Prop := {
  mock_live : mock_connections m = handlers m;
  mock_flags : mock_closed m = closing m;
  mock_doomed : closing m = true → mock_connections m ⊆ doomed m
}.

Lemma mock_step_ok m m' : mock_ok m → mock_step m m' → mock_ok m'.
Proof.
  intros [H1 H2 H3] Hstep. destruct Hstep as [n addr _ _|connection Hacc Hnew _ _|err Hacc|connection Hin| |copied Hcl Hsub].
  - unfold mock_Start. by destruct (listen n addr); split.
  - unfold accept_round. destruct (closing m) eqn:Hc; split; simpl; rewrite ?Hc; try done. by rewrite H1.
  - unfold accept_round. by destruct (mock_closed m) eqn:Hm; split; simpl; rewrite ?Hm.
  - split; simpl; [by rewrite H1|done|]. intros Hc. specialize (H3 Hc). set_solver.
  - split; simpl; try done. set_solver.
  - by split.
Qed.

End mock.

(** * Witnesses *)

Section examples.
#[local] Existing Instances fs_good range_forward unicode_none sockets_one clock_zero platform_amd64.

Definition redis_engine : Engine := (on 0 (start 0%Z) (sample_engine [sample_container "bb22" "db" "redis"])).1.
Definition set_get : list (list string) := [["SET"; "k"; crlf]; ["GET"; "k"]; ["QUIT"]; ["PING"]].

Lemma set_get_sendable : Forall sendable set_get.
Proof. repeat constructor; by vm_compute. Qed.



End examples.
