(* ===== verification/Options.v ===== *)
(** The command line and the values of its flags: [parseOptions] of [main.go] with
    the part of package [flag] it uses, [parseScenarioOverrides], [parseSocketMode],
    [applyListenAddresses] and the other functions of [main.go] that do no I/O.

    Standard error is a text that grows.  Of what package [flag] writes there the
    message is modelled, the list of flags that follows it is not. *)
From Stdlib Require Import Ascii.
From S2P Require Import Prelude GoStrings Cookbook Diagnostic Net.

(** * Errors *)

(** An error of the start-up: a plain one, or one that is or wraps a diagnostic. *)
Inductive failure :=
| Plain (text : string)
| Diagnosed (d : DiagnosticError).

Definition renderError (err : failure) : string :=
  match err with Diagnosed d => Render d | Plain text => text end.

Definition printFailure (stderr category : string) (err : failure) : string :=
  match err with
  | Diagnosed d => stderr +:+ Render d +:+ nl
  | Plain _ => stderr +:+ category +:+ ": " +:+ renderError err +:+ nl
  end.

(** * Numbers: [strconv.ParseInt(s, 0, 64)] and [strconv.ParseBool] *)

(** The base that a prefix announces, and the digits after it. *)
Definition base_prefix (s : string) : Z * string :=
  match s with
  | String "0" t =>
    match t with
    | String c (String _ _ as digits) =>
      let c := lower_byte c in
      if bool_decide (c = "b"%char) then (2%Z, digits)
      else if bool_decide (c = "o"%char) then (8%Z, digits)
      else if bool_decide (c = "x"%char) then (16%Z, digits)
      else (8%Z, t)
    | _ => (8%Z, t)
    end
  | _ => (10%Z, s)
  end.

Definition digit_value36 (c : ascii) : Z :=
  if is_digit c then (byte_of c - 48)%Z
  else if is_lower (lower_byte c) then (byte_of (lower_byte c) - 97 + 10)%Z
  else 255%Z.

(** The digit loop when the base was read from the text: underscores are passed over. *)
Fixpoint parse_digits0 (base : Z) (s : string) (n : Z) : Z + NumError :=
  match s with
  | EmptyString => inl n
  | String c s =>
    if bool_decide (c = "_"%char) then parse_digits0 base s n
    else if bool_decide (base ≤ digit_value36 c)%Z then inr ErrSyntax
    else if bool_decide (max_uint64 / base + 1 ≤ n)%Z then inr ErrRange
    else
      let n := (n * base + digit_value36 c)%Z in
      if bool_decide (max_uint64 < n)%Z then inr ErrRange else parse_digits0 base s n
  end.

#[export] Instance NumError_eq : EqDecision NumError.
Proof. solve_decision. Defined.

(** What [underscoreOK] has seen last. *)
Inductive seen_last := AtStart | ADigit | AnUnderscore | Other.
#[export] Instance seen_last_eq : EqDecision seen_last.
Proof. solve_decision. Defined.

Fixpoint underscore_loop (hex : bool) (s : string) (last : seen_last) : bool :=
  match s with
  | EmptyString => negb (bool_decide (last = AnUnderscore))
  | String c s =>
    if is_digit c || hex && in_range "a" "f" (lower_byte c) then underscore_loop hex s ADigit
    else if bool_decide (c = "_"%char) then
      if bool_decide (last = ADigit) then underscore_loop hex s AnUnderscore else false
    else if bool_decide (last = AnUnderscore) then false
    else underscore_loop hex s Other
  end.

Definition underscoreOK (s : string) : bool :=
  match s with
  | String "0" (String c t) =>
    let c := lower_byte c in
    if bool_decide (c = "b"%char ∨ c = "o"%char ∨ c = "x"%char)
    then underscore_loop (bool_decide (c = "x"%char)) t ADigit
    else underscore_loop false s AtStart
  | _ => underscore_loop false s AtStart
  end.

Definition ParseUint0 (s : string) : Z + NumError :=
  match s with
  | EmptyString => inr ErrSyntax
  | _ =>
    let '(base, digits) := base_prefix s in
    match parse_digits0 base digits 0 with
    | inl n => if ContainsByte s "_" && negb (underscoreOK s) then inr ErrSyntax else inl n
    | inr err => inr err
    end
  end.

Definition ParseInt0 (s : string) : Z + NumError :=
  let signed (neg : bool) (s : string) :=
    match ParseUint0 s with
    | inr err => inr err
    | inl un =>
      if (if neg then bool_decide (2^63 < un)%Z else bool_decide (2^63 ≤ un)%Z) then inr ErrRange
      else inl (if neg then - un else un)%Z
    end in
  match s with
  | String "+" t => signed false t
  | String "-" t => signed true t
  | _ => signed false s
  end.

Definition ParseBool (s : string) : option bool :=
  if bool_decide (s ∈ ["1"; "t"; "T"; "true"; "TRUE"; "True"]) then Some true
  else if bool_decide (s ∈ ["0"; "f"; "F"; "false"; "FALSE"; "False"]) then Some false
  else None.

Example parse_int_examples :
  ParseInt0 <$> ["2"; "0x10"; "-017"; "1_000"; "0b11"; "+0o7"; "0"; "_1"; "1__0"; "08"; "9223372036854775808"; EmptyString; "0x"; "0x_f"; "-9223372036854775808"]
  = [inl 2; inl 16; inl (-15); inl 1000; inl 3; inl 7; inl 0; inr ErrSyntax; inr ErrSyntax; inr ErrSyntax; inr ErrRange;
     inr ErrSyntax; inr ErrSyntax; inl 15; inl (-9223372036854775808)]%Z.
Proof. by vm_compute. Qed.

(** * Flags *)

Record options := mkOptions {
  socketPath : string;
  oSeed : Z;
  scenarioFlag : string;
  cookbookDir : string;
  ledgerDir : string;
  nginxAddr : string;
  redisAddr : string;
  containerEndpoints : string;
  oSocketMode : string;
  bootstrap : bool;
  oCheck : bool;
  showVersion : bool
}.
#[export] Instance options_eta : Eta options := λ o,
  mkOptions (socketPath o) (oSeed o) (scenarioFlag o) (cookbookDir o) (ledgerDir o) (nginxAddr o)
    (redisAddr o) (containerEndpoints o) (oSocketMode o) (bootstrap o) (oCheck o) (showVersion o).

Definition default_options : options :=
  mkOptions "/tmp/docker-zero.sock" 0 EmptyString EmptyString "./runs" "127.0.0.1:18080" "127.0.0.1:16379"
    "auto" "0660" false false false.

Inductive flag :=
| StringFlag (set : string → options → options)
| IntFlag (set : Z → options → options)
| BoolFlag (set : bool → options → options).

(** The flag set of [parseOptions]. *)
Definition formal : list (string * flag) := [
  ("socket", StringFlag (λ v o, o <| socketPath := v |>));
  ("seed", IntFlag (λ v o, o <| oSeed := v |>));
  ("scenario", StringFlag (λ v o, o <| scenarioFlag := v |>));
  ("cookbook-dir", StringFlag (λ v o, o <| cookbookDir := v |>));
  ("ledger-dir", StringFlag (λ v o, o <| ledgerDir := v |>));
  ("nginx-address", StringFlag (λ v o, o <| nginxAddr := v |>));
  ("redis-address", StringFlag (λ v o, o <| redisAddr := v |>));
  ("container-endpoints", StringFlag (λ v o, o <| containerEndpoints := v |>));
  ("socket-mode", StringFlag (λ v o, o <| oSocketMode := v |>));
  ("bootstrap", BoolFlag (λ v o, o <| bootstrap := v |>));
  ("check", BoolFlag (λ v o, o <| oCheck := v |>));
  ("version", BoolFlag (λ v o, o <| showVersion := v |>))].

Fixpoint assoc {A} (key : string) (l : list (string * A)) : option A :=
  match l with
  | [] => None
  | (k, a) :: l => if bool_decide (k = key) then Some a else assoc key l
  end.

(** What an argument is to package [flag]. *)
Inductive argument :=
| NoFlag
| Terminator
| BadSyntax
| Named (name : string) (value : option string).

Definition flag_text (text : string) : argument :=
  match text with
  | EmptyString => BadSyntax
  | String "-" _ | String "=" _ => BadSyntax
  | _ => match Cut text "=" with
         | Some (name, value) => Named name (Some value)
         | None => Named text None
         end
  end.

Definition read_argument (s : string) : argument :=
  match s with
  | String "-" EmptyString => NoFlag
  | String "-" (String "-" EmptyString) => Terminator
  | String "-" (String "-" text) => flag_text text
  | String "-" text => flag_text text
  | _ => NoFlag
  end.

Definition num_error (err : NumError) : string :=
  match err with ErrSyntax => "parse error" | ErrRange => "value out of range" end.

Inductive parsed :=
| Parsed (o : options) (args : list string)
| Help
| BadFlag (msg : string).

Section unicode.
Context {UN : Unicode}.

(** [flag.Value.Set] of a flag that takes a value. *)
Definition set_value (f : flag) (value : string) (o : options) : result options :=
  match f with
  | StringFlag set => Ok (set value o)
  | IntFlag set => match ParseInt0 value with inl v => Ok (set v o) | inr err => Err (num_error err) end
  | BoolFlag set => match ParseBool value with Some v => Ok (set v o) | None => Err "parse error" end
  end.

Definition invalid_value (value name err : string) : string :=
  "invalid value " +:+ Quote value +:+ " for flag -" +:+ name +:+ ": " +:+ err.

(** [FlagSet.Parse] *)
Fixpoint parse_flags (args : list string) (o : options) : parsed :=
  match args with
  | [] => Parsed o []
  | s :: rest =>
    match read_argument s with
    | NoFlag => Parsed o args
    | Terminator => Parsed o rest
    | BadSyntax => BadFlag ("bad flag syntax: " +:+ s)
    | Named name value =>
      match assoc name formal with
      | None =>
        if bool_decide (name = "help" ∨ name = "h") then Help
        else BadFlag ("flag provided but not defined: -" +:+ name)
      | Some (BoolFlag _ as f) =>
        match set_value f (default "true" value) o with
        | Ok o => parse_flags rest o
        | Err err => BadFlag ("invalid boolean value " +:+ Quote (default "true" value) +:+ " for -" +:+ name +:+ ": " +:+ err)
        end
      | Some f =>
        match value with
        | Some v =>
          match set_value f v o with
          | Ok o => parse_flags rest o
          | Err err => BadFlag (invalid_value v name err)
          end
        | None =>
          match rest with
          | [] => BadFlag ("flag needs an argument: -" +:+ name)
          | v :: rest =>
            match set_value f v o with
            | Ok o => parse_flags rest o
            | Err err => BadFlag (invalid_value v name err)
            end
          end
        end
      end
    end
  end.

(** Standard error, and the options. *)
Definition parseOptions (args : list string) (stderr : string) : string * result options :=
  match parse_flags args default_options with
  | Help => (stderr, Err "flag: help requested")
  | BadFlag msg => (stderr +:+ msg +:+ nl, Err msg)
  | Parsed opts ((_ :: _) as rest) =>
    let err := "unexpected positional arguments: " +:+ Join rest " " in
    (printFailure stderr "CLI_ERROR" (Plain err), Err err)
  | Parsed opts [] =>
    if bool_decide (oSeed opts < 0 ∨ 2 < oSeed opts)%Z then
      let err := "seed must be 0, 1, or 2; got " +:+ Itoa (oSeed opts) in
      (printFailure stderr "CLI_ERROR" (Plain err), Err err)
    else (stderr, Ok opts)
  end.
End unicode.

Example parse_options_examples :
  (λ args, (parseOptions (UN := unicode_none) args EmptyString).2) <$>
    [["--seed"; "1"; "-check"]; ["-seed=3"]; ["--bootstrap=no"]; ["--"; "x"]; ["-socket"]; ["-h"]; ["---x"]; ["-seed=0x2"; "--"]]
  = [Ok (default_options <| oSeed := 1%Z |> <| oCheck := true |>); Err "seed must be 0, 1, or 2; got 3";
     Err ("invalid boolean value " +:+ dquote +:+ "no" +:+ dquote +:+ " for -bootstrap: parse error");
     Err "unexpected positional arguments: x"; Err "flag needs an argument: -socket"; Err "flag: help requested";
     Err "bad flag syntax: ---x"; Ok (default_options <| oSeed := 2%Z |>)].
Proof. by vm_compute. Qed.

(** * The values of the flags *)

Section values.
Context {UN : Unicode}.

Definition normalizeEndpointMode (value : string) : result string :=
  let value := ToLower (TrimSpace value) in
  if bool_decide (value ∈ ["auto"; "on"; "off"]) then Ok value
  else Err ("container-endpoints must be auto, on, or off; got " +:+ Quote value).

Definition parseSocketMode (value : string) : result Z :=
  match ParseUint value 8 32 with
  | (_, Some _) => Err ("invalid socket mode " +:+ Quote value +:+ ": expected octal such as 0660")
  | (mode, None) =>
    if bool_decide (511 < mode)%Z
    then Err ("invalid socket mode " +:+ Quote value +:+ ": permissions must be between 0000 and 0777")
    else Ok mode
  end.

(** One override, as the loop of [parseScenarioOverrides] reads it. *)
Definition parse_override (part : string) : result (string * Z) :=
  let invalid := Err ("invalid scenario override " +:+ Quote part +:+ "; expected kind-or-container=seed") in
  match SplitN (TrimSpace part) "=" 2 with
  | [name; text] =>
    if bool_decide (TrimSpace name = EmptyString) then invalid
    else match Atoi_ok (TrimSpace text) with
    | Some seed =>
      if bool_decide (seed < 0 ∨ 2 < seed)%Z
      then Err ("invalid seed in override " +:+ Quote part +:+ "; expected 0, 1, or 2")
      else Ok (ToLower (TrimPrefix (TrimSpace name) "/"), seed)
    | None => Err ("invalid seed in override " +:+ Quote part +:+ "; expected 0, 1, or 2")
    end
  | _ => invalid
  end.

Fixpoint override_loop (parts : list string) (m : gmap string Z) : result (gmap string Z) :=
  match parts with
  | [] => Ok m
  | part :: parts =>
    '(key, seed) ← parse_override part;
    if bool_decide (is_Some (m !! key)) then Err ("duplicate scenario override for " +:+ Quote key)
    else override_loop parts (<[key := seed]> m)
  end.

Definition parseScenarioOverrides (value : string) : result (gmap string Z) :=
  let value := TrimSpace value in
  if bool_decide (value = EmptyString) then Ok ∅ else override_loop (Split value ",") ∅.

Definition override_text (overrides : gmap string Z) (key : string) : string :=
  key +:+ "=" +:+ Itoa (default 0%Z (overrides !! key)).

Definition formatOverrides {RO : RangeOrder} (overrides : gmap string Z) : string :=
  Join (override_text overrides <$> sort_strings (range "main.go:394" overrides).*1) ",".

(** The loop over the cookbooks that fills [known]. *)
Definition know (known : gmap string Cookbook) (entry : string * Cookbook) : gmap string Cookbook :=
  let '(kind, cb) := entry in
  <[ToLower (sName (Defaults cb)) := cb]> (<[ToLower kind := cb]> known).

Definition validateScenarioOverrides {RO : RangeOrder} (cookbooks : gmap string Cookbook)
    (overrides : gmap string Z) : option string :=
  let known := foldl know ∅ (range "main.go:376" cookbooks) in
  let missing (entry : string * Z) : option string :=
    cb ← known !! entry.1;
    if bool_decide (Seeds cb !! Itoa entry.2 = None)
    then Some ("cookbook " +:+ cbKind cb +:+ " has no seed " +:+ Itoa entry.2) else None in
  head (omap missing (range "main.go:380" overrides)).

(** * Listen addresses *)

(** The text of the error of [net.SplitHostPort]. *)
Definition split_host_port_error (hostport : string) : string :=
  let message :=
    match LastIndexByte hostport ":" with
    | None => "missing port in address"
    | Some i =>
      match hostport with
      | String "[" rest =>
        match IndexByte rest "]" with
        | None => "missing ']' in address"
        | Some e =>
          if bool_decide (e + 2 = String.length hostport) then "missing port in address"
          else if bool_decide (e + 2 = i) then
            if ContainsByte rest "[" then "unexpected '[' in address" else "unexpected ']' in address"
          else if bool_decide (String.get (e + 2) hostport = Some ":"%char) then "too many colons in address"
          else "missing port in address"
        end
      | _ =>
        if ContainsByte (take_string i hostport) ":" then "too many colons in address"
        else if ContainsByte hostport "[" then "unexpected '[' in address" else "unexpected ']' in address"
      end
    end in
  if bool_decide (hostport = EmptyString) then message else "address " +:+ hostport +:+ ": " +:+ message.

Definition clientHostForBind (host : string) : string :=
  if bool_decide (host = EmptyString ∨ host = "0.0.0.0") then "127.0.0.1"
  else if bool_decide (host = "::") then "::1"
  else host.

(** The host and the port of one address. *)
Definition listen_address (kind address : string) : result (string * Z) :=
  match SplitHostPort address with
  | None => Err (kind +:+ " address " +:+ Quote address +:+ ": " +:+ split_host_port_error address)
  | Some (host, portText) =>
    match Atoi_ok portText with
    | Some port =>
      if bool_decide (port < 1 ∨ 65535 < port)%Z
      then Err (kind +:+ " address " +:+ Quote address +:+ " has invalid port; expected 1-65535")
      else if bool_decide (host ≠ EmptyString ∧ ParseIP host = None)
      then Err (kind +:+ " address " +:+ Quote address +:+ " uses a non-IP host; use an explicit bind IP")
      else Ok (host, port)
    | None => Err (kind +:+ " address " +:+ Quote address +:+ " has invalid port; expected 1-65535")
    end
  end.

Definition set_listen (host : string) (port : Z) (cb : Cookbook) : Cookbook :=
  cb <| Defaults := (Defaults cb) <| HostIP := clientHostForBind host |> <| HostPort := port |> |>.

(** The loop over the two addresses; the cookbooks are changed in place. *)
Fixpoint apply_loop (l : list (string * string)) (cookbooks : gmap string Cookbook) :
    gmap string Cookbook * option string :=
  match l with
  | [] => (cookbooks, None)
  | (kind, address) :: l =>
    match listen_address kind address with
    | Err err => (cookbooks, Some err)
    | Ok (host, port) => apply_loop l (alter (set_listen host port) kind cookbooks)
    end
  end.

Definition listen_addresses (nginxAddress redisAddress : string) : gmap string string :=
  {["nginx" := nginxAddress; "redis" := redisAddress]}.

Definition applyListenAddresses {RO : RangeOrder} (cookbooks : gmap string Cookbook)
    (nginxAddress redisAddress : string) : gmap string Cookbook * option string :=
  apply_loop (range "main.go:416" (listen_addresses nginxAddress redisAddress)) cookbooks.

(** The part of [validatePathArguments] that looks at the texts. *)
Definition path_texts (socketPath ledgerDir : string) : option string :=
  if bool_decide (TrimSpace socketPath = EmptyString) then Some "--socket cannot be empty"
  else if ContainsByte socketPath "000" then Some "--socket contains a NUL byte"
  else if bool_decide (TrimSpace ledgerDir = EmptyString) then Some "--ledger-dir cannot be empty"
  else None.

Definition maxUnixSocketPathBytes : nat := 107.

Definition validateUnixSocketPath (path : string) : option string :=
  if bool_decide (path = EmptyString) then Some "docker socket path is empty"
  else if bool_decide (maxUnixSocketPathBytes < String.length path) then
    Some ("docker socket path is too long for AF_UNIX: " +:+ Itoa (Z.of_nat (String.length path)) +:+ " bytes (max "
      +:+ Itoa (Z.of_nat maxUnixSocketPathBytes) +:+ "): " +:+ path)
  else None.
End values.

(** A name that is only a slash is accepted and becomes the empty key, although an
    empty name is refused. *)
Example slash_override :
  parseScenarioOverrides (UN := unicode_none) "/=1" = Ok {[EmptyString := 1%Z]}
  ∧ is_err (parseScenarioOverrides (UN := unicode_none) "=1") = true.
Proof. by vm_compute. Qed.

(** * Theorems *)

Section theorems.
Context {UN : Unicode}.

(** ** Overrides *)

Lemma Join_cons2 v w ws sep : Join (v :: w :: ws) sep = v +:+ sep +:+ Join (w :: ws) sep.
Proof. reflexivity. Qed.

Lemma Split_Join c w ws : Forall (λ s, free_of c s = true) (w :: ws) →
  Split (Join (w :: ws) (String c EmptyString)) c = w :: ws.
Proof.
  revert w. induction ws as [|v ws IH]; intros w [Hw Hws]%Forall_cons.
  - cbn [Join foldr]. rewrite app_nil_r_string. by apply Split_free.
  - rewrite Join_cons2. change (String c EmptyString +:+ ?s) with (String c s). rewrite Split_cons by done. by rewrite IH.
Qed.

Lemma clean_Join w ws c : Forall (λ s, clean s = true) (w :: ws) → clean (String c EmptyString) = true →
  clean (Join (w :: ws) (String c EmptyString)) = true.
Proof.
  intros Hall Hc. revert w Hall. induction ws as [|v ws IH]; intros w [Hw Hws]%Forall_cons.
  - cbn [Join foldr]. by rewrite app_nil_r_string.
  - rewrite Join_cons2, !clean_app. auto.
Qed.

(** A key as [parseScenarioOverrides] stores it: without what the syntax uses. *)
Definition plain_key (key : string) : bool :=
  clean key && bool_decide (ToLower key = key) && free_of "," key && free_of "=" key
  && negb (HasPrefix key "/") && bool_decide (key ≠ EmptyString).

Definition plain_overrides (m : gmap string Z) : Prop :=
  map_Forall (λ key seed, plain_key key = true ∧ (0 ≤ seed ≤ 2)%Z) m.

Lemma small_seed seed : (0 ≤ seed ≤ 2)%Z → (seed = 0 ∨ seed = 1 ∨ seed = 2)%Z.
Proof. lia. Qed.

Lemma seed_text seed : (0 ≤ seed ≤ 2)%Z →
  clean (Itoa seed) = true ∧ free_of "," (Itoa seed) = true ∧ Atoi_ok (Itoa seed) = Some seed.
Proof. intros Hs%small_seed. by destruct Hs as [-> | [-> | ->]]. Qed.

Lemma plain_key_spec key : plain_key key = true →
  clean key = true ∧ ToLower key = key ∧ free_of "," key = true ∧ free_of "=" key = true
  ∧ HasPrefix key "/" = false ∧ key ≠ EmptyString.
Proof. unfold plain_key. rewrite !andb_true_iff, negb_true_iff, !bool_decide_eq_true. tauto. Qed.

Lemma parse_override_text key seed : plain_key key = true → (0 ≤ seed ≤ 2)%Z →
  parse_override (key +:+ "=" +:+ Itoa seed) = Ok (key, seed).
Proof.
  intros (Hclean & Hlower & _ & Heq & Hslash & Hne)%plain_key_spec Hseed.
  destruct (seed_text seed Hseed) as (Hc & _ & Hatoi). unfold parse_override.
  rewrite TrimSpace_clean by by rewrite !clean_app.
  change ("=" +:+ Itoa seed) with (String "=" (Itoa seed)). cbn [SplitN]. rewrite Cut_byte by done.
  rewrite !TrimSpace_clean by done. rewrite bool_decide_false by done. rewrite Hatoi.
  rewrite bool_decide_false by lia. by rewrite TrimPrefix_miss, Hlower.
Qed.

Lemma override_loop_texts keys m acc : NoDup keys →
  (∀ key, key ∈ keys → acc !! key = None ∧ ∃ seed, m !! key = Some seed ∧ plain_key key = true ∧ (0 ≤ seed ≤ 2)%Z) →
  ∃ acc', override_loop (override_text m <$> keys) acc = Ok acc' ∧
    ∀ key, acc' !! key = if bool_decide (key ∈ keys) then m !! key else acc !! key.
Proof.
  revert acc. induction keys as [|key keys IH]; intros acc Hnd Hkeys.
  - exists acc. split; [done|]. intros k. by rewrite bool_decide_false by set_solver.
  - apply NoDup_cons in Hnd as [Hnot Hnd].
    destruct (Hkeys key) as (Hacc & seed & Hm & Hplain & Hseed); [left|].
    assert (override_text m key = key +:+ "=" +:+ Itoa seed) as Htext by (unfold override_text; by rewrite Hm).
    cbn [override_loop fmap list_fmap]. rewrite Htext, parse_override_text by done. unfold mbind, result_bind.
    rewrite bool_decide_false by (rewrite Hacc; by intros [? ?]).
    destruct (IH (<[key := seed]> acc)) as (acc' & Hloop & Hlook); [done| |].
    { intros k Hk. destruct (Hkeys k) as [Hk' ?]; [by right|]. split; [|done].
      rewrite lookup_insert_ne; [done|]. by intros <-. }
    exists acc'. split; [done|]. intros k. rewrite Hlook. destruct (decide (k = key)) as [->|Hne].
    + rewrite bool_decide_false, bool_decide_true, lookup_insert_eq by (done || left). done.
    + rewrite lookup_insert_ne by done. by rewrite (bool_decide_ext (k ∈ keys) (k ∈ key :: keys)) by set_solver.
Qed.

Lemma override_text_free m key : plain_overrides m → is_Some (m !! key) →
  clean (override_text m key) = true ∧ free_of "," (override_text m key) = true.
Proof.
  intros Hm [seed Hk]. destruct (Hm _ _ Hk) as [Hplain Hseed]. apply plain_key_spec in Hplain as (? & _ & ? & _).
  destruct (seed_text seed Hseed) as (? & ? & _). unfold override_text. rewrite Hk. cbn [default from_option].
  by rewrite !clean_app, !free_of_app.
Qed.


(** ** The command line *)

(** The arguments that ask for the options [o]. *)
Definition flag_argument (name value : string) : string := "--" +:+ name +:+ "=" +:+ value.
Definition bool_text (b : bool) : string := if b then "true" else "false".
Definition arguments_of (o : options) : list string := [
  flag_argument "socket" (socketPath o); flag_argument "seed" (Itoa (oSeed o));
  flag_argument "scenario" (scenarioFlag o); flag_argument "cookbook-dir" (cookbookDir o);
  flag_argument "ledger-dir" (ledgerDir o); flag_argument "nginx-address" (nginxAddr o);
  flag_argument "redis-address" (redisAddr o); flag_argument "container-endpoints" (containerEndpoints o);
  flag_argument "socket-mode" (oSocketMode o); flag_argument "bootstrap" (bool_text (bootstrap o));
  flag_argument "check" (bool_text (oCheck o)); flag_argument "version" (bool_text (showVersion o))].

Lemma flag_text_lower c t : is_lower c = true → flag_text (String c t) =
  match Cut (String c t) "=" with
  | Some (name, value) => Named name (Some value)
  | None => Named (String c t) None
  end.
Proof. by destruct c as [[] [] [] [] [] [] [] []]. Qed.

Lemma read_flag_argument c name value : is_lower c = true → free_of "=" (String c name) = true →
  read_argument (flag_argument (String c name) value) = Named (String c name) (Some value).
Proof.
  intros Hc Hfree. unfold flag_argument. change (read_argument _) with (flag_text (String c (name +:+ "=" +:+ value))).
  rewrite flag_text_lower by done.
  change (String c (name +:+ "=" +:+ value)) with (String c name +:+ String "=" value). by rewrite Cut_byte.
Qed.

Lemma parse_string_flag c name set value args o : is_lower c = true → free_of "=" (String c name) = true →
  assoc (String c name) formal = Some (StringFlag set) →
  parse_flags (flag_argument (String c name) value :: args) o = parse_flags args (set value o).
Proof. intros Hc Hfree Hassoc. cbn [parse_flags]. by rewrite read_flag_argument, Hassoc. Qed.

Lemma parse_bool_flag c name set b args o : is_lower c = true → free_of "=" (String c name) = true →
  assoc (String c name) formal = Some (BoolFlag set) →
  parse_flags (flag_argument (String c name) (bool_text b) :: args) o = parse_flags args (set b o).
Proof. intros Hc Hfree Hassoc. cbn [parse_flags]. rewrite read_flag_argument, Hassoc by done. by destruct b. Qed.

Lemma parse_seed_flag seed args o : (0 ≤ seed ≤ 2)%Z →
  parse_flags (flag_argument "seed" (Itoa seed) :: args) o = parse_flags args (o <| oSeed := seed |>).
Proof.
  intros Hs%small_seed. cbn [parse_flags]. rewrite read_flag_argument by done.
  by destruct Hs as [-> | [-> | ->]].
Qed.

(** C39: the command line can express every configuration the program accepts: parsing
    the arguments for [o] gives [o] back and writes nothing, whatever the texts in it
    are, provided only that the seed is 0, 1 or 2. *)
Theorem command_line_roundtrip o stderr : (0 ≤ oSeed o ≤ 2)%Z →
  parseOptions (arguments_of o) stderr = (stderr, Ok o).
Proof.
  intros Hseed. unfold parseOptions, arguments_of.
  erewrite parse_string_flag by reflexivity. rewrite parse_seed_flag by done.
  do 7 (erewrite parse_string_flag by reflexivity). do 3 (erewrite parse_bool_flag by reflexivity).
  cbn [parse_flags]. set (o' := fset showVersion _ _). assert (o' = o) as -> by (by destruct o).
  by rewrite bool_decide_false by lia.
Qed.

(** Every accepted command line has a seed in range. *)
Lemma accepted_seed args stderr stderr' o : parseOptions args stderr = (stderr', Ok o) → (0 ≤ oSeed o ≤ 2)%Z.
Proof.
  unfold parseOptions. destruct (parse_flags _ _) as [opts [|arg rest]| |]; [|done..].
  case_bool_decide; [done|]. intros [= _ <-]. lia.
Qed.

(** ** Listen addresses *)

Lemma listen_address_Ok kind address host port : listen_address kind address = Ok (host, port) →
  (1 ≤ port ≤ 65535)%Z ∧ is_Some (ParseIP (clientHostForBind host)).
Proof.
  unfold listen_address. destruct (SplitHostPort address) as [[h text]|]; [|done].
  destruct (Atoi_ok text) as [n|]; [|done]. case_bool_decide as Hn; [done|]. case_bool_decide as Hh; [done|].
  intros [= -> ->]. split; [lia|]. unfold clientHostForBind.
  case_bool_decide as H0; [by eexists|]. case_bool_decide as H1; [by eexists|].
  apply not_eq_None_Some. intros Hnone. apply Hh. split; [|done]. intros ->. by apply H0; left.
Qed.

(** The two listen addresses are applied both or the start is refused: when both
    can be read, exactly the two default cookbooks get the host that clients use and
    the port, whatever order the addresses are looked at in; otherwise there is an
    error.  An address that can be read has a port from 1 to 65535, and the host
    that clients use is an IP address. *)
Theorem listen_addresses_exact {RO : RangeOrder} cookbooks nginx redis :
  match listen_address "nginx" nginx, listen_address "redis" redis with
  | Ok (hn, pn), Ok (hr, pr) =>
    applyListenAddresses cookbooks nginx redis
      = (alter (set_listen hn pn) "nginx" (alter (set_listen hr pr) "redis" cookbooks), None) ∧
    (1 ≤ pn ≤ 65535 ∧ 1 ≤ pr ≤ 65535)%Z ∧
    is_Some (ParseIP (clientHostForBind hn)) ∧ is_Some (ParseIP (clientHostForBind hr))
  | _, _ => is_Some (applyListenAddresses cookbooks nginx redis).2
  end.
Proof.
  unfold applyListenAddresses.
  assert (range "main.go:416" (listen_addresses nginx redis) = [("nginx", nginx); ("redis", redis)] ∨
    range "main.go:416" (listen_addresses nginx redis) = [("redis", redis); ("nginx", nginx)]) as Horder.
  { assert (range "main.go:416" (listen_addresses nginx redis) ≡ₚ [("nginx", nginx); ("redis", redis)]) as Hperm.
    { by rewrite range_perm. }
    apply Permutation_sym, Permutation_length_2_inv in Hperm. done. }
  destruct (listen_address "nginx" nginx) as [[hn pn]|en] eqn:Hn, (listen_address "redis" redis) as [[hr pr]|er] eqn:Hr.
  1: { split; [|apply listen_address_Ok in Hn, Hr; tauto].
    destruct Horder as [-> | ->]; cbn [apply_loop]; rewrite Hn, Hr; [|done]. f_equal. by apply alter_alter_ne. }
  all: destruct Horder as [-> | ->]; cbn [apply_loop]; rewrite ?Hn, ?Hr; by eexists.
Qed.

(** ** The socket mode *)

Definition octal_digits (mode : Z) : string :=
  let digit k := String (hex_digit (Z.to_N ((mode / k) `mod` 8))) EmptyString in
  digit 64%Z +:+ digit 8%Z +:+ digit 1%Z.

Lemma socket_mode_range value mode : parseSocketMode value = Ok mode → (mode ≤ 511)%Z.
Proof.
  unfold parseSocketMode. destruct (ParseUint value 8 32) as [m [err|]]; [done|]. case_bool_decide; [done|].
  intros [= ->]. lia.
Qed.

Lemma socket_mode_octal mode : (0 ≤ mode ≤ 511)%Z → parseSocketMode ("0" +:+ octal_digits mode) = Ok mode.
Proof.
  intros Hm.
  assert (Forall (λ mode, ParseUint ("0" +:+ octal_digits mode) 8 32 = (mode, None)) (seqZ 0 512)) as Hall.
  { apply (bool_decide_unpack _). by vm_compute. }
  rewrite Forall_forall in Hall. unfold parseSocketMode. rewrite Hall by (apply elem_of_seqZ; lia).
  by rewrite bool_decide_false by lia.
Qed.
End theorems.

(** * Witnesses *)

Definition sample_overrides : gmap string Z := {["nginx" := 2%Z; "cache-1" := 0%Z]}.


Lemma command_line_roundtrip_witness :
  let o := default_options <| oSeed := 2%Z |> <| scenarioFlag := "nginx=1" |> <| bootstrap := true |> in
  (0 ≤ oSeed o ≤ 2)%Z ∧ parseOptions (UN := unicode_none) (arguments_of o) EmptyString = (EmptyString, Ok o).
Proof. split; [done|]. apply (command_line_roundtrip (UN := unicode_none)). done. Defined.
