(* ===== verification/Host.v ===== *)
(** The part of the operating system that the start of the program uses: files,
    sockets in the file system, TCP addresses; and the functions of [main.go] and
    [ledger.go] that work on it ([listenUnixSocket], [checkConfiguration], the run
    directory of [newLedger]).

    The file system is a tree of nodes known by their clean path
    ([filepath.Clean]); there are no links.  Whether a call fails for another reason
    than the state of the tree (permissions, a full disk) is decided by an arbitrary
    [Host], asked with the number of calls so far. *)
From Stdlib Require Import Ascii.
From S2P Require Import Prelude GoStrings GoTime Json Cookbook EngineTypes Ledger Diagnostic Options Engine Http DockerAPI.

(** * Paths: [path/filepath] *)

(** One element is put on the reversed list of those before it. *)
Definition clean_step (rooted : bool) (before : list string) (element : string) : list string :=
  if bool_decide (element = EmptyString ∨ element = ".") then before
  else if bool_decide (element = "..") then
    match before with
    | last :: earlier => if bool_decide (last = "..") then element :: before else earlier
    | [] => if rooted then [] else [element]
    end
  else element :: before.

Definition is_rooted (path : string) : bool := HasPrefix path "/".
Definition clean_elements (path : string) : list string :=
  rev (foldl (clean_step (is_rooted path)) [] (Split path "/")).

(** The text of a clean path. *)
Definition path_of (rooted : bool) (elements : list string) : string :=
  match elements with
  | [] => if rooted then "/" else "."
  | _ => if rooted then "/" +:+ Join elements "/" else Join elements "/"
  end.
Definition clean_path (path : string) : string := path_of (is_rooted path) (clean_elements path).

(** [filepath.Dir]: everything up to the last slash, cleaned. *)
Definition path_dir (path : string) : string :=
  match LastIndexByte path "/" with
  | Some i => clean_path (take_string (S i) path)
  | None => "."
  end.

(** [filepath.Join] of two non-empty elements. *)
Definition path_join (a b : string) : string := clean_path (a +:+ "/" +:+ b).

(** The paths that lead to a clean path, the path itself last; what is only dots is
    not among them. *)
Definition ancestors (path : string) : list string :=
  let elements := clean_elements path in
  path_of (is_rooted path) <$>
    filter (λ prefix, default EmptyString (last prefix) ≠ "..") ((λ n, take n elements) <$> List.seq 1 (length elements)).

Example clean_examples :
  clean_path <$> ["/tmp//x/"; "a/./b/../c"; "../../a/.."; "/.."; EmptyString; "./runs"; "/a/b"]
  = ["/tmp/x"; "a/c"; "../.."; "/"; "."; "runs"; "/a/b"].
Proof. by vm_compute. Qed.

Example dir_examples :
  path_dir <$> ["/tmp/docker-zero.sock"; "x.sock"; "/x"; "a//b"] = ["/tmp"; "."; "/"; "a"]
  ∧ ancestors "/a/b/../c" = ["/a"; "/a/c"] ∧ ancestors "../x/y" = ["../x"; "../x/y"] ∧ ancestors "/" = [].
Proof. by vm_compute. Qed.

(** * State *)

(** A socket is listened on or stale; [perm] are its permissions. *)
Inductive node :=
| Directory
| Regular (contents : string)
| SocketNode (listening : bool) (perm : Z).

#[export] Instance node_eq : EqDecision node.
Proof. solve_decision. Defined.

Record World := mkWorld {
  tree : gmap string node;
  bound : gset string;     (* TCP addresses that somebody listens on *)
  calls : nat;
  stdout : string;
  stderr : string
}.
#[export] Instance World_eta : Eta World := λ w, mkWorld (tree w) (bound w) (calls w) (stdout w) (stderr w).

(** [fails n operation path]: the error of the [n]-th call, if it fails although the
    tree allows it; [temporary n] is the random part of a temporary name. *)
Class Host := {
  fails : nat → string → string → option string;
  temporary : nat → string
}.

(** The tree at a path; what has no element is the root or the working directory. *)
Definition node_at (path : string) (w : World) : option node :=
  match ancestors path with [] => Some Directory | _ => tree w !! clean_path path end.

Definition set_node (path : string) (n : node) (w : World) : World :=
  w <| tree := <[clean_path path := n]> (tree w) |>.
Definition drop_node (path : string) (w : World) : World :=
  w <| tree := delete (clean_path path) (tree w) |>.

Section host.
Context {HO : Host} {UN : Unicode}.

Definition attempt (operation path : string) : prog World (option string) := λ w,
  (w <| calls := S (calls w) |>, Done (fails (calls w) operation path)).

(** * Calls of the operating system *)

(** [os.MkdirAll]: the directories that are missing, one after the other. *)
Fixpoint mkdir_loop (paths : list string) : prog World (option string) :=
  match paths with
  | [] => mret None
  | path :: paths =>
    w ← get;
    match tree w !! path with
    | Some Directory => mkdir_loop paths
    | Some _ => mret (Some ("mkdir " +:+ path +:+ ": not a directory"))
    | None =>
      err ← attempt "mkdir" path;
      match err with
      | Some e => mret (Some e)
      | None => modify (λ w, w <| tree := <[path := Directory]> (tree w) |>);; mkdir_loop paths
      end
    end
  end.
Definition MkdirAll (path : string) : prog World (option string) := mkdir_loop (ancestors path).

(** [os.Remove], which [os.IsNotExist] recognises the first error of. *)
Inductive removal := Removed | NotExist | RemoveFailed (err : string).
Definition Remove (path : string) : prog World removal :=
  w ← get;
  match node_at path w with
  | None => mret NotExist
  | Some _ =>
    err ← attempt "remove" path;
    match err with
    | Some e => mret (RemoveFailed e)
    | None => modify (drop_node path);; mret Removed
    end
  end.

(** [os.Lstat] and [os.Stat]: there are no links. *)
Definition Stat (path : string) : prog World (result (option node)) :=
  err ← attempt "stat" path;
  w ← get;
  mret (match node_at path w, err with
        | None, _ => Ok None
        | Some _, Some e => Err e
        | Some n, None => Ok (Some n)
        end).

(** [net.DialTimeout] to a socket in the file system: a stale one refuses. *)
Inductive dialled := Connected | Refused | NoEntry | DialFailed (err : string).
Definition Dial (path : string) : prog World dialled :=
  err ← attempt "dial" path;
  w ← get;
  mret (match node_at path w, err with
        | None, _ => NoEntry
        | Some (SocketNode false _), _ => Refused
        | Some (SocketNode true _), None => Connected
        | Some (SocketNode true _), Some e => DialFailed e
        | Some _, _ => DialFailed "connect: socket operation on non-socket"
        end).

(** [net.Listen] on a path: the node must be new. *)
Definition ListenUnix (path : string) : prog World (option string) :=
  w ← get;
  match node_at path w with
  | Some _ => mret (Some ("listen unix " +:+ path +:+ ": bind: address already in use"))
  | None =>
    err ← attempt "listen" path;
    match err with
    | Some e => mret (Some e)
    | None => modify (set_node path (SocketNode true 493));; mret None
    end
  end.

(** [Close] of a listener on a path: the node goes with it. *)
Definition CloseUnix (path : string) : prog World (option string) :=
  modify (drop_node path);; attempt "close" path.

Definition Chmod (path : string) (perm : Z) : prog World (option string) :=
  err ← attempt "chmod" path;
  match err with
  | Some e => mret (Some e)
  | None =>
    modify (λ w, match node_at path w with
                 | Some (SocketNode listening _) => set_node path (SocketNode listening perm) w
                 | _ => w
                 end);;
    mret None
  end.

(** [os.CreateTemp] and the name of the file: a name that is not in use. *)
Definition CreateTemp (dir prefix : string) : prog World (result string) :=
  w ← get;
  let name := path_join dir (prefix +:+ temporary (calls w)) in
  err ← attempt "createtemp" name;
  match err, node_at name w with
  | None, None => modify (set_node name (Regular EmptyString));; mret (Ok name)
  | Some e, _ => mret (Err e)
  | None, Some _ => mret (Err ("createtemp " +:+ name +:+ ": file exists"))
  end.

(** [net.Listen] on a TCP address, and [Close] of that listener. *)
Definition ListenTCP (addr : string) : prog World (option string) :=
  w ← get;
  if bool_decide (addr ∈ bound w) then mret (Some ("listen tcp " +:+ addr +:+ ": bind: address already in use"))
  else
    err ← attempt "listen" addr;
    match err with
    | Some e => mret (Some e)
    | None => modify (λ w, w <| bound := {[addr]} ∪ bound w |>);; mret None
    end.
Definition CloseTCP (addrs : list string) : prog World () :=
  modify (λ w, w <| bound := bound w ∖ list_to_set addrs |>).
End host.
