(* ===== verification/CookbookLoad.v ===== *)
(** Loading the cookbooks: [decodeCookbook] and [loadCookbooks] of [cookbook_load.go],
    and how [encoding/json] fills the types of [cookbook_types.go].

    The directory a cookbook is read from is a [source]; of the embedded one the
    contents are those of the repository.  A type error and the error of a text that
    the decoder cannot read come from [JsonErrors]. *)
From Stdlib Require Import Ascii.
From S2P Require Import Prelude GoStrings Json Cookbook CookbookValidation CookbookValidate Diagnostic TokenDecoder DocumentScan CookbookFiles Decode Options Host.

(** * The types of [cookbook_types.go] *)

#[export] Instance Transition_eta : Eta Transition := λ t,
  mkTransition (tEvent t) (tCount t) (tWhenStatus t) (tWhenHealth t) (tOnce t) (tSet t).
#[export] Instance Scenario_eta : Eta Scenario := λ s,
  mkScenario (Description s) (Initial s) (Transitions s) (HTTP s) (RedisReplies s).

Definition zero_Transition : Transition := mkTransition EmptyString 0 EmptyString EmptyString false zero_patch.
Definition zero_defaults : ServiceDefaults :=
  mkServiceDefaults EmptyString EmptyString EmptyString EmptyString 0 EmptyString 0.
Definition zero_Cookbook : Cookbook := mkCookbook EmptyString [] zero_defaults ∅.

Section types.
Context {UN : Unicode}.

(** After [DisallowUnknownFields]. *)
Definition strict_struct {S} : list (string * decoder S) → decoder S := into_fields true.

Definition into_patch : decoder StatePatch :=
  strict_struct [("status", field pStatus (into_pointer EmptyString into_string));
    ("running", field pRunning (into_pointer false into_bool));
    ("restarting", field pRestarting (into_pointer false into_bool));
    ("dead", field pDead (into_pointer false into_bool));
    ("health", field pHealth (into_pointer EmptyString into_string));
    ("exit_code", field pExitCode (into_pointer 0%Z into_int));
    ("error", field pError (into_pointer EmptyString into_string));
    ("restart_count", field pRestartCount (into_pointer 0%Z into_int));
    ("restart_count_delta", field pRestartCountDelta into_int)].

Definition into_transition : decoder Transition :=
  strict_struct [("event", field tEvent into_string); ("count", field tCount into_int);
    ("when_status", field tWhenStatus into_string); ("when_health", field tWhenHealth into_string);
    ("once", field tOnce into_bool); ("set", field tSet into_patch)].

Definition into_http_response : decoder HTTPResponse :=
  strict_struct [("from", field hFrom into_int); ("when_status", field hWhenStatus into_string);
    ("when_health", field hWhenHealth into_string); ("status", field hStatus into_int);
    ("headers", field hHeaders into_string_map); ("body", field hBody into_string);
    ("delay_ms", field hDelayMS into_int); ("close", field hClose into_bool);
    ("set", field hStatePatch into_patch)].

Definition into_redis_response : decoder RedisResponse :=
  strict_struct [("from", field rFrom into_int); ("when_status", field rWhenStatus into_string);
    ("when_health", field rWhenHealth into_string); ("reply", field rReply into_string);
    ("delay_ms", field rDelayMS into_int); ("close", field rClose into_bool);
    ("set", field rStatePatch into_patch)].

Definition into_scenario : decoder Scenario :=
  strict_struct [("description", field Description into_string); ("initial", field Initial into_patch);
    ("transitions", field Transitions (into_slice zero_Transition into_transition));
    ("http", field HTTP (into_map [] (into_slice zero_HTTPResponse into_http_response)));
    ("redis", field RedisReplies (into_map [] (into_slice zero_RedisResponse into_redis_response)))].

Definition into_defaults : decoder ServiceDefaults :=
  strict_struct [("name", field sName into_string); ("image", field sImage into_string);
    ("service_type", field ServiceType into_string); ("ip_address", field IPAddress into_string);
    ("container_port", field ContainerPort into_int); ("host_ip", field HostIP into_string);
    ("host_port", field HostPort into_int)].

Definition into_cookbook : decoder Cookbook :=
  strict_struct [("kind", field cbKind into_string); ("image_names", field ImageNames into_strings);
    ("defaults", field Defaults into_defaults);
    ("seeds", field Seeds (into_map zero_Scenario into_scenario))].
End types.

(** * [decodeCookbook] *)

Section load.
Context {RO : RangeOrder} {UN : Unicode} {JE : JsonErrors}.

Definition utf8_bom : string := String "239" (String "187" (String "191" EmptyString)).

(** The error of a value that does not fit. *)
Definition mismatch_error (data : string) (m : mismatch) : json_failure :=
  match m with
  | WrongType => type_failure data
  | UnknownField key => OtherError (unknown_prefix +:+ Quote key)
  end.

(** A [ValidationError] with the place it is about. *)
Definition validation_diagnostic (path data : string) (locations : gmap string Z) (err : ValidationError) :
    DiagnosticError :=
  let offset :=
    match locations !! vPath err with
    | Some offset => offset
    | None => findJSONKeyOffset data (lastJSONPointerSegment (vPath err))
    end in
  newSourceDiagnostic "CONFIG_VALIDATION_ERROR" path (vPath err) (vMessage err)
    "correct the value and run docker-zero --check --cookbook-dir <directory>" data offset.

(** The two calls of [Decode]: the cookbook, and the end of the document. *)
Definition decode_document (path data : string) (locations : gmap string Z) : Cookbook + DiagnosticError :=
  match parse_prefix data with
  | None =>
    let '(err, offset) := decode_failure data data in
    inr (jsonDecodeDiagnostic path data err offset (Some locations))
  | Some (v, rest) =>
    let offset := Z.of_nat (String.length data - String.length rest) in
    match into_cookbook zero_Cookbook v with
    | Unfit m => inr (jsonDecodeDiagnostic path data (mismatch_error data m) offset (Some locations))
    | Fits cb =>
      match skip_space rest, parse_prefix rest with
      | EmptyString, _ => inl cb
      | _, Some (_, rest) =>
        inr (newSourceDiagnostic "CONFIG_TRAILING_DATA" path EmptyString
          "a second JSON value follows the cookbook document" "remove the trailing JSON value" data
          (Z.of_nat (String.length data - String.length rest)))
      | _, None =>
        let '(err, offset) := decode_failure data rest in
        inr (jsonDecodeDiagnostic path data err offset (Some locations))
      end
    end
  end.

Definition decodeCookbook (path data : string) : outcome (Cookbook + DiagnosticError) :=
  if bool_decide (TrimSpace data = EmptyString) then
    Done (inr (newSourceDiagnostic "CONFIG_EMPTY_FILE" path EmptyString "cookbook file is empty"
      "restore a valid JSON cookbook" data 0))
  else if HasPrefix data utf8_bom then
    Done (inr (newSourceDiagnostic "CONFIG_UTF8_BOM" path EmptyString "UTF-8 BOM is not accepted in JSON cookbooks"
      "save the file as UTF-8 without BOM" data 0))
  else match scanJSONDocument path data with
  | Panic msg => Panic msg
  | Blocked => Blocked
  | Done (inr err) => Done (inr err)
  | Done (inl locations) =>
    match decode_document path data locations with
    | inr err => Done (inr err)
    | inl cb =>
      let '(cb, checked) := validate cb in
      match checked with
      | Panic msg => Panic msg
      | Blocked => Blocked
      | Done (Some err) => Done (inr (validation_diagnostic path data locations err))
      | Done None => Done (inl cb)
      end
    end
  end.

(** * [loadCookbooks] *)

(** An [fs.FS] with the directory that is read: its entries, and which are
    directories; the contents of a file. *)
Record source := mkSource {
  ReadDir : result (list (string * bool));
  ReadFile : string → result string
}.

(** [filepath.Abs] and [os.DirFS]. *)
Class Files := {
  Abs : string → result string;
  DirFS : string → source
}.

Definition embedded_path (name : string) : string := path_join "cookbooks" name.
Definition embeddedCookbooks : source :=
  mkSource (Ok ((λ file, (file.1, false)) <$> embedded_files))
    (λ path, match filter (λ file, embedded_path file.1 = path) embedded_files with
             | (_, text) :: _ => Ok text
             | [] => Err ("open " +:+ path +:+ ": file does not exist")
             end).

Definition is_cookbook_name (entry : string * bool) : bool :=
  negb entry.2 && HasSuffix (ToLower entry.1) ".json".

(** The loop over the entries; [st] is [result] and [originByKind]. *)
Fixpoint load_loop (src : source) (root displayRoot : string) (entries : list (string * bool))
    (st : gmap string Cookbook * gmap string string) :
    outcome ((gmap string Cookbook * gmap string string) + failure) :=
  match entries with
  | [] => Done (inl st)
  | entry :: entries =>
    if negb (is_cookbook_name entry) then load_loop src root displayRoot entries st
    else
      let displayPath := path_join displayRoot entry.1 in
      match ReadFile src (path_join root entry.1) with
      | Err err => Done (inr (Plain ("read cookbook " +:+ displayPath +:+ ": " +:+ err)))
      | Ok data =>
        match decodeCookbook displayPath data with
        | Panic msg => Panic msg
        | Blocked => Blocked
        | Done (inr err) => Done (inr (Diagnosed err))
        | Done (inl cb) =>
          let kindKey := ToLower (cbKind cb) in
          match st.2 !! kindKey with
          | Some previous => Done (inr (Diagnosed (mkDiagnostic "CONFIG_DUPLICATE_COOKBOOK" displayPath "/kind"
              ("cookbook kind " +:+ Quote (cbKind cb) +:+ " is already defined by " +:+ previous)
              "keep exactly one cookbook file for each service kind" 0 0 EmptyString)))
          | None =>
            load_loop src root displayRoot entries (<[kindKey := cb]> st.1, <[kindKey := displayPath]> st.2)
          end
        end
      end
  end.

Definition load_from (src : source) (root displayRoot : string) : outcome (gmap string Cookbook + failure) :=
  match ReadDir src with
  | Err err => Done (inr (Plain ("read cookbook directory " +:+ displayRoot +:+ ": " +:+ err)))
  | Ok entries =>
    match load_loop src root displayRoot entries (∅, ∅) with
    | Panic msg => Panic msg
    | Blocked => Blocked
    | Done (inr err) => Done (inr err)
    | Done (inl (result, originByKind)) =>
      if bool_decide (result = ∅) then
        Done (inr (Diagnosed (mkDiagnostic "CONFIG_NO_COOKBOOKS" displayRoot EmptyString
          "no .json cookbook files were found"
          "provide nginx.json and redis.json or omit --cookbook-dir to use the embedded cookbooks" 0 0 EmptyString)))
      else match validateCookbookSet path_dir result originByKind with
      | Some err => Done (inr (Diagnosed err))
      | None => Done (inl result)
      end
    end
  end.

Definition loadCookbooks `{Files} (externalDir : string) : outcome (gmap string Cookbook + failure) :=
  if bool_decide (TrimSpace externalDir ≠ EmptyString) then
    match Abs externalDir with
    | Err err => Done (inr (Plain ("resolve cookbook directory " +:+ Quote externalDir +:+ ": " +:+ err)))
    | Ok absolute => load_from (DirFS absolute) "." absolute
    end
  else load_from embeddedCookbooks "cookbooks" "<embedded>/cookbooks".
End load.
