(* ===== verification/DiagnosticTheorems.v ===== *)
(** Theorems on diagnostics: the coordinates of an offset are those of the line it is
    on, JSON pointers are read back as they were written, and the searches for a key
    have enough fuel. *)
From Stdlib Require Import Ascii.
From S2P Require Import Prelude GoStrings Json Diagnostic DocumentScan ScanFacts.

(** * Coordinates *)

(** [l] is a whole line of [data], after [before] and in front of [after]. *)
Definition line_of (data before l after : string) : Prop :=
  data = before +:+ l +:+ after
  ∧ (before = EmptyString ∨ ∃ b, before = b +:+ String newline EmptyString)
  ∧ free_of newline l = true
  ∧ (after = EmptyString ∨ ∃ a, after = String newline a).

(** The last line of a text, and what is in front of it. *)
Lemma last_line s c : ∃ b l, s = b +:+ l ∧ free_of c l = true
  ∧ ((b = EmptyString ∧ LastIndexByte s c = None)
     ∨ ∃ b', b = b' +:+ String c EmptyString ∧ LastIndexByte s c = Some (String.length b')).
Proof.
  induction s as [|s d (b & l & -> & Hl & IH)] using string_snoc_ind.
  { exists EmptyString, EmptyString. split_and!; [done..|]. by left. }
  destruct (decide (d = c)) as [->|Hne].
  - exists ((b +:+ l) +:+ String c EmptyString), EmptyString. split; [by rewrite app_nil_r_string|].
    split; [done|]. right. exists (b +:+ l). split; [done|]. by apply LastIndexByte_app.
  - assert (free_of c (String d EmptyString) = true) as Hd by by (apply free_of_cons).
    exists b, (l +:+ String d EmptyString). split; [by rewrite app_assoc_string|].
    split; [by apply free_of_app|]. by rewrite LastIndexByte_app_free.
Qed.

(** The first line of a text, and what follows it. *)
Lemma first_line s c : ∃ l a, s = l +:+ a ∧ free_of c l = true
  ∧ ((a = EmptyString ∧ IndexByte s c = None)
     ∨ ∃ a', a = String c a' ∧ IndexByte s c = Some (String.length l)).
Proof.
  induction s as [|d s (l & a & -> & Hl & IH)].
  { exists EmptyString, EmptyString. split_and!; [done..|]. by left. }
  destruct (decide (d = c)) as [->|Hne].
  - exists EmptyString, (String c (l +:+ a)). split; [done|]. split; [done|]. right. eexists. split; [done|].
    cbn. by rewrite bool_decide_true.
  - exists (String d l), a. split; [done|]. split; [by apply free_of_cons|].
    cbn. rewrite bool_decide_false by done.
    destruct IH as [[-> ->]|(a' & -> & ->)]; [by left|right; by exists a'].
Qed.

Lemma split_at n s : n < String.length s → ∃ a c b, s = a +:+ String c b ∧ String.length a = n.
Proof.
  revert n. induction s as [|d s IH]; intros n Hn; cbn in Hn; [lia|].
  destruct n as [|n]; [by exists EmptyString, d, s|]. destruct (IH n) as (a & c & b & -> & <-); [lia|].
  by exists (String d a), c, b.
Qed.

Lemma slice_app a s t n : n = String.length a + String.length s →
  slice (a +:+ s +:+ t) (String.length a) n = s.
Proof.
  intros ->. unfold slice. rewrite drop_string_app.
  replace (String.length a + String.length s - String.length a) with (String.length s) by lia. apply take_string_app.
Qed.

Definition clamp_offset (data : string) (offset : Z) : nat :=
  Nat.min (Z.to_nat offset) (String.length data - 1).

Lemma sourceCoordinates_spec data offset :
  data ≠ EmptyString →
  ∃ before l after, line_of data before l after
    ∧ String.length before ≤ clamp_offset data offset ≤ String.length before + String.length l
    ∧ sourceCoordinates data offset
      = (1 + Z.of_nat (CountByte before newline),
         1 + Z.of_nat (length (runes (take_string (clamp_offset data offset - String.length before) l))),
         TrimSuffix l (String "013" EmptyString))%Z.
Proof.
  intros Hdata. assert (0 < String.length data) as Hlen by (destruct data; cbn; [done|lia]).
  unfold sourceCoordinates. rewrite bool_decide_false by done.
  set (off := clamp_offset data offset).
  assert ((let offset := if bool_decide (offset < 0)%Z then 0 else Z.to_nat offset in
    if bool_decide (String.length data ≤ offset) then String.length data - 1 else offset) = off) as Hoff.
  { cbv zeta. subst off. unfold clamp_offset. repeat case_bool_decide; lia. }
  cbv zeta in Hoff |- *. rewrite Hoff.
  destruct (split_at off data) as (a & c & b & Heq & Ha); [subst off; unfold clamp_offset; lia|].
  clear Hoff. clearbody off. subst off.
  destruct (last_line a newline) as (before & l1 & -> & Hl1 & Hbefore).
  destruct (first_line (String c b) newline) as (l2 & after & Hcb & Hl2 & Hafter).
  assert (data = before +:+ (l1 +:+ l2) +:+ after) as Hwhole by by rewrite Heq, Hcb, !app_assoc_string.
  exists before, (l1 +:+ l2), after. rewrite !length_app_string. split; [|split; [lia|]].
  { split; [done|]. split; [destruct Hbefore as [[-> _]|(b' & -> & _)]; eauto|].
    split; [by apply free_of_app|]. destruct Hafter as [[-> _]|(a' & -> & _)]; eauto. }
  assert (match LastIndexByte (take_string (String.length before + String.length l1) data) newline with
    | Some i => S i | None => 0 end = String.length before) as ->.
  { rewrite <-length_app_string, Heq, take_string_app.
    destruct Hbefore as [[-> ->]|(b' & -> & ->)]; [done|]. rewrite length_app_string. cbn. lia. }
  assert (match IndexByte (drop_string (String.length before + String.length l1) data) newline with
    | Some i => String.length before + String.length l1 + i | None => String.length data end
    = String.length before + String.length (l1 +:+ l2)) as ->.
  { rewrite <-length_app_string, Heq, drop_string_app, Hcb, !length_app_string.
    rewrite Hcb in Hafter. destruct Hafter as [[-> ->]|(a' & -> & ->)]; rewrite ?length_app_string; cbn; lia. }
  rewrite Hwhole at 3. rewrite slice_app by done.
  rewrite Hwhole at 1 2. rewrite take_string_app, app_assoc_string, slice_app by done.
  replace (String.length before + String.length l1 - String.length before) with (String.length l1) by lia.
  rewrite take_string_app. f_equal. f_equal; lia.
Qed.

(** * Pointers *)

(** A text with every character replaced. *)
Fixpoint spell (f : ascii → string) (s : string) : string :=
  match s with EmptyString => EmptyString | String c s => f c +:+ spell f s end.

Lemma ReplaceAll_byte s c new :
  ReplaceAll s (String c EmptyString) new = spell (λ d, if bool_decide (d = c) then new else String d EmptyString) s.
Proof.
  unfold ReplaceAll. induction s as [|d s IH]; [done|]. cbn [replace_from spell String.length Nat.sub]. rewrite HasPrefix_cons, HasPrefix_empty.
  case_bool_decide; cbn; by rewrite IH.
Qed.

Lemma spell_app f s t : spell f (s +:+ t) = spell f s +:+ spell f t.
Proof. induction s as [|c s IH]; [done|]. rewrite app_cons_string. cbn. by rewrite IH, app_assoc_string. Qed.

Lemma spell_spell f g s : spell g (spell f s) = spell (λ c, spell g (f c)) s.
Proof. induction s as [|c s IH]; [done|]. cbn. by rewrite spell_app, IH. Qed.

Lemma spell_ext f g s : (∀ c, f c = g c) → spell f s = spell g s.
Proof. intros Hfg. induction s as [|c s IH]; [done|]. cbn. by rewrite Hfg, IH. Qed.

Lemma spell_id s : spell (λ c, String c EmptyString) s = s.
Proof. induction s as [|c s IH]; [done|]. cbn. by rewrite IH. Qed.

Definition escape_char (c : ascii) : string :=
  if bool_decide (c = "~")%char then "~0" else if bool_decide (c = "/")%char then "~1" else String c EmptyString.

Lemma escapeJSONPointer_spell s : escapeJSONPointer s = spell escape_char s.
Proof.
  unfold escapeJSONPointer. rewrite !ReplaceAll_byte, spell_spell. apply spell_ext. intros c. unfold escape_char.
  case_bool_decide; [done|]. cbn. by case_bool_decide.
Qed.

Lemma pointer_escape_free s : free_of "/" (escapeJSONPointer s) = true.
Proof.
  rewrite escapeJSONPointer_spell. induction s as [|c s IH]; [done|]. cbn. apply free_of_app. split; [|done].
  unfold escape_char. case_bool_decide; [done|]. case_bool_decide; [done|]. by apply free_of_cons.
Qed.

(** Undoing one of the two replacements. *)
Lemma unescape_step (d e : ascii) (f : ascii → string) s :
  e ≠ "~"%char →
  (∀ c, f c = String "~" (String e EmptyString) ∨ (∃ x, f c = String "~" (String x EmptyString) ∧ x ≠ e ∧ x ≠ "~"%char)
        ∨ ∃ x, f c = String x EmptyString ∧ x ≠ "~"%char) →
  ReplaceAll (spell f s) (String "~" (String e EmptyString)) (String d EmptyString)
  = spell (λ c, if bool_decide (f c = String "~" (String e EmptyString)) then String d EmptyString else f c) s.
Proof.
  intros He Hf. unfold ReplaceAll. induction s as [|c s IH]; [done|]. cbn [spell].
  destruct (Hf c) as [->|[(x & -> & Hx & Hx')|(x & -> & Hx)]].
  - rewrite bool_decide_true by done. rewrite !app_cons_string, app_nil_l_string. cbn [replace_from String.length Nat.sub].
    rewrite !HasPrefix_cons, !bool_decide_true by done. rewrite HasPrefix_empty. cbn [andb]. by rewrite IH.
  - rewrite bool_decide_false by congruence. rewrite !app_cons_string, app_nil_l_string. cbn [replace_from].
    rewrite !HasPrefix_cons. rewrite (bool_decide_false (x = e)) by done. rewrite (bool_decide_false (x = _)) by done.
    rewrite andb_false_r. cbn [andb]. by rewrite IH.
  - rewrite bool_decide_false by congruence. rewrite app_cons_string, app_nil_l_string. cbn [replace_from].
    rewrite !HasPrefix_cons, bool_decide_false by done. cbn [andb]. by rewrite IH.
Qed.

Lemma escape_cases c :
  c = "~"%char ∧ escape_char c = "~0" ∨ c = "/"%char ∧ escape_char c = "~1"
  ∨ c ≠ "~"%char ∧ c ≠ "/"%char ∧ escape_char c = String c EmptyString.
Proof. unfold escape_char. repeat case_bool_decide; auto. Qed.

Lemma pointer_unescape_escape key :
  ReplaceAll (ReplaceAll (escapeJSONPointer key) "~1" "/") "~0" "~" = key.
Proof.
  rewrite escapeJSONPointer_spell, (unescape_step "/" "1"); [rewrite (unescape_step "~" "0")| |]; try done.
  - rewrite <-(spell_id key) at 2. apply spell_ext. intros c.
    destruct (escape_cases c) as [[-> ->]|[[-> ->]|(H1 & H2 & ->)]]; [done..|].
    rewrite (bool_decide_false (String c EmptyString = "~1")) by congruence. by rewrite bool_decide_false by congruence.
  - intros c. destruct (escape_cases c) as [[-> ->]|[[-> ->]|(H1 & H2 & ->)]]; [by left|..]; right; right.
    + by exists "/"%char.
    + exists c. by rewrite bool_decide_false by congruence.
  - intros c. destruct (escape_cases c) as [[-> ->]|[[-> ->]|(H1 & H2 & ->)]]; [|by left|]; right.
    + left. by exists "0"%char.
    + right. by exists c.
Qed.

Lemma Split_last s sep t : free_of sep t = true → last (Split (s +:+ String sep t) sep) = Some t.
Proof.
  intros Ht. induction s as [|c s IH].
  - rewrite app_nil_l_string. cbn. rewrite bool_decide_true, Split_free by done. done.
  - rewrite app_cons_string. cbn. case_bool_decide.
    + destruct (Split (s +:+ String sep t) sep) as [|w ws] eqn:Hs; [done|]. by rewrite last_cons_cons.
    + destruct (Split (s +:+ String sep t) sep) as [|w [|w' ws]] eqn:Hs; [done| |by rewrite last_cons_cons in IH |- *].
      exfalso. cbn in IH. injection IH as ->. clear -Hs Ht. 
      assert (1 < length (Split (s +:+ String sep t) sep)) as Hl; [|rewrite Hs in Hl; cbn in Hl; lia].
      clear Hs. induction s as [|d s IH]; [rewrite app_nil_l_string; cbn; rewrite bool_decide_true, Split_free by done; cbn; lia|].
      rewrite app_cons_string. cbn. case_bool_decide; [cbn; lia|]. by destruct (Split _ _) as [|? [|]]; cbn in *; try lia.
Qed.

(** A key put into a pointer is read back, whatever characters it has. *)
Lemma lastJSONPointerSegment_escape parent key :
  lastJSONPointerSegment (parent +:+ "/" +:+ escapeJSONPointer key) = key.
Proof.
  unfold lastJSONPointerSegment. rewrite bool_decide_false by by destruct parent.
  assert (last (Split (TrimPrefix (parent +:+ "/" +:+ escapeJSONPointer key) "/") "/") = Some (escapeJSONPointer key)) as ->.
  { unfold TrimPrefix. destruct (HasPrefix _ _) eqn:Hp.
    - destruct parent as [|c parent].
      + rewrite app_nil_l_string. change (drop_string _ ("/" +:+ ?s)) with s.
        by rewrite Split_free by apply pointer_escape_free.
      + rewrite app_cons_string. cbn [drop_string String.length]. apply (Split_last _ "/"), pointer_escape_free.
    - apply (Split_last _ "/"), pointer_escape_free. }
  cbn [default]. apply pointer_unescape_escape.
Qed.

(** * Searches *)

Lemma Cut_spec s sep a b : Cut s sep = Some (a, b) → s = a +:+ sep +:+ b.
Proof.
  revert a b. induction s as [|c s IH]; intros a b; cbn [Cut].
  - destruct (HasPrefix _ sep) eqn:Hp; [|done]. apply HasPrefix_true in Hp as [t Ht]. intros [= <- <-].
    by destruct sep.
  - destruct (HasPrefix _ sep) eqn:Hp.
    + apply HasPrefix_true in Hp as [t Ht]. intros [= <- <-]. by rewrite Ht, drop_string_app.
    + destruct (Cut s sep) as [[a' b']|] eqn:Hc; [|done]. cbn. intros [= <- <-]. by rewrite (IH a' b').
Qed.

Lemma StringIndex_bound s sep i : StringIndex s sep = Some i → i + String.length sep ≤ String.length s.
Proof.
  unfold StringIndex. destruct (Cut s sep) as [[a b]|] eqn:Hc; [|done]. cbn. intros [= <-].
  apply Cut_spec in Hc as ->. rewrite !length_app_string. lia.
Qed.

Lemma length_drop_string n s : String.length (drop_string n s) = String.length s - n.
Proof. revert n. induction s as [|c s IH]; intros [|n]; cbn; auto. Qed.
Lemma length_take_string n s : String.length (take_string n s) = Nat.min n (String.length s).
Proof. revert n. induction s as [|c s IH]; intros [|n]; cbn; auto. Qed.

(** More fuel than the text is long changes nothing: the loops end by themselves. *)
Lemma key_loop_fuel fuel fuel' data needle start :
  needle ≠ EmptyString → String.length data - start ≤ fuel → String.length data - start ≤ fuel' →
  key_loop fuel data needle start = key_loop fuel' data needle start.
Proof.
  intros Hn. assert (0 < String.length needle) as Hlen by (destruct needle; cbn; [done|lia]).
  revert fuel' start. induction fuel as [|fuel IH]; intros [|fuel'] start Hf Hf'; cbn [key_loop]; [done|..].
  - by rewrite bool_decide_true by lia.
  - by rewrite bool_decide_true by lia.
  - case_bool_decide; [done|]. destruct (StringIndex _ needle) as [i|] eqn:Hi; [|done].
    apply StringIndex_bound in Hi. rewrite length_drop_string in Hi.
    destruct (key_follows _ _); [done|]. apply IH; lia.
Qed.

Lemma last_key_loop_fuel fuel fuel' data needle start before best :
  needle ≠ EmptyString → before - start ≤ fuel → before - start ≤ fuel' →
  last_key_loop fuel data needle start before best = last_key_loop fuel' data needle start before best.
Proof.
  intros Hn. assert (0 < String.length needle) as Hlen by (destruct needle; cbn; [done|lia]).
  revert fuel' start best. induction fuel as [|fuel IH]; intros [|fuel'] start best Hf Hf'; cbn [last_key_loop]; [done|..].
  - by rewrite bool_decide_true by lia.
  - by rewrite bool_decide_true by lia.
  - case_bool_decide; [done|]. destruct (StringIndex _ needle) as [i|] eqn:Hi; [|done].
    apply StringIndex_bound in Hi. unfold slice in Hi. rewrite length_take_string in Hi. apply IH; lia.
Qed.

(** * Names of unknown fields *)

Lemma unquote_byte c t : is_ascii_byte c = true →
  unquote_body (quote_byte c +:+ t) = String c <$> unquote_body t.
Proof. destruct c as [[] [] [] [] [] [] [] []]; (discriminate || reflexivity). Qed.

Lemma unquote_quoted s : is_ascii s = true → unquote_body (quote_bytes s) = Some s.
Proof.
  unfold is_ascii. induction s as [|c s IH]; [done|]. cbn [string_forallb quote_bytes].
  rewrite andb_true_iff. intros [Hc Hs]. by rewrite unquote_byte, IH.
Qed.

Lemma ascii_runes s : is_ascii s = true → Json.encode_runes (runes s) = s.
Proof.
  unfold is_ascii, Json.encode_runes. induction s as [|c s IH]; [done|]. cbn [string_forallb].
  rewrite andb_true_iff. intros [Hc Hs]. cbn [runes]. unfold is_ascii_byte in Hc. rewrite Hc. cbn [foldr].
  rewrite (IH Hs). unfold Json.encode_rune. rewrite Hc. rewrite app_cons_string, app_nil_l_string. f_equal.
  unfold Json.byte_at, byte_of. by rewrite N2Z.id, ascii_N_embedding.
Qed.

Lemma quote_bytes_ascii s : is_ascii s = true → is_ascii (quote_bytes s) = true.
Proof.
  unfold is_ascii. induction s as [|c s IH]; [done|]. cbn [string_forallb quote_bytes].
  rewrite andb_true_iff, string_forallb_app. intros [Hc ->%IH]. rewrite andb_true_r.
  clear -Hc. by destruct c as [[] [] [] [] [] [] [] []].
Qed.

Lemma unknown_name_quote `{Unicode} key :
  is_ascii key = true → unknown_name (unknown_prefix +:+ Quote key) = key.
Proof.
  intros Hkey. unfold unknown_name. rewrite TrimPrefix_app. unfold Quote. rewrite Hkey.
  assert (between_quotes (dquote +:+ quote_bytes key +:+ dquote) = Some (quote_bytes key)) as Hb.
  { change (dquote +:+ quote_bytes key +:+ dquote) with (String "034" (quote_bytes key +:+ dquote)).
    cbn [between_quotes]. rewrite bool_decide_true by done. unfold HasSuffix.
    rewrite length_app_string. change (String.length dquote) with 1.
    rewrite Nat.add_sub, drop_string_app, take_string_app. by rewrite !bool_decide_true by (done || lia). }
  unfold Unquote. rewrite Hb. cbn [mbind option_bind]. rewrite ascii_runes by by apply quote_bytes_ascii.
  by rewrite unquote_quoted.
Qed.

(** * Theorems *)

(** C27: the coordinates of a diagnostic are those of the line that its offset is on,
    an offset outside the text being moved to its nearest end: the line number counts
    the line ends before that line, the column counts the runes between the start of
    the line and the offset, and the excerpt is the whole line, without a carriage
    return at its end. *)
Theorem sourceCoordinates_exact data offset :
  data ≠ EmptyString →
  ∃ before l after, line_of data before l after
    ∧ String.length before ≤ clamp_offset data offset ≤ String.length before + String.length l
    ∧ sourceCoordinates data offset
      = (1 + Z.of_nat (CountByte before newline),
         1 + Z.of_nat (length (runes (take_string (clamp_offset data offset - String.length before) l))),
         TrimSuffix l (String "013" EmptyString))%Z.
Proof. apply sourceCoordinates_spec. Qed.

Lemma sourceCoordinates_exact_witness :
  ∃ before l after, line_of ("ab" +:+ crlf +:+ "cd") before l after
    ∧ String.length before ≤ clamp_offset ("ab" +:+ crlf +:+ "cd") 9 ≤ String.length before + String.length l
    ∧ (2%Z, 2%Z, "cd")
      = (1 + Z.of_nat (CountByte before newline),
         1 + Z.of_nat (length (runes (take_string (clamp_offset ("ab" +:+ crlf +:+ "cd") 9 - String.length before) l))),
         TrimSuffix l (String "013" EmptyString))%Z.
Proof. apply (sourceCoordinates_exact ("ab" +:+ crlf +:+ "cd") 9). discriminate. Defined.
