(* ===== verification/LoadTheorems.v ===== *)
(** Theorems on the loading of cookbooks: the scan, the decoding and the loading of a
    directory end with a verdict, which says exactly what is accepted; the embedded
    cookbooks are accepted. *)
From Stdlib Require Import Ascii.
From S2P Require Import Prelude GoStrings Json Cookbook CookbookValidation CookbookValidate Diagnostic DiagnosticTheorems TokenDecoder Container ContainerFacts ContainerLife DocumentScan ScanFacts ScanTheorems CookbookFiles Decode Options Host CookbookLoad.

Section load.
Context {RO : RangeOrder} {UN : Unicode} {JE : JsonErrors}.

(** * Documents *)

(** A text that is read within the limit on depth is a value without it. *)
Lemma parse_one_value data v : parse data = Some v → distinct v = true → one_value data v.
Proof.
  unfold parse. destruct (parse_prefix data) as [[v' rest]|] eqn:Hp; [|done]. cbn [mbind option_bind].
  destruct (skip_space rest) eqn:Hr; [|done]. intros [= <-] Hd. exists rest.
  split; [by apply parse_prefix_free|done].
Qed.

(** A byte order mark is no part of JSON. *)
Lemma parse_bom data : HasPrefix data utf8_bom = true → parse data = None.
Proof.
  intros [t ->]%HasPrefix_true. unfold parse, parse_prefix.
  rewrite Nat.add_1_r. cbn [parse_value]. unfold utf8_bom. rewrite !app_cons_string.
  change (skip_space (String "239" ?s)) with (String "239" s). done.
Qed.

(** What [decode_document] returns for a document that the scan accepts. *)
Lemma decode_document_spec path data locations cb :
  decode_document path data locations = inl cb ↔
  ∃ v, parse data = Some v ∧ into_cookbook zero_Cookbook v = Fits cb.
Proof.
  unfold decode_document, parse. destruct (parse_prefix data) as [[v rest]|]; cbn [mbind option_bind]; last first.
  { destruct (decode_failure data data). split; [done|]. by intros (? & ? & _). }
  destruct (into_cookbook zero_Cookbook v) as [cb'|m] eqn:Hv; last first.
  { split; [done|]. intros (v' & Hv' & ?). destruct (skip_space rest); [|done]. simplify_eq. congruence. }
  destruct (skip_space rest) as [|c t].
  - split; [intros [= <-]; by exists v|]. intros (v' & [= <-] & ?). congruence.
  - split; [|by intros (? & ? & _)]. destruct (parse_prefix rest) as [[]|]; [done|]. by destruct (decode_failure data rest).
Qed.

(** The cookbook that a text stands for. *)
Definition accepted_text (data : string) (cb : Cookbook) : Prop :=
  TrimSpace data ≠ EmptyString ∧
  ∃ v decoded, parse data = Some v ∧ distinct v = true ∧ into_cookbook zero_Cookbook v = Fits decoded
    ∧ accepts (validate decoded).2 ∧ cb = (validate decoded).1.

Lemma decodeCookbook_spec path data :
  ∃ r, decodeCookbook path data = Done r ∧ ∀ cb, r = inl cb ↔ accepted_text data cb.
Proof.
  unfold decodeCookbook, accepted_text. case_bool_decide as Hblank.
  { eexists; split; [done|]. intros cb. split; [done|]. by intros []. }
  destruct (HasPrefix data utf8_bom) eqn:Hbom.
  { eexists; split; [done|]. intros cb. split; [done|]. intros (_ & v & d & Hp & _). by rewrite parse_bom in Hp. }
  destruct (scanJSONDocument_spec path data) as [Hgood Hbad].
  destruct (free_value data) as [[v rest]|] eqn:Hfree; last first.
  { destruct Hbad as [err ->]; [by intros v (? & ? & _); congruence|]. eexists; split; [done|].
    intros cb. split; [done|]. intros (_ & v & d & Hp & Hd & _). apply parse_one_value in Hp as (? & ? & _); [|done]. congruence. }
  destruct (decide (skip_space rest = EmptyString ∧ distinct v = true)) as [[Hrest Hd]|Hno]; last first.
  { destruct Hbad as [err ->].
    { intros v' (rest' & Heq & ?). rewrite Hfree in Heq. by simplify_eq. }
    eexists; split; [done|]. intros cb. split; [done|]. intros (_ & v' & d & Hp & Hd & _).
    apply parse_one_value in Hp as (rest' & Heq & ?); [|done]. rewrite Hfree in Heq. by simplify_eq. }
  rewrite (Hgood v) by by exists rest.
  destruct (decode_document _ _ _) as [decoded|err] eqn:Hdec; last first.
  { eexists; split; [done|]. intros cb. split; [done|]. intros (_ & v' & d & Hp & _ & Hf & _).
    assert (decode_document path data (document_locations data) = inl d) as Heq
      by (apply decode_document_spec; by exists v'). congruence. }
  pose proof Hdec as (v' & Hp & Hf)%decode_document_spec.
  assert (v' = v) as ->.
  { unfold parse in Hp. destruct (parse_prefix data) as [[v'' r]|] eqn:Hpre; [|done]. cbn [mbind option_bind] in Hp.
    destruct (skip_space r); [|done]. apply parse_prefix_free in Hpre. rewrite Hfree in Hpre. by simplify_eq. }
  assert (∀ cb, (TrimSpace data ≠ EmptyString ∧ ∃ v0 d, parse data = Some v0 ∧ distinct v0 = true
      ∧ into_cookbook zero_Cookbook v0 = Fits d ∧ accepts (validate d).2 ∧ cb = (validate d).1)
    ↔ accepts (validate decoded).2 ∧ cb = (validate decoded).1) as Hiff.
  { intros cb. split; [|intros ?; split; [done|]; by exists v, decoded].
    intros (_ & v0 & d & Hp' & _ & Hf' & ?). rewrite Hp in Hp'. simplify_eq. rewrite Hf in Hf'. by simplify_eq. }
  pose proof (is_check_validate decoded) as Hcheck. destruct (validate decoded) as [cb' checked] eqn:Hval.
  cbn [fst snd] in *. destruct checked as [[err|]| |]; [..|done|done].
  - eexists; split; [done|]. intros cb. rewrite Hiff. split; [done|]. by intros [? _].
  - eexists; split; [done|]. intros cb. rewrite Hiff. split; [by intros [= <-]|]. by intros [_ ->].
Qed.

(** An accepted cookbook has its kind in normal form. *)
Lemma accepted_text_kind data cb : accepted_text data cb → cbKind cb ∈ ["nginx"; "redis"].
Proof. intros (_ & v & decoded & _ & _ & _ & Hacc & ->). by apply accepted_validate in Hacc as [? _]. Qed.

Lemma kind_lower kind : kind ∈ ["nginx"; "redis"] → ToLower kind = kind.
Proof. rewrite !elem_of_cons. by intros [->|[->|[]%elem_of_nil]]. Qed.

(** * Directories *)

(** A cookbook that was read from a file of the source. *)
Definition loaded_from (src : source) (root : string) (entries : list (string * bool)) (cb : Cookbook) : Prop :=
  ∃ entry data, entry ∈ entries ∧ is_cookbook_name entry = true
    ∧ ReadFile src (path_join root entry.1) = Ok data ∧ accepted_text data cb.

Lemma load_loop_spec src root displayRoot entries st :
  ∃ r, load_loop src root displayRoot entries st = Done r ∧
  ∀ st', r = inl st' → ∀ kind cb, st'.1 !! kind = Some cb →
    st.1 !! kind = Some cb ∨ cbKind cb = kind ∧ loaded_from src root entries cb.
Proof.
  revert st. induction entries as [|entry entries IH]; intros st; cbn [load_loop].
  { eexists; split; [done|]. intros st' [= <-]. auto. }
  assert (∀ cb, loaded_from src root entries cb → loaded_from src root (entry :: entries) cb) as Hcons.
  { intros cb (e & data & ? & ?). exists e, data. split; [by apply elem_of_cons; right|done]. }
  destruct (is_cookbook_name entry) eqn:Hname; cbn [negb]; last first.
  { destruct (IH st) as (r & Hr & Hall). exists r. split; [done|]. intros st' Hst' kind cb Hcb.
    destruct (Hall st' Hst' kind cb Hcb) as [?|[??]]; eauto. }
  destruct (ReadFile src (path_join root entry.1)) as [data|err] eqn:Hread; [|by eexists].
  destruct (decodeCookbook_spec (path_join displayRoot entry.1) data) as (d & -> & Hd).
  destruct d as [cb|err]; [|by eexists].
  assert (accepted_text data cb) as Hacc by by apply Hd.
  destruct (st.2 !! ToLower (cbKind cb)) as [previous|]; [by eexists|].
  rewrite kind_lower by by eapply accepted_text_kind.
  destruct (IH (<[cbKind cb := cb]> st.1, <[cbKind cb := path_join displayRoot entry.1]> st.2)) as (r & Hr & Hall).
  exists r. split; [done|]. intros st' Hst' kind cb' Hcb'.
  destruct (Hall st' Hst' kind cb' Hcb') as [Hin|[??]]; [|by eauto]. cbn in Hin.
  destruct (decide (cbKind cb = kind)) as [Heq|Hne].
  - rewrite Heq, lookup_insert_eq in Hin. injection Hin as <-. right. split; [done|].
    exists entry, data. split; [by apply elem_of_cons; left|done].
  - rewrite lookup_insert_ne in Hin by done. by left.
Qed.

(** What a directory must hold for its cookbooks to be served. *)
Lemma load_from_spec src root displayRoot :
  ∃ r, load_from src root displayRoot = Done r ∧
  ∀ cookbooks, r = inl cookbooks →
    ∃ entries n r, ReadDir src = Ok entries ∧ cookbooks = {["nginx" := n; "redis" := r]} ∧ set_disjoint n r
      ∧ cbKind n = "nginx" ∧ cbKind r = "redis"
      ∧ loaded_from src root entries n ∧ loaded_from src root entries r.
Proof.
  unfold load_from. destruct (ReadDir src) as [entries|err]; [|by eexists].
  destruct (load_loop_spec src root displayRoot entries (∅, ∅)) as (r & -> & Hall).
  destruct r as [[result origins]|err]; [|by eexists]. case_bool_decide; [by eexists|].
  destruct (validateCookbookSet _ _ _) as [err|] eqn:Hset; [by eexists|].
  eexists; split; [done|]. intros cookbooks [= <-].
  apply validateCookbookSet_spec in Hset as (n & r & -> & Hdis).
  assert (∀ kind cb, ({["nginx" := n; "redis" := r]} : gmap string Cookbook) !! kind = Some cb →
    cbKind cb = kind ∧ loaded_from src root entries cb) as Hfrom.
  { intros kind cb Hcb. destruct (Hall _ eq_refl kind cb Hcb) as [Hin|?]; [|done].
    cbn [fst] in Hin. by rewrite lookup_empty in Hin. }
  destruct (Hfrom "nginx" n) as [??]; [by rewrite lookup_insert_eq|].
  destruct (Hfrom "redis" r) as [??]; [by rewrite lookup_insert_ne, lookup_singleton_eq|].
  by exists entries, n, r.
Qed.
(** What a successful load yields. *)
Definition served_set (cookbooks : gmap string Cookbook) : Prop :=
  (∃ n m, cookbooks = {["nginx" := n; "redis" := m]} ∧ set_disjoint n m)
  ∧ ∀ kind cb, cookbooks !! kind = Some cb → cbKind cb = kind ∧ ∃ data, accepted_text data cb.

Lemma load_from_set src root displayRoot :
  ∃ r, load_from src root displayRoot = Done r ∧ ∀ cookbooks, r = inl cookbooks → served_set cookbooks.
Proof.
  destruct (load_from_spec src root displayRoot) as (r & Hr & Hall). exists r. split; [done|]. intros cookbooks Hcb.
  destruct (Hall cookbooks Hcb)
    as (entries & n & m & _ & -> & Hdis & Hn & Hm & (? & d1 & _ & _ & _ & H1) & (? & d2 & _ & _ & _ & H2)).
  split; [by exists n, m|].
  intros kind cb [[<- <-]|[_ [<- <-]%lookup_singleton_Some]]%lookup_insert_Some; eauto.
Qed.

Lemma loadCookbooks_spec `{Files} dir :
  ∃ r, loadCookbooks dir = Done r ∧ ∀ cookbooks, r = inl cookbooks → served_set cookbooks.
Proof.
  unfold loadCookbooks. case_bool_decide; [|apply load_from_set].
  destruct (Abs dir); [apply load_from_set|by eexists].
Qed.
End load.

(** * The embedded cookbooks *)

Section embedded.
Context {UN : Unicode}.

(** The verdict on a text, as a function; the order of maps plays no part in it. *)
Definition decoded_text (data : string) : option Cookbook :=
  v ← parse data; if distinct v then fitting (into_cookbook zero_Cookbook v) else None.

Definition check_text (data : string) : bool :=
  negb (bool_decide (TrimSpace data = EmptyString))
  && match decoded_text data with
     | Some cb => match (validate (RO := range_forward) cb).2 with Done None => true | _ => false end
     | None => false
     end.

Definition text_cookbook (data : string) : Cookbook :=
  (validate (RO := range_forward) (default zero_Cookbook (decoded_text data))).1.

Lemma validate_cookbook (RO1 RO2 : RangeOrder) c : (validate (RO := RO1) c).1 = (validate (RO := RO2) c).1.
Proof. unfold validate. case_bool_decide; [done|]. by case_bool_decide. Qed.

Lemma check_text_spec {RO : RangeOrder} data :
  check_text data = true → accepted_text data (text_cookbook data).
Proof.
  unfold check_text, text_cookbook, accepted_text, decoded_text.
  rewrite andb_true_iff, negb_true_iff, bool_decide_eq_false. intros [Hblank Hcheck]. split; [done|].
  destruct (parse data) as [v|]; [|done]. cbn [mbind option_bind] in *. exists v.
  destruct (distinct v); [|done]. destruct (into_cookbook zero_Cookbook v) as [d|]; [|done].
  cbn [fitting default] in *. exists d. split_and!; [done..| |apply validate_cookbook].
  apply (validate_any range_forward). unfold accepts. by destruct (validate d).2 as [[]| |].
Qed.

Definition disjoint_check (a b : Cookbook) : bool :=
  negb (bool_decide (ToLower (sName (Defaults a)) = ToLower (sName (Defaults b))))
  && negb (bool_decide (endpoint_key a = endpoint_key b))
  && forallb (λ key, negb (bool_decide (key ∈ image_keys b))) (image_keys a).

Lemma disjoint_check_spec a b : disjoint_check a b = true → set_disjoint a b.
Proof.
  unfold disjoint_check. rewrite !andb_true_iff, !negb_true_iff, !bool_decide_eq_false, forallb_forall.
  intros [[H1 H2] H3]. split_and!; [done..|]. intros key Hin%list_elem_of_In.
  apply H3 in Hin. by rewrite negb_true_iff, bool_decide_eq_false in Hin.
Qed.

Lemma embedded_accepted :
  check_text nginx_json = true ∧ check_text redis_json = true
  ∧ cbKind (text_cookbook nginx_json) = "nginx" ∧ cbKind (text_cookbook redis_json) = "redis"
  ∧ disjoint_check (text_cookbook nginx_json) (text_cookbook redis_json) = true.
Proof. split_and!; by vm_compute. Qed.
End embedded.

Section embedded_source.
Context {RO : RangeOrder} {UN : Unicode} {JE : JsonErrors}.

(** A directory of two files. *)
Lemma load_from_two src root displayRoot n1 n2 d1 d2 a b :
  ReadDir src = Ok [(n1, false); (n2, false)] →
  is_cookbook_name (n1, false) = true → is_cookbook_name (n2, false) = true →
  ReadFile src (path_join root n1) = Ok d1 → ReadFile src (path_join root n2) = Ok d2 →
  accepted_text d1 a → accepted_text d2 b → cbKind a = "nginx" → cbKind b = "redis" → set_disjoint a b →
  load_from src root displayRoot = Done (inl {["nginx" := a; "redis" := b]}).
Proof.
  intros Hdir E1 E2 R1 R2 A1 A2 Ka Kb Hdis. unfold load_from. rewrite Hdir. cbn [load_loop].
  rewrite E1, E2. cbn [negb fst snd]. rewrite R1, R2.
  destruct (decodeCookbook_spec (path_join displayRoot n1) d1) as (r1 & -> & Hr1).
  rewrite (proj2 (Hr1 a) A1), Ka.
  destruct (decodeCookbook_spec (path_join displayRoot n2) d2) as (r2 & -> & Hr2).
  rewrite (proj2 (Hr2 b) A2), Kb.
  change (ToLower "nginx") with "nginx". change (ToLower "redis") with "redis".
  rewrite lookup_empty, lookup_insert_ne, lookup_empty by done.
  rewrite bool_decide_false by apply insert_non_empty.
  rewrite (insert_insert_ne (∅ : gmap string Cookbook) "redis" "nginx"), insert_empty by done.
  set (origins := <["redis":=_]> (<["nginx":=_]> ∅)).
  destruct (validateCookbookSet path_dir _ origins) as [err|] eqn:Hset; [|done].
  exfalso. assert (validateCookbookSet path_dir {["nginx" := a; "redis" := b]} origins = None) as Hnone.
  { apply validateCookbookSet_spec. by eexists _, _. }
  by rewrite Hnone in Hset.
Qed.

Lemma embedded_nginx : ReadFile embeddedCookbooks (path_join "cookbooks" "nginx.json") = Ok nginx_json.
Proof. by vm_compute. Qed.
Lemma embedded_redis : ReadFile embeddedCookbooks (path_join "cookbooks" "redis.json") = Ok redis_json.
Proof. by vm_compute. Qed.
End embedded_source.

Lemma one_value_dec data : (∃ v, one_value data v) ∨ ¬ ∃ v, one_value data v.
Proof.
  unfold one_value. destruct (free_value data) as [[v rest]|]; [|right; by intros (? & ? & ? & _)].
  destruct (decide (skip_space rest = EmptyString ∧ distinct v = true)) as [|Hno]; [left; by exists v, rest|].
  right. intros (v' & rest' & [= <- <-] & ?). by apply Hno.
Qed.

(** * What modelling the loader showed *)

Section findings.
#[local] Existing Instances unicode_none errors_plain range_forward.

Definition with_text (old new : string) : string := ReplaceAll nginx_json (json_text old) (json_text new).

Definition diagnosed (data : string) : option (string * string * Z * string) :=
  match decodeCookbook "nginx.json" data with
  | Done (inr e) => Some (Code e, JSONPath e, Line e, SourceLine e)
  | _ => None
  end.

(** Two members that differ in case are not duplicates for the scan, and the decoder
    keeps the last. *)
Lemma case_duplicate_accepted :
  check_text (with_text "`kind`: `nginx`," "`kind`: `redis`, `KIND`: `nginx`,") = true.
Proof. by vm_compute. Qed.

(** An unknown field whose name is known elsewhere is reported at the last place of
    that name in the document. *)
Lemma unknown_field_misplaced :
  diagnosed (with_text "`kind`: `nginx`," "`kind`: `nginx`, `status`: 1,")
  = Some ("CONFIG_UNKNOWN_FIELD", "/seeds/2/http/*/0/status", 318%Z, json_text "            `status`: 404,").
Proof. by vm_compute. Qed.

(** An array item is located at the comma before it, on the line before its own. *)
Lemma item_located_at_comma :
  diagnosed (with_text "    `nginx:latest`" "    ` `")
  = Some ("CONFIG_VALIDATION_ERROR", "/image_names/2", 5%Z, json_text "    `nginx:alpine`,").
Proof. by vm_compute. Qed.
End findings.

(** * Theorems *)

(** C18: the scan of a cookbook document always ends, it accepts exactly the texts
    that are one JSON value, nested to any depth, without an object that has a key
    twice, and on these it records exactly the pointers and offsets that the grammar
    gives: driving [json.Decoder] token by token is equivalent to parsing. *)
Theorem scan_exact {RO : RangeOrder} {UN : Unicode} {JE : JsonErrors} file data :
  ∃ r, scanJSONDocument file data = Done r
    ∧ ∀ locations, r = inl locations ↔ (∃ v, one_value data v) ∧ locations = document_locations data.
Proof.
  destruct (scanJSONDocument_spec file data) as [Hgood Hbad].
  destruct (one_value_dec data) as [[v Hv]|Hno].
  - exists (inl (document_locations data)). split; [by apply (Hgood v)|]. intros locations.
    split; [intros [= <-]; split; [by exists v|done]|]. by intros [_ ->].
  - destruct Hbad as [err ->]; [intros v Hv; by apply Hno; exists v|]. eexists. split; [done|].
    intros locations. split; [done|]. by intros [? _].
Qed.

(** C11: decoding a cookbook always ends with a verdict, without a panic, and accepts
    exactly the texts that are not blank and are one JSON value within the limit on
    nested brackets, without duplicate keys, that fits the cookbook type without an
    unknown field and passes validation; the result is the validated cookbook. *)
Theorem decodeCookbook_exact {RO : RangeOrder} {UN : Unicode} {JE : JsonErrors} path data :
  ∃ r, decodeCookbook path data = Done r ∧ ∀ cb, r = inl cb ↔ accepted_text data cb.
Proof. apply decodeCookbook_spec. Qed.

(** C12: loading a directory of cookbooks always ends, with an error or with exactly
    one nginx and one redis cookbook that can be served side by side; a container
    made from either, for any seed, satisfies the assumptions under which no operation
    on it panics or blocks, and answers with sendable responses. *)
Theorem loaded_cookbooks_are_safe {RO : RangeOrder} {UN : Unicode} {JE : JsonErrors} `{Files} dir :
  ∃ r, loadCookbooks dir = Done r ∧ ∀ cookbooks, r = inl cookbooks →
    (∃ n m, cookbooks = {["nginx" := n; "redis" := m]} ∧ set_disjoint n m) ∧
    ∀ kind cb, cookbooks !! kind = Some cb → cbKind cb = kind ∧
      ∀ now id name image seed pids, (0 ≤ pids < 2^61)%Z →
        let container := newContainer now id name image cb seed in
        initial (mkCState container pids) ∧ responses_ok (cScenario container).
Proof.
  destruct (loadCookbooks_spec dir) as (r & Hr & Hall).
  exists r. split; [done|]. intros cookbooks Hcb. destruct (Hall cookbooks Hcb) as [Htwo Hkinds].
  split; [done|]. intros kind cb Hin. destruct (Hkinds kind cb Hin) as [Hkind (data & _ & v & d & _ & _ & _ & Hacc & ->)].
  split; [done|]. intros now id name image seed pids Hpids.
  by destruct (accepted_container d now id name image seed pids Hacc Hpids) as (? & ? & _).
Qed.

(** C19: the cookbooks that are built into the program are accepted: without a
    cookbook directory, loading yields the validated contents of nginx.json and
    redis.json, in whatever order Go visits their maps. *)
Theorem embedded_cookbooks_load {RO : RangeOrder} {UN : Unicode} {JE : JsonErrors} `{Files} dir :
  TrimSpace dir = EmptyString →
  loadCookbooks dir = Done (inl {["nginx" := text_cookbook nginx_json; "redis" := text_cookbook redis_json]}).
Proof.
  intros Hdir. destruct embedded_accepted as (Hn & Hr & Kn & Kr & Hdis). apply disjoint_check_spec in Hdis.
  unfold loadCookbooks. rewrite bool_decide_false by naive_solver.
  exact (load_from_two embeddedCookbooks "cookbooks" "<embedded>/cookbooks" "nginx.json" "redis.json" nginx_json redis_json
    _ _ eq_refl eq_refl eq_refl embedded_nginx embedded_redis (check_text_spec _ Hn) (check_text_spec _ Hr) Kn Kr Hdis).
Qed.

Lemma embedded_cookbooks_load_witness :
  loadCookbooks (RO := range_backward) (UN := unicode_none) (JE := errors_plain)
    (H := {| Abs := Ok; DirFS := λ _, embeddedCookbooks |}) "  "
  = Done (inl {["nginx" := text_cookbook (UN := unicode_none) nginx_json;
                "redis" := text_cookbook (UN := unicode_none) redis_json]}).
Proof. apply embedded_cookbooks_load. reflexivity. Defined.



Lemma loaded_elim {A B} (P : A → Prop) (o : outcome (A + B)) :
  match o with Done (inl _) => true | _ => false end = true →
  (∃ r, o = Done r ∧ ∀ a, r = inl a → P a) → match o with Done (inl a) => P a | _ => False end.
Proof. intros Ho (r & -> & Hr). destruct r as [a|]; [by apply Hr|done]. Qed.

Lemma loaded_cookbooks_are_safe_witness :
  match loadCookbooks (RO := range_forward) (UN := unicode_none) (JE := errors_plain)
      (H := {| Abs := Ok; DirFS := λ _, embeddedCookbooks |}) EmptyString with
  | Done (inl cookbooks) => ∃ n m, cookbooks = {["nginx" := n; "redis" := m]} ∧ set_disjoint (UN := unicode_none) n m
  | _ => False
  end.
Proof.
  apply loaded_elim; [vm_compute; reflexivity|].
  destruct (loaded_cookbooks_are_safe (RO := range_forward) (UN := unicode_none) (JE := errors_plain)
    (H := {| Abs := Ok; DirFS := λ _, embeddedCookbooks |}) EmptyString) as (r & Hr & Hall).
  exists r. split; [exact Hr|]. intros cookbooks Hc. exact (proj1 (Hall cookbooks Hc)).
Defined.
