(* ===== verification/Startup.v ===== *)
(** The start, the check and the end of the program: the functions of [main.go] that
    do I/O, on the [World] of [Host], and the run directory of [newLedger].

    [run] is the whole program up to the moment when it serves requests; what
    happens while it serves is in [DockerAPI] and [Runtime]; [shutdown] is the rest
    of [serve].  The cookbooks come from [loadCookbooks] of [CookbookLoad]. *)
From Stdlib Require Import Ascii.
From S2P Require Import Prelude GoStrings GoTime Json Cookbook CookbookValidation Container ImageMatch EngineTypes Ledger Diagnostic Engine EngineNetwork Redis Runtime Http DockerAPI Options Host DocumentScan CookbookLoad.

Section startup.
Context {HO : Host} {UN : Unicode}.

(** * The Docker socket *)

Definition prepareUnixSocketPath (path : string) : prog World (option string) :=
  match validateUnixSocketPath path with
  | Some err => mret (Some err)
  | None =>
    info ← Stat path;
    match info with
    | Err err => mret (Some ("inspect socket path " +:+ path +:+ ": " +:+ err))
    | Ok None => mret None
    | Ok (Some (SocketNode _ _)) =>
      connection ← Dial path;
      match connection with
      | Connected => mret (Some ("docker socket " +:+ path
          +:+ " is active; stop the existing docker-zero process or choose another --socket"))
      | DialFailed err => mret (Some ("cannot verify whether existing Docker socket " +:+ path +:+ " is stale: " +:+ err))
      | Refused | NoEntry =>
        removed ← Remove path;
        mret (match removed with
              | RemoveFailed err => Some ("remove stale Docker socket " +:+ path +:+ ": " +:+ err)
              | Removed | NotExist => None
              end)
      end
    | Ok (Some _) => mret (Some ("refusing to remove non-socket path " +:+ path))
    end
  end.

Definition listenUnixSocket (path : string) (mode : Z) : prog World (option string) :=
  made ← MkdirAll (path_dir path);
  match made with
  | Some err => mret (Some err)
  | None =>
    prepared ← prepareUnixSocketPath path;
    match prepared with
    | Some err => mret (Some err)
    | None =>
      listened ← ListenUnix path;
      match listened with
      | Some err => mret (Some err)
      | None =>
        changed ← Chmod path mode;
        match changed with
        | Some err =>
          CloseUnix path;;
          Remove path;;
          mret (Some err)
        | None => mret None
        end
      end
    end
  end.

(** * [--check] *)

Definition checkWritableDirectory (path description : string) : prog World (option string) :=
  made ← MkdirAll path;
  match made with
  | Some err => mret (Some ("create " +:+ description +:+ " " +:+ path +:+ ": " +:+ err))
  | None =>
    file ← CreateTemp path ".docker-zero-check-";
    match file with
    | Err err => mret (Some ("write to " +:+ description +:+ " " +:+ path +:+ ": " +:+ err))
    | Ok name =>
      closed ← attempt "close" name;
      match closed with
      | Some err => mret (Some ("close write probe " +:+ name +:+ ": " +:+ err))
      | None =>
        removed ← Remove name;
        mret (match removed with
              | Removed => None
              | RemoveFailed err => Some ("remove write probe " +:+ name +:+ ": " +:+ err)
              | NotExist => Some ("remove write probe " +:+ name +:+ ": no such file or directory")
              end)
      end
    end
  end.

Definition checkSocketPath (path : string) (mode : Z) : prog World (option string) :=
  listened ← listenUnixSocket path mode;
  match listened with
  | Some err => mret (Some ("create Docker socket probe " +:+ path +:+ ": " +:+ err))
  | None =>
    closed ← CloseUnix path;
    match closed with
    | Some err => mret (Some ("close Docker socket probe " +:+ path +:+ ": " +:+ err))
    | None =>
      removed ← Remove path;
      mret (match removed with
            | RemoveFailed err => Some ("remove Docker socket probe " +:+ path +:+ ": " +:+ err)
            | Removed | NotExist => None
            end)
    end
  end.

(** The loop over the published addresses; [opened] is closed when the function
    returns. *)
Fixpoint probe_loop (items : list (string * string)) (opened : list string) : prog World (option string) :=
  match items with
  | [] => CloseTCP opened;; mret None
  | (name, addr) :: items =>
    listened ← ListenTCP addr;
    match listened with
    | Some err => CloseTCP opened;; mret (Some (name +:+ " " +:+ addr +:+ " cannot be bound: " +:+ err))
    | None => probe_loop items (opened ++ [addr])
    end
  end.

Definition checkConfiguration (opts : options) (mode : Z) : prog World (option string) :=
  writable ← checkWritableDirectory (ledgerDir opts) "ledger directory";
  match writable with
  | Some err => mret (Some err)
  | None =>
    socket ← checkSocketPath (socketPath opts) mode;
    match socket with
    | Some err => mret (Some err)
    | None =>
      if negb (bootstrap opts) then mret None
      else probe_loop [("nginx bootstrap published endpoint", nginxAddr opts);
                       ("redis bootstrap published endpoint", redisAddr opts)] []
    end
  end.

Definition validatePathArguments (socketPath ledgerDir : string) : prog World (option string) :=
  match path_texts socketPath ledgerDir with
  | Some err => mret (Some err)
  | None =>
    info ← Stat ledgerDir;
    mret (match info with
          | Err err => Some ("inspect --ledger-dir " +:+ ledgerDir +:+ ": " +:+ err)
          | Ok (Some Directory) | Ok None => None
          | Ok (Some _) => Some ("--ledger-dir " +:+ ledgerDir +:+ " is not a directory")
          end)
  end.

(** * What is printed *)

Definition print_out (text : string) : prog World () := modify (λ w, w <| stdout := stdout w +:+ text |>).
Definition print_line (text : string) : prog World () := print_out (text +:+ nl).
Definition print_failure (category : string) (err : failure) : prog World () :=
  modify (λ w, w <| stderr := printFailure (stderr w) category err |>).

(** The verb [%#o] of the permissions. *)
Fixpoint octal_text (fuel : nat) (n : Z) : string :=
  match fuel with
  | 0 => EmptyString
  | S fuel => (if bool_decide (n < 8)%Z then EmptyString else octal_text fuel (n / 8)%Z)
              +:+ String (hex_digit (Z.to_N (n `mod` 8))) EmptyString
  end.
Definition perm_text (mode : Z) : string :=
  if bool_decide (mode = 0)%Z then "0" else "0" +:+ octal_text 3 mode.

Definition print_if (b : bool) (text : string) : prog World () := if b then print_line text else mret ().

Section order.
Context {RO : RangeOrder}.

Definition printStartupSummary (opts : options) (overrides : gmap string Z) (endpointMode : string) (ledger : Ledger) :
    prog World () :=
  print_line ("docker-zero " +:+ version +:+ " READY");;
  print_line ("  Docker socket     : " +:+ socketPath opts);;
  print_line ("  Global seed       : " +:+ Itoa (oSeed opts));;
  print_if (bool_decide (0 < size overrides)) ("  Overrides         : " +:+ formatOverrides overrides);;
  print_line ("  Container endpoints: " +:+ endpointMode);;
  print_line "  Published ports   : Compose/Docker-driven; conflicts are enforced at container start";;
  print_if (bootstrap opts) ("  Bootstrap nginx   : " +:+ nginxAddr opts);;
  print_if (bootstrap opts) ("  Bootstrap redis   : " +:+ redisAddr opts);;
  print_line ("  Ledger            : " +:+ RunDir ledger);;
  print_line ("  Docker host       : DOCKER_HOST=unix://" +:+ socketPath opts).

Definition printCheckSummary (opts : options) (overrides : gmap string Z) (endpointMode : string) (mode : Z) :
    prog World () :=
  print_line ("docker-zero " +:+ version +:+ " CHECK OK");;
  print_line "  Cookbooks         : nginx, redis";;
  print_line "  Seeds             : 0, 1, 2";;
  print_line ("  Docker socket     : " +:+ socketPath opts +:+ " (" +:+ perm_text mode +:+ ")");;
  print_line "  Published ports   : Docker/Compose-driven; allocated and conflict-checked on start";;
  print_line "  Container IPs     : allocated independently per virtual network";;
  print_line ("  Container mode    : " +:+ endpointMode);;
  print_if (bootstrap opts) ("  Bootstrap nginx   : " +:+ nginxAddr opts);;
  print_if (bootstrap opts) ("  Bootstrap redis   : " +:+ redisAddr opts);;
  print_if (bool_decide (0 < size overrides)) ("  Overrides         : " +:+ formatOverrides overrides).
End order.

(** * The run directory: [newLedger] *)

(** [json.MarshalIndent] with two spaces; [margin] is the line break and the
    indentation of the value. *)
Fixpoint print_indent (margin : string) (j : json) : string :=
  let inner := margin +:+ "  " in
  match j with
  | JObject [] => "{}"
  | JObject l => "{" +:+ Join ((λ kv, inner +:+ print_string kv.1 +:+ ": " +:+ print_indent inner kv.2) <$> l) "," +:+ margin +:+ "}"
  | JArray [] => "[]"
  | JArray l => "[" +:+ Join ((λ v, inner +:+ print_indent inner v) <$> l) "," +:+ margin +:+ "]"
  | _ => print j
  end.

(** [Format("20060102T150405.000000000Z")] *)
Definition run_stamp (t : Time) : string :=
  let secs := (t / ns_per_second)%Z in
  let '(y, m, d) := civil_date (secs / 86400) in
  let tod := (secs `mod` 86400)%Z in
  pad_digits 4 y +:+ pad_digits 2 m +:+ pad_digits 2 d +:+ "T" +:+ pad_digits 2 (tod / 3600)
  +:+ pad_digits 2 ((tod / 60) `mod` 60) +:+ pad_digits 2 (tod `mod` 60) +:+ "."
  +:+ pad_digits 9 (t `mod` ns_per_second) +:+ "Z".

Definition run_metadata (seed : Z) (overrides : gmap string Z) (started : Time) (dir : string) : json :=
  any_json (AnyMap [("name", AnyString "docker-zero"); ("version", AnyString version); ("seed", AnyInt seed);
    ("overrides", AnyMap ((λ kv, (kv.1, AnyInt kv.2)) <$> map_to_list overrides));
    ("started_at", AnyString (RFC3339Nano started)); ("run_dir", AnyString dir)]).

(** [os.OpenFile] with [O_CREATE|O_APPEND], and [os.WriteFile]. *)
Definition write_file (operation path : string) (contents : option string) : prog World (option string) :=
  w ← get;
  err ← attempt operation path;
  match err, node_at path w with
  | Some e, _ => mret (Some e)
  | None, None => modify (set_node path (Regular (default EmptyString contents)));; mret None
  | None, Some (Regular old) => modify (set_node path (Regular (default old contents)));; mret None
  | None, Some _ => mret (Some ("open " +:+ path +:+ ": is a directory"))
  end.

Section clock.
Context {CK : Clock}.

Definition make_ledger (baseDir : string) (seed : Z) (overrides : gmap string Z) : prog World (result Ledger) :=
  let dir := path_join baseDir ("seed-" +:+ Itoa seed +:+ "-" +:+ run_stamp (Now "ledger.go:45")) in
  made ← MkdirAll (path_join dir "containers");
  match made with
  | Some err => mret (Err err)
  | None =>
    opened ← write_file "open" (path_join dir "global.ledger.jsonl") None;
    match opened with
    | Some err => mret (Err err)
    | None =>
      let data := print_indent nl (run_metadata seed overrides (Now "ledger.go:65") dir) +:+ nl in
      written ← write_file "write" (path_join dir "run.json") (Some data);
      match written with
      | Some err => mret (Err err)
      | None => mret (Ok (newLedger dir seed))
      end
    end
  end.
End clock.
End startup.

Example run_stamp_example :
  run_stamp ((62135596800 + 1709210096) * ns_per_second + 120000000)%Z = "20240229T123456.120000000Z".
Proof. by vm_compute. Qed.

(** * [serve] and [run] *)

Section main.
Context {HO : Host} {FS : FileSystem} {RO : RangeOrder} {UN : Unicode} {SK : Sockets} {CK : Clock}.
Context {JE : JsonErrors} {FI : Files}.

Definition exitOK : Z := 0.
Definition exitConfig : Z := 2.
Definition exitRuntime : Z := 3.

(** The published port of a default container. *)
Definition default_bindings (d : ServiceDefaults) : gmap string (list PortBinding) :=
  {[ Itoa (ContainerPort d) +:+ "/tcp" := [mkPortBinding (HostIP d) (HostPort d) (HostPort d) "tcp" (ContainerPort d)] ]}.

(** One round of the bootstrap loop: the default container of a kind. *)
Definition bootstrap_container (cookbooks : gmap string Cookbook) (kind : string) : prog Engine (option string) :=
  match cookbooks !! kind with
  | None => panic "invalid memory address or nil pointer dereference"
  | Some cb =>
    let d := Defaults cb in
    created ← createContainer (Now "main.go:148") (sName d) (sImage d) {["docker-zero.bootstrap" := "true"]} [] [];
    match created with
    | Err err => mret (Some ("bootstrap " +:+ kind +:+ ": " +:+ err))
    | Ok p =>
      on p (modify_this (setPortBindings (default_bindings d)));;
      connected ← configureContainerNetworks p "bridge" ∅;
      match connected with
      | Err err => mret (Some ("bootstrap " +:+ kind +:+ " network: " +:+ err))
      | Ok _ =>
        started ← on p (start (Now "main.go:162"));
        failed ← startContainerRuntime (Now "main.go:163") p;
        match failed with
        | Some err => mret (Some ("bootstrap " +:+ kind +:+ " runtime: " +:+ err))
        | None =>
          advance ← on p (advance (Now "main.go:168") "docker.start");
          logContainerEvent (Now "main.go:170") p "container.start.bootstrap"
            (advance <| aBefore := started.1 |>) AnyNil AnyNil;;
          mret None
        end
      end
    end
  end.

Fixpoint bootstrap_loop (cookbooks : gmap string Cookbook) (kinds : list string) : prog Engine (option string) :=
  match kinds with
  | [] => mret None
  | kind :: kinds =>
    err ← bootstrap_container cookbooks kind;
    match err with
    | Some err => mret (Some err)
    | None => bootstrap_loop cookbooks kinds
    end
  end.

(** A part of the start-up that works on the engine. *)
Definition with_engine {A} (m : prog Engine A) (e : Engine) : prog World (Engine * A) := λ w,
  match m e with
  | (e', Done a) => (w, Done (e', a))
  | (_, Panic msg) => (w, Panic msg)
  | (_, Blocked) => (w, Blocked)
  end.

(** How the start ends: with an exit code, or with an engine that is being served. *)
Inductive started :=
| Exited (code : Z)
| Serving (e : Engine).

Definition fail_startup (err : string) : prog World started :=
  print_failure "STARTUP_ERROR" (Plain err);; mret (Exited exitRuntime).

(** [serve], up to the moment when it waits. *)
Definition serve_startup (opts : options) (cookbooks : gmap string Cookbook) (overrides : gmap string Z)
    (endpointMode : string) (socketMode : Z) : prog World started :=
  made ← make_ledger (ledgerDir opts) (oSeed opts) overrides;
  match made with
  | Err err => fail_startup ("create ledger under " +:+ ledgerDir opts +:+ ": " +:+ err)
  | Ok ledger =>
    let e := newEngine (Now "engine_core.go:69") (Now "engine_core.go:81") cookbooks (oSeed opts) overrides ledger in
    let e := e <| Engine.endpointMode := endpointMode |> in
    '(e, failed) ← with_engine
      (if bootstrap opts then bootstrap_loop cookbooks (sortedCookbookKinds cookbooks) else mret None) e;
    match failed with
    | Some err => fail_startup err
    | None =>
      listened ← listenUnixSocket (socketPath opts) socketMode;
      match listened with
      | Some err =>
        '(e, _) ← with_engine closeRuntimes e;
        fail_startup ("listen on Docker socket " +:+ socketPath opts +:+ ": " +:+ err)
      | None =>
        printStartupSummary opts overrides endpointMode ledger;;
        mret (Serving e)
      end
    end
  end.

(** [forwardRuntimeErrors]: what reaches the channel of capacity 16. *)
Definition forwardRuntimeErrors (component : string) (source target : list string) : list string :=
  foldl (λ target err, reportRuntimeError 16 (component +:+ ": " +:+ err) target) target source.

(** What ends the wait of [serve]: a signal, or the first error that was forwarded. *)
Inductive stop_event := Interrupted | InternalError (err : string).

Definition pending_errors (e : Engine) : list string :=
  forwardRuntimeErrors "engine" (internalErrors e) (forwardRuntimeErrors "ledger" (Errors (ledger e)) []).

(** The rest of [serve].  [Shutdown] of the server closes the listener, and the node
    goes with it, so that the later [Close] reports [net.ErrClosed], which does not
    count, and [os.Remove] finds nothing. *)
Definition shutdown (opts : options) (event : stop_event) (e : Engine) : prog World (Z * Engine) :=
  match event with
  | Interrupted => mret ()
  | InternalError err => print_failure "INTERNAL_RUNTIME_ERROR" (Plain err)
  end;;
  served ← CloseUnix (socketPath opts);
  '(e, closed) ← with_engine closeRuntimes e;
  removed ← Remove (socketPath opts);
  let '(l, closing) := Close (ledger e) in
  let failed := match event with InternalError err => Some err | Interrupted => None end in
  let unlinked := match removed with RemoveFailed err => Some err | Removed | NotExist => None end in
  let code := if bool_decide (omap id [failed; served; closed; unlinked; closing] = []) then exitOK else exitRuntime in
  mret (code, e <| ledger := l |>).

Definition refuse (category : string) (err : failure) : prog World started :=
  print_failure category err;; mret (Exited exitConfig).

(** A call that does not change the state. *)
Definition of_outcome {S A} (o : outcome A) : prog S A := λ s, (s, o).

Definition run (args : list string) : prog World started :=
  w ← get;
  let '(err_text, parsed) := parseOptions args (stderr w) in
  modify (λ w, w <| stderr := err_text |>);;
  match parsed with
  | Err _ => mret (Exited exitConfig)
  | Ok opts =>
    if showVersion opts then print_line ("docker-zero " +:+ version);; mret (Exited exitOK)
    else match normalizeEndpointMode (containerEndpoints opts) with
    | Err err => refuse "CONFIG_ERROR" (Plain err)
    | Ok endpointMode =>
    match parseScenarioOverrides (scenarioFlag opts) with
    | Err err => refuse "CONFIG_ERROR" (Plain err)
    | Ok overrides =>
    loaded ← of_outcome (loadCookbooks (cookbookDir opts));
    match loaded with
    | inr err => refuse "CONFIG_ERROR" err
    | inl cookbooks =>
    match applyListenAddresses cookbooks (nginxAddr opts) (redisAddr opts) with
    | (_, Some err) => refuse "CONFIG_ERROR" (Plain err)
    | (cookbooks, None) =>
    match validateScenarioOverrides cookbooks overrides with
    | Some err => refuse "CONFIG_ERROR" (Plain err)
    | None =>
    match parseSocketMode (oSocketMode opts) with
    | Err err => refuse "CONFIG_ERROR" (Plain err)
    | Ok mode =>
      paths ← validatePathArguments (socketPath opts) (ledgerDir opts);
      match paths with
      | Some err => refuse "CONFIG_ERROR" (Plain err)
      | None =>
        if oCheck opts then
          checked ← checkConfiguration opts mode;
          match checked with
          | Some err => refuse "CHECK_FAILED" (Plain err)
          | None => printCheckSummary opts overrides endpointMode mode;; mret (Exited exitOK)
          end
        else serve_startup opts cookbooks overrides endpointMode mode
      end
    end end end end end end
  end.
End main.
