(* ===== verification/StartupTheorems.v ===== *)
(** The start of the program, proved: what it may remove from the file system, what a
    check leaves behind, how it exits, and that the engine it serves is one that the
    operations of the engine can reach. *)
From Stdlib Require Import Ascii.
From S2P Require Import Prelude GoStrings GoTime Json Cookbook Sha256 CookbookValidation Container ContainerConfig ContainerLife ContainerIdentity ImageMatch EngineTypes Net Ledger Diagnostic Engine EngineFacts EngineNetwork NetworkTheorems Redis Runtime Http DockerAPI RuntimeTheorems EngineTheorems ApiTheorems Options Host DocumentScan CookbookLoad LoadTheorems Startup.

(** * Effects on the world *)

(** Every node stays, only a stale socket at [path] may be gone. *)
Definition spared (path : string) (w w' : World) : Prop :=
  ∀ q n, tree w !! q = Some n → tree w' !! q = Some n ∨ q = clean_path path ∧ ∃ perm, n = SocketNode false perm.

(** Every new node is one that [allowed] describes. *)
Definition only_new (allowed : string → node → Prop) (w w' : World) : Prop :=
  ∀ q n, tree w' !! q = Some n → tree w !! q = Some n ∨ allowed q n.

(** Directories are added, nothing else happens to the tree and the addresses. *)
Record grows (w w' : World) : Prop := {
  grows_kept : ∀ q n, tree w !! q = Some n → tree w' !! q = Some n;
  grows_new : only_new (λ _ n, n = Directory) w w';
  grows_bound : bound w' = bound w
}.

(** The tree and the addresses are the same. *)
Definition same_place (w w' : World) : Prop := tree w' = tree w ∧ bound w' = bound w.

Lemma grows_same w w' : same_place w w' → grows w w'.
Proof. intros [Ht Hb]. split; [..|done]; intros q n; rewrite Ht; auto. Qed.

Lemma grows_trans w w1 w2 : grows w w1 → grows w1 w2 → grows w w2.
Proof.
  intros [H1 H2 H3] [G1 G2 G3]. split; [auto| |congruence].
  intros q n [Hq|Hq]%G2; [|by right]. by apply H2.
Qed.

Lemma grows_insert w w' q : tree w !! q = None → tree w' = <[q := Directory]> (tree w) → bound w' = bound w → grows w w'.
Proof.
  intros Hnone Ht Hb. split; [..|done]; intros k n; rewrite Ht.
  - intros Hk. rewrite lookup_insert_ne; [done|]. intros <-. congruence.
  - intros [[<- <-]|[_ Hk]]%lookup_insert_Some; auto.
Qed.

Lemma spared_refl path w w' : tree w' = tree w → spared path w w'.
Proof. intros Ht q n. rewrite Ht. auto. Qed.

Lemma spared_trans path w w1 w2 : spared path w w1 → spared path w1 w2 → spared path w w2.
Proof. intros H1 H2 q n Hq. destruct (H1 q n Hq) as [Hq1|?]; auto. Qed.

Lemma grows_spared path w w' : grows w w' → spared path w w'.
Proof. intros [Hk _ _] q n Hq. auto. Qed.

Section host.
Context {HO : Host} {UN : Unicode}.

Lemma attempt_spec operation path w : ∃ w' r, attempt operation path w = (w', Done r) ∧ same_place w w'.
Proof. by eexists _, _. Qed.

Lemma mkdir_loop_spec paths w : ∃ w' r, mkdir_loop paths w = (w', Done r) ∧ grows w w'.
Proof.
  revert w. induction paths as [|path paths IH]; intros w; [by eexists _, _; split; [|by apply grows_same]|].
  cbn [mkdir_loop]. unfold mbind at 1, prog_bind at 1, get at 1.
  destruct (tree w !! path) as [n|] eqn:Hpath.
  - destruct n as [|contents|listening perm]; [apply IH|by eexists _, _; split; [|by apply grows_same]..].
  - destruct (attempt_spec "mkdir" path w) as (w1 & err & Hrun & Hsame). rewrite (bind_Done _ _ _ _ _ Hrun).
    destruct err as [err|]; [by eexists _, _; split; [|by apply grows_same]|].
    unfold mbind, prog_bind at 1, modify at 1. set (w2 := fset tree _ w1).
    destruct (IH w2) as (w' & r & Hloop & Hgrows). exists w', r. split; [done|].
    eapply grows_trans; [by apply grows_same|]. eapply grows_trans; [|done].
    apply (grows_insert w1 w2 path); [by destruct Hsame as [-> _]|done..].
Qed.

Lemma node_at_some path w n : node_at path w = Some n → n ≠ Directory →
  ancestors path ≠ [] ∧ tree w !! clean_path path = Some n.
Proof. unfold node_at. destruct (ancestors path); [by intros [= <-]|done]. Qed.

Lemma node_at_none path w : node_at path w = None → ancestors path ≠ [] ∧ tree w !! clean_path path = None.
Proof. unfold node_at. by destruct (ancestors path). Qed.

Lemma node_at_tree path w : ancestors path ≠ [] → node_at path w = tree w !! clean_path path.
Proof. unfold node_at. by destruct (ancestors path). Qed.

Lemma Remove_spec path w : ∃ w' r, Remove path w = (w', Done r) ∧ bound w' = bound w ∧
  match r with
  | Removed => tree w' = delete (clean_path path) (tree w) ∧ node_at path w ≠ None
  | NotExist => tree w' = tree w ∧ node_at path w = None
  | RemoveFailed _ => tree w' = tree w
  end.
Proof.
  unfold Remove. unfold mbind at 1, prog_bind at 1, get at 1. destruct (node_at path w) as [n|] eqn:Hn; [|by eexists _, _].
  destruct (attempt_spec "remove" path w) as (w1 & err & Hrun & Ht & Hb). rewrite (bind_Done _ _ _ _ _ Hrun).
  destruct err as [err|]; [by exists w1, (RemoveFailed err)|]. eexists _, Removed. split; [reflexivity|].
  split; [done|]. split; [|done]. cbn. by rewrite Ht.
Qed.

Lemma Stat_spec path w : ∃ w' r, Stat path w = (w', Done r) ∧ same_place w w' ∧
  match r with Ok n => node_at path w = n | Err _ => True end.
Proof.
  unfold Stat. destruct (attempt_spec "stat" path w) as (w1 & err & Hrun & Ht & Hb).
  rewrite (bind_Done _ _ _ _ _ Hrun). unfold mbind, prog_bind, get, mret, prog_ret.
  assert (node_at path w1 = node_at path w) as Hnode by (unfold node_at; by rewrite Ht).
  eexists w1, _. split; [done|]. split; [done|]. rewrite Hnode. by destruct (node_at path w), err.
Qed.

Lemma Dial_spec path w : ∃ w' r, Dial path w = (w', Done r) ∧ same_place w w' ∧
  (r = Refused → ∃ perm, node_at path w = Some (SocketNode false perm)) ∧ (r = NoEntry → node_at path w = None).
Proof.
  unfold Dial. destruct (attempt_spec "dial" path w) as (w1 & err & Hrun & Ht & Hb).
  rewrite (bind_Done _ _ _ _ _ Hrun). unfold mbind, prog_bind, get, mret, prog_ret.
  assert (node_at path w1 = node_at path w) as Hnode by (unfold node_at; by rewrite Ht).
  eexists w1, _. split; [done|]. split; [done|]. rewrite Hnode.
  destruct (node_at path w) as [[|contents|[] perm]|], err; (split; [|done]); intros ?; first [done|by eexists].
Qed.

(** ** The Docker socket *)

(** The node that [prepareUnixSocketPath] makes room at. *)
Definition vacant (path : string) (w : World) : Prop :=
  tree w !! clean_path path = None ∨ ∃ perm, tree w !! clean_path path = Some (SocketNode false perm).

(** What [prepareUnixSocketPath] has done when it returns [r]. *)
Definition prepared (path : string) (w w' : World) (r : option string) : Prop :=
  bound w' = bound w ∧
  (tree w' = tree w ∨ vacant path w ∧ tree w' = delete (clean_path path) (tree w)) ∧
  (r = None → ancestors path ≠ [] ∧ vacant path w ∧ tree w' !! clean_path path = None).

Lemma prepared_refused path w w' err : same_place w w' → prepared path w w' (Some err).
Proof. intros [Ht Hb]. split_and!; auto. done. Qed.

Lemma remove_stale path w w2 : ancestors path ≠ [] → same_place w w2 → vacant path w →
  ∃ w' r, (removed ← Remove path; mret (match removed with
      | RemoveFailed err => Some ("remove stale Docker socket " +:+ path +:+ ": " +:+ err)
      | Removed | NotExist => None end)) w2 = (w', Done r) ∧ prepared path w w' r.
Proof.
  intros Hanc [Ht2 Hb2] Hv. destruct (Remove_spec path w2) as (w3 & removed & Hrun & Hb3 & Hremoved).
  rewrite (bind_Done _ _ _ _ _ Hrun). eexists w3, _. split; [done|]. split; [congruence|].
  destruct removed as [| |err].
  - destruct Hremoved as [-> _]. rewrite Ht2. split; [by right|]. intros _. by rewrite lookup_delete_eq.
  - destruct Hremoved as [-> Hn]. rewrite Ht2. split; [by left|]. intros _. rewrite node_at_tree, Ht2 in Hn by done. done.
  - rewrite Hremoved, Ht2. split; [by left|]. done.
Qed.

Lemma prepare_spec path w : ∃ w' r, prepareUnixSocketPath path w = (w', Done r) ∧ prepared path w w' r.
Proof.
  unfold prepareUnixSocketPath. destruct (validateUnixSocketPath path) as [err|].
  { eexists w, _. split; [done|]. by apply prepared_refused. }
  destruct (Stat_spec path w) as (w1 & info & Hrun & Hsame & Hinfo). rewrite (bind_Done _ _ _ _ _ Hrun).
  assert (∀ err : string, ∃ w' r, (mret (Some err) : prog World (option string)) w1 = (w', Done r) ∧ prepared path w w' r) as Hrefuse.
  { intros err. eexists w1, _. split; [done|]. by apply prepared_refused. }
  destruct info as [[[|contents|listening perm]|]|err]; [apply Hrefuse..| | |apply Hrefuse].
  2: { apply node_at_none in Hinfo as [Hanc Hnone]. destruct Hsame as [Ht Hb]. eexists w1, None. split; [done|].
    split; [done|]. split; [by left|]. intros _. split; [done|]. split; [by left|]. by rewrite Ht. }
  apply node_at_some in Hinfo as [Hanc Hnode]; [|done].
  destruct (Dial_spec path w1) as (w2 & dialled & Hrun2 & Hsame2 & Hrefused & Hnone). rewrite (bind_Done _ _ _ _ _ Hrun2).
  destruct Hsame as [Ht Hb], Hsame2 as [Ht2 Hb2]. rewrite node_at_tree, Ht in Hrefused, Hnone by done.
  assert (same_place w w2) as Hsame by (split; congruence).
  destruct dialled as [| | |err].
  - eexists w2, _. split; [done|]. by apply prepared_refused.
  - apply remove_stale; [done..|]. by right; apply Hrefused.
  - apply remove_stale; [done..|]. by left; apply Hnone.
  - eexists w2, _. split; [done|]. by apply prepared_refused.
Qed.

(** What [listenUnixSocket] has done when it returns [r]. *)
Record listening_at (path : string) (mode : Z) (w w' : World) (r : option string) : Prop := {
  at_bound : bound w' = bound w;
  at_spared : spared path w w';
  at_new : only_new (λ q n, n = Directory ∨ r = None ∧ q = clean_path path ∧ n = SocketNode true mode) w w';
  at_node : r = None → ancestors path ≠ [] ∧ vacant path w ∧ tree w' !! clean_path path = Some (SocketNode true mode)
}.

Lemma vacant_grows path w w1 : grows w w1 → vacant path w1 → vacant path w.
Proof.
  intros Hg Hv. destruct (tree w !! clean_path path) as [n|] eqn:Hn; [|by left]. right.
  apply (grows_kept _ _ Hg) in Hn as Hn1. destruct Hv as [Hv|[perm Hv]]; [congruence|]. exists perm. congruence.
Qed.

(** Only the node at [path] differs, and it was vacant. *)
Lemma listening_failed path mode w w1 w' err : grows w w1 → bound w' = bound w1 →
  (∀ q, tree w' !! q = tree w1 !! q ∨ q = clean_path path ∧ vacant path w1 ∧ tree w' !! q = None) →
  listening_at path mode w w' (Some err).
Proof.
  intros Hg Hb Hsame. split; [by rewrite Hb; apply Hg| | |done].
  - intros q n Hq. apply (grows_kept _ _ Hg) in Hq as Hq1. destruct (Hsame q) as [->|(-> & [Hv|[perm Hv]] & _)]; [by left|congruence|].
    right. split; [done|]. exists perm. congruence.
  - intros q n Hq. destruct (Hsame q) as [Heq|(_ & _ & Heq)]; [|congruence]. rewrite Heq in Hq.
    destruct (grows_new _ _ Hg q n Hq); auto.
Qed.

Lemma listening_done path mode w w1 w' : grows w w1 → bound w' = bound w1 → ancestors path ≠ [] → vacant path w1 →
  tree w' = <[clean_path path := SocketNode true mode]> (delete (clean_path path) (tree w1)) → listening_at path mode w w' None.
Proof.
  intros Hg Hb Hanc Hv Ht. rewrite insert_delete_eq in Ht. split; [by rewrite Hb; apply Hg| | |].
  - intros q n Hq. apply (grows_kept _ _ Hg) in Hq as Hq1. rewrite Ht. destruct (decide (q = clean_path path)) as [->|Hne].
    + right. split; [done|]. destruct Hv as [Hv|[perm Hv]]; [congruence|]. exists perm. congruence.
    + left. by rewrite lookup_insert_ne.
  - intros q n. rewrite Ht. intros [[<- <-]|[_ Hk]]%lookup_insert_Some; [auto|]. destruct (grows_new _ _ Hg q n Hk); auto.
  - intros _. split; [done|]. split; [by eapply vacant_grows|]. by rewrite Ht, lookup_insert_eq.
Qed.

Lemma ListenUnix_spec path w : ancestors path ≠ [] → tree w !! clean_path path = None →
  ∃ w' r, ListenUnix path w = (w', Done r) ∧ bound w' = bound w ∧
    tree w' = match r with None => <[clean_path path := SocketNode true 493]> (tree w) | Some _ => tree w end.
Proof.
  intros Hanc Hnone. unfold ListenUnix. unfold mbind at 1, prog_bind at 1, get at 1. rewrite node_at_tree, Hnone by done.
  destruct (attempt_spec "listen" path w) as (w1 & err & Hrun & Ht & Hb). rewrite (bind_Done _ _ _ _ _ Hrun).
  destruct err as [err|]; [by exists w1, (Some err)|]. eexists _, None. split; [reflexivity|]. split; [done|]. cbn. by rewrite Ht.
Qed.

Lemma Chmod_spec path mode w : ancestors path ≠ [] → (∃ perm, tree w !! clean_path path = Some (SocketNode true perm)) →
  ∃ w' r, Chmod path mode w = (w', Done r) ∧ bound w' = bound w ∧
    tree w' = match r with None => <[clean_path path := SocketNode true mode]> (tree w) | Some _ => tree w end.
Proof.
  intros Hanc [perm Hnode]. unfold Chmod.
  destruct (attempt_spec "chmod" path w) as (w1 & err & Hrun & Ht & Hb). rewrite (bind_Done _ _ _ _ _ Hrun).
  destruct err as [err|]; [by exists w1, (Some err)|]. eexists _, None. split; [reflexivity|].
  rewrite node_at_tree, Ht, Hnode by done. split; [done|]. cbn. by rewrite Ht.
Qed.

(** Closing a listener and removing what is left of it. *)
Lemma close_spec path w : ancestors path ≠ [] → ∃ w1 r w' r', CloseUnix path w = (w1, Done r) ∧ Remove path w1 = (w', Done r') ∧
  same_place w1 w' ∧ bound w' = bound w ∧ tree w' = delete (clean_path path) (tree w) ∧ r' = NotExist.
Proof.
  intros Hanc. unfold CloseUnix. unfold mbind at 1, prog_bind at 1, modify at 1.
  destruct (attempt_spec "close" path (drop_node path w)) as (w1 & err & Hrun & Ht & Hb).
  destruct (Remove_spec path w1) as (w2 & r' & Hrun2 & Hb2 & Hr').
  assert (node_at path w1 = None) as Hnone by (rewrite node_at_tree, Ht by done; cbn; apply lookup_delete_eq).
  exists w1, err, w2, r'. assert (r' = NotExist ∧ tree w2 = tree w1) as [-> Ht2].
  { revert Hr'. unfold Remove in Hrun2. unfold mbind at 1, prog_bind at 1, get at 1 in Hrun2. rewrite Hnone in Hrun2.
    injection Hrun2 as <- <-. done. }
  split_and!; try done; [by rewrite Hb2, Hb|by rewrite Ht2, Ht].
Qed.

Lemma listen_spec path mode w : ∃ w' r, listenUnixSocket path mode w = (w', Done r) ∧ listening_at path mode w w' r.
Proof.
  unfold listenUnixSocket. destruct (mkdir_loop_spec (ancestors (path_dir path)) w) as (w1 & made & Hrun & Hg).
  unfold MkdirAll. rewrite (bind_Done _ _ _ _ _ Hrun). destruct made as [err|].
  { eexists w1, _. split; [done|]. apply (listening_failed _ _ _ w1); [done..|]. auto. }
  destruct (prepare_spec path w1) as (w2 & r & Hrun2 & Hb2 & Ht2 & Hr2). rewrite (bind_Done _ _ _ _ _ Hrun2). destruct r as [err|].
  { eexists w2, _. split; [done|]. apply (listening_failed _ _ _ w1); [done..|]. intros q.
    destruct Ht2 as [->|[Hv ->]]; [by left|]. destruct (decide (q = clean_path path)) as [->|Hne].
    - right. by rewrite lookup_delete_eq.
    - left. by rewrite lookup_delete_ne. }
  destruct (Hr2 eq_refl) as (Hanc & Hv & Hnone).
  assert (tree w2 = delete (clean_path path) (tree w1)) as Htree.
  { destruct Ht2 as [Ht2|[_ Ht2]]; [|done]. by rewrite <-Ht2, delete_id. }
  clear Hr2 Ht2. assert (∀ w' err, bound w' = bound w1 → tree w' = delete (clean_path path) (tree w1) →
    listening_at path mode w w' (Some err)) as Hfailed.
  { intros w' err Hb' Ht'. apply (listening_failed _ _ _ w1); [done..|]. intros q. rewrite Ht'.
    destruct (decide (q = clean_path path)) as [->|Hne]; [right; by rewrite lookup_delete_eq|left; by rewrite lookup_delete_ne]. }
  destruct (ListenUnix_spec path w2 Hanc Hnone) as (w3 & r3 & Hrun3 & Hb3 & Ht3). rewrite (bind_Done _ _ _ _ _ Hrun3).
  destruct r3 as [err|]; [eexists w3, _; split; [done|]; apply Hfailed; congruence|].
  destruct (Chmod_spec path mode w3 Hanc) as (w4 & r4 & Hrun4 & Hb4 & Ht4); [exists 493%Z; by rewrite Ht3, lookup_insert_eq|].
  rewrite (bind_Done _ _ _ _ _ Hrun4). destruct r4 as [err|].
  - destruct (close_spec path w4 Hanc) as (w5 & r5 & w6 & r6 & Hrun5 & Hrun6 & _ & Hb6 & Ht6 & _).
    rewrite (bind_Done _ _ _ _ _ Hrun5), (bind_Done _ _ _ _ _ Hrun6). eexists w6, _. split; [done|].
    apply Hfailed; [congruence|]. by rewrite Ht6, Ht4, Ht3, delete_insert_eq, Htree, delete_delete_eq.
  - eexists w4, None. split; [done|]. apply (listening_done _ _ _ w1); [done|congruence|done..|].
    by rewrite Ht4, Ht3, insert_insert_eq, Htree.
Qed.

(** ** The check *)

(** What [checkSocketPath] has done: the probe is gone again. *)
Lemma check_socket_spec path mode w : ∃ w' r, checkSocketPath path mode w = (w', Done r) ∧
  bound w' = bound w ∧ spared path w w' ∧ only_new (λ _ n, n = Directory) w w'.
Proof.
  unfold checkSocketPath. destruct (listen_spec path mode w) as (w1 & r & Hrun & [Hb Hs Hn Hr]).
  rewrite (bind_Done _ _ _ _ _ Hrun). destruct r as [err|].
  { eexists w1, _. split; [done|]. split; [done|]. split; [done|]. intros q n Hq. destruct (Hn q n Hq) as [?|[?|(? & _)]]; auto. done. }
  destruct (Hr eq_refl) as (Hanc & Hv & Hnode).
  destruct (close_spec path w1 Hanc) as (w2 & r2 & w3 & r3 & Hrun2 & Hrun3 & [Ht3 Hb3] & Hb' & Ht' & ->).
  assert (∀ w', tree w' = tree w3 → bound w' = bound w3 →
    bound w' = bound w ∧ spared path w w' ∧ only_new (λ _ n, n = Directory) w w') as Hdone.
  { intros w' Hw' Hbw'. split; [congruence|]. rewrite Ht' in Hw'. split.
    - intros q n Hq. rewrite Hw'. destruct (decide (q = clean_path path)) as [->|Hne].
      + right. split; [done|]. destruct Hv as [Hv|[perm Hv]]; [congruence|]. exists perm. congruence.
      + rewrite lookup_delete_ne by done. destruct (Hs q n Hq) as [?|[-> _]]; [by left|done].
    - intros q n. rewrite Hw'. intros [Hne Hq]%lookup_delete_Some. destruct (Hn q n Hq) as [?|[?|(_ & -> & _)]]; auto. done. }
  rewrite (bind_Done _ _ _ _ _ Hrun2). destruct r2 as [err|]; [eexists w2, _; split; [done|]; apply Hdone; congruence|].
  rewrite (bind_Done _ _ _ _ _ Hrun3). eexists w3, None. split; [done|]. by apply Hdone.
Qed.

Lemma CreateTemp_spec dir prefix w : ∃ w' r, CreateTemp dir prefix w = (w', Done r) ∧ bound w' = bound w ∧
  match r with
  | Ok name => ancestors name ≠ [] ∧ tree w !! clean_path name = None ∧
      tree w' = <[clean_path name := Regular EmptyString]> (tree w)
  | Err _ => tree w' = tree w
  end.
Proof.
  unfold CreateTemp. unfold mbind at 1, prog_bind at 1, get at 1. cbv zeta. set (name := path_join dir _).
  destruct (attempt_spec "createtemp" name w) as (w2 & err & Hrun & Ht & Hb). rewrite (bind_Done _ _ _ _ _ Hrun).
  destruct err as [err|]; [by eexists w2, _|]. destruct (node_at name w) as [n|] eqn:Hname; [by eexists w2, _|].
  apply node_at_none in Hname as [Hanc Hfree]. eexists _, (Ok name). split; [reflexivity|]. split; [done|].
  split; [done|]. split; [done|]. cbn. by rewrite Ht.
Qed.

(** What is left of the write probe: nothing, or the empty file when an error is reported. *)
Lemma check_directory_spec path description w : ∃ w' r, checkWritableDirectory path description w = (w', Done r) ∧
  bound w' = bound w ∧ (∀ q n, tree w !! q = Some n → tree w' !! q = Some n) ∧
  (r = None → only_new (λ _ n, n = Directory) w w').
Proof.
  unfold checkWritableDirectory. destruct (mkdir_loop_spec (ancestors path) w) as (w1 & made & Hrun & [Hk Hn Hb]).
  unfold MkdirAll. rewrite (bind_Done _ _ _ _ _ Hrun). destruct made as [err|]; [by eexists w1, _|].
  destruct (CreateTemp_spec path ".docker-zero-check-" w1) as (w3 & file & Hrun2 & Hb3 & Hfile). rewrite (bind_Done _ _ _ _ _ Hrun2).
  destruct file as [name|err]; [|by eexists w3, _; split; [done|]; rewrite Hb3, Hfile].
  destruct Hfile as (Hanc & Hfree & Ht3).
  destruct (attempt_spec "close" name w3) as (w4 & err & Hrun4 & Ht4 & Hb4). rewrite (bind_Done _ _ _ _ _ Hrun4).
  assert (tree w4 = <[clean_path name := Regular EmptyString]> (tree w1)) as Ht by congruence.
  assert (bound w4 = bound w) as Hb' by congruence.
  assert (∀ q n, tree w !! q = Some n → tree w4 !! q = Some n) as Hkeep.
  { intros q n Hq. rewrite Ht, lookup_insert_ne; [auto|]. intros <-. apply Hk in Hq. congruence. }
  destruct err as [err|]; [by eexists w4, _|].
  destruct (Remove_spec name w4) as (w5 & removed & Hrun5 & Hb5 & Hr). rewrite (bind_Done _ _ _ _ _ Hrun5).
  eexists w5, _. split; [done|]. split; [congruence|]. destruct removed as [| |err].
  - destruct Hr as [Ht5 _]. rewrite Ht, delete_insert_id in Ht5 by done. rewrite Ht5. split; [auto|]. intros _ q n. rewrite Ht5. apply Hn.
  - destruct Hr as [-> _]. by split.
  - rewrite Hr. by split.
Qed.

Lemma probe_loop_spec items opened w : list_to_set opened ⊆ bound w → ∃ w' r, probe_loop items opened w = (w', Done r) ∧
  tree w' = tree w ∧ bound w' = bound w ∖ list_to_set opened.
Proof.
  revert opened w. induction items as [|[name addr] items IH]; intros opened w Hsub; [by eexists _, _|].
  cbn [probe_loop]. unfold ListenTCP. unfold mbind at 1, prog_bind at 1. unfold mbind at 1, prog_bind at 1, get at 1.
  case_bool_decide as Hin; [by eexists _, _|].
  destruct (attempt_spec "listen" addr w) as (w1 & err & Hrun & Ht & Hb). rewrite (bind_Done _ _ _ _ _ Hrun).
  destruct err as [err|]; [eexists _, _; split; [reflexivity|]; cbn; by rewrite Ht, Hb|].
  unfold mbind at 1, prog_bind at 1, modify at 1, mret at 1, prog_ret at 1. cbv beta iota. set (w2 := fset bound _ w1).
  destruct (IH (opened ++ [addr]) w2) as (w' & r & Hloop & Ht' & Hb').
  { cbn. rewrite Hb, list_to_set_app_L. set_solver. }
  exists w', r. split; [done|]. rewrite Ht', Hb'. split; [done|]. cbn. rewrite Hb, list_to_set_app_L. set_solver.
Qed.

Lemma check_spec opts mode w : ∃ w' r, checkConfiguration opts mode w = (w', Done r) ∧
  bound w' = bound w ∧ spared (socketPath opts) w w' ∧ (r = None → only_new (λ _ n, n = Directory) w w').
Proof.
  unfold checkConfiguration. destruct (check_directory_spec (ledgerDir opts) "ledger directory" w) as (w1 & r1 & Hrun1 & Hb1 & Hk1 & Hn1).
  rewrite (bind_Done _ _ _ _ _ Hrun1). assert (spared (socketPath opts) w w1) as Hs1 by (intros q n Hq; left; auto).
  destruct r1 as [err|]; [by eexists w1, _|]. specialize (Hn1 eq_refl).
  destruct (check_socket_spec (socketPath opts) mode w1) as (w2 & r2 & Hrun2 & Hb2 & Hs2 & Hn2). rewrite (bind_Done _ _ _ _ _ Hrun2).
  assert (only_new (λ _ n, n = Directory) w w2) as Hn.
  { intros q n Hq. destruct (Hn2 q n Hq) as [Hq1|?]; auto. }
  pose proof (spared_trans _ _ _ _ Hs1 Hs2) as Hs. rewrite Hb1 in Hb2. destruct r2 as [err|]; [by eexists w2, _|].
  destruct (bootstrap opts); cbn [negb]; [|by eexists w2, None].
  match goal with |- context [probe_loop ?l []] =>
    destruct (probe_loop_spec l [] w2) as (w3 & r3 & Hrun3 & Ht3 & Hb3); [set_solver|]
  end.
  exists w3, r3. split; [done|]. split; [rewrite Hb3; set_solver|].
  split; [intros q n; rewrite Ht3; apply Hs|]. intros _ q n. rewrite Ht3. apply Hn.
Qed.
End host.

(** * The bootstrap *)

Section bootstrap.
Context {FS : FileSystem} {RO : RangeOrder} {UN : Unicode} {SK : Sockets} {CK : Clock}.

(** The identifiers that the default containers take are not in use. *)
Fixpoint bootstrap_fresh (cookbooks : gmap string Cookbook) (kinds : list string) (e : Engine) : Prop :=
  match kinds with
  | [] => True
  | kind :: kinds =>
    match cookbooks !! kind with
    | None => True
    | Some cb => containers e !! next_container_id (sName (Defaults cb)) e = None ∧
                 bootstrap_fresh cookbooks kinds (bootstrap_container cookbooks kind e).1
    end
  end.

(** The name that the default container of a cookbook gets. *)
Definition default_name (cb : Cookbook) : string := TrimPrefix (TrimSpace (sName (Defaults cb))) "/".

(** [e] has the registry of [e0]. *)
Definition settled (e0 e : Engine) : Prop := engine_ok e ∧ same_registry e0 e.

#[local] Instance settled_steady e0 : Steady (settled e0).
Proof.
  intros e e' Hs [He [Hr Ho]]. split; [by eapply steady_closed|]. destruct Hs as [Hf _].
  apply frames_same_registry in Hf as [Hr' Ho']. split; [congruence|]. intros q. by rewrite Ho', Ho.
Qed.

Lemma settled_trans e0 e1 e2 : settled e0 e1 → engine_ok e2 → same_registry e1 e2 → settled e0 e2.
Proof. intros [_ [Hr Ho]] He [Hr' Ho']. split; [done|]. split; [congruence|]. intros q. by rewrite Ho', Ho. Qed.

Lemma settled_configure e0 p mode aliases : keeps (settled e0) (configureContainerNetworks p mode aliases).
Proof.
  intros e He. eapply settled_trans; [done| |].
  - apply kept_network; [apply He|apply framing_configure|apply configure_nets].
  - apply frames_same_registry, framing_configure, frames_refl.
Qed.

Lemma settled_Start e0 now id : keeps (settled e0) (Start now id).
Proof.
  intros e He. destruct (runtimes e !! id) as [r|] eqn:Hid.
  - pose proof (kept_Start now id e (proj1 He)) as Hok. revert Hok.
    destruct (Start_spec now e id r (ok_runtimes e (proj1 He)) Hid) as (e' & err & -> & _ & Hsame & _). intros Hok.
    by eapply settled_trans.
  - unfold Start, mbind at 1, prog_bind at 1, get at 1. by rewrite Hid.
Qed.

Lemma settled_start_runtime e0 now p : keeps (settled e0) (startContainerRuntime now p).
Proof.
  apply keeps_reads. intros e He. destruct (runtimeClosing e); [done|].
  unfold mbind at 1, prog_bind at 1. rewrite deref_spec. destruct (heap e !! p) as [c|] eqn:Hc; [|done].
  unfold mbind at 1, prog_bind at 1.
  assert (keeps (settled e0) (err ← Start now (ID c);
    match err with Some err => mret (Some err) | None =>
      (if bool_decide (Kind c = "redis") then refreshRedisReplication now p;; refreshRedisDependents now p else mret ());;
      mret None end)) as Htail.
  { apply keeps_bind; [apply settled_Start|]. intros [err|]; [apply keeps_ret|]. apply keeps_bind; [|intros; apply keeps_ret].
    apply steady_if; [|apply keeps_ret]. apply keeps_bind; [apply steady_refresh|]. intros []. apply steady_dependents. }
  destruct (runtimes e !! ID c) as [r|] eqn:Hid; [by apply Htail|]. apply Htail.
  eapply settled_trans; [done| |done]. eapply engine_ok_runtimes; [apply He|done|]. apply runtimes_ok_new; [apply He|done|done].
Qed.

(** What a round does after the container is made. *)
Definition bootstrap_rest (kind : string) (d : ServiceDefaults) (p : ptr) : prog Engine (option string) :=
  on p (modify_this (setPortBindings (default_bindings d)));;
  connected ← configureContainerNetworks p "bridge" ∅;
  match connected with
  | Err err => mret (Some ("bootstrap " +:+ kind +:+ " network: " +:+ err))
  | Ok _ =>
    started ← on p (start (Now "main.go:162"));
    failed ← startContainerRuntime (Now "main.go:163") p;
    match failed with
    | Some err => mret (Some ("bootstrap " +:+ kind +:+ " runtime: " +:+ err))
    | None =>
      advance ← on p (advance (Now "main.go:168") "docker.start");
      logContainerEvent (Now "main.go:170") p "container.start.bootstrap"
        (advance <| aBefore := started.1 |>) AnyNil AnyNil;;
      mret None
    end
  end.

Lemma settled_rest e0 kind d p : keeps (settled e0) (bootstrap_rest kind d p).
Proof.
  unfold bootstrap_rest. apply keeps_bind; [by apply steady_set|]. intros []. apply keeps_bind; [apply settled_configure|].
  intros [[]|err]; [|apply keeps_ret]. apply keeps_bind; [apply steady_on; intros; apply same_start|]. intros started.
  apply keeps_bind; [apply settled_start_runtime|]. intros [err|]; [apply keeps_ret|].
  apply keeps_bind; [apply steady_on; intros; apply same_advance|]. intros adv.
  apply keeps_bind; [apply steady_event|]. intros []. apply keeps_ret.
Qed.

Lemma advances_rest kind d p : advances (bootstrap_rest kind d p).
Proof.
  unfold bootstrap_rest. apply advances_bind; [by apply (advances_op p 0%Z (OpSetPorts (default_bindings d)))|]. intros [].
  apply advances_bind; [apply advances_configure|]. intros [[]|err]; [|apply advances_ret].
  apply advances_bind; [apply advances_start|]. intros started.
  apply advances_bind; [apply advances_start_runtime|]. intros [err|]; [apply advances_ret|].
  apply advances_bind; [apply advances_advance|]. intros adv.
  apply advances_bind; [apply advances_event|]. intros []. apply advances_ret.
Qed.

Lemma chosen_default cb e : let '(nm, e1) := chosen_name (sName (Defaults cb)) e in
  (default_name cb ≠ EmptyString → nm = default_name cb) ∧ names e1 = names e.
Proof. unfold chosen_name. fold (default_name cb). by case_bool_decide. Qed.

(** One round: engine steps, the names of before, and the default name. *)
Lemma bootstrap_container_spec cookbooks kind cb e : engine_ok e → cookbooks !! kind = Some cb →
  containers e !! next_container_id (sName (Defaults cb)) e = None →
  let '(e', o) := bootstrap_container cookbooks kind e in
  rtc engine_step e e' ∧ engine_ok e' ∧ names e ⊆ names e' ∧
  (o = Done None → default_name cb ≠ EmptyString → is_Some (names e' !! default_name cb)).
Proof.
  intros He Hcb Hid. unfold bootstrap_container. rewrite Hcb. cbv zeta.
  set (m := createContainer _ _ _ _ _ _).
  assert (rtc engine_step e (m e).1) as Hstep by by apply rtc_once, step_create.
  assert (engine_ok (m e).1) as Hok by by apply kept_create.
  pose proof (createContainer_spec (Now "main.go:148") (sName (Defaults cb)) (sImage (Defaults cb))
    {["docker-zero.bootstrap" := "true"]} [] [] e (ok_registry e He) Hid) as Hspec. fold m in Hspec.
  pose proof (chosen_default cb e) as Hnm. destruct (chosen_name (sName (Defaults cb)) e) as [nm e0].
  unfold mbind at 1, prog_bind at 1.
  destruct (m e) as [e1 [[p|err]|msg|]]; [|destruct Hspec as [-> _]; destruct Hnm as [_ Hn]; split_and!; [done..|change (names e ⊆ names e0); by rewrite Hn|done]|done..].
  destruct Hspec as (cb' & sd & _ & Hfree & _ & Hwith). destruct Hwith as (_ & _ & _ & _ & Hnames & _).
  change (Name (created _ _ nm _ _ _ _ _ _)) with nm in Hnames.
  match goal with |- let '(_, _) := ?rest e1 in _ => change (rest e1) with (bootstrap_rest kind (Defaults cb) p e1) end.
  pose proof (advances_rest kind (Defaults cb) p e1) as Hsteps.
  assert (settled e1 e1) as Hset by (split; [done|]; split; [done|apply same_objects_refl]).
  apply (settled_rest e1 kind (Defaults cb) p) in Hset. destruct (bootstrap_rest _ _ _ e1) as [e' o].
  cbn [fst] in *. destruct Hset as [He' [[= _ Hn] _]]. split; [by etrans|]. split; [done|]. rewrite Hn, Hnames.
  split; [by apply insert_subseteq|]. intros _ Hne. rewrite <-(proj1 Hnm Hne), lookup_insert_eq. by eexists.
Qed.

Lemma bootstrap_loop_spec cookbooks kinds e : engine_ok e → bootstrap_fresh cookbooks kinds e →
  let '(e', o) := bootstrap_loop cookbooks kinds e in
  rtc engine_step e e' ∧ engine_ok e' ∧ names e ⊆ names e' ∧
  (o = Done None → ∀ kind cb, kind ∈ kinds → cookbooks !! kind = Some cb → default_name cb ≠ EmptyString →
     is_Some (names e' !! default_name cb)).
Proof.
  revert e. induction kinds as [|kind kinds IH]; intros e He Hfresh; cbn [bootstrap_loop].
  { split; [done|]. split; [done|]. split; [done|]. by intros _ kind cb ?%elem_of_nil. }
  cbn [bootstrap_fresh] in Hfresh. destruct (cookbooks !! kind) as [cb|] eqn:Hcb.
  2: { unfold mbind, prog_bind, bootstrap_container. rewrite Hcb. by split_and!. }
  destruct Hfresh as [Hid Hfresh]. pose proof (bootstrap_container_spec cookbooks kind cb e He Hcb Hid) as Hone.
  unfold mbind, prog_bind. destruct (bootstrap_container cookbooks kind e) as [e1 [[err|]|msg|]];
    destruct Hone as (Hsteps & He1 & Hsub & Hname); [by split_and!| |by split_and!..].
  specialize (IH e1 He1 Hfresh). destruct (bootstrap_loop cookbooks kinds e1) as [e' o].
  destruct IH as (Hsteps' & He' & Hsub' & Hnames). split; [by etrans|]. split; [done|]. split; [by etrans|].
  intros Ho kind' cb' Hin Hcb' Hne. apply elem_of_cons in Hin as [->|Hin]; [|by eapply Hnames].
  rewrite Hcb in Hcb'. injection Hcb' as <-. destruct (Hname eq_refl Hne) as [id Hlk]. exists id.
  by eapply lookup_weaken.
Qed.
End bootstrap.

(** * Theorems *)

Section theorems.
Context {HO : Host} {FS : FileSystem} {RO : RangeOrder} {UN : Unicode} {SK : Sockets} {CK : Clock}.

(** ** Output leaves the tree and the addresses alone *)

Definition prints (m : prog World ()) : Prop := ∀ w, ∃ w', m w = (w', Done ()) ∧ same_place w w'.

Lemma prints_bind (m : prog World ()) (f : () → prog World ()) : prints m → (∀ u, prints (f u)) → prints (m ≫= f).
Proof.
  intros Hm Hf w. destruct (Hm w) as (w1 & Hrun & Ht & Hb). rewrite (bind_Done _ _ _ _ _ Hrun).
  destruct (Hf () w1) as (w2 & Hrun2 & Ht2 & Hb2). exists w2. split; [done|]. split; congruence.
Qed.
Lemma prints_line text : prints (print_line text).
Proof. intros w. by eexists. Qed.
Lemma prints_if b text : prints (print_if b text).
Proof. destruct b; [apply prints_line|]. intros w. by eexists. Qed.
Lemma prints_failure category err : prints (print_failure category err).
Proof. intros w. by eexists. Qed.
#[local] Hint Resolve prints_bind prints_line prints_if prints_failure : dzero.

Lemma prints_check_summary opts overrides mode perm : prints (printCheckSummary opts overrides mode perm).
Proof. unfold printCheckSummary. repeat (apply prints_bind; [auto with dzero|intros []]). auto with dzero. Qed.
Lemma prints_startup_summary opts overrides mode l : prints (printStartupSummary opts overrides mode l).
Proof. unfold printStartupSummary. repeat (apply prints_bind; [auto with dzero|intros []]). auto with dzero. Qed.

(** ** The Docker socket *)

(** C14: making the Docker socket is safe: it always comes to an end, and whatever
    happens, every file, directory and live socket is still there; at most a stale
    socket at the path itself is removed.  It adds missing directories and, when it
    succeeds, a listening socket with the wanted permissions at a path where nothing
    or only a stale socket was; when it fails it adds nothing but directories. *)
Theorem docker_socket_safe path mode w :
  ∃ w' r, listenUnixSocket path mode w = (w', Done r) ∧ bound w' = bound w ∧ spared path w w' ∧
    match r with
    | None => vacant path w ∧ tree w' !! clean_path path = Some (SocketNode true mode) ∧
              only_new (λ q n, n = Directory ∨ q = clean_path path) w w'
    | Some _ => only_new (λ _ n, n = Directory) w w'
    end.
Proof.
  destruct (listen_spec path mode w) as (w' & r & Hrun & [Hb Hs Hn Hr]). exists w', r. do 3 (split; [done|]).
  destruct r as [err|].
  - intros q n Hq. destruct (Hn q n Hq) as [?|[?|[? _]]]; auto. done.
  - destruct (Hr eq_refl) as (_ & Hv & Hnode). do 2 (split; [done|]).
    intros q n Hq. destruct (Hn q n Hq) as [?|[?|(_ & ? & _)]]; auto.
Qed.

(** ** Checking and refusing *)

(** The way a run ends that does not serve. *)
Definition harmless (path : string) (w w' : World) (code : Z) : Prop :=
  (code = exitOK ∨ code = exitConfig) ∧ bound w' = bound w ∧ spared path w w' ∧
  (code = exitOK → only_new (λ _ n, n = Directory) w w').

Lemma harmless_refuse path category err w w1 : bound w1 = bound w → spared path w w1 →
  ∃ w' code, refuse category err w1 = (w', Done (Exited code)) ∧ harmless path w w' code.
Proof.
  intros Hb Hs. unfold refuse. destruct (prints_failure category err w1) as (w2 & Hrun & Ht2 & Hb2).
  rewrite (bind_Done _ _ _ _ _ Hrun). exists w2, exitConfig. split; [done|]. split; [by right|]. split; [congruence|].
  split; [|done]. intros q n. rewrite Ht2. apply Hs.
Qed.

Lemma harmless_exit path (m : prog World ()) w w1 : prints m → bound w1 = bound w → spared path w w1 →
  only_new (λ _ n, n = Directory) w w1 →
  ∃ w' code, (m;; mret (Exited exitOK)) w1 = (w', Done (Exited code)) ∧ harmless path w w' code.
Proof.
  intros Hm Hb Hs Hn. destruct (Hm w1) as (w2 & Hrun & Ht2 & Hb2). rewrite (bind_Done _ _ _ _ _ Hrun).
  exists w2, exitOK. split; [done|]. split; [by left|]. split; [congruence|].
  split; [intros q n; rewrite Ht2; apply Hs|]. intros _ q n. rewrite Ht2. apply Hn.
Qed.

Lemma paths_spec socketPath ledgerDir w : ∃ w' r, validatePathArguments socketPath ledgerDir w = (w', Done r) ∧ same_place w w'.
Proof.
  unfold validatePathArguments. destruct (path_texts _ _); [by eexists _, _|].
  destruct (Stat_spec ledgerDir w) as (w1 & info & Hrun & Hsame & _). rewrite (bind_Done _ _ _ _ _ Hrun). by eexists w1, _.
Qed.

(** C21: [--check] and [--version] are harmless: whatever the other arguments, the
    cookbooks and the state of the machine are, the program comes to an end with
    exit code 0 or 2; no address stays bound, nothing is removed from the file
    system but a stale socket at the socket path, and after a check that succeeds
    nothing is new there but directories. *)
Theorem check_is_harmless {JE : JsonErrors} {FI : Files} args err opts w :
  parseOptions args (stderr w) = (err, Ok opts) → oCheck opts || showVersion opts = true →
  ∃ w' code, run args w = (w', Done (Exited code)) ∧ harmless (socketPath opts) w w' code.
Proof.
  intros Hopts Hcheck. unfold run. unfold mbind at 1, prog_bind at 1, get at 1. rewrite Hopts.
  unfold mbind at 1, prog_bind at 1, modify at 1. set (w1 := fset stderr _ w).
  assert (bound w1 = bound w ∧ spared (socketPath opts) w w1 ∧ only_new (λ _ n, n = Directory) w w1) as (Hb1 & Hs1 & Hn1).
  { split; [done|]. split; intros q n; auto. }
  destruct (showVersion opts); [by apply harmless_exit; [apply prints_line|..]|].
  rewrite orb_false_r in Hcheck.
  destruct (normalizeEndpointMode _) as [mode|e]; [|by apply harmless_refuse].
  destruct (parseScenarioOverrides _) as [overrides|e]; [|by apply harmless_refuse].
  destruct (loadCookbooks_spec (cookbookDir opts)) as (loaded & Hload & _).
  unfold mbind at 1, prog_bind at 1, of_outcome at 1. rewrite Hload.
  destruct loaded as [cookbooks|e]; [|by apply harmless_refuse].
  destruct (applyListenAddresses _ _ _) as [cookbooks' [e|]]; [by apply harmless_refuse|].
  destruct (validateScenarioOverrides _ _) as [e|]; [by apply harmless_refuse|].
  destruct (parseSocketMode _) as [perm|e]; [|by apply harmless_refuse].
  destruct (paths_spec (socketPath opts) (ledgerDir opts) w1) as (w2 & paths & Hrun & Ht2 & Hb2). rewrite (bind_Done _ _ _ _ _ Hrun).
  assert (bound w2 = bound w ∧ spared (socketPath opts) w w2 ∧ only_new (λ _ n, n = Directory) w w2) as (Hb & Hs & Hn).
  { split; [congruence|]. split; intros q n; rewrite Ht2; [apply Hs1|apply Hn1]. }
  destruct paths as [e|]; [by apply harmless_refuse|]. rewrite Hcheck.
  destruct (check_spec opts perm w2) as (w3 & checked & Hrun3 & Hb3 & Hs3 & Hn3). rewrite (bind_Done _ _ _ _ _ Hrun3).
  rewrite Hb in Hb3. pose proof (spared_trans _ _ _ _ Hs Hs3) as Hs'.
  destruct checked as [e|]; [by apply harmless_refuse|]. apply harmless_exit; [apply prints_check_summary|done..|].
  intros q n Hq. destruct (Hn3 eq_refl q n Hq) as [Hq2|?]; auto.
Qed.

(** ** Serving *)

(** The engine of [serve] before the bootstrap. *)
Definition initial_engine (opts : options) (cookbooks : gmap string Cookbook) (overrides : gmap string Z) (mode : string)
    (l : Ledger) : Engine :=
  (newEngine (Now "engine_core.go:69") (Now "engine_core.go:81") cookbooks (oSeed opts) overrides l) <| endpointMode := mode |>.

(** What [serve] has done when it begins to wait. *)
Record serves (opts : options) (cookbooks : gmap string Cookbook) (overrides : gmap string Z) (perm : Z) (w : World)
    (e : Engine) : Prop := {
  serves_reachable : ∃ l, rtc engine_step (newEngine (Now "engine_core.go:69") (Now "engine_core.go:81") cookbooks (oSeed opts) overrides l) e;
  serves_ok : engine_ok e;
  serves_socket : tree w !! clean_path (socketPath opts) = Some (SocketNode true perm);
  serves_defaults : bootstrap opts = true → ∀ kind cb, cookbooks !! kind = Some cb → default_name cb ≠ EmptyString →
    is_Some (names e !! default_name cb)
}.

(** The identifiers that the bootstrap draws are free, whatever the ledger is. *)
Definition bootstrap_free (opts : options) (cookbooks : gmap string Cookbook) (overrides : gmap string Z) (mode : string) : Prop :=
  bootstrap opts = true →
  ∀ l, bootstrap_fresh cookbooks (sortedCookbookKinds cookbooks) (initial_engine opts cookbooks overrides mode l).

Lemma serve_startup_serves opts cookbooks overrides mode perm w w' e :
  serve_startup opts cookbooks overrides mode perm w = (w', Done (Serving e)) →
  bootstrap_free opts cookbooks overrides mode → serves opts cookbooks overrides perm w' e.
Proof.
  intros Hrun Hfresh. unfold serve_startup in Hrun. unfold mbind at 1, prog_bind at 1 in Hrun.
  destruct (make_ledger _ _ _ w) as [w1 [[l|err]|msg|]]; [|done..].
  cbv zeta in Hrun. fold (initial_engine opts cookbooks overrides mode l) in Hrun.
  unfold mbind at 1, prog_bind at 1, with_engine at 1 in Hrun.
  set (boot := if bootstrap opts then _ else _) in Hrun. set (e0 := initial_engine _ _ _ _ _) in *.
  assert (let '(e1, o) := boot e0 in rtc engine_step e0 e1 ∧ engine_ok e1 ∧
    (o = Done None → bootstrap opts = true → ∀ kind cb, cookbooks !! kind = Some cb → default_name cb ≠ EmptyString →
       is_Some (names e1 !! default_name cb))) as Hboot.
  { assert (engine_ok e0) as He0 by (eapply engine_step_ok; [apply newEngine_ok|apply step_mode]).
    unfold boot. destruct (bootstrap opts) eqn:Hb; [|by split_and!].
    pose proof (bootstrap_loop_spec cookbooks (sortedCookbookKinds cookbooks) e0 He0 (Hfresh Hb l)) as Hloop.
    destruct (bootstrap_loop _ _ e0) as [e1 o]. destruct Hloop as (? & ? & _ & Hnames). do 2 (split; [done|]).
    intros Ho _ kind cb Hcb. apply (Hnames Ho kind cb); [|done]. by apply elem_of_sortedCookbookKinds. }
  destruct (boot e0) as [e1 [failed|msg|]]; [|done..]. destruct Hboot as (Hsteps & Hok & Hnames).
  destruct failed as [err|]; [done|]. unfold mbind at 1, prog_bind at 1 in Hrun.
  destruct (listen_spec (socketPath opts) perm w1) as (w2 & r & Hlisten & Hat). rewrite Hlisten in Hrun.
  destruct r as [err|].
  { unfold mbind at 1, prog_bind at 1, with_engine at 1 in Hrun. by destruct (closeRuntimes e1) as [e2 [a|msg|]]. }
  destruct (prints_startup_summary opts overrides mode l w2) as (w3 & Hprint & Ht3 & _).
  rewrite (bind_Done _ _ _ _ _ Hprint) in Hrun. injection Hrun as <- <-.
  destruct (at_node _ _ _ _ _ Hat eq_refl) as (_ & _ & Hnode). split; [|done|by rewrite Ht3|by apply Hnames].
  exists l. by eapply rtc_l; [apply step_mode|].
Qed.

(** C4: whenever the program comes to serve, its arguments were accepted and are not a
    check, the cookbooks it serves are those of a load that succeeded (every one of
    them well-formed), with the listen addresses of the arguments, and the scenario
    overrides fit them.  The engine it serves with is then one that the operations
    can reach from the new engine over these cookbooks, so that everything proved of
    reachable engines holds of it from the first request on; the Docker socket is
    there with the wanted permissions; and after a bootstrap the default container of
    every cookbook is registered under its name. *)
Theorem program_serves {JE : JsonErrors} {FI : Files} args w w' e :
  run args w = (w', Done (Serving e)) →
  ∃ opts mode overrides loaded cookbooks perm,
    (parseOptions args (stderr w)).2 = Ok opts ∧ oCheck opts || showVersion opts = false ∧
    normalizeEndpointMode (containerEndpoints opts) = Ok mode ∧
    parseScenarioOverrides (scenarioFlag opts) = Ok overrides ∧
    loadCookbooks (cookbookDir opts) = Done (inl loaded) ∧ served_set loaded ∧
    applyListenAddresses loaded (nginxAddr opts) (redisAddr opts) = (cookbooks, None) ∧
    validateScenarioOverrides cookbooks overrides = None ∧ parseSocketMode (oSocketMode opts) = Ok perm ∧
    (bootstrap_free opts cookbooks overrides mode → serves opts cookbooks overrides perm w' e).
Proof.
  unfold run. unfold mbind at 1, prog_bind at 1, get at 1. destruct (parseOptions _ _) as [err [opts|?]]; [|done].
  unfold mbind at 1, prog_bind at 1, modify at 1. destruct (showVersion opts) eqn:Hversion; [done|].
  destruct (normalizeEndpointMode _) as [mode|?] eqn:Hmode; [|done].
  destruct (parseScenarioOverrides _) as [overrides|?] eqn:Hoverrides; [|done].
  destruct (loadCookbooks_spec (cookbookDir opts)) as (r & Hload & Hset).
  unfold mbind at 1, prog_bind at 1, of_outcome at 1. rewrite Hload. destruct r as [loaded|?]; [|done].
  destruct (applyListenAddresses _ _ _) as [cookbooks [?|]] eqn:Happly; [done|].
  destruct (validateScenarioOverrides _ _) eqn:Hvalid; [done|].
  destruct (parseSocketMode _) as [perm|?] eqn:Hperm; [|done].
  set (w1 := fset stderr _ w).
  destruct (paths_spec (socketPath opts) (ledgerDir opts) w1) as (w2 & paths & Hpaths & _). rewrite (bind_Done _ _ _ _ _ Hpaths).
  destruct paths as [?|]; [done|]. destruct (oCheck opts) eqn:Hcheck.
  { destruct (check_spec opts perm w2) as (w3 & checked & Hrun & _). rewrite (bind_Done _ _ _ _ _ Hrun).
    destruct checked; [done|]. destruct (prints_check_summary opts overrides mode perm w3) as (w4 & Hprint & _).
    by rewrite (bind_Done _ _ _ _ _ Hprint). }
  intros Hserve. exists opts, mode, overrides, loaded, cookbooks, perm.
  rewrite Hcheck, Hversion. split_and!; try done; [by apply Hset|]. by eapply serve_startup_serves.
Qed.

(** ** The end *)

Lemma stop_each_spec ids first e : runtimes_ok e → (∀ id, id ∈ ids → is_Some (runtimes e !! id)) →
  ∃ e' r, stop_each ids first e = (e', Done r) ∧ runtimes_ok e' ∧ (ledger e', runtimeClosing e') = (ledger e, runtimeClosing e) ∧
    ∀ id r, runtimes e' !! id = Some r → listeners r = [] ∨ id ∉ ids ∧ runtimes e !! id = Some r.
Proof.
  revert first e. induction ids as [|id ids IH]; intros first e He Hids.
  { exists e, first. split_and!; try done. intros id r Hr. right. split; [apply not_elem_of_nil|done]. }
  destruct (Hids id) as [r Hr]; [left|]. cbn [stop_each].
  destruct (Stop_spec e id r He Hr) as (e1 & err & r' & Hstop & He1 & _ & Hrt & Hnone & _).
  assert ((ledger e1, runtimeClosing e1) = (ledger e, runtimeClosing e)) as Hl.
  { revert Hstop. unfold Stop. unfold mbind at 1, prog_bind at 1, get at 1. rewrite Hr.
    destruct (_ && _ && _); by intros [= <- _]. }
  rewrite (bind_Done _ _ _ _ _ Hstop).
  destruct (IH (match first with None => err | Some _ => first end) e1 He1) as (e' & res & Hrun & He' & Hl' & Hall).
  { intros k Hk. rewrite Hrt. destruct (decide (k = id)) as [->|Hne]; [rewrite lookup_insert_eq; by eexists|].
    rewrite lookup_insert_ne by done. apply Hids. by right. }
  exists e', res. split; [done|]. split; [done|]. split; [congruence|].
  intros k rk Hk. destruct (Hall k rk Hk) as [?|[Hnot Hk1]]; [by left|]. rewrite Hrt in Hk1.
  apply lookup_insert_Some in Hk1 as [[_ <-]|[Hne Hk1]]; [by left|]. right. split; [|done]. set_solver.
Qed.

Lemma closeRuntimes_spec e : runtimes_ok e → ∃ e' r, closeRuntimes e = (e', Done r) ∧ sockets e' = ∅ ∧
  ledger e' = ledger e ∧ runtimeClosing e' = true.
Proof.
  intros He. unfold closeRuntimes. unfold mbind at 1, prog_bind at 1, modify at 1.
  unfold mbind at 1, prog_bind at 1, get at 1. set (e1 := fset runtimeClosing _ e).
  assert (runtimes_ok e1) as He1 by by destruct He; split.
  assert (∀ id, id ∈ (range "service_runtime.go:471" (runtimes e1)).*1 ↔ is_Some (runtimes e1 !! id)) as Hin.
  { intros id. rewrite range_perm, list_elem_of_fmap. split.
    - intros ([k r] & -> & Hk%elem_of_map_to_list). by eexists.
    - intros [r Hk]. exists (id, r). by rewrite elem_of_map_to_list. }
  destruct (stop_each_spec _ None e1 He1 (λ id, proj1 (Hin id))) as (e' & r & Hrun & He' & [= Hl Hc] & Hall).
  exists e', r. split; [done|]. split; [|by split].
  apply set_eq. intros n. split; [|set_solver]. intros (id & rt & Hid & Hn)%(rt_open e' He').
  destruct (Hall id rt Hid) as [Hnone|[Hnot Hid1]]; [by rewrite Hnone, elem_of_nil in Hn|].
  destruct Hnot. apply Hin. by eexists.
Qed.

Lemma closed_close_file l first path : closed (close_file (l, first) path).1 = closed l.
Proof. done. Qed.

Lemma Close_closed l : closed (Close l).1 = true.
Proof.
  unfold Close. destruct (closed l) eqn:Hc; [done|].
  assert (∀ paths st, closed st.1 = true → closed (foldl close_file st paths).1 = true) as Hfold.
  { induction paths as [|path paths IH]; intros st Hst; [done|]. apply IH. by destruct st. }
  specialize (Hfold (range "ledger.go:163" (files (l <| closed := true |>))).*2 (l <| closed := true |>, firstErr (l <| closed := true |>)) eq_refl).
  destruct (foldl close_file _ _) as [l1 first]. cbn [fst] in Hfold.
  destruct (global l1) as [path|]; cbn [close_file]; cbv zeta beta iota; [set (l2 := tick l1)|set (l2 := l1)].
  all: assert (closed l2 = true) as Hl2 by done; clearbody l2;
    destruct (firstErr l2); [done|]; match goal with |- context [match ?m with Some _ => _ | None => _ end] => destruct m end; done.
Qed.

End theorems.

(** * Examples *)

Section examples.
#[local] Existing Instances fs_good range_forward unicode_none clock_zero errors_plain.

(** No directory but the embedded one can be read. *)
#[local] Instance files_none : Files :=
  {| Abs := Ok; DirFS := λ _, mkSource (Err "file does not exist") (λ _, Err "file does not exist") |}.

(** Every address can be listened on. *)
#[local] Instance sockets_all : Sockets := {| listen := λ _ addr, Ok addr; drained := λ _ _, true |}.

(** A machine on which nothing fails, with a stale Docker socket. *)
#[local] Instance host_good : Host := {| fails := λ _ _ _, None; temporary := λ n, Itoa (Z.of_nat n) |}.
Definition stale_world : World :=
  mkWorld {["/tmp" := Directory; "/tmp/docker-zero.sock" := SocketNode false 493]} ∅ 0 EmptyString EmptyString.
Definition sample_cookbooks : gmap string Cookbook :=
  {["nginx" := sample_cookbook "nginx"; "redis" := sample_cookbook "redis"]}.
Definition check_arguments : list string := ["--check"; "--bootstrap"].

Definition check_options : options := default_options <| oCheck := true |> <| bootstrap := true |>.

Lemma check_arguments_parse : parseOptions check_arguments (stderr stale_world) = (EmptyString, Ok check_options).
Proof. by vm_compute. Qed.

(** What the check of the example leaves. *)
Definition check_outcome (r : World * outcome started) : bool :=
  match r with
  | (w', Done (Exited code)) =>
    bool_decide (code = exitOK) && bool_decide (tree w' !! "/tmp/docker-zero.sock" = None)
    && bool_decide (tree w' !! "runs" = Some Directory)
  | _ => false
  end.

Lemma check_is_harmless_witness :
  let r := run check_arguments stale_world in
  check_outcome r = true ∧ bound r.1 = ∅.
Proof.
  split; [by vm_compute|].
  destruct (check_is_harmless check_arguments EmptyString check_options stale_world
    check_arguments_parse eq_refl) as (w' & code & Hrun & _ & Hbound & _).
  rewrite Hrun. exact Hbound.
Defined.

Definition boot_options : options := default_options <| bootstrap := true |>.
Definition embedded : gmap string Cookbook :=
  match loadCookbooks EmptyString with Done (inl cookbooks) => cookbooks | _ => ∅ end.
Definition is_serving (r : World * outcome started) : bool :=
  match r with (_, Done (Serving _)) => true | _ => false end.

Lemma is_serving_spec r : is_serving r = true → ∃ w e, r = (w, Done (Serving e)).
Proof. destruct r as [w [[code|e]|msg|]]; [done|by exists w, e|done..]. Qed.

Lemma boot_serves : ∃ w e, run ["--bootstrap"] stale_world = (w, Done (Serving e)).
Proof. apply is_serving_spec. by vm_compute. Qed.

Lemma boot_free : bootstrap_free boot_options embedded ∅ "auto".
Proof. intros _ l. vm_compute. done. Qed.

(** What the arguments mean. *)
Definition boot_reading : Prop :=
  (parseOptions ["--bootstrap"] (stderr stale_world)).2 = Ok boot_options ∧
  normalizeEndpointMode (containerEndpoints boot_options) = Ok "auto" ∧
  parseScenarioOverrides (scenarioFlag boot_options) = Ok ∅ ∧
  loadCookbooks (cookbookDir boot_options) = Done (inl embedded) ∧
  applyListenAddresses embedded (nginxAddr boot_options) (redisAddr boot_options) = (embedded, None) ∧
  parseSocketMode (oSocketMode boot_options) = Ok 432%Z.
Lemma boot_reads : boot_reading.
Proof. vm_compute. repeat split. Qed.

Lemma load_inj {A B} (x y : A) : Done (inl x : A + B) = Done (inl y) → x = y.
Proof. by intros [= ?]. Qed.
Lemma ok_inj {A} (x y : A) : Ok x = Ok y → x = y.
Proof. by intros [= ?]. Qed.
Lemma first_inj {A B} (x x' : A) (y y' : B) : (x, y) = (x', y') → x = x'.
Proof. by intros [= ?]. Qed.

(** The default container of an embedded cookbook. *)
Definition embedded_default (kind name : string) : Prop :=
  match embedded !! kind with Some cb => default_name cb = name | None => False end.
Lemma nginx_default : embedded_default "nginx" "nginx-zero".
Proof. by vm_compute. Qed.
Lemma redis_default : embedded_default "redis" "redis-zero".
Proof. by vm_compute. Qed.

Lemma default_registered kind name e : embedded_default kind name → name ≠ EmptyString →
  (∀ kind cb, embedded !! kind = Some cb → default_name cb ≠ EmptyString → is_Some (names e !! default_name cb)) →
  is_Some (names e !! name).
Proof.
  unfold embedded_default. intros Hname Hne Hall. specialize (Hall kind).
  destruct (embedded !! kind) as [cb|]; [|done]. subst name. by apply Hall.
Qed.

Lemma program_serves_witness :
  ∃ w' e, run ["--bootstrap"] stale_world = (w', Done (Serving e)) ∧ engine_ok e ∧
    tree w' !! "/tmp/docker-zero.sock" = Some (SocketNode true 432) ∧
    is_Some (names e !! "nginx-zero") ∧ is_Some (names e !! "redis-zero").
Proof.
  destruct boot_serves as (w' & e & Hboot). exists w', e. split; [exact Hboot|].
  destruct (program_serves ["--bootstrap"] stale_world w' e Hboot)
    as (opts & mode & overrides & loaded & cookbooks & perm & Hopts & _ & Hmode & Hover & Hload & _ & Happly & _ & Hperm & Hall).
  destruct boot_reads as (Hopts' & Hmode' & Hover' & Hload' & Happly' & Hperm').
  rewrite Hopts' in Hopts. apply ok_inj in Hopts as <-. rewrite Hmode' in Hmode. apply ok_inj in Hmode as <-.
  rewrite Hover' in Hover. apply ok_inj in Hover as <-. rewrite Hload' in Hload. apply load_inj in Hload as <-.
  rewrite Happly' in Happly. apply first_inj in Happly as <-. rewrite Hperm' in Hperm. apply ok_inj in Hperm as <-.
  destruct (Hall boot_free) as [_ Hok Hnode Hnames]. specialize (Hnames eq_refl).
  split; [exact Hok|]. split; [exact Hnode|].
  split; [apply (default_registered "nginx" _ e nginx_default)|apply (default_registered "redis" _ e redis_default)];
    [discriminate|exact Hnames|discriminate|exact Hnames].
Defined.

End examples.
